(* ===== verification/_CoqProject ===== *)
-Q . S2P
Prelude.v
PyStr.v
PyDict.v
PyFloat.v
PyJson.v
PyJsonText.v
PyHash.v
FnMatch.v
Capability.v
Policy.v
PolicyFacts.v
KernelState.v
KernelOps.v
KernelRouting.v
KernelLoops.v
KernelSteps.v
KernelLedger.v
KernelReplay.v
KernelBudget.v
KernelTypes.v
KernelTotal.v
KernelFacts.v
KernelEdges.v
KernelGovern.v
KernelDivergence.v
KernelProperties.v
PolicyProperties.v
IpAddress.v
IpFacts.v
RateKeys.v
RateLimiter.v
RateProperties.v
Safety.v
SimSteps.v
StepReader.v
Simulation.v
SimulationRun.v
SimulationFacts.v
SimulationTidy.v
SimulationProperties.v
ProposalTypes.v
Proposals.v
ProposalProperties.v
Protocols.v
ProtocolFacts.v
Scenarios.v
Registry.v
ProtocolProperties.v
Templates.v
Suites.v
SuiteFacts.v
SuiteProperties.v
Primitives.v
EvolutionSpec.v
Evolution.v
EvolutionProperties.v
AgentAccess.v
AgentAccessProperties.v
Urls.v
SafeHttp.v
SafeHttpFacts.v
SafeHttpProperties.v
Idempotency.v
IdempotencyProperties.v
AccountTrials.v
AccountTrialProperties.v
Cron.v
WritePrefix.v
ScopePolicy.v
Grants.v
GrantTokens.v
GrantService.v
GrantFacts.v
GrantTokenFacts.v
GrantMachine.v
GrantProperties.v
Dag.v
DagFacts.v
DagProperties.v
