(* ===== verification/Prelude.v ===== *)
(** * A verification of the decision logic of a2a-cloud

    The repository is an agent platform: a FastAPI control plane
    (control-plane/), an SDK for agents (sdk/a2a-pack/), agent applications
    (apps/) and a web front end.  Most of it is I/O around a database, a
    cluster and HTTP clients.  This development models the parts that decide:
    who may do what, when, and how often.

    ** The parts

    The graph kernel (control-plane/control_plane/graph_kernel/state.py) is an
    event-sourced state machine: a method of [GraphSimState] checks its guards
    and records events, and the reducer [apply_event] folds each event into the
    state.  Capabilities authorize, edges connect ports, processes carry
    budgets, signals rank routes, rewrites and deletions are gated.
    - [Capability]: the class of that name, and the order on patterns.
    - [Policy]: the rules, the decision part of [check_policy_stack], and
      graph_kernel/policy.py: the signed decision envelope.
    - [KernelState]: the events, the state as a record of [dict]s and sets, one
      [apply_*] definition per branch of [apply_event], [_record], [replay].
    - [KernelOps], [KernelRouting], [KernelLoops]: one definition per public
      method, in the order of the code, in the state and exception monad [ST].
      [KernelLoops.op] and [run_ops] are the sequences of calls a client makes;
      its last part is the redacted export and [summary].
    A custom simulation is a specification in JSON that a user sends
    (graph_kernel/simulation.py): it builds a graph, takes typed steps over the
    kernel and checks invariants.  [Safety]: graph_kernel/safety.py and the
    check of payloads for active mutation.  [SimSteps]: the step classes of
    steps.py, the payloads of traces.py and the summary of protocols.py.  [Simulation]: reading a specification and one step.
    [SimulationRun]: invariants and the whole run.
    What a simulation suggests becomes a proposal (graph_kernel/proposals.py):
    [ProposalTypes] has its models and the bounds of a proposed manifest,
    [Proposals] the gates of [evaluate_self_improvement_proposal] and the six
    emergent operations, which check their own conditions and hand the rest to
    those gates.
    [StepReader] reads rows whose fields have the declared types, as the classes
    of steps.py say; a validator is [faithful] when it agrees there.
    [Templates] (templates.py) has the shipped simulations and checks them by
    running them; [Suites] (suites.py) runs lists of simulations and counts
    their events into a scoreboard.  [Protocols] (protocols.py) has the payload
    classes of a protocol pack, [Scenarios] (scenarios.py) the fifteen scripts
    over [GraphSimState] that prove its invariants, and [Registry] (registry.py)
    the signed rows that publish it, over the interface [RegistryTable] of the
    database.  [Primitives] (primitives.py) is the vocabulary of drafts:
    lineage, fitness, rollback, gates.  Evolution (evolution.py) mutates a
    specification or arranges a population ([EvolutionSpec]), runs each variant as a simulation and makes a disabled
    draft of the winner ([Evolution]).
    The others: control_plane/cron.py in [Cron]; main_agent/scope_policy.py in
    [ScopePolicy]; a2a_pack/dag.py of the SDK in [Dag];
    control_plane/rate_limit.py in [RateKeys] (the policy tables, and whom a
    request is counted under) and [RateLimiter] (counters, breaker and
    request hook, over the interface [Backend] with a process-local and a Redis
    instance).

    Around them, in the control plane: [AgentAccess] (agent_authorization.py)
    decides who discovers, calls, forks and edits an agent and who reads the
    evidence of its calls.  [Idempotency] (idempotency.py, with the route of
    routes/bounties.py that uses it) answers a request again from the record of
    its key, and [AccountTrials] (agent_access.py) counts the calls the platform
    pays for.  In both a request is a program of database transactions ([io],
    [trial]), and the requests that come run side by side, one transaction at a
    time ([step], [reachable]): a request that is not scheduled again is one
    whose process died.  [SafeHttp] (safe_http.py) fetches URLs that users and
    agents give: a request is a program [net] that resolves and connects, and a
    [network] answers it from all that has happened so far, as any set of servers
    and name servers may.  [IpAddress] and [Urls] are the modules ipaddress and
    urllib.parse of Python, with [IpFacts] and [SafeHttpFacts] on reading back
    what they print.

    Workspace grants are signed tokens that bound which files and repositories
    an agent reaches.  [WritePrefix] and [Grants] model a2a_pack/workspace.py
    (its prefix helpers) and a2a_pack/grants.py of the SDK: [mint_grant],
    [delegate_grant], [sign_grant], [verify_grant].  [GrantTokens] is the
    control plane's own reading of the same tokens (control_plane/grants.py),
    and [GrantService] the routes that serve files to whoever holds one
    (control_plane/routes/workspace_grants.py).  A route is a [prog]: a tree of
    calls of the services behind it, one constructor of [call] per function,
    so a theorem on all calls of a [prog] holds whatever the services answer.

    ** The language

    [Prelude]: exceptions as values ([res]), the monad [ST], the rule [traced]
    for relations that every run satisfies, list lemmas.  [PyStr]: [str] on
    code points below 256.  [PyDict]: [dict] with its insertion order.
    [PyFloat]: binary64 and exact counting in it.  [PyJson]: JSON values,
    [str], [repr], [int], canonical JSON.  [PyJsonText]: [json.dumps] and the
    decoder [json.loads], which read back what they print.  [PyHash]: SHA-256,
    HMAC and URL-safe base64 both ways.  [FnMatch]: [fnmatch].  All of it evaluates.

    ** What the theorems show

    - The ledger ([KernelProperties], over [KernelSteps], [KernelLedger],
      [KernelReplay], [KernelBudget]): it is numbered without gaps whatever is called and
      whatever raises, it is append-only, and after calls that all returned,
      replaying its events rebuilds the state, except the parts
      [KernelReplay.core] leaves out: the budgets, the credentials, and the
      multiplicity of alerts and violations; so does replaying its dump when
      every event names an actor and a redaction class.
    - Authority ([KernelFacts], [KernelEdges]): the exact conditions of a use;
      delegation attenuates; a revoked capability stays unusable until a new
      grant; an edge is activated and used only under its conditions.
    - Governance ([KernelGovern]): rewrites, deletions,
      recursion, reviewers, winners and routes; exports hide the secrets of
      payloads ([PyJson.concealed]), but neither keys nor the other fields.
    - Policy ([PolicyFacts], [PolicyProperties]): a stack allows or narrows
      exactly when every rule that applies lets it, in any order of the rules;
      a signed decision verifies until it expires, and
      what verifies was signed.
    - Types ([KernelTypes], [KernelTotal]): the fields of the rows that the
      methods read; from a typed state a typed call returns, whatever it finds.
    - Simulations ([SimulationFacts], [SimulationTidy], [SimulationProperties]): a run reaches a state the step relation of the
      kernel reaches; it only proposes, by an invariant that every operation
      keeps; its replay check passes iff [KernelBudget.reproducible].
    - Proposals ([ProposalProperties]): a proposal is approved iff its shape, the
      policy, the kill switch, the owner, the review, the proof and the canary
      all allow it; so is a candidate, whatever its operation, on its own terms
      (a crystallized manifest [reaches] no more than its source, nested
      sub-agents apart); the evidence grants nothing and hides secret values.
    - Packs ([ProtocolFacts], [Registry], [ProtocolProperties]): a payload
      that reads gives a class that holds its conditions and reads back; every
      scenario of the catalog runs and passes; a registry row is shown as
      enabled iff it is in service, well-formed and signed; seeding is
      idempotent, for any table with [RegistryTableLaws].
    - Templates and suites ([SuiteFacts], [SuiteProperties]): every template
      renders and passes, for any faithful validator; a scoreboard counts
      exactly the events of its episodes.
    - Evolution ([EvolutionProperties]): the winner is a passing variant that
      none beats, each variant is the simulation of its specification, and what
      is left is a disabled draft whose gates are missing.
    - Agents ([AgentAccessProperties]): decisions are exactly the rules on
      ownership, membership, visibility and fork policy; lists agree with them;
      evidence is read by editors, administrators and callers.
    - Requests ([IdempotencyProperties], [AccountTrialProperties]): in any
      interleaving a key's operation runs at most once and everyone else gets
      its replay or a refusal; funded calls are numbered one by one up to the
      limit.
    - Outbound HTTP ([SafeHttpProperties]): a request ends; only checked public
      addresses ([IpFacts.public], by ranges) are connected to, whatever is
      resolved or redirected; confidential calls stay on https, and their
      headers with the first origin, for hosts that are [plain_host].
    - Guards and planners: [Safety] (what a simulation spec may hold), [Cron]
      (the next time is the first match), [ScopePolicy] (automatic approval
      never escalates), [DagFacts], [DagProperties] (a DAG is
      accepted iff acyclic, runs in dependency order, and its report covers
      every node).
    - The rate limiter ([RateProperties]): refusals are
      exactly the requests over the limit, the window counts exactly while
      there is room for its keys, a failing backend is left alone, and callers choose neither address nor account.
    - Grants ([GrantFacts], [GrantTokenFacts], [GrantMachine],
      [GrantProperties]): what a grant lets its holder read, write and open
      ([reads], [writes], [sources]) is ordered by [below], delegation goes
      down in it, and the file service with all the grants that descend from a
      root refines the machine that knows the root alone ([spec]); chains of
      delegations are bounded; tokens verify.  The runs at the end of
      [GrantProperties] show that the hypotheses of the refinement are needed.
    [KernelDivergence] holds the runs on which the code and its documents part.

    ** Fuel and bounds

    The only fuel is in loops that consume something: [Dag.rounds_loop] takes
    the number of nodes and empties at least one id a turn
    ([DagFacts.rounds_loop_outcome] shows that it never runs dry);
    [Dag.sub_templates] one turn per character; [Cron.search] the minutes of
    two years, the code's own limit; [PyJsonText.json_loads] one turn per
    nesting or element, at most the length of the text; [PyFloat.shortest] the 17 digits that
    always suffice; [SafeHttp.request_loop] one turn per hop, [max_redirects] and
    one more, of which it never runs out ([SafeHttpProperties.guarded_requests]).
    Python integers are unbounded, so [Z] needs no width; floats are
    binary64; the rate limiter's counts are exact below 2^53.

    ** Not modelled

    Text is limited to code points below 256.  The host's tables are
    parameters: time zones and ISO times, [ipaddress] in the rate limiter (whose
    witness takes [IpAddress]), PyJWT, the Redis client,
    the Ed25519 keys with the reading of their text, pydantic's validation of
    untyped data (constrained by the fields of the class).  The JSON decoder
    takes UTF-8 text of code points below 256; in [Dag] and [RateKeys] it is a
    parameter.  HTTP, database, cluster and metrics code is left out, as are the
    events the DAG executor emits and the default clock of a decision envelope.
    The times of registry rows are printed by a parameter.  Participants that an
    inline specification brings to an evolution experiment are compared by the
    text of their ids, and the order of NaN scores is not modelled.  httpx merges
    query parameters and the idna tables encode hosts outside ASCII: both are
    parameters of [SafeHttp], the second under the law
    [SafeHttpFacts.idna_names].  The work ledger and the evidence graph write rows
    through the database with few decisions of their own.  Of the grant
    routes, the walk through a repository's tree is a call, and the wait between
    two attempts of a write is left out; the SDK's workspace clients are not
    modelled. *)
From Stdlib Require Export ZArith Lia ZifyBool.
From stdpp Require Export base tactics option numbers list strings gmap sorting.

(** * Notations of the development *)

Declare Scope py_scope.
Delimit Scope py_scope with py.

Infix "=s?" := String.eqb (at level 70, no associativity) : py_scope.

Open Scope py_scope.

(** * Exceptions and results

A Python call either returns or raises.  The constructors of [exc] are the
exception classes the modelled code raises or lets through; the text is the
message where the code gives one. *)

Inductive exc : Set :=
  | KeyError (key : string)
  | ValueError (msg : string)
  | TypeError
  | AttributeError
  | OverflowError
  | RuntimeError (msg : string)
  | GrantInvalid (msg : string)
  | GrantDelegationDenied (msg : string)
  | HTTPException (status : Z) (detail : string)
  | IndexError
  | CustomSimulationError (msg : string)
  | ScenarioRunError (msg : string)
  | KernelEvolutionError (msg : string)
  | ZeroDivisionError
  | MultipleResultsFound
  | SafeHTTPError (msg : string)
  | UnsafeURLError (msg : string)
  | InsecureTransportError (msg : string)
  | ResponseTooLargeError (msg : string)
  | TooManyRedirectsError (msg : string)
  | SafeHTTPTimeoutError (msg : string)
  | TransportError (timed_out : bool)
  | IntegrityError.

#[export] Instance exc_eq_dec : EqDecision exc.
Proof. solve_decision. Defined.

Inductive res (A : Type) : Type :=
  | Ok (a : A)
  | Raise (e : exc).
Arguments Ok {A} a.
Arguments Raise {A} e.

#[export] Instance res_eq_dec {A} `{EqDecision A} : EqDecision (res A).
Proof. solve_decision. Defined.

#[export] Instance res_ret : MRet res := λ A a, Ok a.
#[export] Instance res_bind : MBind res := λ A B f m,
  match m with Ok a => f a | Raise e => Raise e end.
#[export] Instance res_fmap : FMap res := λ A B f m,
  match m with Ok a => Ok (f a) | Raise e => Raise e end.

Definition is_ok {A} (m : res A) : bool :=
  match m with Ok _ => true | Raise _ => false end.

(** [mapM]-style traversal, left to right, stopping at the first exception. *)
Fixpoint res_map {A B} (f : A → res B) (l : list A) : res (list B) :=
  match l with
  | [] => Ok []
  | x :: l' => y ← f x; ys ← res_map f l'; Ok (y :: ys)
  end.

(** * Methods on a mutable object

A method of an object of state type [S] is a function from the state to an
outcome and the state left behind: when it raises, the updates made before the
exception stay, as they do in Python. *)

Definition ST (S A : Type) : Type := S → res A * S.

#[export] Instance ST_ret S : MRet (ST S) := λ A a s, (Ok a, s).
#[export] Instance ST_bind S : MBind (ST S) := λ A B f m s,
  match m s with
  | (Ok a, s') => f a s'
  | (Raise e, s') => (Raise e, s')
  end.

Definition get_st {S} : ST S S := λ s, (Ok s, s).
Definition modify {S} (f : S → S) : ST S unit := λ s, (Ok (), f s).
Definition lift {S A} (m : res A) : ST S A := λ s, (m, s).
Definition throw {S A} (e : exc) : ST S A := λ s, (Raise e, s).

(** A [for] loop over a list whose body may return early from the method. *)
Fixpoint for_each {S A} (l : list A) (body : A → ST S unit) : ST S unit :=
  match l with
  | [] => mret ()
  | x :: l' => _ ← body x; for_each l' body
  end.

(** * Relations every run of a method satisfies

[R b s s'] relates the state before to the state after; [b] says whether every
event on the way was handled without an exception.  [traced_at R m s]: the run
of [m] from [s] is such a way, and one without exceptions if it returns.  The
relation is reflexive and composes, so a method is traced when the calls it is
made of are. *)

Class TraceRel {S} (R : bool → S → S → Prop) : Prop := {
  trace_refl s : R true s s;
  trace_trans b c s1 s2 s3 : R b s1 s2 → R c s2 s3 → R (b && c) s1 s3;
}.

Definition traced_at {S A} (R : bool → S → S → Prop) (m : ST S A) (s : S) : Prop :=
  ∃ b, R b s (m s).2 ∧ (is_ok (m s).1 = true → b = true).

Definition traced {S A} (R : bool → S → S → Prop) (m : ST S A) : Prop := ∀ s, traced_at R m s.

Section traced_rules.
Context {S : Type} (R : bool → S → S → Prop) `{!TraceRel R}.

Lemma traced_ret {A} (a : A) s : traced_at R (mret a : ST S A) s.
Proof. exists true. split; [apply trace_refl|done]. Qed.

Lemma traced_lift {A} (m : res A) s : traced_at R (lift m) s.
Proof. exists true. split; [apply trace_refl|done]. Qed.

Lemma traced_throw {A} e s : traced_at R (throw e : ST S A) s.
Proof. exists true. split; [apply trace_refl|done]. Qed.

Lemma traced_modify f s : R true s (f s) → traced_at R (modify f) s.
Proof. intros H. by exists true. Qed.

Lemma traced_get {A} (f : S → ST S A) s : traced_at R (f s) s → traced_at R (get_st ≫= f) s.
Proof. done. Qed.

Lemma traced_bind {A B} (m : ST S A) (f : A → ST S B) s :
  traced_at R m s → (∀ a, traced R (f a)) → traced_at R (m ≫= f) s.
Proof.
  intros (b & Hb & Hok) Hf. unfold traced_at, mbind, ST_bind.
  destruct (m s) as [[a|e] s1]; cbn in *; [|by exists b].
  destruct (Hf a s1) as (c & Hc & Hokc). exists (b && c). split; [by eapply trace_trans|].
  intros H. by rewrite Hok, Hokc.
Qed.

(** A call of pure code: what it returned is known in the continuation. *)
Lemma traced_lift_bind {A B} (m : res A) (f : A → ST S B) s :
  (∀ a, m = Ok a → traced_at R (f a) s) → traced_at R (lift m ≫= f) s.
Proof.
  unfold lift, traced_at, mbind, ST_bind. destruct m as [a|e]; cbn; [eauto|].
  intros _. exists true. split; [apply trace_refl|done].
Qed.

Lemma traced_for_each {A} (l : list A) body :
  (∀ x, traced R (body x)) → traced R (for_each l body).
Proof.
  intros Hb. induction l as [|x l IH]; intros s; cbn; [apply traced_ret|].
  apply traced_bind; [apply Hb|intros _; exact IH].
Qed.
End traced_rules.

(** [solve_traced leaf]: walk a method's text, rule by rule; [leaf] closes the calls. *)
Ltac traced_step :=
  lazymatch goal with
  | |- traced _ _ => intros ?
  | |- traced_at _ (get_st ≫= _) _ => apply traced_get; cbv beta
  | |- traced_at _ (lift _ ≫= _) _ => apply traced_lift_bind; [try apply _|intros ? ?]
  | |- traced_at _ (_ ≫= _) _ => apply traced_bind; [try apply _| |intros ?]
  | |- traced_at _ (mret _) _ => apply traced_ret; try apply _
  | |- traced_at _ (lift _) _ => apply traced_lift; try apply _
  | |- traced_at _ (throw _) _ => apply traced_throw; try apply _
  | |- traced_at _ (for_each _ _) _ => apply traced_for_each; [try apply _|intros ?]
  | |- traced_at _ (let _ := _ in _) _ => cbv zeta
  | |- traced_at _ (if ?b then _ else _) _ => destruct b eqn:?
  | |- traced_at _ (match ?x with _ => _ end) _ => destruct x eqn:?
  end.
Tactic Notation "solve_traced" tactic3(leaf) :=
  repeat first [progress cbv zeta | leaf | traced_step].

(** * Running methods step by step *)

Lemma ST_get_run {S B} (f : S → ST S B) s : (get_st ≫= f) s = f s s.
Proof. done. Qed.

Lemma ST_modify_run {S B} (g : S → S) (k : unit → ST S B) s : (modify g ≫= k) s = k () (g s).
Proof. done. Qed.

Lemma ST_lift_run {S A B} (a : A) (k : A → ST S B) s : (lift (Ok a) ≫= k) s = k a s.
Proof. done. Qed.

Lemma ST_bind_ok {S A B} (m : ST S A) (f : A → ST S B) s b s' :
  (m ≫= f) s = (Ok b, s') →
  ∃ a s1, m s = (Ok a, s1) ∧ f a s1 = (Ok b, s').
Proof.
  unfold mbind, ST_bind. destruct (m s) as [[a|e] s1]; [eauto|done].
Qed.

Lemma res_bind_ok {A B} (m : res A) (f : A → res B) b :
  (m ≫= f) = Ok b → ∃ a, m = Ok a ∧ f a = Ok b.
Proof. destruct m; cbn; [eauto|done]. Qed.

Lemma res_map_ok {A B} (f : A → res B) l ys :
  res_map f l = Ok ys → Forall2 (λ x y, f x = Ok y) l ys.
Proof.
  revert ys. induction l as [|x l IH]; intros ys; cbn; [intros [= <-]; constructor|].
  intros (y & Hy & H)%res_bind_ok.
  apply res_bind_ok in H as (ys' & Hys & [= <-]). constructor; auto.
Qed.

Lemma res_map_length {A B} (f : A → res B) l ys :
  res_map f l = Ok ys → length ys = length l.
Proof. intros H%res_map_ok. by apply Forall2_length in H. Qed.

(** [inv_res]: open a hypothesis saying that a composed call returned. *)
Ltac inv_res :=
  repeat match goal with
  | H : (_ ≫= _) = Ok _ |- _ =>
      let a := fresh "a" in let Ha := fresh "Ha" in
      apply res_bind_ok in H as (a & Ha & H)
  | H : (_ ≫= _) _ = (Ok _, _) |- _ =>
      let a := fresh "a" in let s1 := fresh "s1" in let Ha := fresh "Ha" in
      apply ST_bind_ok in H as (a & s1 & Ha & H)
  | H : Ok _ = Ok _ |- _ => simplify_eq H
  | H : Raise _ = Ok _ |- _ => discriminate H
  | H : Ok _ = Raise _ |- _ => discriminate H
  | H : (Ok _, _) = (Ok _, _) |- _ => simplify_eq H
  end.

(** * Generic lemmas on lists *)

Lemma filter_all {A} (P : A → Prop) `{∀ x, Decision (P x)} (l : list A) :
  Forall P l → filter P l = l.
Proof.
  induction 1 as [|x l Hx Hl IH]; [done|].
  rewrite filter_cons_True by done. by rewrite IH.
Qed.

Lemma filter_ext_elem {A} (P Q : A → Prop) `{HP : ∀ x, Decision (P x), HQ : ∀ x, Decision (Q x)} (l : list A) :
  (∀ x, x ∈ l → P x ↔ Q x) → filter P l = filter Q l.
Proof.
  induction l as [|x l IH]; intros H; [done|]. rewrite !filter_cons, IH by (intros; apply H; by right).
  destruct (decide (P x)) as [Hp|Hp], (decide (Q x)) as [Hq|Hq]; try done;
    [by apply H in Hp; [|left]|by apply H in Hq; [|left]].
Qed.

(** A filter and its complement share out the list. *)
Lemma filter_app_complement {A} (P : A → Prop) `{∀ x, Decision (P x)} (l : list A) :
  filter P l ++ filter (λ x, ¬ P x) l ≡ₚ l.
Proof.
  induction l as [|x l IH]; [done|]. rewrite !filter_cons. destruct (decide (P x)) as [Hp|Hp].
  - rewrite decide_False by (by intros []). cbn. by rewrite IH.
  - rewrite decide_True by done. rewrite <-Permutation_middle. by rewrite IH.
Qed.

Lemma forallb_perm {A} (f : A → bool) (l k : list A) :
  l ≡ₚ k → forallb f l = forallb f k.
Proof.
  induction 1 as [|x l k _ IH|x y l|l k j _ IH1 _ IH2]; cbn; try done.
  - by rewrite IH.
  - by destruct (f x), (f y).
  - by rewrite IH1.
Qed.

Lemma existsb_perm {A} (f : A → bool) (l k : list A) :
  l ≡ₚ k → existsb f l = existsb f k.
Proof.
  induction 1 as [|x l k _ IH|x y l|l k j _ IH1 _ IH2]; cbn; try done.
  - by rewrite IH.
  - by destruct (f x), (f y).
  - by rewrite IH1.
Qed.

Lemma existsb_elem {A} (f : A → bool) (l : list A) :
  existsb f l = true ↔ ∃ x, x ∈ l ∧ f x = true.
Proof.
  rewrite existsb_exists. by setoid_rewrite list_elem_of_In.
Qed.

Lemma forallb_elem {A} (f : A → bool) (l : list A) :
  forallb f l = true ↔ ∀ x, x ∈ l → f x = true.
Proof.
  rewrite forallb_forall. by setoid_rewrite list_elem_of_In.
Qed.

(** [x in l] for a list of strings, as a boolean. *)
Definition str_in (x : string) (l : list string) : bool :=
  existsb (String.eqb x) l.

Lemma str_in_elem x l : str_in x l = true ↔ x ∈ l.
Proof.
  unfold str_in. rewrite existsb_elem. split.
  - intros (y & Hy & He). apply String.eqb_eq in He. by subst.
  - intros Hx. exists x. by rewrite String.eqb_refl.
Qed.

Lemma str_in_false x l : str_in x l = false ↔ x ∉ l.
Proof. rewrite <-str_in_elem. by destruct (str_in x l). Qed.

(** [if x not in l: l.append(x)]. *)
Definition add_once (x : string) (l : list string) : list string :=
  if str_in x l then l else l ++ [x].

Lemma elem_of_add_once x y l : x ∈ add_once y l ↔ x = y ∨ x ∈ l.
Proof.
  unfold add_once. destruct (str_in y l) eqn:E.
  - apply str_in_elem in E. naive_solver.
  - rewrite elem_of_app, list_elem_of_singleton. naive_solver.
Qed.
