(* ===== verification/PyStr.v ===== *)
(** Text: the [str] operations the code uses.

    A Python [str] is a [string] whose characters are code points below 256
    (ASCII and Latin-1); the operations follow Python's tables on that range.
    Contents: case folding, [strip], [startswith], [endswith], [in], [split],
    decimal printing and [int(text)], zero padding, and the order of [sorted]
    on strings with its uniqueness lemma. *)
From Stdlib Require Import Ascii.
From stdpp Require Import pretty.
From S2P Require Import Prelude.

Abbreviation chars := String.list_ascii_of_string.
Abbreviation of_chars := String.string_of_list_ascii.

Lemma chars_of_chars l : chars (of_chars l) = l.
Proof. apply String.list_ascii_of_string_of_list_ascii. Qed.
Lemma of_chars_chars s : of_chars (chars s) = s.
Proof. apply String.string_of_list_ascii_of_string. Qed.

#[export] Instance chars_inj : Inj (=) (=) chars.
Proof. intros x y H. by rewrite <-(of_chars_chars x), H, of_chars_chars. Qed.

Lemma chars_app x y : chars (x +:+ y) = chars x ++ chars y.
Proof. induction x as [|c x IH]; [done|]. change (c :: chars (x +:+ y) = c :: (chars x ++ chars y)). by rewrite IH. Qed.

#[export] Instance str_app_assoc : Assoc (=) String.append.
Proof. intros x y z. apply (inj chars). by rewrite !chars_app, app_assoc. Qed.

Definition code (c : ascii) : N := N_of_ascii c.

Definition is_ascii (s : string) : bool := forallb (λ c, code c <? 128)%N (chars s).

(** [str.lower]: the letters A to Z and the Latin-1 capitals. *)
Definition lower_char (c : ascii) : ascii :=
  let n := code c in
  if ((65 <=? n) && (n <=? 90) || (192 <=? n) && (n <=? 222) && negb (n =? 215))%N
  then ascii_of_N (n + 32) else c.

Definition lower (s : string) : string := of_chars (map lower_char (chars s)).

(** [str.upper] on one character: the letters a to z and the Latin-1 letters
whose capital is in Latin-1; the sharp s gives two letters. *)
Definition upper_char (c : ascii) : list ascii :=
  let n := code c in
  if (n =? 223)%N then ["S"%char; "S"%char]
  else if ((97 <=? n) && (n <=? 122) || (224 <=? n) && (n <=? 254) && negb (n =? 247))%N
  then [ascii_of_N (n - 32)] else [c].

Definition upper (s : string) : string := of_chars (concat (map upper_char (chars s))).

(** [str.isspace] on one character. *)
Definition is_space (c : ascii) : bool :=
  let n := code c in
  ((9 <=? n) && (n <=? 13) || (28 <=? n) && (n <=? 32) || (n =? 133) || (n =? 160))%N.

Fixpoint drop_while (p : ascii → bool) (l : list ascii) : list ascii :=
  match l with
  | [] => []
  | c :: l' => if p c then drop_while p l' else l
  end.

Definition strip_by (p : ascii → bool) (s : string) : string :=
  of_chars (rev (drop_while p (rev (drop_while p (chars s))))).

(** [s.strip()] and [s.strip("/")]. *)
Definition strip (s : string) : string := strip_by is_space s.
Definition strip_char (c : ascii) (s : string) : string := strip_by (Ascii.eqb c) s.

(** [s.replace(a, b)] for single characters. *)
Definition replace_char (a b : ascii) (s : string) : string :=
  of_chars (map (λ c, if Ascii.eqb c a then b else c) (chars s)).

Definition startswith (s pre : string) : bool := String.prefix pre s.

Definition endswith (s suf : string) : bool :=
  let n := String.length s in let k := String.length suf in
  (k <=? n)%nat && (String.substring (n - k) k s =s? suf).

(** [part in s] for strings. *)
Fixpoint contains (part s : string) : bool :=
  String.prefix part s ||
  match s with EmptyString => false | String _ s' => contains part s' end.

(** [s[:-1]]. *)
Definition drop_last (s : string) : string := of_chars (removelast (chars s)).

(** [s[:n]]. *)
Definition str_take (n : nat) (s : string) : string := of_chars (take n (chars s)).

(** [s.split(sep)] for a one-character separator: always at least one part. *)
Fixpoint split_chars (sep : ascii) (cur l : list ascii) : list (list ascii) :=
  match l with
  | [] => [rev cur]
  | c :: l' =>
      if Ascii.eqb c sep then rev cur :: split_chars sep [] l'
      else split_chars sep (c :: cur) l'
  end.

Definition split (sep : ascii) (s : string) : list string :=
  map of_chars (split_chars sep [] (chars s)).

(** [s.split(sep, 1)]: the part before the first separator, and the rest when
the separator occurs. *)
Fixpoint split1_chars (sep : ascii) (acc l : list ascii) : list ascii * option (list ascii) :=
  match l with
  | [] => (rev acc, None)
  | c :: l' => if Ascii.eqb c sep then (rev acc, Some l') else split1_chars sep (c :: acc) l'
  end.

Definition split1 (sep : ascii) (s : string) : string * option string :=
  let '(a, b) := split1_chars sep [] (chars s) in (of_chars a, of_chars <$> b).

(** [s.split()]: the maximal runs of characters that are not whitespace. *)
Fixpoint words_chars (cur l : list ascii) : list (list ascii) :=
  match l with
  | [] => match cur with [] => [] | _ => [rev cur] end
  | c :: l' =>
      if is_space c
      then match cur with [] => words_chars [] l' | _ => rev cur :: words_chars [] l' end
      else words_chars (c :: cur) l'
  end.

Definition words (s : string) : list string := map of_chars (words_chars [] (chars s)).

(** * Splitting and joining *)

Lemma split_chars_app sep cur l k :
  split_chars sep cur (l ++ sep :: k) = split_chars sep cur l ++ split_chars sep [] k.
Proof.
  revert cur. induction l as [|c l IH]; intros cur; cbn; [by rewrite Ascii.eqb_refl|].
  destruct (Ascii.eqb c sep); cbn; by rewrite IH.
Qed.

Lemma split_app sep x y : split sep (x +:+ String sep y) = split sep x ++ split sep y.
Proof. unfold split. rewrite chars_app. cbn [chars]. by rewrite split_chars_app, map_app. Qed.

Lemma split_chars_ne sep cur l : split_chars sep cur l ≠ [].
Proof. revert cur. induction l as [|c l IH]; intros cur; cbn; [done|]. by destruct (Ascii.eqb c sep). Qed.

Lemma split_chars_none sep cur l : forallb (λ c, negb (Ascii.eqb c sep)) l = true → split_chars sep cur l = [rev cur ++ l].
Proof.
  revert cur. induction l as [|c l IH]; intros cur; cbn; [by rewrite app_nil_r|].
  destruct (Ascii.eqb c sep); [done|]. cbn. intros H. rewrite IH by done. cbn. by rewrite <- app_assoc.
Qed.

(** The character [sep] does not occur in [s]. *)
Definition lacks (sep : ascii) (s : string) : bool := forallb (λ c, negb (Ascii.eqb c sep)) (chars s).

Lemma split_lacks sep s : lacks sep s = true → split sep s = [s].
Proof. intros H. unfold split. rewrite split_chars_none by done. cbn. by rewrite of_chars_chars. Qed.

Lemma split_concat sep parts : parts ≠ [] → Forall (λ s, lacks sep s = true) parts →
  split sep (String.concat (String sep "") parts) = parts.
Proof.
  induction parts as [|s parts IH]; [done|]. intros _ [Hs Hl]%Forall_cons.
  destruct parts as [|t parts]; [by apply split_lacks|].
  change (String.concat (String sep "") (s :: t :: parts))
    with (s +:+ (String sep (String.concat (String sep "") (t :: parts)))).
  rewrite split_app, split_lacks, IH by done. done.
Qed.

Lemma concat_split sep s : String.concat (String sep "") (split sep s) = s.
Proof.
  assert (∀ l cur, chars (String.concat (String sep "") (map of_chars (split_chars sep cur l))) = rev cur ++ l) as H.
  { induction l as [|c l IH]; intros cur; cbn; [by rewrite chars_of_chars, app_nil_r|].
    destruct (Ascii.eqb_spec c sep) as [->|Hne].
    - specialize (IH []). cbn [map]. destruct (map of_chars (split_chars sep [] l)) as [|x xs] eqn:E.
      + by apply map_eq_nil, split_chars_ne in E.
      + change (String.concat (String sep "") (of_chars (rev cur) :: x :: xs))
          with (of_chars (rev cur) +:+ (String sep (String.concat (String sep "") (x :: xs)))).
        rewrite chars_app, chars_of_chars. cbn [chars]. by rewrite IH.
    - rewrite IH. cbn. by rewrite <- app_assoc. }
  apply (inj chars). unfold split. by rewrite H.
Qed.

(** * Prefixes *)

Lemma startswith_iff s pre : startswith s pre = true ↔ ∃ rest, s = pre +:+ rest.
Proof.
  unfold startswith. revert s. induction pre as [|c pre IH]; intros s.
  { split; [by exists s|]. by destruct s. }
  destruct s as [|d s]; [by split; [|intros [rest H]]|]. cbn [String.prefix].
  destruct (ascii_dec c d) as [->|Hne].
  - rewrite IH. split; intros [rest H]; exists rest; [by rewrite H|by injection H].
  - split; [done|]. intros [rest H]. by injection H.
Qed.

(** * Decimal numbers *)

Definition is_digit (c : ascii) : bool := ((48 <=? code c) && (code c <=? 57))%N.
(** [c.isalnum()] of a code point below 256: letters, digits, superscripts and fractions. *)
Definition is_alnum (c : ascii) : bool :=
  let n := code c in
  (is_digit c || (65 <=? n) && (n <=? 90) || (97 <=? n) && (n <=? 122) || (n =? 170) || (178 <=? n) && (n <=? 179)
   || (n =? 181) || (185 <=? n) && (n <=? 186) || (188 <=? n) && (n <=? 190)
   || (192 <=? n) && negb (n =? 215) && negb (n =? 247))%N.

Definition digit_val (c : ascii) : Z := (Z.of_N (code c) - 48)%Z.

(** The value of a run of digits, most significant first. *)
Definition digits_value (l : list ascii) : Z :=
  foldl (λ acc c, 10 * acc + digit_val c)%Z 0%Z l.

(** [str(n)] for an integer. *)
Definition dec (n : Z) : string := pretty n.

(** Digits with single underscores between them, as [int] and [float] read
them; [prev] says whether the previous character was a digit. *)
Fixpoint digits_from (prev : bool) (l : list ascii) : option (list ascii) :=
  match l with
  | [] => if prev then Some [] else None
  | c :: l' =>
      if is_digit c then cons c <$> digits_from true l'
      else if Ascii.eqb c "_" && prev then digits_from false l' else None
  end.

(** [int(text)] in base 10, with the interpreter's limit of 4300 digits. *)
Definition int_of_text (s : string) : res Z :=
  let bad := Raise (ValueError "invalid literal for int()") in
  let body (l : list ascii) : res Z :=
    match digits_from false l with
    | Some (d :: ds) =>
        if (4300 <? Z.of_nat (length (d :: ds)))%Z then bad else Ok (digits_value (d :: ds))
    | _ => bad
    end in
  match chars (strip s) with
  | "-"%char :: l => Z.opp <$> body l
  | "+"%char :: l => body l
  | l => body l
  end.

(** [f"{n:04d}"] for a natural number. *)
Definition pad4 (n : nat) : string :=
  let d := dec (Z.of_nat n) in
  of_chars (replicate (4 - String.length d) "0"%char) +:+ d.

(** * The order of [sorted] on strings *)

Definition str_le (x y : string) : Prop := String.leb x y = true.

#[export] Instance str_le_dec x y : Decision (str_le x y).
Proof. unfold str_le. apply _. Defined.

Definition sort_strs (l : list string) : list string := merge_sort str_le l.

(** [sorted] of a set of strings. *)
Definition sorted_set (X : gset string) : list string := sort_strs (elements X).

Lemma str_le_total x y : str_le x y ∨ str_le y x.
Proof.
  unfold str_le, String.leb. rewrite (String.compare_antisym y x).
  destruct (String.compare x y); cbn; auto.
Qed.

#[export] Instance str_le_Total : Total str_le.
Proof. intros x y. apply str_le_total. Qed.

#[export] Instance str_le_antisym : AntiSymm (=) str_le.
Proof.
  intros x y. unfold str_le, String.leb. rewrite (String.compare_antisym y x).
  destruct (String.compare x y) eqn:E; cbn; try done.
  intros _ _. by apply String.compare_eq_iff.
Qed.

Lemma ascii_compare_trans a b c :
  Ascii.compare a b = Lt → Ascii.compare b c = Lt → Ascii.compare a c = Lt.
Proof. unfold Ascii.compare. rewrite !N.compare_lt_iff. lia. Qed.

#[export] Instance str_le_trans : Transitive str_le.
Proof.
  unfold str_le, String.leb.
  intros x. induction x as [|a x IH]; intros [|b y] [|c z]; cbn; try done.
  destruct (Ascii.compare a b) eqn:E1; try done.
  - apply Ascii.compare_eq_iff in E1 as <-.
    destruct (Ascii.compare a c); try done. apply IH.
  - destruct (Ascii.compare b c) eqn:E2; try done.
    + apply Ascii.compare_eq_iff in E2 as <-. by rewrite E1.
    + by rewrite (ascii_compare_trans _ _ _ E1 E2).
Qed.

Lemma sort_strs_perm l : sort_strs l ≡ₚ l.
Proof. apply merge_sort_Permutation. Qed.

Lemma elem_of_sort_strs x l : x ∈ sort_strs l ↔ x ∈ l.
Proof. by rewrite sort_strs_perm. Qed.

Lemma sort_strs_sorted l : StronglySorted str_le (sort_strs l).
Proof. apply StronglySorted_merge_sort; apply _. Qed.

Lemma elem_of_sorted_set x X : x ∈ sorted_set X ↔ x ∈ X.
Proof. unfold sorted_set. rewrite elem_of_sort_strs. apply elem_of_elements. Qed.

Lemma list_to_set_sorted_set (X : gset string) :
  list_to_set (sorted_set X) = X.
Proof. apply set_eq. intros x. rewrite elem_of_list_to_set. apply elem_of_sorted_set. Qed.

(** * Facts about decimal printing *)

Lemma digits_value_snoc l c : digits_value (l ++ [c]) = (10 * digits_value l + digit_val c)%Z.
Proof. unfold digits_value. by rewrite foldl_app. Qed.

Lemma foldl_digits l a :
  foldl (λ acc c, 10 * acc + digit_val c)%Z a l
  = (a * 10 ^ Z.of_nat (length l) + digits_value l)%Z.
Proof.
  unfold digits_value. revert a. induction l as [|c l IH]; intros a; [cbn; lia|].
  cbn [foldl length]. rewrite (IH (10 * a + _)%Z), (IH (10 * 0 + _)%Z).
  rewrite Nat2Z.inj_succ, Z.pow_succ_r by lia. lia.
Qed.

Lemma digits_value_cons c l :
  digits_value (c :: l) = (digit_val c * 10 ^ Z.of_nat (length l) + digits_value l)%Z.
Proof. unfold digits_value at 1. cbn [foldl]. by rewrite foldl_digits. Qed.

Lemma pretty_char_val x : (x < 10)%N → digit_val (pretty_N_char x) = Z.of_N x.
Proof.
  intros H.
  assert (x = 0 ∨ x = 1 ∨ x = 2 ∨ x = 3 ∨ x = 4 ∨ x = 5 ∨ x = 6
          ∨ x = 7 ∨ x = 8 ∨ x = 9)%N as Hx by lia.
  by destruct_or! Hx; subst.
Qed.

Lemma pretty_char_digit x : is_digit (pretty_N_char x) = true.
Proof. unfold pretty_N_char. by repeat case_match. Qed.

Lemma pretty_go_spec x s :
  ∃ l, chars (pretty_N_go x s) = l ++ chars s ∧ digits_value l = Z.of_N x
       ∧ Forall (λ c, is_digit c = true) l ∧ (x ≠ 0%N → l ≠ []).
Proof.
  revert s. induction (N.lt_wf_0 x) as [x _ IH]; intros s.
  destruct (decide (x = 0%N)) as [->|Hx].
  { exists []. rewrite pretty_N_go_0. repeat split; [constructor|done]. }
  rewrite pretty_N_go_step by lia.
  destruct (IH (x `div` 10)%N) with (s := String (pretty_N_char (x `mod` 10)) s)
    as (l & -> & Hl & HF & _); [apply N.div_lt; lia|].
  exists (l ++ [pretty_N_char (x `mod` 10)]). repeat split.
  - cbn. by rewrite <-app_assoc.
  - rewrite digits_value_snoc, Hl, pretty_char_val by (apply N.mod_lt; lia).
    pose proof (N.div_mod x 10). lia.
  - apply Forall_app. split; [done|]. constructor; [apply pretty_char_digit|constructor].
  - intros _. by destruct l.
Qed.

(** [str] of a natural number is a non-empty run of digits with that value. *)
Lemma dec_digits n : (0 <= n)%Z →
  digits_value (chars (dec n)) = n
  ∧ Forall (λ c, is_digit c = true) (chars (dec n)) ∧ chars (dec n) ≠ [].
Proof.
  intros Hn. destruct n as [|p|p]; [|change (dec (Z.pos p)) with (pretty_N (N.pos p))|lia].
  { split; [done|]. split; [repeat constructor|done]. }
  unfold pretty_N. destruct (decide _) as [|_]; [done|].
  destruct (pretty_go_spec (N.pos p) "") as (l & -> & Hl & HF & Hne).
  cbn. rewrite app_nil_r. auto.
Qed.

Lemma digits_value_zeros k l : digits_value (replicate k "0"%char ++ l) = digits_value l.
Proof. induction k as [|k IH]; [done|]. cbn [replicate app]. by rewrite digits_value_cons, IH. Qed.

Lemma pad4_value n : digits_value (chars (pad4 n)) = Z.of_nat n.
Proof.
  unfold pad4. rewrite chars_app, chars_of_chars, digits_value_zeros.
  apply dec_digits. lia.
Qed.

#[export] Instance pad4_inj : Inj (=) (=) pad4.
Proof.
  intros x y H. pose proof (pad4_value x) as Hx. rewrite H, pad4_value in Hx. lia.
Qed.

Lemma digits_from_true l :
  Forall (λ c, is_digit c = true) l → digits_from true l = Some l.
Proof. induction 1 as [|c l Hc HF IH]; cbn; [done|]. by rewrite Hc, IH. Qed.

Lemma digits_from_digits b l :
  Forall (λ c, is_digit c = true) l → l ≠ [] → digits_from b l = Some l.
Proof.
  intros [|c l' Hc HF] Hne; [done|]. cbn. by rewrite Hc, digits_from_true.
Qed.

(** * Facts about [strip] *)

Lemma drop_while_none p l : forallb (λ c, negb (p c)) l = true → drop_while p l = l.
Proof. destruct l as [|c l]; cbn; [done|]. by destruct (p c). Qed.

Lemma strip_by_id p s : forallb (λ c, negb (p c)) (chars s) = true → strip_by p s = s.
Proof.
  intros H. unfold strip_by. rewrite (drop_while_none p (chars s)) by done.
  rewrite drop_while_none, rev_involutive; [apply of_chars_chars|].
  rewrite <-(forallb_perm _ (chars s)); [done|]. symmetry. rewrite <-Permutation_rev. done.
Qed.

(** No character of [p] at the front. *)
Definition front_ok (p : ascii → bool) (l : list ascii) : Prop :=
  match l with [] => True | c :: _ => p c = false end.

Lemma drop_while_front p l : front_ok p (drop_while p l).
Proof. induction l as [|c l IH]; cbn; [done|]. destruct (p c) eqn:E; [done|]. by cbn. Qed.

Lemma drop_while_front_id p l : front_ok p l → drop_while p l = l.
Proof. destruct l as [|c l]; cbn; [done|]. by intros ->. Qed.

Lemma drop_while_suffix p l : ∃ pre, l = pre ++ drop_while p l.
Proof.
  induction l as [|c l [pre IH]]; cbn; [by exists []|].
  destruct (p c); [|by exists []]. exists (c :: pre). cbn. by rewrite <-IH.
Qed.

Definition strip_list (p : ascii → bool) (l : list ascii) : list ascii :=
  rev (drop_while p (rev (drop_while p l))).

Lemma strip_list_front p l : front_ok p (strip_list p l).
Proof.
  unfold strip_list. pose proof (drop_while_front p l) as H. revert H.
  generalize (drop_while p l) as d. intros d Hd.
  destruct (drop_while_suffix p (rev d)) as [pre Hpre].
  apply (f_equal (@rev ascii)) in Hpre. rewrite rev_involutive, rev_app_distr in Hpre.
  destruct (rev (drop_while p (rev d))) as [|c r]; [done|]. cbn in Hpre. by rewrite Hpre in Hd.
Qed.

Lemma strip_list_back p l : front_ok p (rev (strip_list p l)).
Proof. unfold strip_list. rewrite rev_involutive. apply drop_while_front. Qed.

Lemma strip_list_sub p l c : c ∈ strip_list p l → c ∈ l.
Proof.
  unfold strip_list. destruct (drop_while_suffix p l) as [a Ha].
  destruct (drop_while_suffix p (rev (drop_while p l))) as [b Hb].
  rewrite !list_elem_of_In, <-in_rev. intros Hc. rewrite Ha. apply in_or_app. right.
  apply in_rev. rewrite Hb. apply in_or_app. by right.
Qed.

(** Appending one stripped character and stripping again changes nothing. *)
Lemma strip_list_snoc p l x : p x = true → strip_list p (strip_list p l ++ [x]) = strip_list p l.
Proof.
  intros Hx. pose proof (strip_list_front p l) as Hf. pose proof (strip_list_back p l) as Hb.
  revert Hf Hb. generalize (strip_list p l) as t. intros t Hf Hb. unfold strip_list.
  destruct t as [|c t]; [cbn; by rewrite Hx|].
  rewrite (drop_while_front_id p ((c :: t) ++ [x])) by exact Hf.
  rewrite rev_app_distr. change (rev [x]) with [x]. cbn [app drop_while]. rewrite Hx.
  by rewrite drop_while_front_id, rev_involutive.
Qed.

Lemma strip_by_idem p s : strip_by p (strip_by p s) = strip_by p s.
Proof.
  apply (inj chars). unfold strip_by. rewrite !chars_of_chars.
  change (strip_list p (strip_list p (chars s)) = strip_list p (chars s)).
  pose proof (strip_list_front p (chars s)) as Hf. pose proof (strip_list_back p (chars s)) as Hb.
  revert Hf Hb. generalize (strip_list p (chars s)) as t. intros t Hf Hb. unfold strip_list.
  by rewrite (drop_while_front_id p t), drop_while_front_id, rev_involutive.
Qed.

(** Text that [strip] leaves alone and that is not empty. *)
Definition clean (s : string) : bool := (strip s =s? s) && negb (s =s? "").

Lemma clean_spec s : clean s = true ↔ strip s = s ∧ s ≠ "".
Proof.
  unfold clean. by rewrite andb_true_iff, negb_true_iff, String.eqb_eq, String.eqb_neq.
Qed.

Lemma strip_idem s : strip (strip s) = strip s.
Proof. apply strip_by_idem. Qed.

Lemma strip_clean s : strip s ≠ "" → clean (strip s) = true.
Proof. intros H. apply clean_spec. split; [apply strip_by_idem|done]. Qed.
