(* ===== verification/PyDict.v ===== *)
(** Dictionaries with string keys, in insertion order.

    [dict V] is a Python [dict]: an assignment to a key that is present keeps
    the key's place, a new key goes to the end, [pop] closes the gap.  The
    operations are instances of stdpp's [Lookup], [Insert] and [Delete]; the
    equality of Python's [==] ignores the order and is the setoid [dict_equiv],
    for which the operations are [Proper]. *)
From S2P Require Import Prelude.

Definition dict (V : Type) : Type := list (string * V).

Fixpoint dict_get {V} (k : string) (d : dict V) : option V :=
  match d with
  | [] => None
  | (k', v) :: d' => if k =s? k' then Some v else dict_get k d'
  end.

Fixpoint dict_set {V} (k : string) (v : V) (d : dict V) : dict V :=
  match d with
  | [] => [(k, v)]
  | (k', v') :: d' => if k =s? k' then (k', v) :: d' else (k', v') :: dict_set k v d'
  end.

Fixpoint dict_pop {V} (k : string) (d : dict V) : dict V :=
  match d with
  | [] => []
  | (k', v') :: d' => if k =s? k' then d' else (k', v') :: dict_pop k d'
  end.

#[export] Instance dict_lookup {V} : Lookup string V (dict V) := dict_get.
#[export] Instance dict_insert {V} : Insert string V (dict V) := dict_set.
#[export] Instance dict_delete {V} : Delete string (dict V) := dict_pop.

Definition keys {V} (d : dict V) : list string := map fst d.
Definition values {V} (d : dict V) : list V := map snd d.

(** [k in d]. *)
Definition has_key {V} (k : string) (d : dict V) : bool :=
  match d !! k with Some _ => true | None => false end.

(** [{**d, **e}]. *)
Definition dict_update {V} (d e : dict V) : dict V :=
  foldl (λ acc p, <[p.1 := p.2]> acc) d e.

(** [{k: f(v) for k, v in d.items()}]. *)
Definition dict_map {V W} (f : V → W) (d : dict V) : dict W :=
  map (λ p, (p.1, f p.2)) d.

(** [sorted(d.items())] on distinct keys: ordered by key. *)
Definition item_le {V} (p q : string * V) : Prop := String.leb p.1 q.1 = true.
#[export] Instance item_le_dec {V} (p q : string * V) : Decision (item_le p q).
Proof. unfold item_le. apply _. Defined.
Definition sorted_items {V} (d : dict V) : dict V := merge_sort item_le d.

(** [dict_ops]: open the stdpp operators down to the recursive functions. *)
Ltac dict_ops :=
  unfold lookup, dict_lookup, insert, dict_insert, delete, dict_delete in *.

(** * Lookup after an update *)

Section dict.
Context {V : Type}.
Implicit Types (d e : dict V) (k j : string) (v w : V).

Lemma dict_lookup_nil k : ([] : dict V) !! k = None.
Proof. done. Qed.

Lemma dict_lookup_cons k j v d :
  ((j, v) :: d : dict V) !! k = if k =s? j then Some v else d !! k.
Proof. done. Qed.

Lemma dict_lookup_insert k v d : <[k:=v]> d !! k = Some v.
Proof.
  dict_ops. induction d as [|[j w] d IH]; cbn; [by rewrite String.eqb_refl|].
  destruct (String.eqb_spec k j) as [->|Hne]; cbn.
  - by rewrite String.eqb_refl.
  - apply String.eqb_neq in Hne. rewrite Hne. apply IH.
Qed.

Lemma dict_lookup_insert_ne k j v d : k ≠ j → <[k:=v]> d !! j = d !! j.
Proof.
  intros Hne. dict_ops. induction d as [|[i w] d IH]; cbn.
  - destruct (String.eqb_spec j k); [congruence|done].
  - destruct (String.eqb_spec k i) as [->|Hi]; cbn.
    + by destruct (String.eqb_spec j i); [congruence|].
    + destruct (j =s? i); [done|apply IH].
Qed.

Lemma dict_lookup_insert_case k j v d :
  <[k:=v]> d !! j = if decide (k = j) then Some v else d !! j.
Proof.
  destruct (decide (k = j)) as [->|]; [apply dict_lookup_insert|].
  by apply dict_lookup_insert_ne.
Qed.

Lemma dict_lookup_delete_ne k j d : k ≠ j → delete k d !! j = d !! j.
Proof.
  intros Hne. dict_ops. induction d as [|[i w] d IH]; cbn; [done|].
  destruct (String.eqb_spec k i) as [->|Hi]; cbn.
  - by destruct (String.eqb_spec j i); [congruence|].
  - destruct (j =s? i); [done|apply IH].
Qed.

Lemma keys_insert_in k v d j : j ∈ keys (<[k:=v]> d) ↔ j = k ∨ j ∈ keys d.
Proof.
  dict_ops. induction d as [|[i w] d IH]; cbn; [set_solver|].
  destruct (String.eqb_spec k i) as [->|Hi]; cbn; [set_solver|].
  rewrite !elem_of_cons, IH. naive_solver.
Qed.

Lemma keys_delete_in k d j : j ∈ keys (delete k d) → j ∈ keys d.
Proof.
  dict_ops. induction d as [|[i w] d IH]; cbn; [done|].
  destruct (k =s? i); cbn; [set_solver|]. rewrite !elem_of_cons. naive_solver.
Qed.

(** The well-formedness of a dictionary: its keys are distinct. *)
Definition dict_wf d : Prop := NoDup (keys d).

Lemma dict_wf_nil : dict_wf [].
Proof. constructor. Qed.

Lemma dict_wf_insert k v d : dict_wf d → dict_wf (<[k:=v]> d).
Proof.
  unfold dict_wf. dict_ops. induction d as [|[i w] d IH]; cbn.
  - intros _. repeat constructor. set_solver.
  - intros [Hi Hd]%NoDup_cons. destruct (String.eqb_spec k i) as [->|Hne]; cbn.
    + by constructor.
    + constructor; [|auto]. rewrite (keys_insert_in k v d i). set_solver.
Qed.

Lemma dict_wf_delete k d : dict_wf d → dict_wf (delete k d).
Proof.
  unfold dict_wf. dict_ops. induction d as [|[i w] d IH]; cbn; [done|].
  intros [Hi Hd]%NoDup_cons. destruct (k =s? i); [done|]. cbn.
  constructor; [|auto]. intros Hin. apply Hi. by apply (keys_delete_in k).
Qed.

Lemma dict_lookup_none k d : k ∉ keys d → d !! k = None.
Proof.
  dict_ops. induction d as [|[i w] d IH]; cbn; [done|]. intros Hk.
  destruct (String.eqb_spec k i) as [->|]; [set_solver|apply IH; set_solver].
Qed.

Lemma dict_lookup_delete k d : dict_wf d → delete k d !! k = None.
Proof.
  unfold dict_wf. dict_ops. induction d as [|[i w] d IH]; cbn; [done|].
  intros [Hi Hd]%NoDup_cons. destruct (String.eqb_spec k i) as [->|Hne]; cbn.
  - by apply dict_lookup_none.
  - apply String.eqb_neq in Hne. rewrite Hne. by apply IH.
Qed.

Lemma dict_lookup_elem k v d : d !! k = Some v → (k, v) ∈ d.
Proof.
  dict_ops. induction d as [|[i w] d IH]; cbn; [done|].
  destruct (String.eqb_spec k i) as [->|]; [intros [= ->]; set_solver|].
  intros H%IH. set_solver.
Qed.

Lemma dict_elem_lookup k v d : dict_wf d → (k, v) ∈ d → d !! k = Some v.
Proof.
  unfold dict_wf. dict_ops. induction d as [|[i w] d IH]; cbn; [set_solver|].
  intros [Hi Hd]%NoDup_cons [[= -> ->]|Hin]%elem_of_cons.
  - by rewrite String.eqb_refl.
  - destruct (String.eqb_spec k i) as [->|]; [|auto].
    destruct Hi. change i with ((i, v).1). by apply list_elem_of_fmap_2.
Qed.

Lemma dict_lookup_keys k d : is_Some (d !! k) ↔ k ∈ keys d.
Proof.
  split.
  - intros [v Hv%dict_lookup_elem]. change k with ((k, v).1). by apply list_elem_of_fmap_2.
  - intros Hk. destruct (d !! k) eqn:E; [eauto|].
    dict_ops. induction d as [|[i w] d IH]; [set_solver|].
    cbn in E, Hk. destruct (String.eqb_spec k i) as [->|]; [done|].
    apply IH; [set_solver|done].
Qed.

Lemma elem_of_values k (r : V) d : d !! k = Some r → r ∈ values d.
Proof. intros H%dict_lookup_elem. unfold values. by apply (list_elem_of_fmap_2 snd) in H. Qed.

Lemma values_lookup (r : V) d : NoDup (keys d) → r ∈ values d → ∃ k, d !! k = Some r.
Proof.
  intros Hnd ([k v] & -> & H)%list_elem_of_fmap. exists k. by apply dict_elem_lookup.
Qed.

Lemma has_key_true k d : has_key k d = true ↔ is_Some (d !! k).
Proof. unfold has_key. destruct (d !! k); split; [by eauto|done|done|by intros [? ?]]. Qed.

Lemma has_key_false k d : has_key k d = false ↔ d !! k = None.
Proof. unfold has_key. by destruct (d !! k). Qed.

(** * Equality up to order *)

Definition dict_eqv d e : Prop := ∀ k, d !! k = e !! k.
End dict.

#[export] Instance dict_equiv {V} : Equiv (dict V) := dict_eqv.

#[export] Instance dict_equivalence {V} : Equivalence (≡@{dict V}).
Proof.
  unfold equiv, dict_equiv, dict_eqv. split.
  - intros d k; done.
  - intros d e H k; by rewrite H.
  - intros d e f H1 H2 k; by rewrite H1.
Qed.

#[export] Instance dict_lookup_proper {V} (k : string) :
  Proper ((≡@{dict V}) ==> (=)) (lookup k).
Proof. intros d e H. apply H. Qed.

#[export] Instance dict_insert_proper {V} (k : string) (v : V) :
  Proper ((≡@{dict V}) ==> (≡)) (insert k v).
Proof.
  intros d e H j. rewrite !dict_lookup_insert_case. by case_decide.
Qed.

Lemma dict_insert_comm {V} (k j : string) (v w : V) (d : dict V) :
  k ≠ j → <[k:=v]> (<[j:=w]> d) ≡ <[j:=w]> (<[k:=v]> d).
Proof.
  intros Hne i. rewrite !dict_lookup_insert_case. by repeat case_decide; subst.
Qed.

(** * Mapping over the values *)

Section dict_map.
Context {V W : Type} (f : V → W).

Lemma dict_map_lookup k (d : dict V) : dict_map f d !! k = f <$> d !! k.
Proof.
  dict_ops. induction d as [|[i w] d IH]; [done|]. cbn.
  destruct (k =s? i); [done|]. apply IH.
Qed.

Lemma dict_map_insert k v (d : dict V) :
  dict_map f (<[k:=v]> d) = <[k:=f v]> (dict_map f d).
Proof.
  dict_ops. induction d as [|[i w] d IH]; [done|]. cbn. destruct (k =s? i); [done|].
  cbn. f_equal. apply IH.
Qed.

Lemma dict_map_delete k (d : dict V) :
  dict_map f (delete k d) = delete k (dict_map f d).
Proof.
  dict_ops. induction d as [|[i w] d IH]; [done|]. cbn. destruct (k =s? i); [done|].
  cbn. f_equal. apply IH.
Qed.

Lemma keys_dict_map (d : dict V) : keys (dict_map f d) = keys d.
Proof. unfold keys, dict_map. by rewrite map_map. Qed.
End dict_map.

Lemma dict_insert_id {V} k (v : V) (d : dict V) : d !! k = Some v → <[k:=v]> d = d.
Proof.
  dict_ops. induction d as [|[i w] d IH]; cbn; [done|].
  destruct (String.eqb_spec k i) as [->|]; [by intros [= ->]|].
  intros H%IH. by f_equal.
Qed.

Lemma dict_update_nil {V} (d : dict V) : dict_update d [] = d.
Proof. done. Qed.

Lemma dict_update_lookup_notin {V} k (d e : dict V) :
  k ∉ keys e → dict_update d e !! k = d !! k.
Proof.
  unfold dict_update. revert d. induction e as [|[j w] e IH]; intros d Hk; [done|].
  cbn in *. rewrite IH by set_solver. rewrite dict_lookup_insert_ne; [done|set_solver].
Qed.

Lemma dict_update_lookup_in {V} k v (d e : dict V) :
  dict_wf e → e !! k = Some v → dict_update d e !! k = Some v.
Proof.
  unfold dict_update, dict_wf. revert d.
  induction e as [|[j w] e IH]; intros d; [done|]. cbn.
  intros [Hj He]%NoDup_cons. rewrite dict_lookup_cons.
  destruct (String.eqb_spec k j) as [->|].
  - intros [= ->]. change (dict_update (<[j:=v]> d) e !! j = Some v).
    rewrite dict_update_lookup_notin by done. apply dict_lookup_insert.
  - by apply IH.
Qed.

Lemma dict_set_absent {V} k (v : V) (d : dict V) : d !! k = None → <[k:=v]> d = d ++ [(k, v)].
Proof.
  dict_ops. induction d as [|[j w] d IH]; cbn; [done|]. destruct (k =s? j); [done|].
  intros H. by rewrite IH.
Qed.

(** Setting distinct new keys one after the other appends them. *)
Lemma dict_build {A V} (key : A → string) (f : A → V) (l : list A) (acc : dict V) :
  NoDup (keys acc ++ map key l) →
  foldl (λ d x, <[key x := f x]> d) acc l = acc ++ map (λ x, (key x, f x)) l.
Proof.
  revert acc. induction l as [|x l IH]; intros acc; cbn; [by intros _; rewrite app_nil_r|]. intros Hnd.
  assert (acc !! key x = None) as Hn.
  { apply dict_lookup_none. apply NoDup_app in Hnd as (_ & H & _). intros Hk.
    apply (H _ Hk), elem_of_cons. by left. }
  rewrite IH; rewrite (dict_set_absent _ _ _ Hn); [by rewrite <-app_assoc|].
  unfold keys. rewrite map_app, <-app_assoc. exact Hnd.
Qed.

(** [dict(pairs)] for distinct keys. *)
Lemma dict_update_distinct {V} (d : dict V) : dict_wf d → dict_update [] d = d.
Proof.
  intros H. unfold dict_update. rewrite (dict_build fst snd d []) by exact H.
  cbn. rewrite <-(map_id d) at 2. apply map_ext. by intros [].
Qed.

(** * What holds of every row *)

Lemma Forall_insert {V} (P : V → Prop) k v (d : dict V) :
  Forall (λ p, P p.2) d → P v → Forall (λ p, P p.2) (<[k:=v]> d).
Proof.
  intros H Hv. unfold insert, dict_insert. induction H as [|[j w] d Hw Hd IH]; cbn; [by repeat constructor|].
  by destruct (k =s? j); constructor.
Qed.

Lemma Forall_row {V} (P : V → Prop) k v (d : dict V) : Forall (λ p, P p.2) d → d !! k = Some v → P v.
Proof. intros H E%dict_lookup_elem. rewrite Forall_forall in H. by apply (H (k, v)). Qed.

Lemma dict_update_wf {V} (d e : dict V) : dict_wf d → dict_wf (dict_update d e).
Proof.
  unfold dict_update. revert d. induction e as [|[k v] e IH]; intros d H; [done|]. by apply IH, dict_wf_insert.
Qed.

Lemma dict_update_has_key {V} k (d e : dict V) : has_key k d = true → has_key k (dict_update d e) = true.
Proof.
  unfold dict_update. revert d. induction e as [|[j v] e IH]; intros d H; [done|]. apply IH.
  rewrite has_key_true in *. rewrite dict_lookup_insert_case. by case_decide.
Qed.

Create HintDb dict discriminated.
#[export] Hint Resolve dict_wf_nil dict_wf_insert dict_wf_delete : dict.
#[export] Hint Rewrite @dict_lookup_insert @dict_map_lookup @dict_map_insert
  @dict_map_delete : dict.
