(* ===== verification/PyFloat.v ===== *)
(** Python's [float]: IEEE 754 binary64 with round to nearest even, over the
    Standard Library's [spec_float], which is executable and axiom free.

    Contents: arithmetic and comparison, [float(n)] of an integer, [int(x)],
    [float(text)] with correct rounding, and [repr(x)], the shortest decimal
    text that reads back as [x].  The order used by [max] on scores is total on
    the values that are not NaN.  The last part counts in binary64: additions of
    positive integers below 2^53 are exact, and [int(x)] gives the integer back. *)
From Stdlib Require Import SpecFloat Ascii.
From S2P Require Import Prelude PyStr.
Open Scope Z_scope.

Definition f64_prec : Z := 53.
Definition f64_emax : Z := 1024.

Abbreviation pyfloat := spec_float.

#[export] Instance pyfloat_eq_dec : EqDecision pyfloat.
Proof. solve_decision. Defined.

Definition fadd : pyfloat → pyfloat → pyfloat := SFadd f64_prec f64_emax.
Definition fsub : pyfloat → pyfloat → pyfloat := SFsub f64_prec f64_emax.
Definition fdiv : pyfloat → pyfloat → pyfloat := SFdiv f64_prec f64_emax.
Definition flt (x y : pyfloat) : bool := SFltb x y.
Definition feq (x y : pyfloat) : bool := SFeqb x y.

Definition is_nan (x : pyfloat) : bool :=
  match x with S754_nan => true | _ => false end.

Definition fzero : pyfloat := S754_zero false.

(** The integer [n] rounded to binary64, infinite when out of range. *)
Definition f_round (n : Z) : pyfloat := binary_normalize f64_prec f64_emax n 0 false.

(** [float(n)]: an integer too large for binary64 raises. *)
Definition float_of_int (n : Z) : res pyfloat :=
  match f_round n with
  | S754_infinity _ => Raise OverflowError
  | x => Ok x
  end.

(** [int(x)]: truncation towards zero. *)
Definition int_of_float (x : pyfloat) : res Z :=
  match x with
  | S754_nan => Raise (ValueError "cannot convert float NaN to integer")
  | S754_infinity _ => Raise OverflowError
  | S754_zero _ => Ok 0
  | S754_finite s m e =>
      let q := if 0 <=? e then Zpos m * 2 ^ e else Zpos m / 2 ^ (- e) in
      Ok (if s then - q else q)
  end.

(** [bool(x)]: NaN is true. *)
Definition float_truthy (x : pyfloat) : bool :=
  match x with S754_zero _ => false | _ => true end.

(** * Reading and printing decimals *)

(** [m * 10 ^ e] for a natural [m], correctly rounded. *)
Definition f_of_decimal (neg : bool) (m e : Z) : pyfloat :=
  match m with
  | Zpos p =>
      if 0 <=? e then
        match m * 10 ^ e with
        | Zpos q => binary_round f64_prec f64_emax neg q 0
        | _ => S754_zero neg
        end
      else
        match 10 ^ (- e) with
        | Zpos q =>
            let '(mz, ez, lz) := SFdiv_core_binary f64_prec f64_emax (Zpos p) 0 (Zpos q) 0 in
            binary_round_aux f64_prec f64_emax neg mz ez lz
        | _ => S754_zero neg
        end
  | _ => S754_zero neg
  end.

Fixpoint span_digits (l : list ascii) : list ascii * list ascii :=
  match l with
  | c :: l' => if is_digit c then let '(a, b) := span_digits l' in (c :: a, b) else ([], l)
  | [] => ([], [])
  end.

(** Underscores are accepted between two digits, and removed. *)
Fixpoint drop_underscores (prev : bool) (l : list ascii) : option (list ascii) :=
  match l with
  | [] => Some []
  | c :: l' =>
      if Ascii.eqb c "_" then
        match l' with
        | d :: _ => if prev && is_digit d then drop_underscores false l' else None
        | [] => None
        end
      else cons c <$> drop_underscores (is_digit c) l'
  end.

Definition exponent_of (l : list ascii) : option Z :=
  match l with
  | [] => Some 0
  | c :: l' =>
      if Ascii.eqb c "e" || Ascii.eqb c "E" then
        let '(sg, ds) := match l' with
                         | "-"%char :: k => (-1, k)
                         | "+"%char :: k => (1, k)
                         | k => (1, k)
                         end in
        match span_digits ds with
        | (d :: k, []) => Some (sg * digits_value (d :: k))
        | _ => None
        end
      else None
  end.

Definition number_of (neg : bool) (l : list ascii) : option pyfloat :=
  let '(ip, r) := span_digits l in
  let '(fp, r) := match r with "."%char :: k => span_digits k | _ => ([], r) end in
  match ip ++ fp with
  | [] => None
  | ds => e ← exponent_of r;
          Some (f_of_decimal neg (digits_value ds) (e - Z.of_nat (length fp)))
  end.

(** [float(text)]. *)
Definition float_of_text (s : string) : res pyfloat :=
  let t := strip s in
  let '(neg, l) := match chars t with
                   | "-"%char :: k => (true, k)
                   | "+"%char :: k => (false, k)
                   | k => (false, k)
                   end in
  let w := lower (of_chars l) in
  if (w =s? "inf") || (w =s? "infinity") then Ok (S754_infinity neg)
  else if w =s? "nan" then Ok S754_nan
  else match drop_underscores false l ≫= number_of neg with
       | Some x => Ok x
       | None => Raise (ValueError "could not convert string to float")
       end.

(** [num / den] to the nearest integer, ties to even. *)
Definition div_half_even (num den : Z) : Z :=
  let q := num / den in let r := num mod den in
  if 2 * r <? den then q else if den <? 2 * r then q + 1
  else if Z.even q then q else q + 1.

(** [num/den >= 10 ^ k]. *)
Definition ge_pow10 (num den k : Z) : bool :=
  if 0 <=? k then 10 ^ k * den <=? num else den <=? num * 10 ^ (- k).

(** The [n]-digit decimal nearest to [num/den], as digits and decimal point. *)
Definition digits_at (num den k : Z) (n : nat) : Z * Z :=
  let sh := Z.of_nat n - k in
  let q := if 0 <=? sh then div_half_even (num * 10 ^ sh) den
           else div_half_even num (den * 10 ^ (- sh)) in
  if 10 ^ Z.of_nat n <=? q then (q / 10, k + 1) else (q, k).

Fixpoint shortest (fuel : nat) (x : pyfloat) (num den k : Z) (n : nat) : Z * Z * nat :=
  let '(q, k') := digits_at num den k n in
  match fuel with
  | O => (q, k', n)
  | S f => if decide (f_of_decimal false q (k' - Z.of_nat n) = x) then (q, k', n)
           else shortest f x num den k (S n)
  end.

Definition zeros (n : Z) : string := of_chars (replicate (Z.to_nat n) "0"%char).

(** Digits [ds] with the decimal point after [k] of them, as [repr] lays them
out: plain between 1e-4 and 1e16, with an exponent outside. *)
Definition layout (ds : string) (k : Z) : string :=
  let n := Z.of_nat (String.length ds) in
  if (-4 <? k) && (k <=? 16) then
    if k <=? 0 then "0." +:+ zeros (- k) +:+ ds
    else if n <=? k then ds +:+ zeros (k - n) +:+ ".0"
    else str_take (Z.to_nat k) ds +:+ "." +:+ of_chars (drop (Z.to_nat k) (chars ds))
  else
    let e := k - 1 in
    let ed := dec (Z.abs e) in
    str_take 1 ds
    +:+ (if n =? 1 then "" else "." +:+ of_chars (drop 1 (chars ds)))
    +:+ "e" +:+ (if e <? 0 then "-" else "+")
    +:+ (if (String.length ed <? 2)%nat then "0" else "") +:+ ed.

(** [repr(x)], which is also [str(x)]. *)
Definition float_repr (x : pyfloat) : string :=
  match x with
  | S754_nan => "nan"
  | S754_infinity s => if s then "-inf" else "inf"
  | S754_zero s => if s then "-0.0" else "0.0"
  | S754_finite s m e =>
      let num := if 0 <=? e then Zpos m * 2 ^ e else Zpos m in
      let den := if 0 <=? e then 1 else 2 ^ (- e) in
      let k0 := (Z.log2 (Zpos m) + e) * 30103 / 100000 in
      let k := if ge_pow10 num den (k0 + 1) then k0 + 2
               else if ge_pow10 num den k0 then k0 + 1
               else if ge_pow10 num den (k0 - 1) then k0 else k0 - 1 in
      let '(q, k', n) := shortest 16 (S754_finite false m e) num den k 1 in
      (if s then "-" else "") +:+ layout (dec q) k'
  end.

(** * The order on floats *)

Lemma SFcompare_antisym x y : SFcompare y x = CompOpp <$> SFcompare x y.
Proof.
  assert (∀ m n, Pos.compare_cont Eq n m = CompOpp (Pos.compare_cont Eq m n)) as Hp
    by (intros; apply Pos.compare_antisym).
  destruct x as [[]|[]| |[] m e], y as [[]|[]| |[] m' e']; try done; cbn;
    rewrite (Z.compare_antisym e e'); destruct (e ?= e')%Z; cbn; try done;
    by rewrite Hp.
Qed.

Lemma SFcompare_some x y : is_nan x = false → is_nan y = false → is_Some (SFcompare x y).
Proof. destruct x as [[]|[]| |[]], y as [[]|[]| |[]]; cbn; intros; try done; eauto. Qed.

(** Comparison is a strict order: a value is not below itself. *)
Lemma flt_irrefl x : flt x x = false.
Proof.
  unfold flt, SFltb. pose proof (SFcompare_antisym x x) as H.
  by destruct (SFcompare x x) as [[]|]; cbn in H.
Qed.

Lemma flt_asym x y : flt x y = true → flt y x = false.
Proof.
  unfold flt, SFltb. rewrite (SFcompare_antisym x y).
  by destruct (SFcompare x y) as [[]|].
Qed.

Lemma flt_trans x y z : flt x y = true → flt y z = true → flt x z = true.
Proof.
  assert (∀ m n p, Pos.compare_cont Eq m n = Lt → Pos.compare_cont Eq n p = Lt →
    Pos.compare_cont Eq m p = Lt) as Hp.
  { intros m n p H1 H2. change (m < n)%positive in H1. change (n < p)%positive in H2.
    change (m < p)%positive. lia. }
  assert (∀ m n, Pos.compare_cont Eq n m = CompOpp (Pos.compare_cont Eq m n)) as Ha
    by (intros; apply Pos.compare_antisym).
  unfold flt, SFltb.
  destruct x as [[]|[]| |[] m e], y as [[]|[]| |[] m' e'], z as [[]|[]| |[] m'' e''];
    cbn; try done;
    destruct (Z.compare_spec e e'), (Z.compare_spec e' e''), (Z.compare_spec e e'');
    subst; try done; try lia; rewrite <-?Ha;
    destruct (Pos.compare_cont Eq m m') eqn:E1, (Pos.compare_cont Eq m' m'') eqn:E2;
    rewrite ?(Ha m m'), ?(Ha m' m''), ?E1, ?E2; try done.
  - intros _ _. rewrite (Hp m'' m' m); [done| |]; by rewrite Ha, ?E1, ?E2.
  - intros _ _. by rewrite (Hp m m' m'').
Qed.

Lemma flt_feq x y : flt x y = true → feq x y = false.
Proof. unfold flt, feq, SFltb, SFeqb. by destruct (SFcompare x y) as [[]|]. Qed.

Lemma flt_trichotomy x y :
  is_nan x = false → is_nan y = false → flt x y = true ∨ feq x y = true ∨ flt y x = true.
Proof.
  intros Hx Hy. unfold flt, feq, SFltb, SFeqb. rewrite (SFcompare_antisym x y).
  destruct (SFcompare_some x y Hx Hy) as [[] ->]; cbn; auto.
Qed.

(** Equal floats are the same float, or two zeros. *)
Lemma feq_cases x y :
  feq x y = true → x = y ∨ ∃ a b, x = S754_zero a ∧ y = S754_zero b.
Proof.
  unfold feq, SFeqb. destruct x as [a|[]| |[] m e], y as [b|[]| |[] m' e']; cbn; eauto; try done.
  all: destruct (Z.compare_spec e e') as [->| |]; try done.
  all: destruct (Pos.compare_cont Eq m m') eqn:E; try done; intros _; left; f_equal;
    by apply Pos.compare_eq.
Qed.

Lemma feq_compare x y z : feq x y = true → SFcompare x z = SFcompare y z.
Proof.
  intros [->|(a & b & -> & ->)]%feq_cases; [done|]. by destruct z as [[]|[]| |[]].
Qed.

Lemma feq_compare_r x y z : feq x y = true → SFcompare z x = SFcompare z y.
Proof. intros H. by rewrite (SFcompare_antisym x z), (SFcompare_antisym y z), (feq_compare x y). Qed.

Lemma feq_sym x y : feq x y = feq y x.
Proof.
  unfold feq, SFeqb. rewrite (SFcompare_antisym x y). by destruct (SFcompare x y) as [[]|].
Qed.

(** [not x > y] composes through a number. *)
Lemma flt_not_trans x y z : is_nan y = false → flt y x = false → flt z y = false → flt z x = false.
Proof.
  intros Hy H1 H2. destruct (is_nan x) eqn:Hx; [by destruct x, z|].
  destruct (is_nan z) eqn:Hz; [by destruct z|]. destruct (flt z x) eqn:E; [|done].
  destruct (flt_trichotomy x y Hx Hy) as [H|[H|H]]; [|..|congruence].
  - by rewrite (flt_trans _ _ _ E H) in H2.
  - unfold flt, SFltb in E, H2. by rewrite (feq_compare_r _ _ z H), H2 in E.
Qed.

Example repr_tenth : float_repr (f_of_decimal false 1 (-1)) = "0.1".
Proof. vm_compute. reflexivity. Qed.
Example repr_third : float_repr (fdiv (f_round 1) (f_round 3)) = "0.3333333333333333".
Proof. vm_compute. reflexivity. Qed.
Example repr_sum : float_repr (fadd (f_of_decimal false 1 (-1)) (f_of_decimal false 2 (-1)))
                   = "0.30000000000000004".
Proof. vm_compute. reflexivity. Qed.
Example repr_big : float_repr (f_of_decimal true 1 22) = "-1e+22".
Proof. vm_compute. reflexivity. Qed.
Example repr_text : (float_repr <$> float_of_text " 1_2.50e-7 ") = Ok "1.25e-06".
Proof. vm_compute. reflexivity. Qed.
Example repr_int : float_repr (f_round (-1234)) = "-1234.0".
Proof. vm_compute. reflexivity. Qed.

(** * Counting *)

Definition fle (x y : pyfloat) : bool := SFleb x y.

(** [round(x)] with one argument: the nearest integer, ties to even. *)
Definition round_half_even (x : pyfloat) : res Z :=
  match x with
  | S754_nan => Raise (ValueError "cannot convert float NaN to integer")
  | S754_infinity _ => Raise OverflowError
  | S754_zero _ => Ok 0
  | S754_finite s m e =>
      let q := if 0 <=? e then Zpos m * 2 ^ e else div_half_even (Zpos m) (2 ^ (- e)) in
      Ok (if s then - q else q)
  end.

Definition fmul : pyfloat → pyfloat → pyfloat := SFmul f64_prec f64_emax.

(** [round(x, 6)]: the decimal with six places nearest to the exact value, ties to
even, as the nearest float. *)
Definition round6 (x : pyfloat) : pyfloat :=
  match x with
  | S754_finite s m e =>
      let num := if 0 <=? e then Zpos m * 2 ^ e else Zpos m in
      let den := if 0 <=? e then 1 else 2 ^ (- e) in
      f_of_decimal s (div_half_even (num * 10 ^ 6) den) (- 6)
  | _ => x
  end.

(** [x.is_integer()]. *)
Definition is_integer (x : pyfloat) : bool :=
  match x with
  | S754_zero _ => true
  | S754_finite _ m e => (0 <=? e) || (Zpos m mod 2 ^ (- e) =? 0)
  | _ => false
  end.

Lemma digits_log2 p : Zpos (digits2_pos p) = Z.log2 (Zpos p) + 1.
Proof.
  induction p as [p IH|p IH|]; cbn [digits2_pos]; [| |done]; rewrite Pos2Z.inj_succ, IH.
  - rewrite Pos2Z.inj_xI, Z.log2_succ_double by lia. lia.
  - rewrite Pos2Z.inj_xO, Z.log2_double by lia. lia.
Qed.

Lemma iter_xO m d : Zpos (Pos.iter xO m d) = Zpos m * 2 ^ Zpos d.
Proof.
  revert m. induction d as [|d IH] using Pos.peano_ind; intros m; [cbn; lia|].
  rewrite Pos.iter_succ, Pos2Z.inj_xO, IH, Pos2Z.inj_succ, Z.pow_succ_r by lia. lia.
Qed.

Lemma shr_1_even m : 0 < m → shr_1 {| shr_m := 2 * m; shr_r := false; shr_s := false |}
  = {| shr_m := m; shr_r := false; shr_s := false |}.
Proof. by destruct m. Qed.

Lemma shr_exact p m : 0 < m →
  SpecFloat.iter_pos shr_1 p {| shr_m := m * 2 ^ Zpos p; shr_r := false; shr_s := false |}
  = {| shr_m := m; shr_r := false; shr_s := false |}.
Proof.
  revert m. induction p as [p IH|p IH|]; intros m Hm; cbn [SpecFloat.iter_pos].
  - replace (m * 2 ^ Zpos p~1) with (2 * (m * 2 ^ Zpos p * 2 ^ Zpos p)).
    + rewrite shr_1_even by (pose proof (Z.pow_pos_nonneg 2 (Zpos p)); nia).
      rewrite IH by (pose proof (Z.pow_pos_nonneg 2 (Zpos p)); nia). by apply IH.
    + rewrite (Pos2Z.inj_xI p). replace (2 * Zpos p + 1) with (1 + Zpos p + Zpos p) by lia.
      rewrite !Z.pow_add_r by lia. lia.
  - replace (m * 2 ^ Zpos p~0) with (m * 2 ^ Zpos p * 2 ^ Zpos p).
    + rewrite IH by (pose proof (Z.pow_pos_nonneg 2 (Zpos p)); nia). by apply IH.
    + rewrite (Pos2Z.inj_xO p). replace (2 * Zpos p) with (Zpos p + Zpos p) by lia.
      rewrite Z.pow_add_r by lia. lia.
  - replace (m * 2 ^ 1) with (2 * m) by lia. by apply shr_1_even.
Qed.

(** The number of binary digits, and the 53-digit mantissa, of a positive integer. *)
Definition bits (n : Z) : Z := Z.log2 n + 1.
Definition mantissa (n : Z) : positive := Z.to_pos (n * 2 ^ (53 - bits n)).

Lemma bits_bound n : 0 < n < 2 ^ 53 → 1 ≤ bits n ≤ 53.
Proof.
  intros [H1 H2]. unfold bits. pose proof (Z.log2_nonneg n). apply Z.log2_lt_pow2 in H2; [lia|done].
Qed.

Lemma mantissa_eq n : 0 < n < 2 ^ 53 → Zpos (mantissa n) = n * 2 ^ (53 - bits n).
Proof.
  intros H. unfold mantissa. rewrite Z2Pos.id; [done|]. pose proof (bits_bound n H).
  pose proof (Z.pow_pos_nonneg 2 (53 - bits n)). nia.
Qed.

Lemma digits_shifted n j p : 0 < n → 0 ≤ j → Zpos p = n * 2 ^ j → Zpos (digits2_pos p) = bits n + j.
Proof. intros Hn Hj Hp. rewrite digits_log2, Hp, Z.log2_mul_pow2 by lia. unfold bits. lia. Qed.

Lemma fexp_f64 e : -1021 ≤ e → fexp f64_prec f64_emax e = e - 53.
Proof. unfold fexp, emin, f64_prec, f64_emax. lia. Qed.

Lemma shr_fexp_canonical n : 0 < n < 2 ^ 53 →
  shr_fexp f64_prec f64_emax (Zpos (mantissa n)) (bits n - 53) loc_Exact
  = ({| shr_m := Zpos (mantissa n); shr_r := false; shr_s := false |}, bits n - 53).
Proof.
  intros H. pose proof (bits_bound n H). unfold shr_fexp. cbn [Zdigits2].
  rewrite (digits_shifted n (53 - bits n)) by (lia || by apply mantissa_eq).
  rewrite fexp_f64 by lia.
  by replace (bits n + (53 - bits n) + (bits n - 53) - 53 - (bits n - 53)) with 0 by lia.
Qed.

(** Scaling an integer by [2 ^ j] and taking the exponent [-j] rounds nothing. *)
Lemma normalize_exact n j : 0 < n < 2 ^ 53 → 0 ≤ j →
  binary_normalize f64_prec f64_emax (n * 2 ^ j) (- j) false = S754_finite false (mantissa n) (bits n - 53).
Proof.
  intros H Hj. pose proof (bits_bound n H) as Hb. pose proof (mantissa_eq n H) as Hm.
  assert (0 < n * 2 ^ j) as Hpos by (pose proof (Z.pow_pos_nonneg 2 j); nia).
  destruct (n * 2 ^ j) as [|p|p] eqn:Hp; [lia| |lia]. cbn [binary_normalize]. unfold binary_round.
  rewrite (digits_shifted n j p) by (lia || by symmetry). rewrite fexp_f64 by lia.
  replace (bits n + j + - j - 53) with (bits n - 53) by lia.
  assert (∀ mz ez, shr_fexp f64_prec f64_emax (Zpos mz) ez loc_Exact
      = ({| shr_m := Zpos (mantissa n); shr_r := false; shr_s := false |}, bits n - 53) →
    binary_round_aux f64_prec f64_emax false (Zpos mz) ez loc_Exact
      = S754_finite false (mantissa n) (bits n - 53)) as Haux.
  { intros mz ez Hs. unfold binary_round_aux. rewrite Hs. cbn [shr_m loc_of_shr_record round_nearest_even].
    rewrite shr_fexp_canonical by done. cbn [shr_m].
    destruct (Z.leb_spec (bits n - 53) (f64_emax - f64_prec)); [done|]. unfold f64_emax, f64_prec in *. lia. }
  unfold shl_align. destruct (bits n - 53 - - j) as [|d|d] eqn:Hd.
  - apply Haux. replace p with (mantissa n); [|].
    + replace (- j) with (bits n - 53) by lia. by apply shr_fexp_canonical.
    + enough (Zpos (mantissa n) = Zpos p) by congruence. rewrite Hm, <-Hp. f_equal. f_equal. lia.
  - apply Haux. unfold shr_fexp. cbn [Zdigits2]. rewrite (digits_shifted n j p) by (lia || by symmetry).
    rewrite fexp_f64 by lia. replace (bits n + j + - j - 53 - - j) with (Zpos d) by lia.
    cbn [shr shr_record_of_loc]. replace (Zpos p) with (Zpos (mantissa n) * 2 ^ Zpos d).
    + rewrite shr_exact by lia. f_equal. lia.
    + rewrite Hm, <-Hp, <-Z.mul_assoc, <-Z.pow_add_r by lia. f_equal. f_equal. lia.
  - apply Haux. replace (Pos.iter xO p d) with (mantissa n); [by apply shr_fexp_canonical|].
    enough (Zpos (mantissa n) = Zpos (Pos.iter xO p d)) by congruence.
    rewrite iter_xO, Hm, <-Hp, <-Z.mul_assoc, <-Z.pow_add_r by lia. f_equal. f_equal. lia.
Qed.

Lemma f_round_pos n : 0 < n < 2 ^ 53 → f_round n = S754_finite false (mantissa n) (bits n - 53).
Proof.
  intros H. unfold f_round. rewrite <-(normalize_exact n 0) by (done || lia).
  by rewrite Z.pow_0_r, Z.mul_1_r.
Qed.

Lemma shl_align_mantissa n ez : 0 < n < 2 ^ 53 → ez ≤ bits n - 53 →
  Zpos (fst (shl_align (mantissa n) (bits n - 53) ez)) = n * 2 ^ (- ez).
Proof.
  intros H He. pose proof (bits_bound n H). pose proof (mantissa_eq n H) as Hm.
  unfold shl_align. destruct (ez - (bits n - 53)) as [|d|d] eqn:Hd; cbn [fst]; [|lia|].
  - rewrite Hm. f_equal. f_equal. lia.
  - rewrite iter_xO, Hm, <-Z.mul_assoc, <-Z.pow_add_r by lia. f_equal. f_equal. lia.
Qed.

Lemma fadd_integers a b : 0 < a → 0 < b → a + b < 2 ^ 53 → fadd (f_round a) (f_round b) = f_round (a + b).
Proof.
  intros Ha Hb Hab. rewrite !f_round_pos by lia. cbn [fadd SFadd cond_Zopp]. unfold fadd. cbn [SFadd].
  set (ez := Z.min (bits a - 53) (bits b - 53)). pose proof (bits_bound a ltac:(lia)).
  pose proof (bits_bound b ltac:(lia)). cbn [cond_Zopp].
  rewrite !shl_align_mantissa by lia. rewrite <-Z.mul_add_distr_r.
  replace ez with (- - ez) at 2 by lia. apply normalize_exact; lia.
Qed.

Lemma int_of_f_round n : 0 < n < 2 ^ 53 → int_of_float (f_round n) = Ok n.
Proof.
  intros H. pose proof (bits_bound n H). rewrite f_round_pos by done. unfold int_of_float.
  rewrite (mantissa_eq n H). f_equal. destruct (Z.leb_spec 0 (bits n - 53)).
  - replace (bits n) with 53 by lia. rewrite Z.sub_diag. lia.
  - replace (- (bits n - 53)) with (53 - bits n) by lia. apply Z.div_mul. lia.
Qed.
