(* ===== verification/PyJson.v ===== *)
(** JSON-like values: what a [dict[str, Any]] of the code holds.

    [json] has the shapes a JSON document has; object keys are strings.  The
    file defines the conversions the code applies to such values ([bool(x)],
    [x or y], [str(x)], [int(x)], [float(x)], [dict(x)], indexing and [get])
    with the exceptions they raise, and [json.dumps] in the canonical form the
    code signs (sorted keys, no spaces, ASCII only).  A conversion that would
    build a dict with a key that is not a string raises [TypeError] here. *)
From Stdlib Require Import SpecFloat Ascii.
From S2P Require Import Prelude PyStr PyDict PyFloat.
Open Scope Z_scope.

Inductive json : Type :=
  | JNull
  | JBool (b : bool)
  | JInt (n : Z)
  | JFloat (x : pyfloat)
  | JStr (s : string)
  | JList (l : list json)
  | JObj (d : list (string * json)).

(** The induction principle with hypotheses for the nested values. *)
Section json_ind.
Context (P : json → Prop).
Hypothesis (Hnull : P JNull) (Hbool : ∀ b, P (JBool b)) (Hint : ∀ n, P (JInt n)).
Hypothesis (Hfloat : ∀ x, P (JFloat x)) (Hstr : ∀ s, P (JStr s)).
Hypothesis (Hlist : ∀ l, Forall P l → P (JList l)).
Hypothesis (Hobj : ∀ d, Forall (λ p, P p.2) d → P (JObj d)).

Fixpoint json_nested_ind (j : json) : P j :=
  match j with
  | JNull => Hnull
  | JBool b => Hbool b
  | JInt n => Hint n
  | JFloat x => Hfloat x
  | JStr s => Hstr s
  | JList l =>
      Hlist l ((fix go l : Forall P l :=
        match l with
        | [] => Forall_nil_2 _
        | x :: l' => Forall_cons_2 _ x l' (json_nested_ind x) (go l')
        end) l)
  | JObj d =>
      Hobj d ((fix go d : Forall (λ p, P p.2) d :=
        match d with
        | [] => Forall_nil_2 _
        | p :: d' => Forall_cons_2 _ p d' (json_nested_ind p.2) (go d')
        end) d)
  end.
End json_ind.

Abbreviation jobject := (dict json).

(** Text or [None]. *)
Definition jopt (o : option string) : json :=
  match o with Some s => JStr s | None => JNull end.

Definition jstrs (l : list string) : json := JList (map JStr l).

(** * Truth, indexing, membership *)

(** [bool(x)]. *)
Definition truthy (j : json) : bool :=
  match j with
  | JNull => false
  | JBool b => b
  | JInt n => negb (n =? 0)
  | JFloat x => float_truthy x
  | JStr s => negb (s =s? "")
  | JList l => match l with [] => false | _ => true end
  | JObj d => match d with [] => false | _ => true end
  end.

(** [x or y]. *)
Definition py_or (x y : json) : json := if truthy x then x else y.

(** [d.get(k)]: [None] when the key is missing. *)
Definition jget (d : jobject) (k : string) : json := default JNull (d !! k).

(** [d.get(k, default)]. *)
Definition jget_or (d : jobject) (k : string) (dflt : json) : json := default dflt (d !! k).

(** [d[k]]. *)
Definition jitem (d : jobject) (k : string) : res json :=
  match d !! k with Some v => Ok v | None => Raise (KeyError k) end.

(** [x.get(k)] and [x[k]] on a value that should be an object. *)
Definition obj_get (j : json) (k : string) : res json :=
  match j with JObj d => Ok (jget d k) | _ => Raise AttributeError end.

Definition obj_item (j : json) (k : string) : res json :=
  match j with JObj d => jitem d k | _ => Raise TypeError end.

(** [x == "text"]. *)
Definition is_text (j : json) (s : string) : bool :=
  match j with JStr t => t =s? s | _ => false end.

(** A value used as a set element or a dict key: lists and dicts are not
hashable; no other value than text equals a string key. *)
Definition hashed (j : json) : res (option string) :=
  match j with
  | JStr s => Ok (Some s)
  | JList _ | JObj _ => Raise TypeError
  | _ => Ok None
  end.

(** * [str(x)], [int(x)], [float(x)], [dict(x)] *)

Definition hex_digit (n : N) : ascii :=
  ascii_of_N (if (n <? 10)%N then 48 + n else 87 + n)%N.
Definition hex2 (n : N) : string :=
  of_chars [hex_digit (n / 16); hex_digit (n mod 16)]%N.

Definition printable (n : N) : bool :=
  ((32 <=? n) && (n <? 127) || (161 <=? n) && negb (n =? 173))%N.

Definition dquote : ascii := ascii_of_N 34.

(** [repr(text)]. *)
Definition repr_str (s : string) : string :=
  let l := chars s in
  let has c := existsb (Ascii.eqb c) l in
  let q : ascii := if has "'"%char && negb (has dquote) then dquote else "'"%char in
  let esc (c : ascii) : string :=
    let n := code c in
    if Ascii.eqb c "\" then "\\"
    else if Ascii.eqb c q then String "\" (String c "")
    else if (n =? 9)%N then "\t" else if (n =? 10)%N then "\n"
    else if (n =? 13)%N then "\r"
    else if printable n then String c "" else "\x" +:+ hex2 n in
  String q "" +:+ String.concat "" (map esc l) +:+ String q "".

Fixpoint py_repr (j : json) : string :=
  match j with
  | JNull => "None"
  | JBool b => if b then "True" else "False"
  | JInt n => dec n
  | JFloat x => float_repr x
  | JStr s => repr_str s
  | JList l => "[" +:+ String.concat ", " (map py_repr l) +:+ "]"
  | JObj d =>
      "{" +:+ String.concat ", " (map (λ p, repr_str p.1 +:+ ": " +:+ py_repr p.2) d) +:+ "}"
  end.

(** [str(x)] and [f"{x}"]. *)
Definition py_str (j : json) : string :=
  match j with JStr s => s | _ => py_repr j end.

Definition py_int (j : json) : res Z :=
  match j with
  | JInt n => Ok n
  | JBool b => Ok (if b then 1 else 0)
  | JFloat x => int_of_float x
  | JStr s => int_of_text s
  | _ => Raise TypeError
  end.

Definition py_float (j : json) : res pyfloat :=
  match j with
  | JFloat x => Ok x
  | JInt n => float_of_int n
  | JBool b => float_of_int (if b then 1 else 0)
  | JStr s => float_of_text s
  | _ => Raise TypeError
  end.

(** [int(d.get(k) or 0)], the way every counter of a row is read. *)
Definition int_field (d : jobject) (k : string) : res Z := py_int (py_or (jget d k) (JInt 0)).

(** The pair an element of [dict(iterable)] stands for. *)
Definition pair_of (j : json) : res (string * json) :=
  match j with
  | JList [JStr k; v] => Ok (k, v)
  | JStr (String a (String b "")) => Ok (String a "", JStr (String b ""))
  | JObj [(k, _); (v, _)] => Ok (k, JStr v)
  | JList [_; _] => Raise TypeError
  | JList _ | JStr _ | JObj _ => Raise (ValueError "dictionary update sequence")
  | _ => Raise TypeError
  end.

(** [dict(x)]: a copy of a dict, or the dict of an iterable of pairs. *)
Definition py_dict (j : json) : res jobject :=
  match j with
  | JObj d => Ok d
  | JList l => dict_update [] <$> res_map pair_of l
  | JStr s => dict_update [] <$> res_map pair_of (map (λ c, JStr (String c "")) (chars s))
  | _ => Raise TypeError
  end.

(** [[str(item) for item in x]]. *)
Definition py_str_list (j : json) : res (list string) :=
  match j with
  | JList l => Ok (map py_str l)
  | JObj d => Ok (keys d)
  | JStr s => Ok (map (λ c, String c "") (chars s))
  | _ => Raise TypeError
  end.

(** * [json.dumps(value, sort_keys=True, separators=(",", ":"))] *)

Definition dump_str (s : string) : string :=
  let esc (c : ascii) : string :=
    let n := code c in
    if (n =? 34)%N then String "\" (String c "")
    else if (n =? 92)%N then "\\"
    else if (n =? 8)%N then "\b" else if (n =? 9)%N then "\t"
    else if (n =? 10)%N then "\n" else if (n =? 12)%N then "\f"
    else if (n =? 13)%N then "\r"
    else if ((32 <=? n) && (n <=? 126))%N then String c "" else "\u00" +:+ hex2 n in
  String dquote "" +:+ String.concat "" (map esc (chars s)) +:+ String dquote "".

Definition dump_float (x : pyfloat) : string :=
  match x with
  | S754_nan => "NaN"
  | S754_infinity s => if s then "-Infinity" else "Infinity"
  | _ => float_repr x
  end.

Fixpoint canonical_json (j : json) : string :=
  match j with
  | JNull => "null"
  | JBool b => if b then "true" else "false"
  | JInt n => dec n
  | JFloat x => dump_float x
  | JStr s => dump_str s
  | JList l => "[" +:+ String.concat "," (map canonical_json l) +:+ "]"
  | JObj d =>
      "{" +:+ String.concat ","
        (map (λ p, dump_str p.1 +:+ ":" +:+ p.2)
           (sorted_items (map (λ p, (p.1, canonical_json p.2)) d))) +:+ "}"
  end.

(** * Facts *)

#[export] Instance json_eq_dec : EqDecision json.
Proof.
  unfold EqDecision. fix go 1. intros x y.
  destruct x as [|b|n|x|s|l|d], y as [|b'|n'|y|s'|l'|d'];
    try (right; discriminate); [left; reflexivity|..].
  - destruct (decide (b = b')) as [->|]; [by left|right; congruence].
  - destruct (decide (n = n')) as [->|]; [by left|right; congruence].
  - destruct (decide (x = y)) as [->|]; [by left|right; congruence].
  - destruct (decide (s = s')) as [->|]; [by left|right; congruence].
  - destruct (@list_eq_dec json go l l') as [->|]; [by left|right; congruence].
  - destruct (@list_eq_dec (string * json)
      (@prod_eq_dec string String.eq_dec json go) d d') as [->|]; [by left|right; congruence].
Defined.

Lemma py_or_text s y : s ≠ "" → py_or (JStr s) y = JStr s.
Proof. intros H. unfold py_or. cbn. by rewrite (proj2 (String.eqb_neq s "") H). Qed.

Lemma py_or_jopt o d : o ≠ Some "" → py_or (jopt o) d = match o with Some s => JStr s | None => d end.
Proof.
  destruct o as [s|]; [|done]. intros Hs. unfold py_or, truthy, jopt.
  destruct (String.eqb_spec s ""); [congruence|done].
Qed.

Lemma jget_insert_ne (d : jobject) k j v : k ≠ j → jget (<[k:=v]> d) j = jget d j.
Proof. intros. unfold jget. by rewrite dict_lookup_insert_ne. Qed.

Lemma jget_insert (d : jobject) k v : jget (<[k:=v]> d) k = v.
Proof. unfold jget. by rewrite dict_lookup_insert. Qed.

Lemma int_field_int (d : jobject) k n : jget d k = JInt n → int_field d k = Ok n.
Proof.
  unfold int_field. intros ->. unfold py_or, truthy.
  destruct (Z.eqb_spec n 0) as [->|]; done.
Qed.

(** * Hiding parts of a value

Redaction puts a mark in the place of values under some keys and of some texts,
at any depth. *)

(** [part] is the value or lies in it. *)
Inductive inside (part : json) : json → Prop :=
  | inside_here : inside part part
  | inside_list l x : x ∈ l → inside part x → inside part (JList l)
  | inside_object d k x : (k, x) ∈ d → inside part x → inside part (JObj d).

(** No object in the value has anything but the mark under a private key, and no
text in it is a secret one. *)
Record concealed (private secret : string → Prop) (value : json) : Prop := {
  cc_keys : ∀ d k x, inside (JObj d) value → (k, x) ∈ d → private k → x = JStr "[redacted]";
  cc_texts : ∀ s, inside (JStr s) value → ¬ secret s;
}.

Section redaction.
Context (hide : string → bool) (sec : string → bool).

Fixpoint redact_with (value : json) : json :=
  match value with
  | JObj d => JObj (map (λ p, (p.1, if hide p.1 then JStr "[redacted]" else redact_with p.2)) d)
  | JList l => JList (map redact_with l)
  | JStr s => if sec s then JStr "[redacted]" else value
  | _ => value
  end.

(** A function with these equations is [redact_with]. *)
Lemma redact_with_unique (f : json → json) :
  (∀ value, f value = match value with
                      | JObj d => JObj (map (λ p, (p.1, if hide p.1 then JStr "[redacted]" else f p.2)) d)
                      | JList l => JList (map f l)
                      | JStr s => if sec s then JStr "[redacted]" else value
                      | _ => value
                      end) → ∀ value, f value = redact_with value.
Proof.
  intros Hf value. induction value as [| | | |s|l IH|d IH] using json_nested_ind; rewrite Hf; try done; cbn [redact_with]; f_equal.
  - apply map_ext_in. intros x Hx%list_elem_of_In. rewrite Forall_forall in IH. auto.
  - apply map_ext_in. intros [k x] Hx%list_elem_of_In. rewrite Forall_forall in IH. specialize (IH _ Hx).
    cbn [fst snd] in *. by rewrite IH.
Qed.

Lemma concealed_list (P Q : string → Prop) l : concealed P Q (JList l) ↔ Forall (concealed P Q) l.
Proof.
  rewrite Forall_forall. split.
  - intros [Hk Ht] x Hx. split; [intros d k y Hi; apply (Hk d k y)|intros s Hi; apply (Ht s)]; by apply (inside_list _ _ x).
  - intros H. split.
    + intros d k y Hi. inversion Hi as [|l' x Hx Hi'|]; subst. by apply (H x Hx).
    + intros s Hi. inversion Hi as [|l' x Hx Hi'|]; subst. by apply (H x Hx).
Qed.

Lemma concealed_object (P Q : string → Prop) d : concealed P Q (JObj d) ↔
  Forall (λ p, (P p.1 → p.2 = JStr "[redacted]") ∧ concealed P Q p.2) d.
Proof.
  rewrite Forall_forall. split.
  - intros [Hk Ht] [k x] Hx. split; [apply (Hk d k x); [apply inside_here|done]|].
    split; [intros e j y Hi; apply (Hk e j y)|intros s Hi; apply (Ht s)]; by apply (inside_object _ _ k x).
  - intros H. split.
    + intros e j y Hi Hy Hj. inversion Hi as [| |d' k x Hx Hi']; subst; [by apply (H (j, y) Hy)|].
      destruct (H (k, x) Hx) as [_ [Hc _]]. by apply (Hc e j y).
    + intros s Hi. inversion Hi as [| |d' k x Hx Hi']; subst. by apply (H (k, x) Hx).
Qed.

Lemma concealed_text (P Q : string → Prop) s : concealed P Q (JStr s) ↔ ¬ Q s.
Proof.
  split; [intros [_ Ht]; apply Ht, inside_here|]. intros Hs. split.
  - intros d k x Hi. inversion Hi.
  - intros t Hi. inversion Hi; by subst.
Qed.

Lemma concealed_plain (P Q : string → Prop) value :
  match value with JStr _ | JList _ | JObj _ => False | _ => True end → concealed P Q value.
Proof. intros Hv. split; intros; destruct value; try done; by match goal with H : inside _ _ |- _ => inversion H end. Qed.

Context (P Q : string → Prop) (Hhide : ∀ k, hide k = true ↔ P k) (Hsec : ∀ s, sec s = true ↔ Q s).
Context (Hmark : sec "[redacted]" = false).

Lemma redact_conceals value : concealed P Q (redact_with value).
Proof.
  assert (concealed P Q (JStr "[redacted]")) as Hm by (apply concealed_text; rewrite <-Hsec, Hmark; done).
  induction value as [| | | |s|l IH|d IH] using json_nested_ind; cbn [redact_with];
    try (apply concealed_plain; exact I).
  - destruct (sec s) eqn:E; [done|]. apply concealed_text. by rewrite <-Hsec, E.
  - apply concealed_list, Forall_forall. intros x (y & -> & Hy)%list_elem_of_fmap. rewrite Forall_forall in IH. auto.
  - apply concealed_object, Forall_forall. intros x ([k v] & -> & Hy)%list_elem_of_fmap. cbn [fst snd].
    rewrite Forall_forall in IH. specialize (IH _ Hy). rewrite <-Hhide. by destruct (hide k).
Qed.

(** A value with nothing to hide is shown as it is. *)
Lemma redact_concealed value : concealed P Q value → redact_with value = value.
Proof.
  induction value as [| | | |s|l IH|d IH] using json_nested_ind; cbn [redact_with]; try done.
  - rewrite concealed_text, <-Hsec. by destruct (sec s).
  - rewrite concealed_list. intros H. f_equal. induction IH as [|x l Hx _ IHl]; [done|].
    apply Forall_cons in H as [H1 H2]. cbn [map]. by rewrite Hx, IHl.
  - rewrite concealed_object. intros H. f_equal. induction IH as [|[k x] d Hx _ IHd]; [done|].
    apply Forall_cons in H as [[H1 H1'] H2]. cbn [map fst snd] in *. rewrite IHd by done.
    destruct (hide k) eqn:E; [by rewrite H1 by by apply Hhide|by rewrite Hx].
Qed.
End redaction.

Example py_str_nested :
  py_str (JObj [("a", JList [JInt 1; JNull; JStr "it's"]); ("b", JFloat (f_round 2))])
  = "{'a': [1, None, " +:+ String dquote "it's" +:+ String dquote "], 'b': 2.0}".
Proof. vm_compute. reflexivity. Qed.

Example canonical_sorted :
  canonical_json (JObj [("b", JBool true); ("a", JList [JInt (-3); JNull])])
  = let q := String dquote "" in
    "{" +:+ q +:+ "a" +:+ q +:+ ":[-3,null]," +:+ q +:+ "b" +:+ q +:+ ":true}".
Proof. vm_compute. reflexivity. Qed.

Example int_text : int_of_text "  -1_024 " = Ok (-1024).
Proof. vm_compute. reflexivity. Qed.
