(* ===== verification/PyJsonText.v ===== *)
(** JSON text: [json.dumps] in insertion order, and [json.loads].

    [dumps spaced] is the encoder with ASCII output, with the separators ", "
    and ": " or with the compact ones.  [json_loads] is the standard library's
    decoder, which also reads [NaN] and the infinities: a recursive descent
    whose fuel is the length of the text, enough because every call consumes a
    character.  An escape above code point 255 is outside the text modelled
    here, and is refused.  The main result: what was printed is read back. *)
From Stdlib Require Import Ascii SpecFloat.
From stdpp Require Import pretty.
From S2P Require Import Prelude PyStr PyDict PyFloat PyJson.
Open Scope Z_scope.

Fixpoint dumps (spaced : bool) (j : json) : string :=
  let isep := if spaced then ", " else "," in
  let ksep := if spaced then ": " else ":" in
  match j with
  | JNull => "null"
  | JBool b => if b then "true" else "false"
  | JInt n => dec n
  | JFloat x => dump_float x
  | JStr s => dump_str s
  | JList l => "[" +:+ String.concat isep (map (dumps spaced) l) +:+ "]"
  | JObj d =>
      "{" +:+ String.concat isep (map (λ p, dump_str p.1 +:+ ksep +:+ dumps spaced p.2) d) +:+ "}"
  end.

(** * Tokens *)

Definition json_error {A} : res A := Raise (ValueError "JSONDecodeError").

Definition json_space (c : ascii) : bool :=
  let n := code c in ((n =? 32) || (n =? 9) || (n =? 10) || (n =? 13))%N.

Definition skip_space (l : list ascii) : list ascii := drop_while json_space l.

(** [eat w l]: [l] after the word [w]. *)
Fixpoint eat (w l : list ascii) : option (list ascii) :=
  match w, l with
  | [], _ => Some l
  | c :: w', d :: l' => if Ascii.eqb c d then eat w' l' else None
  | _, [] => None
  end.

Definition hex_val (c : ascii) : option N :=
  let n := code c in
  (if (48 <=? n) && (n <=? 57) then Some (n - 48)
   else if (97 <=? n) && (n <=? 102) then Some (n - 87)
   else if (65 <=? n) && (n <=? 70) then Some (n - 55) else None)%N.

(** The character of an escape other than [\u]. *)
Definition escape_of (c : ascii) : option ascii :=
  let n := code c in
  (if (n =? 34) || (n =? 92) || (n =? 47) then Some c
   else if n =? 98 then Some (ascii_of_N 8) else if n =? 102 then Some (ascii_of_N 12)
   else if n =? 110 then Some (ascii_of_N 10) else if n =? 114 then Some (ascii_of_N 13)
   else if n =? 116 then Some (ascii_of_N 9) else None)%N.

(** The rest of a string, after its opening quote. *)
Fixpoint scan_string (l : list ascii) : res (list ascii * list ascii) :=
  match l with
  | [] => json_error
  | c :: l' =>
      if Ascii.eqb c dquote then Ok ([], l')
      else if Ascii.eqb c "\" then
        match l' with
        | "u"%char :: a :: b :: d :: e :: r =>
            match hex_val a, hex_val b, hex_val d, hex_val e with
            | Some 0%N, Some 0%N, Some x, Some y =>
                '(s, r') ← scan_string r; Ok (ascii_of_N (16 * x + y) :: s, r')
            | _, _, _, _ => json_error
            end
        | d :: r =>
            match escape_of d with
            | Some c' => '(s, r') ← scan_string r; Ok (c' :: s, r')
            | None => json_error
            end
        | [] => json_error
        end
      else if (code c <? 32)%N then json_error
      else '(s, r) ← scan_string l'; Ok (c :: s, r)
  end.

Definition sign_of (l : list ascii) : list ascii * list ascii :=
  match l with "-"%char :: k => (["-"%char], k) | _ => ([], l) end.

Definition frac_of (l : list ascii) : list ascii * list ascii :=
  match l with
  | "."%char :: k => match span_digits k with
                     | ([], _) => ([], l)
                     | (ds, r) => ("."%char :: ds, r)
                     end
  | _ => ([], l)
  end.

Definition exp_of (l : list ascii) : list ascii * list ascii :=
  match l with
  | c :: k =>
      if Ascii.eqb c "e" || Ascii.eqb c "E" then
        let '(sg, k') := match k with
                         | "-"%char :: k' => (["-"%char], k')
                         | "+"%char :: k' => (["+"%char], k')
                         | _ => ([], k)
                         end in
        match span_digits k' with
        | ([], _) => ([], l)
        | (ds, r) => (c :: sg ++ ds, r)
        end
      else ([], l)
  | [] => ([], l)
  end.

Definition int_part (l : list ascii) : option (list ascii * list ascii) :=
  match l with
  | "0"%char :: k => Some (["0"%char], k)
  | c :: _ => if is_digit c then Some (span_digits l) else None
  | [] => None
  end.

(** A number: its text, whether it is a float, and what follows. *)
Definition scan_number (l : list ascii) : option (list ascii * bool * list ascii) :=
  let '(sg, l0) := sign_of l in
  '(ip, l1) ← int_part l0;
  let '(fp, l2) := frac_of l1 in
  let '(ep, l3) := exp_of l2 in
  Some (sg ++ ip ++ fp ++ ep, negb (match fp ++ ep with [] => true | _ => false end), l3).

Definition number_value (w : list ascii) (is_float : bool) : res json :=
  if is_float then JFloat <$> float_of_text (of_chars w) else JInt <$> int_of_text (of_chars w).

(** The constants, longest word first where one begins another. *)
Definition constants : list (string * json) :=
  [("null", JNull); ("true", JBool true); ("false", JBool false); ("NaN", JFloat S754_nan);
   ("Infinity", JFloat (S754_infinity false)); ("-Infinity", JFloat (S754_infinity true))].

Fixpoint scan_constant (cs : list (string * json)) (l : list ascii) : option (json * list ascii) :=
  match cs with
  | [] => None
  | (w, j) :: cs' => match eat (chars w) l with
                     | Some r => Some (j, r)
                     | None => scan_constant cs' l
                     end
  end.

Definition scan_scalar (l : list ascii) : res (json * list ascii) :=
  match scan_constant constants l with
  | Some jr => Ok jr
  | None => match scan_number l with
            | Some (w, f, r) => j ← number_value w f; Ok (j, r)
            | None => json_error
            end
  end.

(** * Values

[scan_value] reads a value, [scan_elements] the elements of an array up to
its closing bracket, [scan_members] the members of an object. *)
Fixpoint scan_value (n : nat) (l : list ascii) : res (json * list ascii) :=
  match n with
  | O => json_error
  | S n =>
      match l with
      | [] => json_error
      | c :: l' =>
          if Ascii.eqb c dquote then
            '(s, r) ← scan_string l'; Ok (JStr (of_chars s), r)
          else if Ascii.eqb c "[" then
            match skip_space l' with
            | "]"%char :: r => Ok (JList [], r)
            | l2 => '(js, r) ← scan_elements n l2; Ok (JList js, r)
            end
          else if Ascii.eqb c "{" then
            match skip_space l' with
            | "}"%char :: r => Ok (JObj [], r)
            | l2 => '(d, r) ← scan_members n l2; Ok (JObj (dict_update [] d), r)
            end
          else scan_scalar l
      end
  end
with scan_elements (n : nat) (l : list ascii) : res (list json * list ascii) :=
  match n with
  | O => json_error
  | S n =>
      '(j, r) ← scan_value n l;
      match skip_space r with
      | ","%char :: r' => '(js, r'') ← scan_elements n (skip_space r'); Ok (j :: js, r'')
      | "]"%char :: r' => Ok ([j], r')
      | _ => json_error
      end
  end
with scan_members (n : nat) (l : list ascii) : res (list (string * json) * list ascii) :=
  match n with
  | O => json_error
  | S n =>
      match l with
      | c :: l' =>
          if Ascii.eqb c dquote then
            '(k, r) ← scan_string l';
            match skip_space r with
            | ":"%char :: r' =>
                '(j, r) ← scan_value n (skip_space r');
                match skip_space r with
                | ","%char :: r' =>
                    '(d, r'') ← scan_members n (skip_space r'); Ok ((of_chars k, j) :: d, r'')
                | "}"%char :: r' => Ok ([(of_chars k, j)], r')
                | _ => json_error
                end
            | _ => json_error
            end
          else json_error
      | [] => json_error
      end
  end.

(** [json.loads(text)]. *)
Definition json_loads (s : string) : res json :=
  let l := skip_space (chars s) in
  '(j, r) ← scan_value (2 * length l + 1) l;
  match skip_space r with [] => Ok j | _ => json_error end.

(** [json.loads(bytes)]: UTF-8, read as far as the text modelled here goes.  The
byte order marks and the wider encodings are refused. *)
Fixpoint utf8_decode (l : list ascii) : option (list ascii) :=
  match l with
  | [] => Some []
  | c :: l' =>
      if (code c <? 128)%N then cons c <$> utf8_decode l'
      else match l' with
           | d :: l'' =>
               if ((194 <=? code c) && (code c <=? 195) && (128 <=? code d) && (code d <=? 191))%N
               then cons (ascii_of_N (64 * (code c - 192) + (code d - 128))) <$> utf8_decode l''
               else None
           | [] => None
           end
  end.

Definition json_loads_bytes (b : string) : res json :=
  match utf8_decode (chars b) with
  | Some l => json_loads (of_chars l)
  | None => Raise (ValueError "UnicodeDecodeError")
  end.

Definition quoted (s : string) : string := String dquote "" +:+ s +:+ String dquote "".

Example loads_1 : json_loads (" {" +:+ quoted "a" +:+ " : [1, -2.5e1 ,true], " +:+ quoted "b\u0041\n" +:+ ":{} } ")
  = Ok (JObj [("a", JList [JInt 1; JFloat (f_round (-25)); JBool true]);
              ("bA" +:+ String (ascii_of_N 10) "", JObj [])]).
Proof. vm_compute. reflexivity. Qed.
Example loads_2 : map (is_ok ∘ json_loads) ["[1,]"; "01"; "1 2"; "-"; "1."; "[]"; "-Infinity"; "nul"; quoted "\u0100"]
  = [false; false; false; false; false; true; true; false; false].
Proof. vm_compute. reflexivity. Qed.
Example loads_last : json_loads ("{" +:+ quoted "k" +:+ ":1," +:+ quoted "k" +:+ ":2}") = Ok (JObj [("k", JInt 2)]).
Proof. vm_compute. reflexivity. Qed.

(** * Round trip *)

Definition dump_esc (c : ascii) : string :=
  let n := code c in
  if (n =? 34)%N then String "\" (String c "")
  else if (n =? 92)%N then "\\"
  else if (n =? 8)%N then "\b" else if (n =? 9)%N then "\t"
  else if (n =? 10)%N then "\n" else if (n =? 12)%N then "\f"
  else if (n =? 13)%N then "\r"
  else if ((32 <=? n) && (n <=? 126))%N then String c "" else "\u00" +:+ hex2 n.

Lemma dump_str_eq s :
  dump_str s = String dquote (String.concat "" (map dump_esc (chars s)) +:+ String dquote "").
Proof. reflexivity. Qed.

Lemma chars_concat_nil l : chars (String.concat "" l) = concat (map chars l).
Proof.
  induction l as [|x l IH]; [done|]. destruct l as [|y l]; [cbn; by rewrite app_nil_r|].
  change (String.concat "" (x :: y :: l)) with (x +:+ ("" +:+ String.concat "" (y :: l))).
  rewrite chars_app. cbn [map concat]. f_equal. exact IH.
Qed.

Lemma scan_escaped c l :
  scan_string (chars (dump_esc c) ++ l) = '(s, r) ← scan_string l; Ok (c :: s, r).
Proof. destruct c as [[] [] [] [] [] [] [] []]; reflexivity. Qed.

Lemma scan_dumped s l :
  scan_string (chars (String.concat "" (map dump_esc (chars s)) +:+ String dquote "") ++ l)
  = Ok (chars s, l).
Proof.
  rewrite chars_app, chars_concat_nil. induction (chars s) as [|c k IH]; [done|].
  cbn [map concat]. rewrite <-!app_assoc in IH |- *. rewrite <-app_assoc. by rewrite scan_escaped, IH.
Qed.

(** What may follow a number. *)
Definition ends_number (l : list ascii) : bool :=
  match l with
  | [] => true
  | c :: _ => negb (is_digit c || Ascii.eqb c "." || Ascii.eqb c "e" || Ascii.eqb c "E")
  end.

Lemma span_digits_extend l ds r k : span_digits l = (ds, r) → ends_number k = true →
  span_digits (l ++ k) = (ds, r ++ k).
Proof.
  intros H Hk. revert ds r H. induction l as [|c l IH]; cbn; intros ds r.
  - intros [= <- <-]. destruct k as [|d k]; [done|]. cbn in *.
    by destruct (is_digit d).
  - destruct (is_digit c); [|by intros [= <- <-]].
    destruct (span_digits l) as [a b]. intros [= <- <-]. by rewrite (IH a b).
Qed.

Lemma int_part_cons c m : int_part (c :: m) =
  if Ascii.eqb c "0" then Some (["0"%char], m)
  else if is_digit c then Some (span_digits (c :: m)) else None.
Proof. destruct c as [[] [] [] [] [] [] [] []]; reflexivity. Qed.

Lemma sign_of_cons c m : sign_of (c :: m) = if Ascii.eqb c "-" then (["-"%char], m) else ([], c :: m).
Proof. destruct c as [[] [] [] [] [] [] [] []]; reflexivity. Qed.

Lemma int_part_extend l ip r k : int_part l = Some (ip, r) → ends_number k = true →
  int_part (l ++ k) = Some (ip, r ++ k).
Proof.
  intros H Hk. destruct l as [|c l]; [done|].
  rewrite int_part_cons in H. cbn [app]. rewrite int_part_cons. destruct (Ascii.eqb c "0"); [by simplify_eq|].
  destruct (is_digit c); [|done]. injection H as H.
  f_equal. by apply (span_digits_extend (c :: l)).
Qed.

Lemma frac_of_extend l fp r k : frac_of l = (fp, r) → ends_number k = true →
  frac_of (l ++ k) = (fp, r ++ k).
Proof.
  intros H Hk. destruct l as [|c l].
  { cbn in H. simplify_eq. destruct k as [|d k]; [done|]. cbn in Hk.
    assert (Ascii.eqb d "." = false) as Hd.
    { destruct (Ascii.eqb d "."); [|done]. by rewrite orb_true_r in Hk. }
    clear Hk. by destruct d as [[] [] [] [] [] [] [] []]. }
  assert (∀ m, frac_of (c :: m) = if Ascii.eqb c "." then
      match span_digits m with ([], _) => ([], c :: m) | (ds, r) => ("."%char :: ds, r) end
      else ([], c :: m)) as Hf.
  { intros m. clear. destruct c as [[] [] [] [] [] [] [] []]; reflexivity. }
  rewrite Hf in H. cbn [app]. rewrite Hf. destruct (Ascii.eqb c "."); [|by simplify_eq].
  destruct (span_digits l) as [ds r'] eqn:E. rewrite (span_digits_extend _ _ _ _ E Hk).
  destruct ds; by simplify_eq.
Qed.

Lemma exp_of_extend l ep k : exp_of l = (ep, []) → ends_number k = true →
  exp_of (l ++ k) = (ep, k).
Proof.
  intros H Hk. destruct l as [|c l].
  { cbn in H. simplify_eq. destruct k as [|d k]; [done|]. cbn in Hk |- *.
    destruct (Ascii.eqb d "e"); [by rewrite !orb_true_r in Hk|].
    destruct (Ascii.eqb d "E"); [by rewrite !orb_true_r in Hk|]. done. }
  cbn [app]. unfold exp_of in *. destruct (Ascii.eqb c "e" || Ascii.eqb c "E"); [|by simplify_eq].
  set (sg := λ k : list ascii, match k with
    | "-"%char :: k' => (["-"%char], k') | "+"%char :: k' => (["+"%char], k') | _ => ([], k) end).
  fold (sg l) in H. fold (sg (l ++ k)).
  assert (l ≠ []) as Hne by (intros ->; discriminate H).
  assert (sg (l ++ k) = let '(s, m) := sg l in (s, m ++ k)) as ->.
  { destruct l as [|d l]; [done|]. clear. destruct d as [[] [] [] [] [] [] [] []]; reflexivity. }
  destruct (sg l) as [s m]. destruct (span_digits m) as [ds r] eqn:E.
  rewrite (span_digits_extend _ _ _ _ E Hk). destruct ds; by simplify_eq.
Qed.

Lemma scan_number_extend l w f k : scan_number l = Some (w, f, []) → ends_number k = true →
  scan_number (l ++ k) = Some (w, f, k).
Proof.
  unfold scan_number. intros H Hk.
  assert (l ≠ []) as Hne by (intros ->; discriminate H).
  assert (sign_of (l ++ k) = let '(s, m) := sign_of l in (s, m ++ k)) as ->.
  { destruct l as [|d l]; [done|]. cbn [app]. rewrite !sign_of_cons. by destruct (Ascii.eqb d "-"). }
  destruct (sign_of l) as [sg l0]. destruct (int_part l0) as [[ip l1]|] eqn:Ei; [|done].
  cbn [mbind option_bind] in H. rewrite (int_part_extend _ _ _ _ Ei Hk). cbn [mbind option_bind].
  destruct (frac_of l1) as [fp l2] eqn:Ef. rewrite (frac_of_extend _ _ _ _ Ef Hk).
  destruct (exp_of l2) as [ep l3] eqn:Ee. injection H as Hw Hb ->.
  rewrite (exp_of_extend _ _ _ Ee Hk). by rewrite Hw, Hb.
Qed.

(** ** The integers read back *)

Lemma dec_head n : 0 < n → ∃ c l, chars (dec n) = c :: l ∧ c ≠ "0"%char.
Proof.
  intros Hn. destruct n as [|p|p]; [lia| |lia]. change (dec (Z.pos p)) with (pretty_N (N.pos p)).
  unfold pretty_N. rewrite decide_False by done.
  enough (∀ x s, (x ≠ 0)%N → ∃ c l, chars (pretty_N_go x s) = c :: l ∧ c ≠ "0"%char) as H by by apply H.
  clear. intros x. induction (N.lt_wf_0 x) as [x _ IH]; intros s Hx.
  rewrite pretty_N_go_step by lia. destruct (decide (x `div` 10 = 0)%N) as [E|E].
  - rewrite E, pretty_N_go_0. eexists _, _. split; [done|].
    assert (x < 10)%N as Hlt by (apply N.div_small_iff in E; [done|discriminate]).
    rewrite N.mod_small by done. intros Hc. pose proof (pretty_char_val x Hlt) as Hv.
    rewrite Hc in Hv. change (0 = Z.of_N x) in Hv. lia.
  - apply IH; [apply N.div_lt; lia|done].
Qed.

Lemma span_digits_all l : Forall (λ c, is_digit c = true) l → span_digits l = (l, []).
Proof. induction 1 as [|c l Hc _ IH]; cbn; [done|]. by rewrite Hc, IH. Qed.

Lemma int_part_dec n : 0 <= n → int_part (chars (dec n)) = Some (chars (dec n), []).
Proof.
  intros Hn. destruct (decide (n = 0)) as [->|Hz]; [reflexivity|].
  destruct (dec_head n) as (c & l & He & Hc); [lia|].
  destruct (dec_digits n Hn) as (_ & Hd & _). rewrite He in Hd |- *.
  inversion Hd as [|? ? Hdc _]; subst.
  rewrite int_part_cons. destruct (Ascii.eqb_spec c "0"%char); [done|]. rewrite Hdc. by rewrite span_digits_all.
Qed.

Lemma dec_neg n : 0 < n → chars (dec (- n)) = "-"%char :: chars (dec n).
Proof. intros H. destruct n; try lia. reflexivity. Qed.

Lemma dec_no_sign n : 0 <= n → sign_of (chars (dec n)) = ([], chars (dec n)).
Proof.
  intros Hn. destruct (dec_digits n Hn) as (_ & Hd & Hne).
  destruct (chars (dec n)) as [|c l]; [done|]. inversion Hd as [|? ? Hc _]; subst.
  rewrite sign_of_cons. by destruct (Ascii.eqb_spec c "-"%char) as [->|].
Qed.

Lemma scan_number_dec n : scan_number (chars (dec n)) = Some (chars (dec n), false, []).
Proof.
  unfold scan_number. destruct (Z.lt_ge_cases n 0) as [Hn|Hn].
  - rewrite <-(Z.opp_involutive n), dec_neg by lia. cbn [sign_of].
    rewrite int_part_dec by lia. cbn. by rewrite app_nil_r.
  - rewrite dec_no_sign, int_part_dec by done. cbn. by rewrite app_nil_r.
Qed.

(** The interpreter's limit on printed integers. *)
Definition short_int (n : Z) : bool := Z.of_nat (length (chars (dec (Z.abs n)))) <=? 4300.

Lemma digit_not_space c : is_digit c = true → is_space c = false.
Proof. clear. destruct c as [[] [] [] [] [] [] [] []]; done. Qed.

Lemma dec_no_space n : forallb (λ c, negb (is_space c)) (chars (dec n)) = true.
Proof.
  assert (∀ m, 0 <= m → forallb (λ c, negb (is_space c)) (chars (dec m)) = true) as H.
  { intros m Hm. destruct (dec_digits m Hm) as (_ & Hd & _). apply forallb_forall. intros c Hc.
    rewrite Forall_forall in Hd. rewrite digit_not_space; [done|]. by apply Hd, list_elem_of_In. }
  destruct (Z.lt_ge_cases n 0) as [Hn|Hn]; [|by apply H].
  rewrite <-(Z.opp_involutive n), dec_neg by lia. cbn. apply H. lia.
Qed.

Lemma int_of_text_dec n : short_int n = true → int_of_text (dec n) = Ok n.
Proof.
  unfold short_int, int_of_text. intros Hs%Z.leb_le. unfold strip.
  rewrite strip_by_id by apply dec_no_space.
  set (body := λ l : list ascii, match digits_from false l with
    | Some (d :: ds) => if 4300 <? Z.of_nat (length (d :: ds))
        then Raise (ValueError "invalid literal for int()") else Ok (digits_value (d :: ds))
    | _ => Raise (ValueError "invalid literal for int()") end).
  assert (body (chars (dec (Z.abs n))) = Ok (Z.abs n)) as Hb.
  { destruct (dec_digits (Z.abs n)) as (Hv & Hd & Hne); [lia|]. unfold body.
    rewrite digits_from_digits by done. destruct (chars (dec (Z.abs n))) as [|d ds]; [done|].
    rewrite (proj2 (Z.ltb_ge _ _)) by done. by rewrite Hv. }
  destruct (Z.lt_ge_cases n 0) as [Hn|Hn].
  - rewrite <-(Z.opp_involutive n), dec_neg by lia. rewrite Z.abs_neq in Hb by lia.
    change (Z.opp <$> body (chars (dec (- n))) = Ok (- - n)). by rewrite Hb.
  - rewrite Z.abs_eq in Hb by lia. destruct (dec_digits n Hn) as (_ & Hd & Hne).
    destruct (chars (dec n)) as [|c l]; [done|]. inversion Hd as [|? ? Hc _]; subst.
    transitivity (body (c :: l)); [|exact Hb].
    clear -Hc. destruct c as [[] [] [] [] [] [] [] []]; try done; reflexivity.
Qed.

(** ** Values read back *)

(** A float whose text is read back: the constants, and every number whose
[repr] is a float literal of the same value. *)
Definition float_reads_back (x : pyfloat) : bool :=
  match x with
  | S754_nan | S754_infinity _ => true
  | _ => is_ascii (dump_float x) && bool_decide (scan_number (chars (dump_float x)) = Some (chars (dump_float x), true, []))
         && bool_decide (float_of_text (dump_float x) = Ok x)
  end.

(** What the round trip asks of a value: integers within the limit, floats
that are read back, objects without duplicate keys. *)
Fixpoint reads_back (j : json) : bool :=
  match j with
  | JInt n => short_int n
  | JFloat x => float_reads_back x
  | JList l => forallb reads_back l
  | JObj d => bool_decide (NoDup (keys d)) && forallb (λ p, reads_back p.2) d
  | _ => true
  end.

(** No constant begins with a digit, or with a minus and a digit. *)
Lemma scan_constant_number l r : is_Some (scan_number l) → scan_constant constants (l ++ r) = None.
Proof.
  assert (∀ c d m x, int_part (c :: m) = Some x → is_digit d = false → Ascii.eqb d c = false) as Hd.
  { intros c d m x. rewrite int_part_cons. destruct (Ascii.eqb_spec d c) as [->|]; [|done].
    intros H Hc. rewrite Hc in H. by destruct (Ascii.eqb_spec c "0"%char) as [->|]. }
  intros [x H]. unfold scan_number in H. destruct l as [|c l]; [done|].
  rewrite sign_of_cons in H. destruct (Ascii.eqb_spec c "-"%char) as [->|Hc].
  - destruct l as [|d l]; [done|]. destruct (int_part (d :: l)) as [y|] eqn:E; [|done].
    cbn [app scan_constant constants chars eat].
    change (Ascii.eqb "-" "-") with true. by rewrite !(Hd _ _ _ _ E) by done.
  - destruct (int_part (c :: l)) as [y|] eqn:E; [|done].
    cbn [app scan_constant constants chars eat]. by rewrite !(Hd _ _ _ _ E) by done.
Qed.

(** The first character of a printed value. *)
Definition value_head (c : ascii) : bool :=
  negb (json_space c || Ascii.eqb c "]" || Ascii.eqb c "}").

Lemma number_head l x : scan_number l = Some x →
  ∃ c m, l = c :: m ∧ (is_digit c = true ∨ c = "-"%char).
Proof.
  unfold scan_number. destruct l as [|c l]; [done|]. intros H. exists c, l. split; [done|].
  rewrite sign_of_cons in H. destruct (Ascii.eqb_spec c "-"%char) as [->|Hc]; [by right|left].
  rewrite int_part_cons in H. destruct (Ascii.eqb_spec c "0"%char) as [->|]; [done|].
  by destruct (is_digit c).
Qed.

Lemma number_char c : is_digit c = true ∨ c = "-"%char →
  value_head c = true ∧ Ascii.eqb c dquote = false ∧ Ascii.eqb c "[" = false ∧ Ascii.eqb c "{" = false.
Proof.
  assert (∀ d, is_digit d = false → is_digit c = true → Ascii.eqb c d = false) as Hd.
  { intros d Hd Hc. destruct (Ascii.eqb_spec c d) as [->|]; [congruence|done]. }
  intros [Hc| ->]; [|done]. rewrite !(Hd _) by done. unfold value_head. rewrite !(Hd _) by done.
  split; [|done]. unfold json_space, is_digit in *. cbv zeta. rewrite !orb_false_r.
  rewrite andb_true_iff, N.leb_le, N.leb_le in Hc. rewrite negb_true_iff, !orb_false_iff, !N.eqb_neq. lia.
Qed.

Lemma scan_number_value n w j f r :
  scan_number w = Some (w, f, []) → number_value w f = Ok j → ends_number r = true →
  scan_value (S n) (w ++ r) = Ok (j, r).
Proof.
  intros Hs Hv Hr. destruct (number_head _ _ Hs) as (c & m & -> & (_ & Hq & Hl & Ho)%number_char).
  cbn [app scan_value]. rewrite Hq, Hl, Ho. unfold scan_scalar.
  change (c :: m ++ r) with ((c :: m) ++ r).
  rewrite scan_constant_number by eauto. rewrite (scan_number_extend _ _ _ _ Hs Hr).
  by rewrite Hv.
Qed.

Lemma float_text x : float_reads_back x = true →
  x = S754_nan ∨ (∃ s, x = S754_infinity s) ∨
  scan_number (chars (dump_float x)) = Some (chars (dump_float x), true, [])
  ∧ number_value (chars (dump_float x)) true = Ok (JFloat x).
Proof.
  unfold float_reads_back. intros H. unfold number_value. rewrite of_chars_chars.
  destruct x; [|eauto|eauto|]; right; right;
    rewrite !andb_true_iff, !bool_decide_eq_true in H; destruct H as [[_ H1] H2];
    by rewrite H2.
Qed.

Section readback.
Context (spaced : bool).

Lemma dumps_head j : reads_back j = true →
  ∃ c l, chars (dumps spaced j) = c :: l ∧ value_head c = true.
Proof.
  destruct j as [|b|n|x|s|l|d]; intros H; cbn [dumps]; [by eauto|by destruct b; eauto|..].
  - destruct (number_head _ _ (scan_number_dec n)) as (c & m & He & [Hc _]%number_char). eauto.
  - destruct (float_text _ H) as [->|[[s ->]|[Hs _]]]; [by eauto|by destruct s; eauto|].
    destruct (number_head _ _ Hs) as (c & m & He & [Hc _]%number_char). eauto.
  - rewrite dump_str_eq. by eauto.
  - by eauto.
  - by eauto.
Qed.

Lemma skip_space_head c l : value_head c = true → skip_space (c :: l) = c :: l.
Proof.
  unfold value_head. rewrite negb_true_iff, !orb_false_iff. intros [[Hc _] _]. cbn. by rewrite Hc.
Qed.

Lemma skip_mark c l : json_space c = false → skip_space (c :: l) = c :: l.
Proof. intros H. cbn. by rewrite H. Qed.

(** What follows the comma or the colon. *)
Definition gap : list ascii := if spaced then [" "%char] else [].

Lemma skip_gap c l : value_head c = true → skip_space (gap ++ c :: l) = c :: l.
Proof. intros H. unfold gap. destruct spaced; cbn [app]; [|by apply skip_space_head]. exact (skip_space_head _ _ H). Qed.

Lemma chars_isep : chars (if spaced then ", " else ",") = ","%char :: gap.
Proof. unfold gap. by destruct spaced. Qed.
Lemma chars_ksep : chars (if spaced then ": " else ":") = ":"%char :: gap.
Proof. unfold gap. by destruct spaced. Qed.

(** The value [j] is read back with fuel for its text. *)
Definition read_back (j : json) : Prop := ∀ n r,
  (2 * length (chars (dumps spaced j)) ≤ n)%nat → ends_number r = true →
  scan_value n (chars (dumps spaced j) ++ r) = Ok (j, r).

Lemma chars_concat_cons sep x y l :
  chars (String.concat sep (x :: y :: l)) = chars x ++ chars sep ++ chars (String.concat sep (y :: l)).
Proof.
  change (String.concat sep (x :: y :: l)) with (x +:+ (sep +:+ String.concat sep (y :: l))).
  by rewrite !chars_app.
Qed.

Definition elements_text (l : list json) : list ascii :=
  chars (String.concat (if spaced then ", " else ",") (map (dumps spaced) l)).

Lemma elements_head y l : reads_back y = true →
  ∃ c k, elements_text (y :: l) = c :: k ∧ value_head c = true.
Proof.
  intros Hy. destruct (dumps_head y Hy) as (c & m & Hc & Hh). unfold elements_text.
  destruct l as [|z l]; cbn [map]; [cbn [String.concat]; eauto|].
  rewrite chars_concat_cons, Hc. cbn [app]. eauto.
Qed.

Lemma not_bracket {A} c k (f g : list ascii → A) : value_head c = true →
  match c :: k with "]"%char :: r => f r | l => g l end = g (c :: k).
Proof. destruct c as [[] [] [] [] [] [] [] []]; intros H; try reflexivity; discriminate H. Qed.

Lemma not_brace {A} c k (f g : list ascii → A) : value_head c = true →
  match c :: k with "}"%char :: r => f r | l => g l end = g (c :: k).
Proof. destruct c as [[] [] [] [] [] [] [] []]; intros H; try reflexivity; discriminate H. Qed.

Lemma scan_elements_text l r n : l ≠ [] → Forall read_back l → forallb reads_back l = true →
  (2 * length (elements_text l) + 1 ≤ n)%nat →
  scan_elements n (elements_text l ++ "]"%char :: r) = Ok (l, r).
Proof.
  revert n. induction l as [|x l IH]; intros n Hne Hl Hok Hn; [done|].
  inversion Hl as [|? ? Hx Hl']; subst. cbn [forallb] in Hok. apply andb_true_iff in Hok as [Hrx Hrl].
  destruct n as [|n]; [lia|]. unfold elements_text in *. cbn [scan_elements].
  destruct l as [|y l].
  { cbn [map String.concat] in *. rewrite Hx; [done|lia|done]. }
  cbn [map] in *. rewrite chars_concat_cons, chars_isep in *.
  change (dumps spaced y :: map (dumps spaced) l) with (map (dumps spaced) (y :: l)) in *.
  rewrite !length_app in Hn. cbn [length] in Hn.
  rewrite <-!app_assoc. cbn [app]. rewrite Hx; [|lia|done]. cbn [mbind res_bind].
  assert (reads_back y = true) as Hy by (cbn in Hrl; by destruct (reads_back y)).
  destruct (elements_head y l Hy) as (c & k & Hk & Hh). unfold elements_text in Hk.
  change (match skip_space (","%char :: gap ++ chars (String.concat (if spaced then ", " else ",")
    (map (dumps spaced) (y :: l))) ++ "]"%char :: r) with
    | ","%char :: r' => '(js, r'') ← scan_elements n (skip_space r'); Ok (x :: js, r'')
    | "]"%char :: r' => Ok ([x], r') | _ => json_error end = Ok (x :: y :: l, r)).
  rewrite skip_mark by done. cbv iota. rewrite Hk in *. cbn [app]. rewrite skip_gap by done.
  change (c :: k ++ "]"%char :: r) with ((c :: k) ++ "]"%char :: r).
  rewrite IH; [done|done|done|done|lia].
Qed.

Definition member (p : string * json) : string :=
  dump_str p.1 +:+ (if spaced then ": " else ":") +:+ dumps spaced p.2.

Definition members_text (d : list (string * json)) : list ascii :=
  chars (String.concat (if spaced then ", " else ",") (map member d)).

(** One member, up to what follows it. *)
Lemma member_text p k :
  chars (member p) ++ k
  = dquote :: chars (String.concat "" (map dump_esc (chars p.1)) +:+ String dquote "")
      ++ ":"%char :: gap ++ chars (dumps spaced p.2) ++ k.
Proof.
  unfold member. rewrite dump_str_eq, !chars_app, chars_ksep, <-!app_assoc. cbn [chars app].
  by rewrite chars_app, <-!app_assoc.
Qed.

Lemma members_head p d : ∃ k, members_text (p :: d) = dquote :: k.
Proof.
  unfold members_text. destruct d as [|z d]; cbn [map].
  - cbn [String.concat]. rewrite <-(app_nil_r (chars (member p))), member_text. eauto.
  - rewrite chars_concat_cons, member_text. eauto.
Qed.

Lemma scan_members_text d r n : d ≠ [] → Forall (λ p, read_back p.2) d →
  forallb (λ p, reads_back p.2) d = true → (2 * length (members_text d) + 1 ≤ n)%nat →
  scan_members n (members_text d ++ "}"%char :: r) = Ok (d, r).
Proof.
  assert (∀ p n k l, read_back p.2 → reads_back p.2 = true → (2 * length (chars (member p)) ≤ n)%nat →
    ends_number k = true → l = chars (member p) ++ k →
    scan_members (S n) l = match skip_space k with
      | ","%char :: r' => '(d, r'') ← scan_members n (skip_space r'); Ok (p :: d, r'')
      | "}"%char :: r' => Ok ([p], r') | _ => json_error end) as Hone.
  { intros [key j] m k l Hj Hr Hm Hk ->. rewrite member_text. cbn [scan_members fst snd] in *.
    rewrite scan_dumped. cbn [mbind res_bind]. rewrite skip_mark by done. cbv iota.
    destruct (dumps_head j Hr) as (c & t & Hc & Hh). rewrite Hc. cbn [app].
    rewrite skip_gap by done. change (c :: t ++ k) with ((c :: t) ++ k). rewrite <-Hc.
    rewrite Hj; [|unfold member in Hm; cbn [fst snd] in Hm; rewrite !chars_app, !length_app in Hm; lia|done].
    by rewrite of_chars_chars. }
  revert n. induction d as [|p d IH]; intros n Hne Hl Hok Hn; [done|].
  inversion Hl as [|? ? Hp Hl']; subst. cbn [forallb] in Hok. apply andb_true_iff in Hok as [Hrp Hrd].
  destruct n as [|n]; [lia|]. unfold members_text in *. destruct d as [|q d].
  { cbn [map String.concat] in *. by rewrite (Hone p n ("}"%char :: r)) by (done || lia). }
  cbn [map] in Hn |- *. rewrite chars_concat_cons, chars_isep in Hn |- *.
  change (member q :: map member d) with (map member (q :: d)) in Hn |- *.
  rewrite !length_app in Hn. cbn [length] in Hn. rewrite <-!app_assoc. cbn [app].
  match goal with |- context [chars (member p) ++ ?k] => rewrite (Hone p n k _ Hp Hrp) end;
    [|lia|done|done]. rewrite skip_mark by done. cbv iota.
  destruct (members_head q d) as [k Hk]. unfold members_text in Hk. rewrite Hk. cbn [app]. rewrite skip_gap by done.
  change (dquote :: k ++ "}"%char :: r) with ((dquote :: k) ++ "}"%char :: r).
  rewrite <-Hk, IH; [done|done|done|done|lia].
Qed.

Lemma dumps_read_back j : reads_back j = true → read_back j.
Proof.
  induction j as [|b|n|x|s|l IH|d IH] using json_nested_ind; intros H m r Hm Hr.
  - destruct m; [cbn in Hm; lia|]. reflexivity.
  - destruct b, m; try (cbn in Hm; lia); reflexivity.
  - cbn [dumps] in *. destruct m as [|m].
    { destruct (number_head _ _ (scan_number_dec n)) as (c & k & E & _). rewrite E in Hm. cbn in Hm. lia. }
    apply (scan_number_value m _ _ false); [apply scan_number_dec| |done].
    unfold number_value. rewrite of_chars_chars. by rewrite int_of_text_dec.
  - cbn [dumps] in *. destruct (float_text x H) as [->|[[s ->]|[Hs Hv]]].
    + destruct m; [cbn in Hm; lia|]. reflexivity.
    + destruct s, m; try (cbn in Hm; lia); reflexivity.
    + destruct m as [|m].
      { destruct (number_head _ _ Hs) as (c & k & E & _). rewrite E in Hm. cbn in Hm. lia. }
      by apply (scan_number_value m _ _ true).
  - cbn [dumps] in *. rewrite dump_str_eq in *. destruct m as [|m]; [cbn in Hm; lia|].
    cbn [chars app scan_value]. change (Ascii.eqb dquote dquote) with true. cbv iota.
    rewrite scan_dumped. cbn [mbind res_bind]. by rewrite of_chars_chars.
  - cbn [dumps reads_back] in *. rewrite !chars_app in *. cbn [chars app] in *.
    fold (elements_text l) in *. destruct m as [|m]; [cbn in Hm; lia|]. cbn [length] in Hm.
    rewrite length_app in Hm. cbn [length] in Hm.
    cbn [scan_value]. change (Ascii.eqb "[" dquote) with false. cbv iota.
    rewrite <-app_assoc. cbn [app]. destruct l as [|y l]; [reflexivity|].
    destruct (elements_head y l) as (c & k & Hk & Hc); [exact (proj1 (proj1 (andb_true_iff _ _) H))|].
    rewrite Hk in *. cbn [app]. rewrite (skip_space_head _ _ Hc).
    rewrite (not_bracket c _ (λ r, Ok (JList [], r))
      (λ l2, '(js, r) ← scan_elements m l2; Ok (JList js, r))) by done.
    change (c :: k ++ "]"%char :: r) with ((c :: k) ++ "]"%char :: r). rewrite <-Hk.
    rewrite scan_elements_text; [done|done| |done|rewrite Hk; lia].
    rewrite Forall_forall in IH |- *. intros z Hz. apply IH; [done|].
    by apply (proj1 (forallb_elem _ _) H).
  - cbn [dumps reads_back] in *. apply andb_true_iff in H as [Hnd%bool_decide_eq_true H].
    change (λ p, dump_str p.1 +:+ (if spaced then ": " else ":") +:+ dumps spaced p.2) with member in *.
    rewrite !chars_app in *. cbn [chars app] in *. fold (members_text d) in *.
    destruct m as [|m]; [cbn in Hm; lia|]. cbn [length] in Hm.
    rewrite length_app in Hm. cbn [length] in Hm.
    cbn [scan_value]. change (Ascii.eqb "{" dquote) with false. cbv iota.
    rewrite <-app_assoc. cbn [app]. destruct d as [|p d]; [reflexivity|].
    destruct (members_head p d) as (k & Hk). rewrite Hk in *. cbn [app].
    rewrite skip_mark by done. rewrite (not_brace dquote _ (λ r, Ok (JObj [], r))
      (λ l2, '(d, r) ← scan_members m l2; Ok (JObj (dict_update [] d), r))) by done.
    change (dquote :: k ++ "}"%char :: r) with ((dquote :: k) ++ "}"%char :: r). rewrite <-Hk.
    rewrite scan_members_text; [|done| |done|rewrite Hk; lia].
    + cbn [mbind res_bind]. by rewrite dict_update_distinct.
    + rewrite Forall_forall in IH |- *. intros z Hz. apply IH; [done|].
      by apply (proj1 (forallb_elem _ _) H).
Qed.
End readback.

(** [json.loads(json.dumps(j)) == j]. *)
Lemma json_loads_dumps spaced j : reads_back j = true → json_loads (dumps spaced j) = Ok j.
Proof.
  intros H. unfold json_loads. destruct (dumps_head spaced j H) as (c & l & Hc & Hh).
  rewrite Hc, skip_space_head by done. cbv zeta. rewrite <-Hc.
  pose proof (dumps_read_back spaced j H (2 * length (chars (dumps spaced j)) + 1)%nat []) as Hj.
  rewrite app_nil_r in Hj. rewrite Hj; [done|lia|done].
Qed.

(** ** The text is ASCII, so its bytes are read the same way *)

Lemma is_ascii_app x y : is_ascii (x +:+ y) = is_ascii x && is_ascii y.
Proof. unfold is_ascii. by rewrite chars_app, forallb_app. Qed.

Lemma is_ascii_concat sep l : is_ascii sep = true → forallb is_ascii l = true →
  is_ascii (String.concat sep l) = true.
Proof.
  intros Hs. induction l as [|x l IH]; [done|]. cbn [forallb]. intros [Hx Hl]%andb_true_iff.
  destruct l as [|y l]; [done|].
  change (String.concat sep (x :: y :: l)) with (x +:+ (sep +:+ String.concat sep (y :: l))).
  rewrite !is_ascii_app, Hx, Hs. by apply IH.
Qed.

Lemma digits_ascii l : Forall (λ c, is_digit c = true) l → forallb (λ c, code c <? 128)%N l = true.
Proof.
  induction 1 as [|c l Hc _ IH]; [done|]. cbn [forallb]. rewrite IH, andb_true_r.
  unfold is_digit in Hc. rewrite andb_true_iff, !N.leb_le in Hc. apply N.ltb_lt. lia.
Qed.

Lemma dec_ascii n : is_ascii (dec n) = true.
Proof.
  unfold is_ascii. destruct (Z.lt_ge_cases n 0) as [Hn|Hn].
  - rewrite <-(Z.opp_involutive n), dec_neg by lia. cbn. apply digits_ascii, dec_digits. lia.
  - by apply digits_ascii, dec_digits.
Qed.

Lemma dump_esc_ascii c : is_ascii (dump_esc c) = true.
Proof. destruct c as [[] [] [] [] [] [] [] []]; reflexivity. Qed.

Lemma dump_str_ascii s : is_ascii (dump_str s) = true.
Proof.
  rewrite dump_str_eq. change (String dquote ?x) with (String dquote "" +:+ x).
  rewrite !is_ascii_app, is_ascii_concat; [done|done|].
  apply forallb_forall. intros x (c & <- & _)%in_map_iff. apply dump_esc_ascii.
Qed.

Lemma dumps_ascii spaced j : reads_back j = true → is_ascii (dumps spaced j) = true.
Proof.
  induction j as [|b|n|x|s|l IH|d IH] using json_nested_ind; intros H; cbn [dumps].
  - done.
  - by destruct b.
  - apply dec_ascii.
  - cbn [reads_back] in H. unfold float_reads_back in H.
    destruct x as [s|s| |s m e]; [|by destruct s|done|];
      rewrite !andb_true_iff in H; by destruct H as [[? _] _].
  - apply dump_str_ascii.
  - rewrite !is_ascii_app, is_ascii_concat; [done|by destruct spaced|].
    apply forallb_forall. intros x (y & <- & Hy)%in_map_iff. rewrite Forall_forall in IH.
    cbn [reads_back] in H. apply list_elem_of_In in Hy.
    apply IH; [done|]. by apply (proj1 (forallb_elem _ _) H).
  - rewrite !is_ascii_app, is_ascii_concat; [done|by destruct spaced|].
    apply forallb_forall. intros x (y & <- & Hy)%in_map_iff. rewrite Forall_forall in IH.
    cbn [reads_back] in H. apply andb_true_iff in H as [_ H]. apply list_elem_of_In in Hy.
    rewrite !is_ascii_app, dump_str_ascii, IH; [by destruct spaced|done|].
    by apply (proj1 (forallb_elem _ _) H).
Qed.

Lemma utf8_decode_ascii l : forallb (λ c, code c <? 128)%N l = true → utf8_decode l = Some l.
Proof.
  induction l as [|c l IH]; [done|]. cbn [forallb utf8_decode]. intros [Hc Hl]%andb_true_iff.
  by rewrite Hc, IH.
Qed.

(** [json.loads(json.dumps(j).encode()) == j]. *)
Lemma json_loads_bytes_dumps spaced j : reads_back j = true →
  json_loads_bytes (dumps spaced j) = Ok j.
Proof.
  intros H. unfold json_loads_bytes. rewrite utf8_decode_ascii by by apply dumps_ascii.
  rewrite of_chars_chars. by apply json_loads_dumps.
Qed.
