(* ===== verification/PyHash.v ===== *)
(** [hashlib.sha256], [hmac] with SHA-256, and base64.

    SHA-256 works over 32-bit words kept at their width, on bytes.  The signing
    code of the program is modelled with the real functions, so a signature in
    the model is the signature the program computes.  The examples are the
    published test vectors of FIPS 180-4 and RFC 4231.  In
    [base64.urlsafe_b64encode] and [base64.urlsafe_b64decode] bytes are the
    characters of a string: [a2b_base64] is the decoder of [binascii] as a loop
    over the text, which skips what is not in the alphabet and stops at a
    padding that completes a quartet.  What the encoder writes the decoder reads
    back, with or without the padding. *)
From Stdlib Require Import Ascii NArith ZifyN.
From S2P Require Import Prelude PyStr.
Open Scope N_scope.

Definition w32 : N := 4294967296.

(** The low 32 bits. *)
Definition low32 (x : N) : N := N.land x 4294967295.

Definition add32 (x y : N) : N := low32 (x + y).
Definition rotr (n x : N) : N := N.lor (N.shiftr x n) (low32 (N.shiftl x (32 - n))).
Definition not32 (x : N) : N := N.lxor x (w32 - 1).

Definition ch (x y z : N) : N := N.lxor (N.land x y) (N.land (not32 x) z).
Definition maj (x y z : N) : N := N.lxor (N.lxor (N.land x y) (N.land x z)) (N.land y z).
Definition big_sigma0 (x : N) : N := N.lxor (N.lxor (rotr 2 x) (rotr 13 x)) (rotr 22 x).
Definition big_sigma1 (x : N) : N := N.lxor (N.lxor (rotr 6 x) (rotr 11 x)) (rotr 25 x).
Definition small_sigma0 (x : N) : N := N.lxor (N.lxor (rotr 7 x) (rotr 18 x)) (N.shiftr x 3).
Definition small_sigma1 (x : N) : N := N.lxor (N.lxor (rotr 17 x) (rotr 19 x)) (N.shiftr x 10).

(** The constants of FIPS 180-4: the first 32 bits of the fractional parts of the
square roots (the initial hash) and cube roots (the rounds) of the first primes. *)
Definition is_prime (p : nat) : bool :=
  forallb (λ d, negb (p mod d =? 0)%nat) (seq 2 (p - 2)).

Definition first_primes (n : nat) : list N := map N.of_nat (take n (List.filter is_prime (seq 2 320))).

(** The largest [r] below [2 ^ 40] with [r ^ k <= x], bit by bit. *)
Definition iroot (k x : N) : N :=
  foldl (λ r i, let r' := r + 2 ^ N.of_nat i in if r' ^ k <=? x then r' else r) 0 (rev (seq 0 40)).

Definition root_fraction (k p : N) : N := iroot k (p * 2 ^ (32 * k)) mod w32.

Definition round_constants : list N := Eval vm_compute in map (root_fraction 3) (first_primes 64).
Definition initial_hash : list N := Eval vm_compute in map (root_fraction 2) (first_primes 8).

(** The message schedule, newest word first: each step looks 2, 7, 15 and 16
words back. *)
Fixpoint schedule (n : nat) (rev_w : list N) : list N :=
  match n with
  | O => rev rev_w
  | S n' =>
      let g i := nth i rev_w 0 in
      schedule n' (add32 (add32 (small_sigma1 (g 1%nat)) (g 6%nat))
                     (add32 (small_sigma0 (g 14%nat)) (g 15%nat)) :: rev_w)
  end.

Definition round (st : list N) (kw : N * N) : list N :=
  match st with
  | [a; b; c; d; e; f; g; h] =>
      let t1 := add32 (add32 (add32 h (big_sigma1 e)) (add32 (ch e f g) kw.1)) kw.2 in
      let t2 := add32 (big_sigma0 a) (maj a b c) in
      [add32 t1 t2; a; b; c; add32 d t1; e; f; g]
  | _ => st
  end.

Definition compress (h : list N) (block : list N) : list N :=
  let w := schedule 48 (rev block) in
  zip_with add32 h (foldl round h (zip round_constants w)).

Fixpoint words_of (l : list N) : list N :=
  match l with
  | a :: b :: c :: d :: l' => (a * 16777216 + b * 65536 + c * 256 + d) :: words_of l'
  | _ => []
  end.

Definition bytes_of_word (w : N) : list N :=
  [w / 16777216; (w / 65536) mod 256; (w / 256) mod 256; w mod 256].

(** Padding to a multiple of 64 bytes with the bit length at the end. *)
Definition pad_message (m : list N) : list N :=
  let n := N.of_nat (length m) in
  let k := N.to_nat ((55 + 64 - n mod 64) mod 64) in
  let bits := n * 8 in
  m ++ [128] ++ replicate k 0
    ++ bytes_of_word ((bits / w32) mod w32) ++ bytes_of_word (bits mod w32).

Fixpoint chunks (fuel : nat) (k : nat) (l : list N) : list (list N) :=
  match fuel with
  | O => []
  | S f => match l with [] => [] | _ => take k l :: chunks f k (drop k l) end
  end.

Definition sha256 (m : list N) : list N :=
  let p := pad_message m in
  concat (map bytes_of_word
    (foldl compress initial_hash (map words_of (chunks (length p) 64 p)))).

Definition hmac_sha256 (key m : list N) : list N :=
  let k := if (64 <? N.of_nat (length key)) then sha256 key else key in
  let k := k ++ replicate (64 - length k)%nat 0 in
  sha256 (map (N.lxor 92) k ++ sha256 (map (N.lxor 54) k ++ m)).

(** [text.encode("utf-8")] for code points below 256. *)
Definition utf8 (s : string) : list N :=
  concat (map (λ c, let n := code c in
                    if n <? 128 then [n] else [192 + n / 64; 128 + n mod 64]) (chars s)).

Definition hex_char (n : N) : ascii :=
  ascii_of_N (if n <? 10 then 48 + n else 87 + n).

(** [.hexdigest()]. *)
Definition hexdigest (l : list N) : string :=
  of_chars (concat (map (λ b, [hex_char (b / 16); hex_char (b mod 16)]) l)).

Definition sha256_hex (s : string) : string := hexdigest (sha256 (utf8 s)).
Definition hmac_sha256_hex (key s : string) : string :=
  hexdigest (hmac_sha256 (utf8 key) (utf8 s)).

Arguments sha256_hex : simpl never.
Arguments hmac_sha256_hex : simpl never.

Example sha256_abc :
  sha256_hex "abc" = "ba7816bf8f01cfea414140de5dae2223b00361a396177a9cb410ff61f20015ad".
Proof. vm_compute. reflexivity. Qed.

Example sha256_two_blocks :
  sha256_hex "abcdbcdecdefdefgefghfghighijhijkijkljklmklmnlmnomnopnopq"
  = "248d6a61d20638b8e5c026930c3e6039a33ce45964ff2167f6ecedd419db06c1".
Proof. vm_compute. reflexivity. Qed.

Example hmac_rfc4231_case2 :
  hmac_sha256_hex "Jefe" "what do ya want for nothing?"
  = "5bdcc146bf60754e6a042426089575c75a003f089d2739839dec58b964ec3843".
Proof. vm_compute. reflexivity. Qed.

(** A digest is never the empty text. *)
Lemma zip_round_length h kws : length h = 8%nat → length (foldl round h kws) = 8%nat.
Proof.
  revert h. induction kws as [|kw kws IH]; intros h Hh; [done|]. cbn. apply IH.
  do 9 (destruct h as [|? h]; try done).
Qed.

Lemma compress_length h b : length h = 8%nat → length (compress h b) = 8%nat.
Proof.
  intros Hh. unfold compress. rewrite length_zip_with, zip_round_length by done. lia.
Qed.

Lemma sha256_length m : length (sha256 m) = 32%nat.
Proof.
  unfold sha256.
  assert (∀ bs h, length h = 8%nat → length (foldl compress h bs) = 8%nat) as Hf.
  { induction bs as [|b bs IH]; intros h Hh; [done|]. cbn. by apply IH, compress_length. }
  specialize (Hf (map words_of (chunks (length (pad_message m)) 64 (pad_message m)))
                initial_hash eq_refl).
  revert Hf. generalize (foldl compress initial_hash
    (map words_of (chunks (length (pad_message m)) 64 (pad_message m)))) as l.
  intros l Hl. do 9 (destruct l as [|? l]; try done).
Qed.

Lemma hmac_hex_nonempty key s : hmac_sha256_hex key s ≠ "".
Proof.
  unfold hmac_sha256_hex, hexdigest, hmac_sha256. cbv zeta.
  match goal with |- context [sha256 ?m] => pose proof (sha256_length m) as H end.
  match type of H with length ?l = _ => destruct l; [done|] end.
  cbn. done.
Qed.

(** * Digests are lower-case hexadecimal text *)

Lemma low32_mod x : low32 x = x mod w32.
Proof. unfold low32. change 4294967295 with (N.ones 32). by rewrite N.land_ones. Qed.

Lemma add32_bound x y : add32 x y < w32.
Proof. unfold add32. rewrite low32_mod. by apply N.mod_lt. Qed.

Lemma zip_add32_bound l k : Forall (λ w, w < w32) (zip_with add32 l k).
Proof.
  revert k. induction l as [|x l IH]; intros [|y k]; cbn; constructor; [apply add32_bound|apply IH].
Qed.

Lemma bytes_of_word_bound w : w < w32 → Forall (λ b, b < 256) (bytes_of_word w).
Proof.
  intros H. unfold w32 in H. repeat constructor; try (apply N.mod_lt; done).
  apply N.Div0.div_lt_upper_bound. lia.
Qed.

Lemma sha256_bytes m : Forall (λ b, b < 256) (sha256 m).
Proof.
  unfold sha256.
  assert (∀ bs h, Forall (λ w, w < w32) h → Forall (λ w, w < w32) (foldl compress h bs)) as Hf.
  { induction bs as [|b bs IH]; intros h Hh; [done|]. cbn. apply IH, zip_add32_bound. }
  specialize (Hf (map words_of (chunks (length (pad_message m)) 64 (pad_message m)))
                initial_hash ltac:(by repeat constructor)).
  induction Hf as [|w l Hw _ IH]; cbn -[bytes_of_word]; [constructor|].
  apply Forall_app. split; [by apply bytes_of_word_bound|done].
Qed.

Definition is_hex (c : ascii) : bool :=
  is_digit c || ((97 <=? code c) && (code c <=? 102)).

Lemma hex_char_is_hex n : n < 16 → is_hex (hex_char n) = true.
Proof.
  intros H.
  assert (n = 0 ∨ n = 1 ∨ n = 2 ∨ n = 3 ∨ n = 4 ∨ n = 5 ∨ n = 6 ∨ n = 7 ∨ n = 8 ∨ n = 9
    ∨ n = 10 ∨ n = 11 ∨ n = 12 ∨ n = 13 ∨ n = 14 ∨ n = 15) as Hn by lia.
  by destruct_or! Hn; subst.
Qed.

Lemma hexdigest_is_hex l : Forall (λ b, b < 256) l → forallb is_hex (chars (hexdigest l)) = true.
Proof.
  unfold hexdigest. rewrite chars_of_chars.
  induction 1 as [|b l Hb _ IH]; [done|].
  cbn [map concat app forallb]. rewrite IH, !hex_char_is_hex; [done| |].
  - apply N.mod_lt. done.
  - apply N.Div0.div_lt_upper_bound. lia.
Qed.

Lemma forallb_impl {A} (f g : A → bool) l :
  (∀ x, f x = true → g x = true) → forallb f l = true → forallb g l = true.
Proof. intros H. rewrite !forallb_elem. auto. Qed.

Lemma hmac_hex_is_hex key s : forallb is_hex (chars (hmac_sha256_hex key s)) = true.
Proof. apply hexdigest_is_hex, sha256_bytes. Qed.

Lemma hmac_hex_clean key s : clean (hmac_sha256_hex key s) = true.
Proof.
  unfold clean, strip. rewrite strip_by_id, String.eqb_refl.
  - pose proof (hmac_hex_nonempty key s) as H. by apply String.eqb_neq in H as ->.
  - eapply forallb_impl; [|apply hmac_hex_is_hex]. intros c. unfold is_hex, is_digit, is_space.
    cbv zeta.
    generalize (code c). intros n Hn. apply negb_true_iff. lia.
Qed.

(** * Base64 *)

(** The character of a 6-bit value, in the standard alphabet. *)
Definition b64_char (v : N) : ascii :=
  ascii_of_N (if v <? 26 then 65 + v else if v <? 52 then 71 + v
              else if v <? 62 then v - 4 else if v =? 62 then 43 else 47).

Definition b64_val (c : ascii) : option N :=
  let n := code c in
  if (65 <=? n) && (n <=? 90) then Some (n - 65)
  else if (97 <=? n) && (n <=? 122) then Some (n - 71)
  else if (48 <=? n) && (n <=? 57) then Some (n + 4)
  else if n =? 43 then Some 62 else if n =? 47 then Some 63 else None.

(** The 6-bit values of some bytes, and the padding. *)
Fixpoint sextets (l : list N) : list N * nat :=
  match l with
  | a :: b :: c :: l' =>
      let '(s, p) := sextets l' in
      (a / 4 :: a mod 4 * 16 + b / 16 :: b mod 16 * 4 + c / 64 :: c mod 64 :: s, p)
  | [a; b] => ([a / 4; a mod 4 * 16 + b / 16; b mod 16 * 4], 1%nat)
  | [a] => ([a / 4; a mod 4 * 16], 2%nat)
  | [] => ([], 0%nat)
  end.

(** The URL-safe alphabet writes [-] for [+] and [_] for [/]. *)
Definition to_urlsafe (c : ascii) : ascii :=
  if Ascii.eqb c "+" then "-"%char else if Ascii.eqb c "/" then "_"%char else c.
Definition from_urlsafe (c : ascii) : ascii :=
  if Ascii.eqb c "-" then "+"%char else if Ascii.eqb c "_" then "/"%char else c.

Definition bytes_of (s : string) : list N := map code (chars s).
Definition of_bytes (l : list N) : string := of_chars (map ascii_of_N l).

Definition urlsafe_b64encode (b : string) : string :=
  let '(s, p) := sextets (bytes_of b) in
  of_chars (map (to_urlsafe ∘ b64_char) s ++ replicate p "="%char).

(** The state of the decoder: the position in the quartet, the bits not yet
written, and the padding characters seen in a row. *)
Record quartet : Type := mkQuartet { q_pos : nat; q_left : N; q_pads : nat }.

Definition bad64 : exc := ValueError "Invalid base64".

(** One value of the alphabet: the byte it completes, and the state after. *)
Definition push (q : quartet) (v : N) : list N * quartet :=
  match q_pos q with
  | O => ([], mkQuartet 1 v 0)
  | S O => ([q_left q * 4 + v / 16], mkQuartet 2 (v mod 16) 0)
  | S (S O) => ([q_left q * 16 + v / 4], mkQuartet 3 (v mod 4) 0)
  | _ => ([q_left q * 64 + v], mkQuartet 0 0 0)
  end.

Fixpoint a2b_loop (q : quartet) (l : list ascii) : res (list N) :=
  match l with
  | [] => match q_pos q with O => Ok [] | _ => Raise bad64 end
  | c :: l' =>
      if Ascii.eqb c "=" then
        if (2 <=? q_pos q)%nat then
          if (4 <=? q_pos q + S (q_pads q))%nat then Ok []
          else a2b_loop (mkQuartet (q_pos q) (q_left q) (S (q_pads q))) l'
        else a2b_loop q l'
      else
        match b64_val c with
        | None => a2b_loop q l'
        | Some v => let '(out, q') := push q v in (out ++.) <$> a2b_loop q' l'
        end
  end.

Definition a2b_base64 (l : list ascii) : res string :=
  of_bytes <$> a2b_loop (mkQuartet 0 0 0) l.

(** [base64.urlsafe_b64decode(text)]. *)
Definition urlsafe_b64decode (s : string) : res string :=
  if is_ascii s then a2b_base64 (map from_urlsafe (chars s))
  else Raise (ValueError "string argument should contain only ASCII characters").

Example enc_1 : map urlsafe_b64encode [""; "f"; "fo"; "foo"; "foob"; "fooba"; "foobar"]
  = [""; "Zg=="; "Zm8="; "Zm9v"; "Zm9vYg=="; "Zm9vYmE="; "Zm9vYmFy"].
Proof. reflexivity. Qed.
Example dec_1 : map urlsafe_b64decode ["Zm9v YmE="; "Zg"; "Zg==junk"; "Z"; "=Zm9v"; "__-_"]
  = [Ok "fooba"; Raise bad64; Ok "f"; Raise bad64; Ok "foo"; Ok (of_bytes [255; 255; 191])].
Proof. vm_compute. reflexivity. Qed.

(** * Round trip *)

Lemma below_64 v : v < 64 → In v (map N.of_nat (List.seq 0 64)).
Proof.
  intros H. apply in_map_iff. exists (N.to_nat v). split; [lia|]. apply in_seq. lia.
Qed.

Definition b64_ok (v : N) : bool :=
  let c := to_urlsafe (b64_char v) in
  bool_decide (b64_val (from_urlsafe c) = Some v) && negb (Ascii.eqb (from_urlsafe c) "=")
  && negb (is_space c) && negb (Ascii.eqb c "=") && (code c <? 128) && negb (Ascii.eqb c ".").

Lemma b64_char_ok v : v < 64 → b64_ok v = true.
Proof.
  intros H. apply below_64 in H. revert v H. apply forallb_forall. vm_compute. reflexivity.
Qed.

Ltac euclid := zify; Z.to_euclidean_division_equations; lia.
Ltac sextets_lia := cbn [sextets fst snd]; repeat (apply Forall_cons_2; [euclid|]); first [apply Forall_nil_2 | assumption].

(** Bytes come in threes. *)
Lemma triple_ind {A} (P : list A → Prop) :
  P [] → (∀ a, P [a]) → (∀ a b, P [a; b]) → (∀ a b c l, P l → P (a :: b :: c :: l)) → ∀ l, P l.
Proof.
  intros H0 H1 H2 H3 l.
  assert (P l ∧ (∀ a, P (a :: l)) ∧ ∀ a b, P (a :: b :: l)) as [? _]; [|done].
  induction l as [|x l (IH0 & IH1 & IH2)]; [auto|]. split_and!; auto.
Qed.

Lemma sextets_spec l : Forall (λ b, b < 256) l →
  Forall (λ v, v < 64) (sextets l).1
  ∧ (sextets l).2 = Z.to_nat ((- Z.of_nat (length (sextets l).1)) mod 4).
Proof.
  induction l as [|a|a b|a b c l IH] using triple_ind; intros H.
  - by split.
  - inversion H as [|? ? Ha _]; subst. split; [|done].
    sextets_lia.
  - inversion H as [|? ? Ha H']; subst. inversion H' as [|? ? Hb _]; subst. split; [|done].
    sextets_lia.
  - inversion H as [|? ? Ha H']; subst. inversion H' as [|? ? Hb H'']; subst.
    inversion H'' as [|? ? Hc Hl]; subst. destruct (IH Hl) as [Hs Hp].
    cbn [sextets]. destruct (sextets l) as [s p]. cbn [fst snd] in *. split.
    + sextets_lia.
    + rewrite Hp. cbn [length]. f_equal.
      replace (- Z.of_nat (S (S (S (S (length s))))))%Z
        with (- Z.of_nat (length s) + (-1) * 4)%Z by lia.
      by rewrite Z.mod_add.
Qed.

(** The character the decoder looks up for a 6-bit value. *)
Definition wire (v : N) : ascii := from_urlsafe (to_urlsafe (b64_char v)).

Lemma a2b_push q v l : v < 64 →
  a2b_loop q (wire v :: l) = let '(out, q') := push q v in (out ++.) <$> a2b_loop q' l.
Proof.
  intros H%b64_char_ok. unfold b64_ok in H. rewrite !andb_true_iff, !negb_true_iff in H.
  destruct H as [[[[[Hv He] _] _] _] _]. apply bool_decide_eq_true in Hv.
  unfold wire. cbn [a2b_loop]. by rewrite He, Hv.
Qed.

Lemma fmap_app {A} (x y : list A) (m : res (list A)) :
  (x ++.) <$> ((y ++.) <$> m) = (((x ++ y) ++.) <$> m : res (list A)).
Proof. destruct m as [l|e]; cbn; [|done]. by rewrite app_assoc. Qed.

Lemma a2b_sextets l : Forall (λ b, b < 256) l →
  a2b_loop (mkQuartet 0 0 0) (map wire (sextets l).1 ++ replicate (sextets l).2 "="%char) = Ok l.
Proof.
  induction l as [|a|a b|a b c l IH] using triple_ind; intros H.
  - done.
  - inversion H as [|? ? Ha _]; subst. cbn [sextets fst snd map app].
    repeat (rewrite a2b_push by euclid; cbn [push q_pos q_left]).
    cbn -[N.mul N.div N.modulo]. repeat f_equal. euclid.
  - inversion H as [|? ? Ha H']; subst. inversion H' as [|? ? Hb _]; subst.
    cbn [sextets fst snd map app].
    repeat (rewrite a2b_push by euclid; cbn [push q_pos q_left]).
    cbn -[N.mul N.div N.modulo]. repeat f_equal; euclid.
  - inversion H as [|? ? Ha H']; subst. inversion H' as [|? ? Hb H'']; subst.
    inversion H'' as [|? ? Hc Hl]; subst. specialize (IH Hl).
    cbn [sextets]. destruct (sextets l) as [s p]. cbn [fst snd map app] in *.
    repeat (rewrite a2b_push by euclid; cbn [push q_pos q_left]).
    rewrite IH. cbn -[N.mul N.div N.modulo].
    repeat f_equal; euclid.
Qed.

Lemma bytes_of_small s : Forall (λ b, b < 256) (bytes_of s).
Proof.
  unfold bytes_of. apply Forall_fmap, Forall_true. intros c. apply N_ascii_bounded.
Qed.

Lemma of_bytes_of s : of_bytes (bytes_of s) = s.
Proof.
  unfold of_bytes, bytes_of. rewrite map_map. rewrite <-(of_chars_chars s) at 2. f_equal.
  rewrite <-(map_id (chars s)) at 2. apply map_ext. intros c. apply ascii_N_embedding.
Qed.

(** The encoding without its padding; [pads] says how much was dropped. *)
Definition b64_body (b : string) : list ascii := map (to_urlsafe ∘ b64_char) (sextets (bytes_of b)).1.

Lemma urlsafe_b64encode_body b :
  urlsafe_b64encode b
  = of_chars (b64_body b ++ replicate (Z.to_nat ((- Z.of_nat (length (b64_body b))) mod 4)) "="%char).
Proof.
  unfold urlsafe_b64encode, b64_body. destruct (sextets_spec _ (bytes_of_small b)) as [_ Hp].
  rewrite length_map, <-Hp. by destruct (sextets (bytes_of b)).
Qed.

Lemma b64_body_ok b c : In c (b64_body b) →
  Ascii.eqb c "=" = false ∧ is_space c = false ∧ code c <? 128 = true ∧ Ascii.eqb c "." = false.
Proof.
  intros (v & <- & Hv)%in_map_iff. destruct (sextets_spec _ (bytes_of_small b)) as [Hs _].
  rewrite Forall_forall in Hs. apply list_elem_of_In, Hs, b64_char_ok in Hv. unfold b64_ok in Hv.
  rewrite !andb_true_iff, !negb_true_iff in Hv. unfold compose. naive_solver.
Qed.

Lemma urlsafe_b64_roundtrip b : urlsafe_b64decode (urlsafe_b64encode b) = Ok b.
Proof.
  unfold urlsafe_b64decode, a2b_base64.
  assert (is_ascii (urlsafe_b64encode b) = true) as ->.
  { rewrite urlsafe_b64encode_body. unfold is_ascii. rewrite chars_of_chars. apply forallb_forall.
    intros c [Hc|Hc]%in_app_or; [by apply b64_body_ok in Hc as (_ & _ & ? & _)|].
    apply list_elem_of_In, elem_of_replicate in Hc as [-> _]. done. }
  unfold urlsafe_b64encode. pose proof (a2b_sextets _ (bytes_of_small b)) as H.
  destruct (sextets (bytes_of b)) as [s p]. cbn [fst snd] in H. rewrite chars_of_chars, map_app.
  rewrite map_map. assert (map from_urlsafe (replicate p "="%char) = replicate p "="%char) as ->.
  { clear. induction p as [|p IH]; cbn; [done|]. by rewrite IH. }
  change (map (λ x, from_urlsafe ((to_urlsafe ∘ b64_char) x)) s) with (map wire s).
  rewrite H. cbn. by rewrite of_bytes_of.
Qed.
