(* ===== verification/FnMatch.v ===== *)
(** Shell patterns: Python's [fnmatch.fnmatch] (POSIX, so case is kept).

    A pattern is compiled to a list of tokens and matched against the whole
    name.  [class_chunks] follows the standard library's treatment of bracket
    expressions: a closing bracket first is literal, a leading [!] negates,
    hyphens make ranges, an empty range disappears.  The lemmas describe how
    a pattern without brackets splits and are what the soundness of the
    program's pattern order rests on. *)
From Stdlib Require Import Ascii.
From S2P Require Import Prelude PyStr.

Inductive class_item : Type :=
  | CLit (c : ascii)
  | CRange (lo hi : ascii).

Inductive token : Type :=
  | TStar
  | TAny
  | TLit (c : ascii)
  | TClass (neg : bool) (items : list class_item)
  | TNever.

Definition ch_le (a b : ascii) : bool := (code a <=? code b)%N.

(** The text of a bracket expression after the opening bracket, when it is
closed. *)
Fixpoint until_bracket (l : list ascii) : option (list ascii) :=
  match l with
  | [] => None
  | c :: l' => if Ascii.eqb c "]" then Some [] else cons c <$> until_bracket l'
  end.

Definition class_text (l : list ascii) : option (list ascii) :=
  let '(pre, l) := match l with "!"%char :: k => (["!"%char], k) | _ => ([], l) end in
  let '(pre, l) := match l with "]"%char :: k => (pre ++ ["]"%char], k) | _ => (pre, l) end in
  (pre ++.) <$> until_bracket l.

(** The chunks between the hyphens that make ranges.  [skip] is the number of
characters that cannot hold the next such hyphen. *)
Fixpoint cut_hyphens (skip : nat) (cur l : list ascii) : list (list ascii) :=
  match l with
  | [] => [rev cur]
  | c :: l' =>
      match skip with
      | S k => cut_hyphens k (c :: cur) l'
      | O => if Ascii.eqb c "-" then rev cur :: cut_hyphens 2 [] l'
             else cut_hyphens 0 (c :: cur) l'
      end
  end.

(** A trailing hyphen belongs to the chunk before it. *)
Fixpoint join_trailing (cs : list (list ascii)) : list (list ascii) :=
  match cs with
  | [c; []] => [c ++ ["-"%char]]
  | c :: cs' => c :: join_trailing cs'
  | [] => []
  end.

(** Remove the empty ranges, last pair first. *)
Fixpoint drop_empty_ranges (cs : list (list ascii)) : list (list ascii) :=
  match cs with
  | c :: cs' =>
      match drop_empty_ranges cs' with
      | (f :: t) :: r =>
          match last c with
          | Some e => if ch_le e f then c :: (f :: t) :: r else (removelast c ++ t) :: r
          | None => c :: (f :: t) :: r
          end
      | r => c :: r
      end
  | [] => []
  end.

Definition class_chunks (stuff : list ascii) : list (list ascii) :=
  if existsb (Ascii.eqb "-") stuff then
    let skip := match stuff with "!"%char :: _ => 2 | _ => 1 end%nat in
    drop_empty_ranges (join_trailing (cut_hyphens skip [] stuff))
  else [stuff].

(** Adjacent chunks are joined by a range. *)
Fixpoint chunk_items (cs : list (list ascii)) : list class_item :=
  match cs with
  | [] => []
  | c :: cs' =>
      match cs', last c with
      | (f :: _) :: _, Some e =>
          map CLit (removelast c) ++ CRange e f ::
            match chunk_items cs' with CLit _ :: r => r | r => r end
      | _, _ => map CLit c ++ chunk_items cs'
      end
  end.

(** The token of a bracket expression with text [stuff]. *)
Definition class_token (stuff : list ascii) : token :=
  match class_chunks stuff with
  | [] | [[]] => TNever
  | [["!"%char]] => TAny
  | ("!"%char :: c) :: cs => TClass true (chunk_items (c :: cs))
  | cs => TClass false (chunk_items cs)
  end.

(** [compile skip l]: the tokens of [l], whose first [skip] characters belong
to a bracket expression already compiled. *)
Fixpoint compile (skip : nat) (l : list ascii) : list token :=
  match l with
  | [] => []
  | c :: l' =>
      match skip with
      | S k => compile k l'
      | O =>
          if Ascii.eqb c "*" then TStar :: compile 0 l'
          else if Ascii.eqb c "?" then TAny :: compile 0 l'
          else if Ascii.eqb c "[" then
            match class_text l' with
            | Some stuff => class_token stuff :: compile (S (length stuff)) l'
            | None => TLit c :: compile 0 l'
            end
          else TLit c :: compile 0 l'
      end
  end.

Definition item_match (c : ascii) (i : class_item) : bool :=
  match i with
  | CLit d => Ascii.eqb c d
  | CRange lo hi => ch_le lo c && ch_le c hi
  end.

Definition token_match (t : token) (c : ascii) : bool :=
  match t with
  | TStar | TAny => true
  | TLit d => Ascii.eqb c d
  | TClass neg items => xorb neg (existsb (item_match c) items)
  | TNever => false
  end.

Fixpoint tokens_match (ts : list token) (l : list ascii) : bool :=
  match ts with
  | [] => match l with [] => true | _ => false end
  | TStar :: ts' =>
      (fix star (l : list ascii) : bool :=
         tokens_match ts' l || match l with [] => false | _ :: l' => star l' end) l
  | t :: ts' =>
      match l with
      | c :: l' => token_match t c && tokens_match ts' l'
      | [] => false
      end
  end.

Definition fnmatch (name pat : string) : bool := tokens_match (compile 0 (chars pat)) (chars name).

Example fn_star : fnmatch "skill:run" "skill:*" = true.
Proof. reflexivity. Qed.
Example fn_class : map (λ s, fnmatch s "x[a-c!]?") ["xb1"; "x!1"; "xd1"; "xb"]
                   = [true; true; false; false].
Proof. reflexivity. Qed.
Example fn_neg : map (λ s, fnmatch s "[!]a-c]") ["]"; "b"; "-"; "d"] = [false; false; true; true].
Proof. reflexivity. Qed.
Example fn_edge : map (λ p, fnmatch "-" p) ["[a-]"; "[--0]"; "[z-a]"; "[!z-a]"; "["; "[-a]"]
                  = [true; true; false; true; false; true].
Proof. reflexivity. Qed.
Example fn_unclosed : map (λ p, fnmatch "a[bc" p) ["a[*"; "a[bc"; "a[b]c"] = [true; true; false].
Proof. reflexivity. Qed.

(** * Matching split at a token *)

Lemma star_match_iff ts l :
  tokens_match (TStar :: ts) l = true ↔ ∃ l1 l2, l = l1 ++ l2 ∧ tokens_match ts l2 = true.
Proof.
  induction l as [|c l IH]; cbn -[tokens_match].
  - cbn. split.
    + intros H. rewrite orb_false_r in H. by exists [], [].
    + intros (l1 & l2 & Hl & H). symmetry in Hl. apply app_nil in Hl as [-> ->].
      by rewrite orb_false_r.
  - change (tokens_match (TStar :: ts) (c :: l))
      with (tokens_match ts (c :: l) || tokens_match (TStar :: ts) l).
    rewrite orb_true_iff, IH. split.
    + intros [H|(l1 & l2 & -> & H)]; [by exists [], (c :: l)|by exists (c :: l1), l2].
    + intros ([|d l1] & l2 & Hl & H); cbn in Hl; simplify_eq; [by left|right; eauto].
Qed.

Lemma tokens_match_star_nil l : tokens_match [TStar] l = true.
Proof. apply star_match_iff. exists l, []. by rewrite app_nil_r. Qed.

Lemma tokens_match_app ts1 ts2 l :
  tokens_match (ts1 ++ ts2) l = true ↔
  ∃ l1 l2, l = l1 ++ l2 ∧ tokens_match ts1 l1 = true ∧ tokens_match ts2 l2 = true.
Proof.
  revert l. induction ts1 as [|t ts1 IH]; intros l.
  - cbn. split; [by exists [], l|]. by intros ([|] & l2 & -> & Hl1 & H).
  - change ((t :: ts1) ++ ts2) with (t :: (ts1 ++ ts2)).
    assert (t = TStar ∨ t ≠ TStar) as [->|Ht] by (destruct t; auto).
    { rewrite star_match_iff. setoid_rewrite IH. split.
      - intros (l0 & ? & -> & l1 & l2 & -> & H1 & H2). exists (l0 ++ l1), l2.
        rewrite <-app_assoc. repeat split; [|done]. apply star_match_iff. eauto.
      - intros (l1' & l2 & -> & H1 & H2). apply star_match_iff in H1 as (l0 & l1 & -> & H1).
        exists l0, (l1 ++ l2). rewrite app_assoc. eauto 10. }
    assert (∀ us k, tokens_match (t :: us) k =
      match k with c :: k' => token_match t c && tokens_match us k' | [] => false end) as Hcons
      by (intros us k; by destruct t, k).
    destruct l as [|c l].
    + rewrite Hcons. split; [done|]. intros ([|] & l2 & Hl & H1 & _); cbn in Hl; [|done].
      by rewrite Hcons in H1.
    + rewrite Hcons, andb_true_iff, IH. split.
      * intros (Hc & l1 & l2 & -> & H1 & H2). exists (c :: l1), l2.
        rewrite Hcons, Hc. auto.
      * intros ([|d l1] & l2 & Hl & H1 & H2); rewrite Hcons in H1; [done|].
        cbn in Hl. simplify_eq. apply andb_true_iff in H1 as [Hc H1]. eauto 10.
Qed.

(** * Patterns without an opening bracket compile piecewise *)

Definition no_bracket (l : list ascii) : bool := negb (existsb (Ascii.eqb "[") l).

Lemma compile_app l k : no_bracket l = true → compile 0 (l ++ k) = compile 0 l ++ compile 0 k.
Proof.
  unfold no_bracket. induction l as [|c l IH]; [done|].
  cbn [existsb]. destruct (Ascii.eqb_spec "[" c) as [<-|Hne]; [done|].
  cbn [orb]. intros Hl. specialize (IH Hl). cbn [app compile].
  destruct (Ascii.eqb c "*"); [by rewrite IH|].
  destruct (Ascii.eqb c "?"); [by rewrite IH|].
  destruct (Ascii.eqb_spec c "["); [congruence|]. by rewrite IH.
Qed.

(** A name matched by [pre ++ rest] is matched by [pre ++ "*"]. *)
Lemma fnmatch_prefix_star name pre rest :
  no_bracket (chars pre) = true →
  fnmatch name (pre +:+ rest) = true → fnmatch name (pre +:+ "*") = true.
Proof.
  intros Hpre. unfold fnmatch. rewrite !chars_app, !compile_app by done.
  rewrite !tokens_match_app. intros (l1 & l2 & Hl & H1 & _).
  exists l1, l2. repeat split; [done..|]. apply tokens_match_star_nil.
Qed.

Lemma fnmatch_star name : fnmatch name "*" = true.
Proof. apply tokens_match_star_nil. Qed.
