(* ===== verification/Capability.v ===== *)
(** Capabilities: bounded, delegable authority ([Capability] of
    graph_kernel/state.py).

    A capability allows actions on resources (shell patterns), except the
    denied ones, until it expires, within a budget, and may be delegated a
    bounded number of times.  The main results: delegation never amplifies
    authority, syntactically ([is_subset_of]) and semantically (what the child
    may use, the parent may use), and [load] inverts [dump]. *)
From Stdlib Require Import Ascii.
From S2P Require Import Prelude PyStr PyDict PyJson FnMatch.
Open Scope Z_scope.

Record Capability : Type := mkCap {
  actions : gset string;
  resources : list string;
  deny : list string;
  expires_at : option Z;
  budget : Z;
  delegation_depth : Z;
  revoked : bool;
}.

#[export] Instance capability_eq_dec : EqDecision Capability.
Proof. solve_decision. Defined.

Definition matches_any (resource : string) (patterns : list string) : bool :=
  existsb (fnmatch resource) patterns.

Definition can_use (c : Capability) (action resource : string) (now : Z) : bool :=
  if revoked c then false
  else if match expires_at c with Some e => e <=? now | None => false end then false
  else if negb (bool_decide (action ∈ actions c)) then false
  else if matches_any resource (deny c) then false
  else matches_any resource (resources c).

(** The order the code uses on resource patterns. *)
Definition _pattern_subset (child parent : string) : bool :=
  if parent =s? "*" then true
  else if child =s? parent then true
  else if endswith parent "*" then startswith child (drop_last parent)
  else false.

Definition is_subset_of (c parent : Capability) : bool :=
  if negb (bool_decide (actions c ⊆ actions parent)) then false
  else if Z.max (delegation_depth parent - 1) 0 <? delegation_depth c then false
  else if match expires_at parent with
          | Some pe => match expires_at c with None => true | Some e => pe <? e end
          | None => false
          end then false
  else if budget parent <? budget c then false
  else forallb (λ pattern, existsb (_pattern_subset pattern) (resources parent)) (resources c).

Definition narrowed_to (c requested : Capability) : Capability := {|
  actions := actions c ∩ actions requested;
  resources :=
    base.filter (λ pattern, existsb (_pattern_subset pattern) (resources c) = true) (resources requested);
  deny := sorted_set (list_to_set (deny c) ∪ list_to_set (deny requested));
  expires_at :=
    match expires_at requested with
    | Some re => match expires_at c with Some e => Some (Z.min e re) | None => Some re end
    | None => expires_at c
    end;
  budget := Z.min (budget c) (budget requested);
  delegation_depth := Z.max (Z.min (delegation_depth c - 1) (delegation_depth requested)) 0;
  revoked := false;
|}.

Definition debit (c : Capability) (amount : Z) : Capability := {|
  actions := actions c; resources := resources c; deny := deny c;
  expires_at := expires_at c; budget := Z.max (budget c - amount) 0;
  delegation_depth := delegation_depth c; revoked := revoked c;
|}.

Definition revoked_copy (c : Capability) : Capability := {|
  actions := actions c; resources := resources c; deny := deny c;
  expires_at := expires_at c; budget := budget c;
  delegation_depth := delegation_depth c; revoked := true;
|}.

Definition cap_dump (c : Capability) : jobject := [
  ("actions", jstrs (sorted_set (actions c)));
  ("resources", jstrs (resources c));
  ("deny", jstrs (deny c));
  ("expires_at", match expires_at c with Some e => JInt e | None => JNull end);
  ("budget", JInt (budget c));
  ("delegation_depth", JInt (delegation_depth c));
  ("revoked", JBool (revoked c))
].

Definition cap_load (data : jobject) : res Capability :=
  acts ← py_str_list (jget_or data "actions" (JList []));
  ress ← py_str_list (jget_or data "resources" (JList []));
  dens ← py_str_list (jget_or data "deny" (JList []));
  b ← int_field data "budget";
  dd ← int_field data "delegation_depth";
  Ok {| actions := list_to_set acts; resources := ress; deny := dens;
        expires_at := match jget data "expires_at" with
                      | JInt e => Some e
                      | JBool x => Some (if x then 1 else 0)
                      | _ => None
                      end;
        budget := b; delegation_depth := dd; revoked := truthy (jget data "revoked") |}.

(** * Using a capability *)

(** [can_use] holds exactly when every condition of the documentation does. *)
Lemma can_use_iff c a r now :
  can_use c a r now = true ↔
    revoked c = false ∧ (∀ e, expires_at c = Some e → now < e) ∧ a ∈ actions c
    ∧ matches_any r (deny c) = false ∧ matches_any r (resources c) = true.
Proof.
  unfold can_use. destruct (revoked c); [naive_solver|].
  assert (match expires_at c with Some e => e <=? now | None => false end = false
          ↔ ∀ e, expires_at c = Some e → now < e) as <-.
  { destruct (expires_at c) as [e|]; [|naive_solver]. rewrite Z.leb_gt. naive_solver. }
  destruct (match expires_at c with Some e => e <=? now | None => false end); [naive_solver|].
  case_bool_decide; cbn [negb]; [|naive_solver].
  destruct (matches_any r (deny c)); naive_solver.
Qed.

Lemma matches_any_true r ps : matches_any r ps = true ↔ ∃ p, p ∈ ps ∧ fnmatch r p = true.
Proof. apply existsb_elem. Qed.

(** What a capability is good for, in the terms of its documentation. *)
Record covers (c : Capability) (a r : string) (t : Z) : Prop := {
  cv_live : revoked c = false;
  cv_time : ∀ e, expires_at c = Some e → t < e;
  cv_action : a ∈ actions c;
  cv_allowed : ∃ p, p ∈ resources c ∧ fnmatch r p = true;
  cv_denied : ∀ p, p ∈ deny c → fnmatch r p = false;
}.

Lemma can_use_covers c a r t : can_use c a r t = true ↔ covers c a r t.
Proof.
  rewrite can_use_iff, matches_any_true, <-(not_true_iff_false (matches_any r (deny c))), matches_any_true. split.
  - intros (H1 & H2 & H3 & H4 & H5). split; try done. intros p Hp. apply not_true_iff_false. intros Hm. apply H4. by exists p.
  - intros [H1 H2 H3 H5 H4]. split_and!; try done. intros (p & Hp & Hm). by rewrite (H4 p Hp) in Hm.
Qed.

Lemma matches_any_mono r ps qs : ps ⊆ qs → matches_any r qs = false → matches_any r ps = false.
Proof.
  intros Hsub. destruct (matches_any r ps) eqn:E; [|done].
  apply matches_any_true in E as (p & Hp & Hm). intros Hq.
  rewrite <-Hq. symmetry. apply matches_any_true. eauto.
Qed.

(** * Delegation narrows *)

Lemma narrowed_is_subset c r : is_subset_of (narrowed_to c r) c = true.
Proof.
  unfold is_subset_of. cbn.
  rewrite bool_decide_eq_true_2 by set_solver. cbn [negb].
  rewrite (proj2 (Z.ltb_ge _ _)) by lia.
  assert (match expires_at c with
          | Some pe =>
              match match expires_at r with
                    | Some re => match expires_at c with Some e => Some (Z.min e re) | None => Some re end
                    | None => expires_at c end with
              | None => true | Some e => pe <? e end
          | None => false end = false) as ->.
  { destruct (expires_at c) as [e|], (expires_at r) as [re|]; try done; apply Z.ltb_ge; lia. }
  rewrite (proj2 (Z.ltb_ge _ _)) by lia.
  apply forallb_elem. intros p. rewrite list_elem_of_filter. naive_solver.
Qed.

(** Patterns for which the code's order is sound: no bracket expression in the
pattern on the parent's side. *)
Definition bracket_free (p : string) : bool := no_bracket (chars p).

Lemma endswith_star p : endswith p "*" = true → p = drop_last p +:+ "*".
Proof.
  unfold endswith, drop_last. intros [Hl Hs]%andb_true_iff.
  apply Nat.leb_le in Hl. apply String.eqb_eq in Hs.
  apply (inj chars). rewrite chars_app, chars_of_chars.
  destruct (decide (chars p = [])) as [H|Hne].
  { apply (f_equal of_chars) in H. rewrite of_chars_chars in H. subst. cbn in Hl. lia. }
  rewrite (app_removelast_last "*"%char Hne) at 1. f_equal.
  revert Hs. clear Hl. rewrite <-(of_chars_chars p) at 1 2. generalize (chars p) as l, Hne.
  clear p Hne. intros l Hne.
  assert (∀ l : list ascii, l ≠ [] →
    String.substring (String.length (of_chars l) - 1) 1 (of_chars l)
    = of_chars [List.last l "*"%char]) as Hsub.
  { clear. induction l as [|c l IH]; [done|]. intros _. destruct l as [|d l]; [done|].
    specialize (IH ltac:(done)). cbn in IH |- *. by rewrite Nat.sub_0_r in IH. }
  rewrite Hsub by done. intros Hs. apply (f_equal chars) in Hs. by rewrite chars_of_chars in Hs.
Qed.

(** The order is sound: a name matched by the child pattern is matched by the
parent pattern. *)
Lemma pattern_subset_sound child parent name :
  bracket_free parent = true → _pattern_subset child parent = true →
  fnmatch name child = true → fnmatch name parent = true.
Proof.
  unfold _pattern_subset, bracket_free. intros Hb.
  destruct (String.eqb_spec parent "*") as [->|_]; [intros; apply fnmatch_star|].
  destruct (String.eqb_spec child parent) as [->|_]; [done|].
  destruct (endswith parent "*") eqn:He; [|done].
  apply endswith_star in He. intros (rest & ->)%startswith_iff.
  revert Hb He. generalize (drop_last parent) as pre. intros pre Hb ->.
  apply fnmatch_prefix_star. rewrite chars_app in Hb. unfold no_bracket in *.
  rewrite existsb_app in Hb. by destruct (existsb _ (chars pre)).
Qed.

Lemma narrowed_resources_sound c r name :
  forallb bracket_free (resources c) = true →
  matches_any name (resources (narrowed_to c r)) = true → matches_any name (resources c) = true.
Proof.
  intros Hb. rewrite !matches_any_true. intros (p & Hp & Hm). cbn in Hp.
  apply list_elem_of_filter in Hp as [Hsub _].
  apply existsb_elem in Hsub as (q & Hq & Hpq). exists q. split; [done|].
  apply (pattern_subset_sound p); [|done..]. by apply (proj1 (forallb_elem _ _) Hb).
Qed.

(** Whatever a delegated capability may be used for, the capability it was
delegated from could be used for at the same moment. *)
Lemma delegation_attenuates c r a res now :
  revoked c = false → forallb bracket_free (resources c) = true →
  can_use (narrowed_to c r) a res now = true → can_use c a res now = true.
Proof.
  intros Hrev Hb. rewrite !can_use_iff. cbn [revoked expires_at actions deny].
  intros (_ & He & Ha & Hd & Hr). split_and!.
  - done.
  - intros e Hc. cbn in He. rewrite Hc in He.
    destruct (expires_at r) as [re|]; specialize (He _ eq_refl); lia.
  - set_solver.
  - eapply matches_any_mono; [|exact Hd]. intros p Hp. cbn.
    rewrite elem_of_sorted_set. set_solver.
  - by eapply narrowed_resources_sound.
Qed.

(** The budget of a delegated capability never exceeds its parent's, and the
depth left for further delegation is smaller. *)
Lemma narrowed_bounds c r :
  budget (narrowed_to c r) ≤ budget c
  ∧ (0 < delegation_depth c → delegation_depth (narrowed_to c r) < delegation_depth c).
Proof. cbn. lia. Qed.

Lemma narrowed_expiry c r e : expires_at c = Some e → ∃ e', expires_at (narrowed_to c r) = Some e' ∧ e' ≤ e.
Proof. cbn. intros ->. destruct (expires_at r); eexists; (split; [done|lia]). Qed.

Lemma narrowed_deny c r : deny c ⊆ deny (narrowed_to c r).
Proof. intros p Hp. cbn. rewrite elem_of_sorted_set. set_solver. Qed.

Lemma revoked_cannot_use c a r now : revoked c = true → can_use c a r now = false.
Proof. unfold can_use. by intros ->. Qed.

Lemma debit_can_use c n a r now : can_use (debit c n) a r now = can_use c a r now.
Proof. done. Qed.

(** * Round trip *)

Lemma py_str_list_jstrs l : py_str_list (jstrs l) = Ok l.
Proof. cbn. f_equal. rewrite map_map. apply map_id. Qed.

Lemma cap_load_dump c : cap_load (cap_dump c) = Ok c.
Proof.
  unfold cap_load.
  rewrite (int_field_int (cap_dump c) "budget" (budget c)) by reflexivity.
  rewrite (int_field_int (cap_dump c) "delegation_depth" (delegation_depth c)) by reflexivity.
  unfold cap_dump, jget_or. cbn -[py_str_list jstrs]. rewrite !py_str_list_jstrs. cbn.
  destruct c as [acts ress dens [e|] b dd rv]; cbn; by rewrite list_to_set_sorted_set.
Qed.
