(* ===== verification/Policy.v ===== *)
(** Policy rules, the decision of a policy stack, and the signed decision
    envelope (graph_kernel/policy.py, and the policy part of
    graph_kernel/state.py).

    [resolve] is the decision part of [check_policy_stack]: the matching rules
    sorted by precedence and level, and the strongest effect among them.  The
    envelope is the signed evidence of a decision: [envelope_create] signs it
    with HMAC-SHA256 over its canonical JSON, [verify_policy_decision] checks
    the parsed payload, [redacted_policy_decision] is the dashboard view. *)
From Stdlib Require Import Ascii.
From S2P Require Import Prelude PyStr PyDict PyJson PyHash FnMatch Capability.
Open Scope Z_scope.

Inductive decision : Set := DAllow | DDeny | DNarrow | DBlocked.
Inductive effect : Set := EAllow | EDeny | EFreeze | ERevoke | EApproval | ENarrower.
Inductive level : Set := LPlatform | LOrg | LOwner | LProcess.

#[export] Instance decision_eq_dec : EqDecision decision.
Proof. solve_decision. Defined.
#[export] Instance effect_eq_dec : EqDecision effect.
Proof. solve_decision. Defined.

Definition decision_name (d : decision) : string :=
  match d with DAllow => "allow" | DDeny => "deny" | DNarrow => "narrow" | DBlocked => "blocked" end.

Definition effect_name (e : effect) : string :=
  match e with
  | EAllow => "allow" | EDeny => "deny" | EFreeze => "freeze" | ERevoke => "revoke"
  | EApproval => "require_approval" | ENarrower => "require_narrower_scope"
  end.

Definition level_name (l : level) : string :=
  match l with
  | LPlatform => "platform" | LOrg => "org" | LOwner => "owner" | LProcess => "process"
  end.

Definition _POLICY_LEVEL_ORDER (l : level) : Z :=
  match l with LPlatform => 0 | LOrg => 1 | LOwner => 2 | LProcess => 3 end.

Record PolicyRule : Type := mkRule {
  policy_id : string;
  rule_level : level;
  rule_effect : effect;
  rule_actions : gset string;
  rule_resources : list string;
  precedence : Z;
}.

Definition rule_matches (p : PolicyRule) (action resource : string) : bool :=
  (bool_decide ("*" ∈ rule_actions p) || bool_decide (action ∈ rule_actions p))
  && matches_any resource (rule_resources p).

Definition rule_dump (p : PolicyRule) : jobject := [
  ("policy_id", JStr (policy_id p));
  ("level", JStr (level_name (rule_level p)));
  ("effect", JStr (effect_name (rule_effect p)));
  ("actions", jstrs (sorted_set (rule_actions p)));
  ("resources", jstrs (rule_resources p));
  ("precedence", JInt (precedence p))
].

Record PolicyDecision : Type := mkDecision {
  pd_decision : decision;
  pd_policy_refs : list string;
  pd_reason : string;
  pd_effect : option effect;
}.

Definition decision_dump (d : PolicyDecision) : jobject := [
  ("decision", JStr (decision_name (pd_decision d)));
  ("policy_refs", jstrs (pd_policy_refs d));
  ("reason", JStr (pd_reason d));
  ("effect", jopt (effect_name <$> pd_effect d))
].

(** The sort key [(precedence, level order)]. *)
Definition rule_le (p q : PolicyRule) : Prop :=
  precedence p < precedence q ∨
  precedence p = precedence q ∧ _POLICY_LEVEL_ORDER (rule_level p) ≤ _POLICY_LEVEL_ORDER (rule_level q).
#[export] Instance rule_le_dec p q : Decision (rule_le p q).
Proof. unfold rule_le. apply _. Defined.

Definition matched_rules (action resource : string) (policies : list PolicyRule) : list PolicyRule :=
  merge_sort rule_le (base.filter (λ p, rule_matches p action resource = true) policies).

Definition has_effect (e : effect) (ps : list PolicyRule) : bool :=
  existsb (λ p, bool_decide (rule_effect p = e)) ps.

Definition decide_matched (matched : list PolicyRule) : PolicyDecision :=
  match matched with
  | [] => mkDecision DDeny [] "no matching policy" None
  | _ =>
      let refs := map policy_id matched in
      if has_effect ERevoke matched
      then mkDecision DDeny refs "revoke overrides allow" (Some ERevoke)
      else if has_effect EFreeze matched
      then mkDecision DBlocked refs "freeze overrides allow" (Some EFreeze)
      else if has_effect EDeny matched
      then mkDecision DDeny refs "deny overrides allow" (Some EDeny)
      else if has_effect EApproval matched
      then mkDecision DBlocked refs "approval required before action" (Some EApproval)
      else if has_effect ENarrower matched
      then mkDecision DNarrow refs "policy requires narrower scope" (Some ENarrower)
      else mkDecision DAllow refs "all matching policies allow" (Some EAllow)
  end.

Definition resolve (action resource : string) (policies : list PolicyRule) : PolicyDecision :=
  decide_matched (matched_rules action resource policies).

(** * The decision envelope *)

(** A time stamp: seconds, or text. *)
Inductive stamp : Type := TInt (n : Z) | TText (s : string).

Definition stamp_json (t : stamp) : json := match t with TInt n => JInt n | TText s => JStr s end.

Record PolicyRuleSnapshot : Type := mkSnapshot {
  sn_policy_id : string;
  sn_level : string;
  sn_effect : string;
  sn_actions : list string;
  sn_resources : list string;
  sn_precedence : Z;
}.

Definition snapshot_payload (r : PolicyRuleSnapshot) : jobject := [
  ("policy_id", JStr (sn_policy_id r)); ("level", JStr (sn_level r));
  ("effect", JStr (sn_effect r)); ("actions", jstrs (sn_actions r));
  ("resources", jstrs (sn_resources r)); ("precedence", JInt (sn_precedence r))
].

Record PolicyDecisionEnvelope : Type := mkEnvelope {
  ev_schema : string;
  ev_decision_id : string;
  ev_subject : string;
  ev_action : string;
  ev_resource : string;
  ev_decision : string;
  ev_effect : option string;
  ev_reason : string;
  ev_policy_refs : list string;
  ev_matched_rules : list PolicyRuleSnapshot;
  ev_evidence_refs : list string;
  ev_issued_at : stamp;
  ev_expires_at : stamp;
  ev_signature_algorithm : string;
  ev_signed_by : string;
  ev_signature : option string;
}.

Definition POLICY_DECISION_SCHEMA : string := "kernel_policy_decision@v1".
Definition POLICY_DECISION_SIGNATURE_ALG : string := "hmac-sha256".
Definition DEFAULT_POLICY_DECISION_TTL : Z := 900.
Definition DEFAULT_SIGNER : string := "control-plane:kernel-policy".

Definition to_unsigned_payload (e : PolicyDecisionEnvelope) : jobject := [
  ("schema", JStr (ev_schema e)); ("decision_id", JStr (ev_decision_id e));
  ("subject", JStr (ev_subject e)); ("action", JStr (ev_action e));
  ("resource", JStr (ev_resource e)); ("decision", JStr (ev_decision e));
  ("effect", jopt (ev_effect e)); ("reason", JStr (ev_reason e));
  ("policy_refs", jstrs (ev_policy_refs e));
  ("matched_rules", JList (map (λ r, JObj (snapshot_payload r)) (ev_matched_rules e)));
  ("evidence_refs", jstrs (ev_evidence_refs e));
  ("issued_at", stamp_json (ev_issued_at e)); ("expires_at", stamp_json (ev_expires_at e));
  ("signature_algorithm", JStr (ev_signature_algorithm e)); ("signed_by", JStr (ev_signed_by e))
].

Definition to_payload (e : PolicyDecisionEnvelope) : jobject :=
  <["signature" := jopt (ev_signature e)]> (to_unsigned_payload e).

Definition with_signature (e : PolicyDecisionEnvelope) (signature : string) : PolicyDecisionEnvelope :=
  mkEnvelope (ev_schema e) (ev_decision_id e) (ev_subject e) (ev_action e) (ev_resource e)
    (ev_decision e) (ev_effect e) (ev_reason e) (ev_policy_refs e) (ev_matched_rules e)
    (ev_evidence_refs e) (ev_issued_at e) (ev_expires_at e) (ev_signature_algorithm e)
    (ev_signed_by e) (Some signature).

Definition _canonical_payload (envelope : jobject) : string :=
  canonical_json (JObj (base.filter (λ p, (p.1 =s? "signature") = false) envelope)).

(** [secret] is the deployment's signing secret. *)
Definition _signature (secret : string) (envelope : jobject) : string :=
  hmac_sha256_hex secret (_canonical_payload envelope).

Definition bad_decision (msg : string) {A} : res A := Raise (ValueError msg).

Definition _optional_text (v : json) : res (option string) :=
  match v with
  | JNull => Ok None
  | JStr _ | JInt _ | JBool _ =>
      let text := strip (py_str v) in Ok (if text =s? "" then None else Some text)
  | _ => bad_decision "policy decision text field is invalid"
  end.

Definition _required_text (value : jobject) (key : string) : res string :=
  t ← _optional_text (jget value key);
  match t with Some s => Ok s | None => bad_decision ("policy decision " +:+ key +:+ " is missing") end.

Definition _required_time (value : jobject) (key : string) : res stamp :=
  match jget value key with
  | JInt n => Ok (TInt n)
  | JBool b => Ok (TInt (if b then 1 else 0))
  | JStr s => Ok (TText s)
  | _ => bad_decision ("policy decision " +:+ key +:+ " is missing")
  end.

Definition _text_tuple (v : json) : res (list string) :=
  match v with
  | JNull => Ok []
  | JList l =>
      res_map (λ item, t ← _optional_text item;
                       match t with Some s => Ok s | None => bad_decision "policy decision list item is invalid" end) l
  | _ => bad_decision "policy decision list field is invalid"
  end.

Definition _dict_tuple (v : json) : res (list jobject) :=
  match v with
  | JNull => Ok []
  | JList l =>
      res_map (λ item, match item with
                       | JObj d => Ok d
                       | _ => bad_decision "policy decision object list item is invalid"
                       end) l
  | _ => bad_decision "policy decision object list is invalid"
  end.

Definition snapshot_from_payload (value : jobject) : res PolicyRuleSnapshot :=
  pid ← _required_text value "policy_id";
  lvl ← _required_text value "level";
  eff ← _required_text value "effect";
  acts ← _text_tuple (jget value "actions");
  ress ← _text_tuple (jget value "resources");
  prec ← int_field value "precedence";
  Ok (mkSnapshot pid lvl eff acts ress prec).

Definition envelope_from_payload (value : jobject) : res PolicyDecisionEnvelope :=
  schema ← _required_text value "schema";
  did ← _required_text value "decision_id";
  subj ← _required_text value "subject";
  act ← _required_text value "action";
  rsrc ← _required_text value "resource";
  dcn ← _required_text value "decision";
  eff ← _optional_text (jget value "effect");
  rsn ← _required_text value "reason";
  refs ← _text_tuple (jget value "policy_refs");
  rules ← _dict_tuple (jget value "matched_rules");
  snaps ← res_map snapshot_from_payload rules;
  evid ← _text_tuple (jget value "evidence_refs");
  iss ← _required_time value "issued_at";
  exp ← _required_time value "expires_at";
  alg ← _required_text value "signature_algorithm";
  by_ ← _required_text value "signed_by";
  sig ← _optional_text (jget value "signature");
  Ok (mkEnvelope schema did subj act rsrc dcn eff rsn refs snaps evid iss exp alg by_ sig).

(** The record handed to the envelope: everything but the signature. *)
Definition unsigned_envelope (did subj act rsrc dcn : string) (eff : option string) (rsn : string)
    (refs : list string) (rules : list PolicyRuleSnapshot) (evid : list string)
    (issued expires : stamp) : PolicyDecisionEnvelope :=
  mkEnvelope POLICY_DECISION_SCHEMA did subj act rsrc dcn eff rsn refs rules evid issued expires
    POLICY_DECISION_SIGNATURE_ALG DEFAULT_SIGNER None.

(** [PolicyDecisionEnvelope.create] with both times given. *)
Definition envelope_create (secret : string) (unsigned : PolicyDecisionEnvelope) : PolicyDecisionEnvelope :=
  with_signature unsigned (_signature secret (to_unsigned_payload unsigned)).

Definition build_policy_decision_envelope (secret : string) (did subj act rsrc dcn : string)
    (eff : option string) (rsn : string) (refs : list string) (rules : list jobject)
    (evid : list string) (issued expires : stamp) : res PolicyDecisionEnvelope :=
  snaps ← res_map snapshot_from_payload rules;
  Ok (envelope_create secret
        (unsigned_envelope did subj act rsrc dcn eff rsn refs snaps evid issued expires)).

Definition sign_policy_decision (secret : string) (did subj act rsrc dcn : string)
    (eff : option string) (rsn : string) (refs : list string) (rules : list jobject)
    (evid : list string) (issued expires : stamp) : res jobject :=
  to_payload <$> build_policy_decision_envelope secret did subj act rsrc dcn eff rsn refs rules evid issued expires.

(** [hmac.compare_digest] on text refuses characters outside ASCII. *)
Definition compare_digest (a b : string) : res bool :=
  if forallb (λ c, code c <? 128)%N (chars a ++ chars b) then Ok (a =s? b) else Raise TypeError.

Section verify.
(** The host's reading of an ISO 8601 time as a Unix time; a time without an
offset is read in the host's zone. *)
Context (iso_timestamp : string → option Z).

Definition _coerce_time (t : stamp) : res Z :=
  match t with
  | TInt n => Ok n
  | TText s =>
      let text := strip s in
      if negb (text =s? "") && forallb is_digit (chars text) then int_of_text text
      else match iso_timestamp text with
           | Some n => Ok n
           | None => bad_decision "policy decision time is invalid"
           end
  end.

Definition verify_policy_decision (secret : string) (envelope : json) (now : stamp) : res bool :=
  match envelope with
  | JObj value =>
      parsed ← envelope_from_payload value;
      if negb (ev_schema parsed =s? POLICY_DECISION_SCHEMA) then bad_decision "unsupported policy decision schema"
      else if negb (ev_signature_algorithm parsed =s? POLICY_DECISION_SIGNATURE_ALG)
      then bad_decision "unsupported policy decision signature algorithm"
      else match ev_signature parsed with
           | None => bad_decision "policy decision signature is missing"
           | Some signature =>
               let expected := _signature secret (to_unsigned_payload parsed) in
               same ← compare_digest signature expected;
               if negb same then bad_decision "policy decision signature mismatch"
               else
                 current ← _coerce_time now;
                 expires ← _coerce_time (ev_expires_at parsed);
                 if expires <=? current then bad_decision "policy decision has expired" else Ok true
           end
  | _ => bad_decision "policy decision envelope must be an object"
  end.
End verify.

(** * The redacted view *)

Definition _SENSITIVE_MARKERS : list string :=
  ["token"; "secret"; "jwt"; "credential"; "key"; "password"].

Definition has_marker (markers : list string) (text : string) : bool :=
  existsb (λ m, contains m text) markers.

Fixpoint _redact (v : json) : json :=
  match v with
  | JObj d =>
      JObj (map (λ p, (p.1, if has_marker _SENSITIVE_MARKERS (lower p.1)
                            then JStr "[redacted]" else p.2))
              (List.filter (λ p, negb (p.1 =s? "signature"))
                 (map (λ p, (p.1, _redact p.2)) d)))
  | JList l => JList (map _redact l)
  | JStr s =>
      if existsb (startswith s) ["sk-"; "gitea_"; "eyJ"; "eyj"]
         || has_marker _SENSITIVE_MARKERS (lower s)
      then JStr "[redacted]" else v
  | _ => v
  end.

Definition redacted_policy_decision (payload : jobject) : jobject :=
  let redacted := match _redact (JObj payload) with JObj d => d | _ => [] end in
  match jget payload "signature" with
  | JStr s =>
      if s =s? "" then <["signature_present" := JBool false]> (<["signature" := JNull]> redacted)
      else <["signature_present" := JBool true]>
             (<["signature" := JStr (str_take 12 s +:+ "...")]> redacted)
  | _ => <["signature_present" := JBool false]> (<["signature" := JNull]> redacted)
  end.
