(* ===== verification/PolicyFacts.v ===== *)
(** Properties of the policy stack and of the signed decision envelope. *)
From S2P Require Import Prelude PyStr PyDict PyJson PyHash FnMatch Capability Policy.
Open Scope Z_scope.

(** * The decision of a stack *)

(** The rules of a stack that match, in the stack's own order. *)
Definition matching (action resource : string) (ps : list PolicyRule) : list PolicyRule :=
  base.filter (λ p, rule_matches p action resource = true) ps.

Lemma matched_perm a r ps : matched_rules a r ps ≡ₚ matching a r ps.
Proof. apply merge_sort_Permutation. Qed.

Lemma has_effect_perm e ps qs : ps ≡ₚ qs → has_effect e ps = has_effect e qs.
Proof. apply existsb_perm. Qed.

Lemma has_effect_true e ps : has_effect e ps = true ↔ ∃ p, p ∈ ps ∧ rule_effect p = e.
Proof. unfold has_effect. rewrite existsb_elem. by setoid_rewrite bool_decide_eq_true. Qed.

(** The outcome of a set of matching rules, without the references. *)
Definition outcome (ps : list PolicyRule) : decision * option effect :=
  let d := decide_matched ps in (pd_decision d, pd_effect d).

Lemma outcome_perm ps qs : ps ≡ₚ qs → outcome ps = outcome qs.
Proof.
  intros H. unfold outcome, decide_matched.
  rewrite !(has_effect_perm _ ps qs H).
  destruct ps as [|p ps], qs as [|q qs]; try done.
  - by apply Permutation_nil_l in H.
  - by apply Permutation_nil_r in H.
  - by repeat case_match.
Qed.

Lemma resolve_outcome a r ps :
  (pd_decision (resolve a r ps), pd_effect (resolve a r ps)) = outcome (matching a r ps).
Proof. unfold resolve. apply (outcome_perm _ _ (matched_perm a r ps)). Qed.

(** Reordering the rules of a stack does not change what it decides. *)
Lemma resolve_perm a r ps qs : ps ≡ₚ qs →
  pd_decision (resolve a r ps) = pd_decision (resolve a r qs)
  ∧ pd_effect (resolve a r ps) = pd_effect (resolve a r qs).
Proof.
  intros H. assert (outcome (matching a r ps) = outcome (matching a r qs)) as Ho.
  { apply outcome_perm. unfold matching. by rewrite H. }
  rewrite <-!resolve_outcome in Ho. by simplify_eq.
Qed.

Lemma not_has_effect e ps p : has_effect e ps = false → p ∈ ps → rule_effect p ≠ e.
Proof.
  intros H Hp He. rewrite <-not_true_iff_false, has_effect_true in H. eauto.
Qed.

(** A stack allows exactly when some rule matches and every matching rule has
the effect allow. *)
Lemma resolve_allow_iff a r ps :
  pd_decision (resolve a r ps) = DAllow ↔
    (∃ p, p ∈ matching a r ps) ∧ ∀ p, p ∈ matching a r ps → rule_effect p = EAllow.
Proof.
  pose proof (resolve_outcome a r ps) as H. apply (f_equal fst) in H. cbn in H. rewrite H.
  generalize (matching a r ps) as ms. intros ms. unfold outcome, decide_matched.
  destruct ms as [|m ms]; [set_solver|].
  set (l := m :: ms). assert (m ∈ l) as Hm by set_solver.
  destruct (has_effect ERevoke l) eqn:E1; [apply has_effect_true in E1 as (p & ? & ?);
    split; [done|intros [_ Hall]; by rewrite (Hall p) in *]|].
  destruct (has_effect EFreeze l) eqn:E2; [apply has_effect_true in E2 as (p & ? & ?);
    split; [done|intros [_ Hall]; by rewrite (Hall p) in *]|].
  destruct (has_effect EDeny l) eqn:E3; [apply has_effect_true in E3 as (p & ? & ?);
    split; [done|intros [_ Hall]; by rewrite (Hall p) in *]|].
  destruct (has_effect EApproval l) eqn:E4; [apply has_effect_true in E4 as (p & ? & ?);
    split; [done|intros [_ Hall]; by rewrite (Hall p) in *]|].
  destruct (has_effect ENarrower l) eqn:E5; [apply has_effect_true in E5 as (p & ? & ?);
    split; [done|intros [_ Hall]; by rewrite (Hall p) in *]|].
  split; [|done]. intros _. split; [eauto|]. intros p Hp.
  pose proof (not_has_effect _ _ _ E1 Hp). pose proof (not_has_effect _ _ _ E2 Hp).
  pose proof (not_has_effect _ _ _ E3 Hp). pose proof (not_has_effect _ _ _ E4 Hp).
  pose proof (not_has_effect _ _ _ E5 Hp). by destruct (rule_effect p).
Qed.

(** The strength of an effect: the stack takes the strongest among the matches. *)
Definition strength (e : effect) : Z :=
  match e with
  | ERevoke => 5 | EFreeze => 4 | EDeny => 3 | EApproval => 2 | ENarrower => 1 | EAllow => 0
  end.

Definition effect_decision (e : effect) : decision :=
  match e with
  | ERevoke | EDeny => DDeny
  | EFreeze | EApproval => DBlocked
  | ENarrower => DNarrow
  | EAllow => DAllow
  end.

Lemma decide_matched_strongest ps e :
  ps ≠ [] → pd_effect (decide_matched ps) = Some e →
  has_effect e ps = true ∧ (∀ p, p ∈ ps → strength (rule_effect p) ≤ strength e)
  ∧ pd_decision (decide_matched ps) = effect_decision e.
Proof.
  destruct ps as [|m ms]; [done|]. intros _. unfold decide_matched. set (l := m :: ms).
  assert (m ∈ l) as Hm by set_solver.
  destruct (has_effect ERevoke l) eqn:E1; [intros [= <-]; split_and!; [done| |done];
    intros p _; by destruct (rule_effect p)|].
  destruct (has_effect EFreeze l) eqn:E2; [intros [= <-]; split_and!; [done| |done];
    intros p Hp; pose proof (not_has_effect _ _ _ E1 Hp); by destruct (rule_effect p)|].
  destruct (has_effect EDeny l) eqn:E3; [intros [= <-]; split_and!; [done| |done];
    intros p Hp; pose proof (not_has_effect _ _ _ E1 Hp); pose proof (not_has_effect _ _ _ E2 Hp);
    by destruct (rule_effect p)|].
  destruct (has_effect EApproval l) eqn:E4; [intros [= <-]; split_and!; [done| |done];
    intros p Hp; pose proof (not_has_effect _ _ _ E1 Hp); pose proof (not_has_effect _ _ _ E2 Hp);
    pose proof (not_has_effect _ _ _ E3 Hp); by destruct (rule_effect p)|].
  assert (∀ p, p ∈ l → rule_effect p = ENarrower ∨ rule_effect p = EAllow) as Hrest.
  { intros p Hp. pose proof (not_has_effect _ _ _ E1 Hp). pose proof (not_has_effect _ _ _ E2 Hp).
    pose proof (not_has_effect _ _ _ E3 Hp). pose proof (not_has_effect _ _ _ E4 Hp).
    destruct (rule_effect p); auto; done. }
  destruct (has_effect ENarrower l) eqn:E5; intros [= <-].
  - split_and!; [done| |done]. intros p Hp. by destruct (Hrest p Hp) as [ -> | -> ].
  - split_and!; [|intros p Hp|done].
    + apply has_effect_true. exists m. split; [done|].
      pose proof (not_has_effect _ _ _ E5 Hm). by destruct (Hrest m Hm).
    + pose proof (not_has_effect _ _ _ E5 Hp). by destruct (Hrest p Hp) as [ | -> ].
Qed.

(** * The envelope *)

Definition clean_opt (o : option string) : bool :=
  match o with Some s => clean s | None => true end.

Definition clean_snapshot (r : PolicyRuleSnapshot) : bool :=
  clean (sn_policy_id r) && clean (sn_level r) && clean (sn_effect r)
  && forallb clean (sn_actions r) && forallb clean (sn_resources r).

Definition clean_envelope (e : PolicyDecisionEnvelope) : bool :=
  clean (ev_schema e) && clean (ev_decision_id e) && clean (ev_subject e) && clean (ev_action e)
  && clean (ev_resource e) && clean (ev_decision e) && clean_opt (ev_effect e) && clean (ev_reason e)
  && forallb clean (ev_policy_refs e) && forallb clean_snapshot (ev_matched_rules e)
  && forallb clean (ev_evidence_refs e) && clean (ev_signature_algorithm e)
  && clean (ev_signed_by e) && clean_opt (ev_signature e).

Lemma optional_text_clean s : clean s = true → _optional_text (JStr s) = Ok (Some s).
Proof.
  unfold clean, _optional_text, py_str. intros [Hs Hne]%andb_true_iff.
  apply String.eqb_eq in Hs. rewrite Hs. by destruct (s =s? "").
Qed.

Lemma optional_text_opt o : clean_opt o = true → _optional_text (jopt o) = Ok o.
Proof. destruct o; [apply optional_text_clean|done]. Qed.

Lemma required_text_clean d k s :
  jget d k = JStr s → clean s = true → _required_text d k = Ok s.
Proof. intros H Hc. unfold _required_text. by rewrite H, optional_text_clean. Qed.

Lemma text_tuple_clean l : forallb clean l = true → _text_tuple (jstrs l) = Ok l.
Proof.
  cbn. induction l as [|x l IH]; [done|]. cbn [forallb map res_map].
  intros [Hx Hl]%andb_true_iff. rewrite optional_text_clean by done. cbn. by rewrite IH.
Qed.

Lemma required_time_stamp d k t : jget d k = stamp_json t → _required_time d k = Ok t.
Proof. intros H. unfold _required_time. rewrite H. by destruct t. Qed.

Lemma snapshot_roundtrip r :
  clean_snapshot r = true → snapshot_from_payload (snapshot_payload r) = Ok r.
Proof.
  unfold clean_snapshot. rewrite !andb_true_iff. intros ((((H1 & H2) & H3) & H4) & H5).
  unfold snapshot_from_payload.
  do 3 (erewrite required_text_clean; [ |reflexivity|done]; cbn [mbind res_bind]).
  change (jget (snapshot_payload r) "actions") with (jstrs (sn_actions r)).
  change (jget (snapshot_payload r) "resources") with (jstrs (sn_resources r)).
  rewrite !text_tuple_clean by done. cbn [mbind res_bind].
  erewrite int_field_int by reflexivity. cbn [mbind res_bind]. by destruct r.
Qed.

Lemma snapshots_roundtrip l : forallb clean_snapshot l = true →
  (x ← _dict_tuple (JList (map (λ r, JObj (snapshot_payload r)) l)); res_map snapshot_from_payload x)
  = Ok l.
Proof.
  cbn. intros Hl.
  assert (res_map (λ item, match item with JObj d => Ok d
      | _ => bad_decision "policy decision object list item is invalid" end)
      (map (λ r, JObj (snapshot_payload r)) l) = Ok (map snapshot_payload l)) as ->.
  { clear Hl. induction l as [|r l IH]; [done|]. cbn [map res_map]. cbn. by rewrite IH. }
  cbn. induction l as [|r l IH]; [done|]. cbn [map res_map forallb] in *.
  apply andb_true_iff in Hl as [Hr Hl]. by rewrite snapshot_roundtrip, IH.
Qed.

(** Parsing the payload of an envelope gives the envelope back. *)
Lemma envelope_roundtrip e :
  clean_envelope e = true → envelope_from_payload (to_payload e) = Ok e.
Proof.
  unfold clean_envelope. rewrite !andb_true_iff.
  intros (((((((((((((H1 & H2) & H3) & H4) & H5) & H6) & H7) & H8) & H9) & H10) & H11) & H12) & H13) & H14).
  unfold envelope_from_payload.
  do 6 (erewrite required_text_clean; [ |reflexivity|done]; cbn [mbind res_bind]).
  change (jget (to_payload e) "effect") with (jopt (ev_effect e)).
  rewrite optional_text_opt by done. cbn [mbind res_bind].
  erewrite required_text_clean; [ |reflexivity|done]; cbn [mbind res_bind].
  change (jget (to_payload e) "policy_refs") with (jstrs (ev_policy_refs e)).
  rewrite text_tuple_clean by done. cbn [mbind res_bind].
  change (jget (to_payload e) "matched_rules")
    with (JList (map (λ r, JObj (snapshot_payload r)) (ev_matched_rules e))).
  pose proof (snapshots_roundtrip _ H10) as Hs. apply res_bind_ok in Hs as (ds & -> & Hds).
  cbn [mbind res_bind]. rewrite Hds. cbn [mbind res_bind].
  change (jget (to_payload e) "evidence_refs") with (jstrs (ev_evidence_refs e)).
  rewrite text_tuple_clean by done. cbn [mbind res_bind].
  do 2 (erewrite required_time_stamp by reflexivity; cbn [mbind res_bind]).
  do 2 (erewrite required_text_clean; [ |reflexivity|done]; cbn [mbind res_bind]).
  change (jget (to_payload e) "signature") with (jopt (ev_signature e)).
  rewrite optional_text_opt by done. cbn [mbind res_bind]. by destruct e.
Qed.

Lemma hex_is_ascii s : forallb is_hex (chars s) = true →
  forallb (λ c, code c <? 128)%N (chars s) = true.
Proof.
  apply forallb_impl. intros c. unfold is_hex, is_digit. generalize (code c). intros n. lia.
Qed.

Lemma compare_digest_same s : forallb is_hex (chars s) = true → compare_digest s s = Ok true.
Proof.
  intros H. unfold compare_digest.
  by rewrite forallb_app, hex_is_ascii, String.eqb_refl.
Qed.

(** A signed envelope verifies, until it expires. *)
Lemma verify_created iso secret u n now :
  clean_envelope u = true → ev_schema u = POLICY_DECISION_SCHEMA →
  ev_signature_algorithm u = POLICY_DECISION_SIGNATURE_ALG → ev_expires_at u = TInt n →
  verify_policy_decision iso secret (JObj (to_payload (envelope_create secret u))) (TInt now)
  = if n <=? now then Raise (ValueError "policy decision has expired") else Ok true.
Proof.
  intros Hc Hs Ha Hn. unfold verify_policy_decision.
  rewrite envelope_roundtrip.
  - cbn [mbind res_bind envelope_create with_signature ev_schema ev_signature_algorithm
      ev_signature ev_expires_at]. rewrite Hs, Ha, Hn. cbn [negb].
    rewrite !String.eqb_refl. cbn [negb].
    change (to_unsigned_payload (with_signature u _)) with (to_unsigned_payload u).
    rewrite compare_digest_same by apply hmac_hex_is_hex. done.
  - unfold clean_envelope in *. rewrite !andb_true_iff in *. cbn.
    split; [naive_solver|]. apply hmac_hex_clean.
Qed.

(** Conversely, what verifies carries the signature of its own parsed content
under the deployment's secret, in the supported schema, before its expiry. *)
Lemma verify_sound iso secret env now :
  verify_policy_decision iso secret env now = Ok true →
  ∃ d e t n, env = JObj d ∧ envelope_from_payload d = Ok e
    ∧ ev_schema e = POLICY_DECISION_SCHEMA
    ∧ ev_signature e = Some (_signature secret (to_unsigned_payload e))
    ∧ _coerce_time iso now = Ok t ∧ _coerce_time iso (ev_expires_at e) = Ok n ∧ t < n.
Proof.
  unfold verify_policy_decision. destruct env as [| | | | | |d]; try done.
  intros (e & He & H)%res_bind_ok.
  destruct (String.eqb_spec (ev_schema e) POLICY_DECISION_SCHEMA) as [Hs|]; [|done].
  destruct (ev_signature_algorithm e =s? _); [|done]. cbn [negb] in H.
  destruct (ev_signature e) as [sig|] eqn:Hsig; [|done].
  apply res_bind_ok in H as (same & Hcmp & H).
  unfold compare_digest in Hcmp. destruct (forallb _ _); [|done]. simplify_eq.
  destruct (String.eqb_spec sig (_signature secret (to_unsigned_payload e))) as [->|]; [|done].
  apply res_bind_ok in H as (t & Ht & H). apply res_bind_ok in H as (n & Hn & H).
  destruct (Z.leb_spec n t); [done|]. eauto 15.
Qed.
