(* ===== verification/KernelState.v ===== *)
(** The state of the graph kernel and its event reducer ([SimEvent],
    [GraphSimState] and [GraphSimState.apply_event] of graph_kernel/state.py).

    Rows are JSON objects, as in the code ([KernelStateSnapshot] is a mapping
    over a dict).  [apply_event] dispatches on the kind of the event; each kind
    has its handler, a method on the state that may raise half way. *)
From Stdlib Require Import Ascii.
From S2P Require Import Prelude PyStr PyDict PyFloat PyJson FnMatch Capability Policy.
Open Scope Z_scope.

(** * Events *)

Record SimEvent : Type := mkEvent {
  event_id : string;
  seq : Z;
  created_at : Z;
  event_type : string;
  actor_node_id : string;
  target_refs : list string;
  authority_ref : json;
  policy_decision_ref : json;
  payload : jobject;
  redaction_class : string;
}.

Definition event_dump (e : SimEvent) : jobject := [
  ("event_id", JStr (event_id e)); ("seq", JInt (seq e)); ("created_at", JInt (created_at e));
  ("event_type", JStr (event_type e)); ("actor_node_id", JStr (actor_node_id e));
  ("target_refs", jstrs (target_refs e)); ("authority_ref", authority_ref e);
  ("policy_decision_ref", policy_decision_ref e); ("payload", JObj (payload e));
  ("redaction_class", JStr (redaction_class e))
].

Definition event_load (data : jobject) : res SimEvent :=
  eid ← jitem data "event_id";
  sq ← jitem data "seq" ≫= py_int;
  at_ ← jitem data "created_at" ≫= py_int;
  ty ← jitem data "event_type";
  refs ← py_str_list (jget_or data "target_refs" (JList []));
  body ← py_dict (py_or (jget data "payload") (JObj []));
  Ok {| event_id := py_str eid; seq := sq; created_at := at_; event_type := py_str ty;
        actor_node_id := py_str (py_or (jget data "actor_node_id") (JStr "system"));
        target_refs := refs; authority_ref := jget data "authority_ref";
        policy_decision_ref := jget data "policy_decision_ref"; payload := body;
        redaction_class := py_str (py_or (jget data "redaction_class") (JStr "public")) |}.

(** * The state *)

Record GraphSimState : Type := mkState {
  now : Z;
  nodes : gset string;
  ports : dict (dict jobject);
  edges : dict jobject;
  capabilities : dict Capability;
  capability_owner : dict string;
  child_grants : dict (list string);
  processes : dict jobject;
  signals : list jobject;
  routes : dict jobject;
  outcomes : dict jobject;
  scores : dict jobject;
  winners : dict jobject;
  rewrites : dict jobject;
  policy_decisions : dict jobject;
  frozen_nodes : gset string;
  credentials : gset string;
  deletion_previews : dict jobject;
  ledger : list SimEvent;
  seen_event_ids : gset string;
  alerts : list string;
  violations : list string;
}.

(** [GraphSimState(now=t)]: every field but the clock at its default. *)
Definition new_state (t : Z) : GraphSimState :=
  mkState t ∅ [] [] [] [] [] [] [] [] [] [] [] [] [] ∅ ∅ [] [] ∅ [] [].

(** One setter per field. *)
Definition set_now (x : Z) (s : GraphSimState) : GraphSimState :=
    mkState x (nodes s) (ports s) (edges s) (capabilities s) (capability_owner s) (child_grants s)
    (processes s) (signals s) (routes s) (outcomes s) (scores s) (winners s) (rewrites s)
    (policy_decisions s) (frozen_nodes s) (credentials s) (deletion_previews s) (ledger s)
    (seen_event_ids s) (alerts s) (violations s).
Definition set_nodes (x : gset string) (s : GraphSimState) : GraphSimState :=
    mkState (now s) x (ports s) (edges s) (capabilities s) (capability_owner s) (child_grants s)
    (processes s) (signals s) (routes s) (outcomes s) (scores s) (winners s) (rewrites s)
    (policy_decisions s) (frozen_nodes s) (credentials s) (deletion_previews s) (ledger s)
    (seen_event_ids s) (alerts s) (violations s).
Definition set_ports (x : dict (dict jobject)) (s : GraphSimState) : GraphSimState :=
    mkState (now s) (nodes s) x (edges s) (capabilities s) (capability_owner s) (child_grants s)
    (processes s) (signals s) (routes s) (outcomes s) (scores s) (winners s) (rewrites s)
    (policy_decisions s) (frozen_nodes s) (credentials s) (deletion_previews s) (ledger s)
    (seen_event_ids s) (alerts s) (violations s).
Definition set_edges (x : dict jobject) (s : GraphSimState) : GraphSimState :=
    mkState (now s) (nodes s) (ports s) x (capabilities s) (capability_owner s) (child_grants s)
    (processes s) (signals s) (routes s) (outcomes s) (scores s) (winners s) (rewrites s)
    (policy_decisions s) (frozen_nodes s) (credentials s) (deletion_previews s) (ledger s)
    (seen_event_ids s) (alerts s) (violations s).
Definition set_capabilities (x : dict Capability) (s : GraphSimState) : GraphSimState :=
    mkState (now s) (nodes s) (ports s) (edges s) x (capability_owner s) (child_grants s)
    (processes s) (signals s) (routes s) (outcomes s) (scores s) (winners s) (rewrites s)
    (policy_decisions s) (frozen_nodes s) (credentials s) (deletion_previews s) (ledger s)
    (seen_event_ids s) (alerts s) (violations s).
Definition set_capability_owner (x : dict string) (s : GraphSimState) : GraphSimState :=
    mkState (now s) (nodes s) (ports s) (edges s) (capabilities s) x (child_grants s) (processes
    s) (signals s) (routes s) (outcomes s) (scores s) (winners s) (rewrites s) (policy_decisions
    s) (frozen_nodes s) (credentials s) (deletion_previews s) (ledger s) (seen_event_ids s)
    (alerts s) (violations s).
Definition set_child_grants (x : dict (list string)) (s : GraphSimState) : GraphSimState :=
    mkState (now s) (nodes s) (ports s) (edges s) (capabilities s) (capability_owner s) x
    (processes s) (signals s) (routes s) (outcomes s) (scores s) (winners s) (rewrites s)
    (policy_decisions s) (frozen_nodes s) (credentials s) (deletion_previews s) (ledger s)
    (seen_event_ids s) (alerts s) (violations s).
Definition set_processes (x : dict jobject) (s : GraphSimState) : GraphSimState :=
    mkState (now s) (nodes s) (ports s) (edges s) (capabilities s) (capability_owner s)
    (child_grants s) x (signals s) (routes s) (outcomes s) (scores s) (winners s) (rewrites s)
    (policy_decisions s) (frozen_nodes s) (credentials s) (deletion_previews s) (ledger s)
    (seen_event_ids s) (alerts s) (violations s).
Definition set_signals (x : list jobject) (s : GraphSimState) : GraphSimState :=
    mkState (now s) (nodes s) (ports s) (edges s) (capabilities s) (capability_owner s)
    (child_grants s) (processes s) x (routes s) (outcomes s) (scores s) (winners s) (rewrites s)
    (policy_decisions s) (frozen_nodes s) (credentials s) (deletion_previews s) (ledger s)
    (seen_event_ids s) (alerts s) (violations s).
Definition set_routes (x : dict jobject) (s : GraphSimState) : GraphSimState :=
    mkState (now s) (nodes s) (ports s) (edges s) (capabilities s) (capability_owner s)
    (child_grants s) (processes s) (signals s) x (outcomes s) (scores s) (winners s) (rewrites s)
    (policy_decisions s) (frozen_nodes s) (credentials s) (deletion_previews s) (ledger s)
    (seen_event_ids s) (alerts s) (violations s).
Definition set_outcomes (x : dict jobject) (s : GraphSimState) : GraphSimState :=
    mkState (now s) (nodes s) (ports s) (edges s) (capabilities s) (capability_owner s)
    (child_grants s) (processes s) (signals s) (routes s) x (scores s) (winners s) (rewrites s)
    (policy_decisions s) (frozen_nodes s) (credentials s) (deletion_previews s) (ledger s)
    (seen_event_ids s) (alerts s) (violations s).
Definition set_scores (x : dict jobject) (s : GraphSimState) : GraphSimState :=
    mkState (now s) (nodes s) (ports s) (edges s) (capabilities s) (capability_owner s)
    (child_grants s) (processes s) (signals s) (routes s) (outcomes s) x (winners s) (rewrites s)
    (policy_decisions s) (frozen_nodes s) (credentials s) (deletion_previews s) (ledger s)
    (seen_event_ids s) (alerts s) (violations s).
Definition set_winners (x : dict jobject) (s : GraphSimState) : GraphSimState :=
    mkState (now s) (nodes s) (ports s) (edges s) (capabilities s) (capability_owner s)
    (child_grants s) (processes s) (signals s) (routes s) (outcomes s) (scores s) x (rewrites s)
    (policy_decisions s) (frozen_nodes s) (credentials s) (deletion_previews s) (ledger s)
    (seen_event_ids s) (alerts s) (violations s).
Definition set_rewrites (x : dict jobject) (s : GraphSimState) : GraphSimState :=
    mkState (now s) (nodes s) (ports s) (edges s) (capabilities s) (capability_owner s)
    (child_grants s) (processes s) (signals s) (routes s) (outcomes s) (scores s) (winners s) x
    (policy_decisions s) (frozen_nodes s) (credentials s) (deletion_previews s) (ledger s)
    (seen_event_ids s) (alerts s) (violations s).
Definition set_policy_decisions (x : dict jobject) (s : GraphSimState) : GraphSimState :=
    mkState (now s) (nodes s) (ports s) (edges s) (capabilities s) (capability_owner s)
    (child_grants s) (processes s) (signals s) (routes s) (outcomes s) (scores s) (winners s)
    (rewrites s) x (frozen_nodes s) (credentials s) (deletion_previews s) (ledger s)
    (seen_event_ids s) (alerts s) (violations s).
Definition set_frozen_nodes (x : gset string) (s : GraphSimState) : GraphSimState :=
    mkState (now s) (nodes s) (ports s) (edges s) (capabilities s) (capability_owner s)
    (child_grants s) (processes s) (signals s) (routes s) (outcomes s) (scores s) (winners s)
    (rewrites s) (policy_decisions s) x (credentials s) (deletion_previews s) (ledger s)
    (seen_event_ids s) (alerts s) (violations s).
Definition set_credentials (x : gset string) (s : GraphSimState) : GraphSimState :=
    mkState (now s) (nodes s) (ports s) (edges s) (capabilities s) (capability_owner s)
    (child_grants s) (processes s) (signals s) (routes s) (outcomes s) (scores s) (winners s)
    (rewrites s) (policy_decisions s) (frozen_nodes s) x (deletion_previews s) (ledger s)
    (seen_event_ids s) (alerts s) (violations s).
Definition set_deletion_previews (x : dict jobject) (s : GraphSimState) : GraphSimState :=
    mkState (now s) (nodes s) (ports s) (edges s) (capabilities s) (capability_owner s)
    (child_grants s) (processes s) (signals s) (routes s) (outcomes s) (scores s) (winners s)
    (rewrites s) (policy_decisions s) (frozen_nodes s) (credentials s) x (ledger s)
    (seen_event_ids s) (alerts s) (violations s).
Definition set_ledger (x : list SimEvent) (s : GraphSimState) : GraphSimState :=
    mkState (now s) (nodes s) (ports s) (edges s) (capabilities s) (capability_owner s)
    (child_grants s) (processes s) (signals s) (routes s) (outcomes s) (scores s) (winners s)
    (rewrites s) (policy_decisions s) (frozen_nodes s) (credentials s) (deletion_previews s) x
    (seen_event_ids s) (alerts s) (violations s).
Definition set_seen_event_ids (x : gset string) (s : GraphSimState) : GraphSimState :=
    mkState (now s) (nodes s) (ports s) (edges s) (capabilities s) (capability_owner s)
    (child_grants s) (processes s) (signals s) (routes s) (outcomes s) (scores s) (winners s)
    (rewrites s) (policy_decisions s) (frozen_nodes s) (credentials s) (deletion_previews s)
    (ledger s) x (alerts s) (violations s).
Definition set_alerts (x : list string) (s : GraphSimState) : GraphSimState :=
    mkState (now s) (nodes s) (ports s) (edges s) (capabilities s) (capability_owner s)
    (child_grants s) (processes s) (signals s) (routes s) (outcomes s) (scores s) (winners s)
    (rewrites s) (policy_decisions s) (frozen_nodes s) (credentials s) (deletion_previews s)
    (ledger s) (seen_event_ids s) x (violations s).
Definition set_violations (x : list string) (s : GraphSimState) : GraphSimState :=
    mkState (now s) (nodes s) (ports s) (edges s) (capabilities s) (capability_owner s)
    (child_grants s) (processes s) (signals s) (routes s) (outcomes s) (scores s) (winners s)
    (rewrites s) (policy_decisions s) (frozen_nodes s) (credentials s) (deletion_previews s)
    (ledger s) (seen_event_ids s) (alerts s) x.


(** [state_simpl]: compute the setters and projections on states given by their fields. *)
Ltac state_simpl :=
  cbv beta iota delta [set_now set_nodes set_ports set_edges set_capabilities
    set_capability_owner set_child_grants set_processes set_signals set_routes set_outcomes
    set_scores set_winners set_rewrites set_policy_decisions set_frozen_nodes set_credentials
    set_deletion_previews set_ledger set_seen_event_ids set_alerts set_violations now nodes
    ports edges capabilities capability_owner child_grants processes signals routes outcomes
    scores winners rewrites policy_decisions frozen_nodes credentials deletion_previews ledger
    seen_event_ids alerts violations] in *.

(** * The kinds of events the reducer knows *)

Inductive kind : Set :=
  | KNodeCreated | KTimeAdvanced | KPortCreated | KEdgeProposed | KEdgeCreated | KEdgeRejected
  | KEdgeFrozen | KEdgeUsed | KEdgeUseRejected | KCapabilityGranted | KCapabilityRevoked
  | KSignalEmitted | KRouteSelected | KOutcomeRecorded | KScoreAssigned | KWinnerSelected
  | KRewriteProposed | KRewriteApproved | KRewriteApplied | KPolicyChecked | KProcessStarted
  | KProcessHeartbeat | KProcessHeartbeatRejected | KProcessStopped | KReviewRejected
  | KReviewFixRejected | KReviewStarted | KReviewFinding | KReviewStopped | KProtocolStarted
  | KProtocolEpisode | KProtocolEpisodeRejected | KProtocolStopped | KFreezeApplied
  | KDeletePreviewed | KDeleteApplied
  | KOther.

#[export] Instance kind_eq_dec : EqDecision kind.
Proof. solve_decision. Defined.

Definition kind_table : dict kind := [
  ("node.created", KNodeCreated); ("time.advanced", KTimeAdvanced);
  ("port.created", KPortCreated); ("edge.proposed", KEdgeProposed);
  ("edge.created", KEdgeCreated); ("edge.rejected", KEdgeRejected);
  ("edge.frozen", KEdgeFrozen); ("edge.used", KEdgeUsed);
  ("edge.use_rejected", KEdgeUseRejected); ("capability.minted", KCapabilityGranted);
  ("capability.delegated", KCapabilityGranted); ("capability.revoked", KCapabilityRevoked);
  ("signal.emitted", KSignalEmitted); ("route.selected", KRouteSelected);
  ("outcome.recorded", KOutcomeRecorded); ("score.assigned", KScoreAssigned);
  ("winner.selected", KWinnerSelected); ("rewrite.proposed", KRewriteProposed);
  ("rewrite.approved", KRewriteApproved); ("rewrite.applied", KRewriteApplied);
  ("policy.checked", KPolicyChecked); ("process.started", KProcessStarted);
  ("process.heartbeat", KProcessHeartbeat);
  ("process.heartbeat_rejected", KProcessHeartbeatRejected);
  ("process.stopped", KProcessStopped); ("review_loop.rejected", KReviewRejected);
  ("review_loop.fix_rejected", KReviewFixRejected); ("review_loop.started", KReviewStarted);
  ("review_loop.finding_emitted", KReviewFinding); ("review_loop.stopped", KReviewStopped);
  ("protocol_simulation.started", KProtocolStarted);
  ("protocol_simulation.episode_recorded", KProtocolEpisode);
  ("protocol_simulation.episode_rejected", KProtocolEpisodeRejected);
  ("protocol_simulation.stopped", KProtocolStopped); ("freeze.applied", KFreezeApplied);
  ("delete.previewed", KDeletePreviewed); ("delete.applied", KDeleteApplied)
].

Definition kind_of (event_type : string) : kind := default KOther (kind_table !! event_type).

(** * Reading and updating rows *)

Abbreviation KS := (ST GraphSimState).

(** [str(payload[k])] and [int(payload[k])]. *)
Definition text_of (p : jobject) (k : string) : KS string := j ← lift (jitem p k); mret (py_str j).
Definition int_of (p : jobject) (k : string) : KS Z := j ← lift (jitem p k); lift (py_int j).

(** [str(payload.get("reason") or "")]. *)
Definition reason_of (p : jobject) : string := py_str (py_or (jget p "reason") (JStr "")).

(** [str(x or d)] *)
Definition text_or (x : json) (d : string) : string := py_str (py_or x (JStr d)).

(** [row.with_updates]: the row with the given keys set. *)
Definition with_updates (row updates : jobject) : jobject := dict_update row updates.

(** [rows.get(k) or default]: an empty row is false. *)
Definition row_or (rows : dict jobject) (k : string) (dflt : jobject) : jobject :=
  match rows !! k with Some [] | None => dflt | Some row => row end.

Definition edge_row (s : GraphSimState) (eid : string) : jobject :=
  row_or (edges s) eid [("edge_id", JStr eid)].

Definition update_edge (eid : string) (updates : jobject) : KS unit :=
  modify (λ s, set_edges (<[eid := with_updates (edge_row s eid) updates]> (edges s)) s).

Definition update_process (pid : string) (row updates : jobject) : KS unit :=
  modify (λ s, set_processes (<[pid := with_updates row updates]> (processes s)) s).

Definition add_violation (r : string) : KS unit :=
  modify (λ s, set_violations (add_once r (violations s)) s).
Definition add_alert (r : string) : KS unit :=
  modify (λ s, set_alerts (add_once r (alerts s)) s).

(** [if reason and reason not in violations: violations.append(reason)]. *)
Definition violation_of (p : jobject) : KS unit :=
  if reason_of p =s? "" then mret () else add_violation (reason_of p).

(** [alert_by_reason.get(reason)], added once. *)
Definition alert_of (p : jobject) (table : dict string) : KS unit :=
  match table !! reason_of p with Some a => add_alert a | None => mret () end.

Definition revoke_in (caps : dict Capability) (cid : string) : dict Capability :=
  match caps !! cid with Some c => <[cid := revoked_copy c]> caps | None => caps end.

(** The part of a name before the first colon. *)
Definition port_kind (port_id : string) : string := (split1 ":"%char port_id).1.

(** * Handlers *)

Definition apply_node_created (e : SimEvent) : KS unit :=
  n ← text_of (payload e) "node_id";
  modify (λ s, set_nodes ({[ n ]} ∪ nodes s) s).

Definition apply_time_advanced (e : SimEvent) : KS unit :=
  t ← int_of (payload e) "now"; modify (set_now t).

Definition apply_port_created (e : SimEvent) : KS unit :=
  let p := payload e in
  n ← text_of p "node_id";
  pt ← text_of p "port_id";
  modify (λ s, set_ports
    (<[n := <[pt := [
        ("node_id", JStr n); ("port_id", JStr pt);
        ("direction", JStr (text_or (jget p "direction") "bidirectional"));
        ("schema_ref", JStr (text_or (jget p "schema_ref") "unknown"));
        ("port_type", JStr (text_or (jget p "port_type") (port_kind pt)))]]>
      (default [] (ports s !! n))]> (ports s)) s).

Definition apply_edge_proposed (e : SimEvent) : KS unit :=
  let p := payload e in
  eid ← text_of p "edge_id";
  fr ← lift (jitem p "from" ≫= py_dict);
  to ← lift (jitem p "to" ≫= py_dict);
  ty ← text_of p "edge_type";
  modify (λ s, set_edges (<[eid := [
    ("edge_id", JStr eid); ("from", JObj fr); ("to", JObj to); ("edge_type", JStr ty);
    ("capability_id", jget p "capability_id"); ("process_id", jget p "process_id");
    ("provenance_ref", jget p "provenance_ref"); ("state", JStr "proposed")]]> (edges s)) s).

Definition apply_edge_created (e : SimEvent) : KS unit :=
  eid ← text_of (payload e) "edge_id"; update_edge eid [("state", JStr "active")].

Definition apply_edge_frozen (e : SimEvent) : KS unit :=
  eid ← text_of (payload e) "edge_id"; update_edge eid [("state", JStr "frozen")].

(** [max(int(row.get("budget_remaining") or 0) - int(payload.get("cost") or 0), 0)]. *)
Definition spend (row p : jobject) : KS Z :=
  b ← lift (int_field row "budget_remaining");
  c ← lift (int_field p "cost");
  mret (Z.max (b - c) 0).

(** A row of the processes advances its counter and pays the cost. *)
Definition charge (pid : string) (row p : jobject) (counter : string) : KS unit :=
  n ← lift (int_field row counter);
  b ← spend row p;
  update_process pid row [(counter, JInt (n + 1)); ("budget_remaining", JInt b)].

Definition apply_edge_used (e : SimEvent) : KS unit :=
  let p := payload e in
  eid ← text_of p "edge_id";
  _ ← update_edge eid [("last_used_at", JInt (created_at e))];
  s ← get_st;
  let pid := jget p "process_id" in
  if truthy pid then
    match processes s !! py_str pid with
    | Some row => charge (py_str pid) row p "call_count"
    | None => mret ()
    end
  else mret ().

Definition apply_capability_granted (e : SimEvent) : KS unit :=
  let p := payload e in
  cid ← text_of p "cap_id";
  c ← lift ((jitem p "capability" ≫= py_dict) ≫= cap_load);
  _ ← modify (λ s, set_capabilities (<[cid := c]> (capabilities s)) s);
  owner ← text_of p "owner";
  _ ← modify (λ s, set_capability_owner (<[cid := owner]> (capability_owner s)) s);
  let parent := jget p "parent_cap_id" in
  if truthy parent then
    modify (λ s, set_child_grants
      (<[py_str parent := default [] (child_grants s !! py_str parent) ++ [cid]]> (child_grants s)) s)
  else mret ().

Definition apply_capability_revoked (e : SimEvent) : KS unit :=
  cid ← text_of (payload e) "cap_id";
  modify (λ s, set_capabilities
    (foldl revoke_in (revoke_in (capabilities s) cid) (default [] (child_grants s !! cid))) s).

Definition add_signal (row : jobject) : KS unit :=
  modify (λ s, set_signals (signals s ++ [row]) s).

Definition apply_signal_emitted (e : SimEvent) : KS unit :=
  add_signal (dict_update [("event_id", JStr (event_id e)); ("node_id", JStr (actor_node_id e))]
                (payload e)).

Definition apply_route_selected (e : SimEvent) : KS unit :=
  k ← text_of (payload e) "skill";
  modify (λ s, set_routes (<[k := payload e]> (routes s)) s).

Definition apply_outcome_recorded (e : SimEvent) : KS unit :=
  k ← text_of (payload e) "outcome_id";
  modify (λ s, set_outcomes (<[k := payload e]> (outcomes s)) s).

Definition apply_score_assigned (e : SimEvent) : KS unit :=
  k ← text_of (payload e) "score_id";
  modify (λ s, set_scores (<[k := payload e]> (scores s)) s).

Definition apply_winner_selected (e : SimEvent) : KS unit :=
  k ← text_of (payload e) "arena_id";
  modify (λ s, set_winners (<[k := payload e]> (winners s)) s).

Definition apply_rewrite_proposed (e : SimEvent) : KS unit :=
  let p := payload e in
  t ← lift (jitem p "target");
  k ← text_of p "rewrite_id";
  modify (λ s, set_rewrites (<[k := [
    ("target", t); ("approved", JBool false); ("applied", JBool false);
    ("finding_id", jget p "finding_id");
    ("self_improvement_proposal_ref", jget p "self_improvement_proposal_ref");
    ("proposal_only", JBool (truthy (jget p "proposal_only")));
    ("rollback_plan", jget p "rollback_plan")]]> (rewrites s)) s).

Definition update_rewrite (k : string) (updates : jobject) : KS unit :=
  modify (λ s, set_rewrites (<[k := with_updates (row_or (rewrites s) k []) updates]> (rewrites s)) s).

Definition apply_rewrite_approved (e : SimEvent) : KS unit :=
  let p := payload e in
  k ← text_of p "rewrite_id";
  update_rewrite k [("approved", JBool true); ("review", jget p "review"); ("canary", jget p "canary")].

Definition apply_rewrite_applied (e : SimEvent) : KS unit :=
  k ← text_of (payload e) "rewrite_id"; update_rewrite k [("applied", JBool true)].

Definition apply_policy_checked (e : SimEvent) : KS unit :=
  d ← lift (jitem (payload e) "decision" ≫= py_dict);
  k ← text_of (payload e) "decision_id";
  modify (λ s, set_policy_decisions (<[k := d]> (policy_decisions s)) s).

(** [process.started], [review_loop.started] and [protocol_simulation.started]. *)
Definition apply_process_started (e : SimEvent) : KS unit :=
  k ← text_of (payload e) "process_id";
  modify (λ s, set_processes (<[k := payload e]> (processes s)) s).

Definition apply_process_heartbeat (e : SimEvent) : KS unit :=
  k ← text_of (payload e) "process_id";
  s ← get_st;
  match processes s !! k with
  | Some row => t ← int_of (payload e) "heartbeat_at"; update_process k row [("heartbeat_at", JInt t)]
  | None => mret ()
  end.

Definition process_alerts : dict string := [
  ("max_depth_exceeded", "max_depth_exceeded"); ("ttl_expired", "process_ttl_expired");
  ("heartbeat_stale", "process_heartbeat_stale");
  ("max_calls_exceeded", "process_max_calls_exceeded");
  ("budget_exhausted", "process_budget_exhausted")
].

(** The edges of a stopped process expire. *)
Definition expire_edge (target reason : string) (edge : jobject) : jobject :=
  if is_text (jget edge "process_id") target && is_text (jget edge "state") "active"
  then with_updates edge [("state", JStr "expired");
         ("expired_reason", JStr (if reason =s? "" then "process_stopped" else reason))]
  else edge.

Definition stop_target (reason : string) (s : GraphSimState) (target : string) : GraphSimState :=
  set_edges (dict_map (expire_edge target reason) (edges s))
    (set_processes (delete target (processes s)) s).

Definition apply_process_stopped (e : SimEvent) : KS unit :=
  _ ← alert_of (payload e) process_alerts;
  modify (λ s, foldl (stop_target (reason_of (payload e))) s (target_refs e)).

Definition apply_review_rejected (e : SimEvent) : KS unit :=
  if reason_of (payload e) =s? "reviewer_mutation_authority_forbidden"
  then add_violation (reason_of (payload e)) else mret ().

Definition apply_fix_rejected (e : SimEvent) : KS unit :=
  if reason_of (payload e) =s? "direct_apply_forbidden"
  then add_violation "review_loop_direct_apply_forbidden" else mret ().

Definition apply_review_finding (e : SimEvent) : KS unit :=
  let p := payload e in
  k ← text_of p "process_id";
  s ← get_st;
  _ ← match processes s !! k with
      | Some row => charge k row p "iterations"
      | None => mret ()
      end;
  add_signal (dict_update [("event_id", JStr (event_id e)); ("node_id", jget p "target");
                           ("signal_type", JStr "review_finding")] p).

Definition review_alerts : dict string := [
  ("ttl_expired", "review_loop_ttl_expired");
  ("max_iterations_exceeded", "review_loop_max_iterations_exceeded");
  ("budget_exhausted", "review_loop_budget_exhausted")
].

Definition pop_process (p : jobject) : KS unit :=
  k ← text_of p "process_id";
  modify (λ s, set_processes (delete k (processes s)) s).

Definition apply_review_stopped (e : SimEvent) : KS unit :=
  _ ← alert_of (payload e) review_alerts; pop_process (payload e).

Definition apply_protocol_episode (e : SimEvent) : KS unit :=
  let p := payload e in
  k ← text_of p "process_id";
  s ← get_st;
  match processes s !! k with
  | Some row => charge k row p "episodes"
  | None => mret ()
  end.

Definition apply_episode_rejected (e : SimEvent) : KS unit :=
  if reason_of (payload e) =s? "direct_apply_forbidden"
  then add_violation "protocol_simulation_direct_apply_forbidden" else mret ().

Definition protocol_alerts : dict string := [
  ("ttl_expired", "protocol_simulation_ttl_exceeded");
  ("max_episodes_exceeded", "protocol_simulation_episode_limit_exceeded");
  ("budget_exceeded", "protocol_simulation_budget_exceeded")
].

Definition apply_protocol_stopped (e : SimEvent) : KS unit :=
  _ ← alert_of (payload e) protocol_alerts; pop_process (payload e).

Definition apply_freeze_applied (e : SimEvent) : KS unit :=
  n ← text_of (payload e) "node_id";
  modify (λ s, set_frozen_nodes ({[ n ]} ∪ frozen_nodes s) s).

Definition apply_delete_previewed (e : SimEvent) : KS unit :=
  n ← text_of (payload e) "node_id";
  modify (λ s, set_deletion_previews (<[n := payload e]> (deletion_previews s)) s).

(** The capabilities of an owner are revoked, its processes removed, and every
credential is dropped. *)
Definition revoke_owned (node : string) (owners : dict string) (caps : dict Capability) :
    dict Capability :=
  foldl (λ caps p, if p.2 =s? node then revoke_in caps p.1 else caps) caps owners.

Definition drop_owned (node : string) (procs : dict jobject) : dict jobject :=
  base.filter (λ p, is_text (jget p.2 "owner") node = false) procs.

Definition apply_delete_applied (e : SimEvent) : KS unit :=
  n ← text_of (payload e) "node_id";
  modify (λ s, set_credentials ∅
    (set_processes (drop_owned n (processes s))
      (set_capabilities (revoke_owned n (capability_owner s) (capabilities s)) s))).

(** * The reducer *)

Definition handle (k : kind) (e : SimEvent) : KS unit :=
  match k with
  | KNodeCreated => apply_node_created e
  | KTimeAdvanced => apply_time_advanced e
  | KPortCreated => apply_port_created e
  | KEdgeProposed => apply_edge_proposed e
  | KEdgeCreated => apply_edge_created e
  | KEdgeRejected | KEdgeUseRejected | KProcessHeartbeatRejected => violation_of (payload e)
  | KEdgeFrozen => apply_edge_frozen e
  | KEdgeUsed => apply_edge_used e
  | KCapabilityGranted => apply_capability_granted e
  | KCapabilityRevoked => apply_capability_revoked e
  | KSignalEmitted => apply_signal_emitted e
  | KRouteSelected => apply_route_selected e
  | KOutcomeRecorded => apply_outcome_recorded e
  | KScoreAssigned => apply_score_assigned e
  | KWinnerSelected => apply_winner_selected e
  | KRewriteProposed => apply_rewrite_proposed e
  | KRewriteApproved => apply_rewrite_approved e
  | KRewriteApplied => apply_rewrite_applied e
  | KPolicyChecked => apply_policy_checked e
  | KProcessStarted | KReviewStarted | KProtocolStarted => apply_process_started e
  | KProcessHeartbeat => apply_process_heartbeat e
  | KProcessStopped => apply_process_stopped e
  | KReviewRejected => apply_review_rejected e
  | KReviewFixRejected => apply_fix_rejected e
  | KReviewFinding => apply_review_finding e
  | KReviewStopped => apply_review_stopped e
  | KProtocolEpisode => apply_protocol_episode e
  | KProtocolEpisodeRejected => apply_episode_rejected e
  | KProtocolStopped => apply_protocol_stopped e
  | KFreezeApplied => apply_freeze_applied e
  | KDeletePreviewed => apply_delete_previewed e
  | KDeleteApplied => apply_delete_applied e
  | KOther => mret ()
  end.

(** The first lines of [apply_event]: the event is remembered and appended. *)
Definition log_event (e : SimEvent) (s : GraphSimState) : GraphSimState :=
  set_ledger (ledger s ++ [e]) (set_seen_event_ids ({[ event_id e ]} ∪ seen_event_ids s) s).

Definition apply_event (e : SimEvent) : KS unit :=
  s ← get_st;
  if bool_decide (event_id e ∈ seen_event_ids s) then mret ()
  else _ ← modify (log_event e); handle (kind_of (event_type e)) e.

(** [f"evt-{n:04d}"]. *)
Definition evt_id (n : nat) : string := "evt-" +:+ pad4 n.

Definition next_seq (s : GraphSimState) : nat := S (length (ledger s)).

(** The event [_record] builds; [auth], [pol] and [red] are its keyword arguments. *)
Definition event_for (ety actor : string) (targets : list string) (body : jobject)
    (auth pol : json) (red : string) (s : GraphSimState) : SimEvent :=
  {| event_id := evt_id (next_seq s); seq := Z.of_nat (next_seq s); created_at := now s; event_type := ety;
     actor_node_id := actor; target_refs := targets; authority_ref := auth;
     policy_decision_ref := pol; payload := body; redaction_class := red |}.

Definition record_as (ety actor : string) (targets : list string) (body : jobject)
    (auth pol : json) (red : string) : KS unit :=
  s ← get_st; apply_event (event_for ety actor targets body auth pol red s).

(** [_record] with the default keyword arguments. *)
Definition _record (ety actor : string) (targets : list string) (body : jobject) : KS unit :=
  record_as ety actor targets body JNull JNull "public".

(** * Replay *)

Definition seq_le (e f : SimEvent) : Prop := seq e ≤ seq f.
#[export] Instance seq_le_dec e f : Decision (seq_le e f).
Proof. unfold seq_le. apply _. Defined.

Definition load_item (item : SimEvent + jobject) : res SimEvent :=
  match item with inl e => Ok e | inr data => event_load data end.

Definition replay (items : list (SimEvent + jobject)) : res GraphSimState :=
  loaded ← res_map load_item items;
  match for_each (merge_sort seq_le loaded) apply_event (new_state 0) with
  | (Ok _, s) => Ok s
  | (Raise e, _) => Raise e
  end.
