(* ===== verification/KernelOps.v ===== *)
(** The operations of the graph kernel ([GraphSimState] of graph_kernel/state.py).

    Each public method is one definition, written in the order of the code:
    its guards, the alerts it appends itself, the events it records.  The
    signing secret of the deployment is a section variable: the policy check
    signs its decision. *)
From Stdlib Require Import Ascii.
From S2P Require Import Prelude PyStr PyDict PyFloat PyJson FnMatch Capability Policy KernelState.
Open Scope Z_scope.

(** * Building payloads *)

Definition JI (n : Z) : json := JInt n.
Definition JS (s : string) : json := JStr s.

(** The three markers of every simulated outcome. *)
Definition simulation_markers : jobject :=
  [("simulation_only", JBool true); ("proposal_only", JBool true); ("active_apply_enabled", JBool false)].

Definition reason_payload (r : string) : jobject := [("reason", JS r)].

(** [x and y] where [x] is text or [None]: a missing or empty text is false. *)
Definition nonempty (o : option string) : bool :=
  match o with Some s => negb (s =s? "") | None => false end.

(** [state.alerts.append(a)]: no check that the alert is new. *)
Definition append_alert (a : string) : KS unit := modify (λ s, set_alerts (alerts s ++ [a]) s).
Definition append_violation (v : string) : KS unit :=
  modify (λ s, set_violations (violations s ++ [v]) s).

(** * Nodes, ports and edges *)

Definition create_node (node_id : string) : KS unit :=
  _record "node.created" "system" [node_id] [("node_id", JS node_id)].

Definition create_port (node_id port_id direction schema_ref : string) (port_type : option string) :
    KS unit :=
  _record "port.created" node_id [node_id; node_id +:+ ":" +:+ port_id]
    [("node_id", JS node_id); ("port_id", JS port_id); ("direction", JS direction);
     ("schema_ref", JS schema_ref); ("port_type", py_or (jopt port_type) (JS (port_kind port_id)))].

Definition _port_exists (s : GraphSimState) (node_id port_id : string) : bool :=
  has_key port_id (default [] (ports s !! node_id)).

Definition endpoint (node_id port_id : string) : json :=
  JObj [("node_id", JS node_id); ("port_id", JS port_id)].

Definition propose_edge (edge_id from_node from_port to_node to_port edge_type : string)
    (capability_id process_id provenance_ref : option string) : KS decision :=
  s ← get_st;
  if negb (_port_exists s from_node from_port) || negb (_port_exists s to_node to_port) then
    _ ← _record "edge.rejected" from_node [edge_id; from_node; to_node]
      [("edge_id", JS edge_id); ("reason", JS "missing_endpoint_port");
       ("from", endpoint from_node from_port); ("to", endpoint to_node to_port);
       ("edge_type", JS edge_type)];
    mret DDeny
  else
    _ ← record_as "edge.proposed" from_node [edge_id; from_node; to_node]
      [("edge_id", JS edge_id); ("from", endpoint from_node from_port);
       ("to", endpoint to_node to_port); ("edge_type", JS edge_type);
       ("capability_id", jopt capability_id); ("process_id", jopt process_id);
       ("provenance_ref", jopt provenance_ref); ("state", JS "proposed")]
      (jopt capability_id) JNull "public";
    mret DAllow.

Definition freeze_edge (edge_id reason : string) : KS unit :=
  _record "edge.frozen" "policy" [edge_id] [("edge_id", JS edge_id); ("reason", JS reason)].

(** [f"{target['node_id']}:{target['port_id']}"] *)
Definition port_resource (target : json) : res string :=
  n ← obj_item target "node_id"; p ← obj_item target "port_id";
  Ok (py_str n +:+ ":" +:+ py_str p).

(** [x and x not in self.processes]. *)
Definition not_running (s : GraphSimState) (x : json) : res bool :=
  if truthy x then
    k ← hashed x;
    Ok (match k with Some t => negb (has_key t (processes s)) | None => true end)
  else Ok false.

(** * Using a capability *)

Definition use_capability (cap_id action resource : string) (cost : Z) : KS decision :=
  s ← get_st;
  let owner := default "system" (capability_owner s !! cap_id) in
  match capabilities s !! cap_id with
  | None =>
      _ ← _record "capability.use_denied" owner [cap_id] (reason_payload "missing_or_frozen");
      mret DDeny
  | Some cap =>
      if bool_decide (owner ∈ frozen_nodes s) then
        _ ← _record "capability.use_denied" owner [cap_id] (reason_payload "missing_or_frozen");
        mret DDeny
      else if negb (cost =? 0) && (budget cap <? cost) then
        _ ← _record "budget.exhausted" owner [cap_id] [("cost", JI cost); ("budget", JI (budget cap))];
        mret DDeny
      else if negb (can_use cap action resource (now s)) then
        _ ← record_as "capability.use_denied" owner [cap_id]
              [("action", JS action); ("resource", JS resource)] (JS cap_id) JNull "public";
        mret DDeny
      else
        _ ← (if negb (cost =? 0) then
               _ ← modify (λ s, set_capabilities (<[cap_id := debit cap cost]> (capabilities s)) s);
               record_as "budget.debited" owner [cap_id] [("cost", JI cost)] (JS cap_id) JNull "public"
             else mret ());
        _ ← record_as "capability.used" owner [cap_id]
              [("action", JS action); ("resource", JS resource)] (JS cap_id) JNull "public";
        mret DAllow
  end.

Definition mint_capability (cap_id owner : string) (c : Capability) : KS unit :=
  record_as "capability.minted" owner [cap_id]
    [("cap_id", JS cap_id); ("owner", JS owner); ("capability", JObj (cap_dump c))]
    (JS "owner_ceiling") JNull "authority".

Definition delegate (parent_cap_id child_cap_id child_owner : string) (requested : Capability) :
    KS decision :=
  s ← get_st;
  match capabilities s !! parent_cap_id with
  | None => throw (KeyError parent_cap_id)
  | Some parent =>
      let denied r :=
        _ ← record_as "capability.denied" child_owner [child_cap_id]
              [("reason", JS r); ("parent_cap_id", JS parent_cap_id)] (JS parent_cap_id) JNull "public";
        mret DDeny in
      if revoked parent || (delegation_depth parent <=? 0) then denied "parent_cannot_delegate"
      else
        let narrowed := narrowed_to parent requested in
        if bool_decide (actions narrowed = ∅) || bool_decide (resources narrowed = [])
        then denied "empty_narrowed_scope"
        else
          let verdict := if negb (is_subset_of requested parent) then DNarrow else DAllow in
          _ ← record_as "capability.delegated" child_owner [child_cap_id]
                [("cap_id", JS child_cap_id); ("owner", JS child_owner);
                 ("parent_cap_id", JS parent_cap_id); ("capability", JObj (cap_dump narrowed));
                 ("decision", JS (decision_name verdict))] (JS parent_cap_id) JNull "authority";
          mret verdict
  end.

Definition request_union (cap_ids : list string) (union_id : string) : KS decision :=
  _ ← _record "capability.denied" "system" [union_id]
        [("reason", JS "implicit_union_forbidden"); ("cap_ids", jstrs cap_ids)];
  mret DDeny.

Definition revoke_capability (cap_id : string) : KS unit :=
  _record "capability.revoked" "system" [cap_id] [("cap_id", JS cap_id)].

(** * Policy and activation *)

Section kernel.
Context (secret : string).

Definition check_policy_stack (decision_id action resource : string) (policies : list PolicyRule) :
    KS PolicyDecision :=
  s ← get_st;
  let matched := matched_rules action resource policies in
  let d := decide_matched matched in
  env ← lift (build_policy_decision_envelope secret decision_id "policy" action resource
                (decision_name (pd_decision d)) (effect_name <$> pd_effect d) (pd_reason d)
                (pd_policy_refs d) (map rule_dump matched) [decision_id]
                (TInt (now s)) (TInt (now s + 900)));
  let signed := to_payload env in
  let redacted := redacted_policy_decision signed in
  _ ← record_as "policy.checked" "policy" [decision_id; resource]
        [("decision_id", JS decision_id); ("action", JS action); ("resource", JS resource);
         ("decision", JObj (dict_update (decision_dump d)
            [("signed_decision", JObj signed); ("redacted_decision", JObj redacted)]));
         ("signed_decision", JObj signed); ("redacted_decision", JObj redacted)]
        JNull (JS decision_id) "authority";
  mret d.

Definition deny_edge (actor : string) (ety : string) (targets : list string) (body : jobject)
    (auth pol : json) : KS decision :=
  _ ← record_as ety actor targets body auth pol "public"; mret DDeny.

(** The last part of [activate_edge]: the capability, then the event. *)
Definition activate_with_capability (edge_id : string) (decision_id : option string)
    (edge_type resource : string) (process_id cap_id : json) : KS decision :=
  granted ← (if truthy cap_id
             then d ← use_capability (py_str cap_id) edge_type resource 0; mret (bool_decide (d = DAllow))
             else mret true);
  if negb (granted : bool) then
    deny_edge "policy" "edge.rejected" [edge_id]
      [("edge_id", JS edge_id); ("reason", JS "capability_denied"); ("capability_id", cap_id)]
      (JS (py_str cap_id)) JNull
  else
    _ ← record_as "edge.created" "policy" [edge_id]
          [("edge_id", JS edge_id); ("state", JS "active"); ("process_id", process_id)]
          (if truthy cap_id then JS (py_str cap_id) else JNull) (jopt decision_id)
          (if truthy cap_id then "authority" else "public");
    mret DAllow.

Definition activate_edge (edge_id : string) (policies : list PolicyRule)
    (decision_id : option string) : KS decision :=
  s ← get_st;
  match edges s !! edge_id with
  | None =>
      deny_edge "policy" "edge.rejected" [edge_id]
        [("edge_id", JS edge_id); ("reason", JS "missing_edge")] JNull JNull
  | Some edge =>
      if is_text (jget edge "state") "active" then mret DAllow
      else
        let process_id := jget edge "process_id" in
        stopped ← lift (not_running s process_id);
        if stopped : bool then
          deny_edge "policy" "edge.rejected" [edge_id; py_str process_id]
            [("edge_id", JS edge_id); ("reason", JS "process_not_active"); ("process_id", process_id)]
            JNull JNull
        else
          ty ← lift (jitem edge "edge_type");
          let edge_type := py_str ty in
          target ← lift (jitem edge "to");
          resource ← lift (port_resource target);
          let did := if nonempty decision_id then default "" decision_id else "edge-" +:+ edge_id in
          refused ← (match policies with
                     | [] => mret None
                     | _ =>
                         d ← check_policy_stack did edge_type resource policies;
                           mret (if bool_decide (pd_decision d = DAllow ∨ pd_decision d = DNarrow)
                               then None else Some d)
                     end : KS (option PolicyDecision));
          match refused with
          | Some d =>
              deny_edge "policy" "edge.rejected" [edge_id]
                [("edge_id", JS edge_id); ("reason", JS "policy_denied");
                 ("decision", JObj (decision_dump d))] JNull (JS did)
          | None =>
              activate_with_capability edge_id decision_id edge_type resource process_id
                (jget edge "capability_id")
          end
  end.
End kernel.

(** * Processes *)

Definition stop_process (process_id reason : string) : KS decision :=
  s ← get_st;
  if negb (has_key process_id (processes s)) then
    _ ← _record "process.stopped" "system" [process_id]
          [("process_id", JS process_id); ("reason", JS "missing_process")];
    mret DDeny
  else
    _ ← _record "process.stopped" "system" [process_id]
          [("process_id", JS process_id); ("reason", JS reason)];
    mret DAllow.

Definition heartbeat_process (process_id : string) : KS decision :=
  s ← get_st;
  if negb (has_key process_id (processes s)) then
    _ ← _record "process.heartbeat_rejected" "system" [process_id]
          [("process_id", JS process_id); ("reason", JS "missing_process")];
    mret DDeny
  else
    _ ← _record "process.heartbeat" "system" [process_id]
          [("process_id", JS process_id); ("heartbeat_at", JI (now s))];
    mret DAllow.

Definition advance_time (seconds : Z) : KS unit :=
  s ← get_st;
  _record "time.advanced" "clock" [] [("seconds", JI seconds); ("now", JI (now s + seconds))].

Definition start_process (process_id owner cap_id : string)
    (ttl budget max_depth depth max_calls heartbeat_timeout : Z) : KS decision :=
  if max_depth <? depth then
    _ ← append_alert "max_depth_exceeded";
    _ ← _record "process.stopped" owner [process_id] (reason_payload "max_depth_exceeded");
    mret DBlocked
  else
    s ← get_st;
    _ ← record_as "process.started" owner [process_id]
          [("process_id", JS process_id); ("owner", JS owner); ("cap_id", JS cap_id); ("ttl", JI ttl);
           ("budget", JI budget); ("budget_remaining", JI budget); ("max_depth", JI max_depth);
           ("depth", JI depth); ("max_calls", JI max_calls); ("call_count", JI 0);
           ("started_at", JI (now s)); ("heartbeat_at", JI (now s));
           ("heartbeat_timeout", JI heartbeat_timeout)] (JS cap_id) JNull "public";
    mret DAllow.

(** The loop of [recurse_process]: stop at the first process refused. *)
Fixpoint recurse_loop (root owner cap_id : string) (max_depth : Z) (depths : list Z) : KS unit :=
  match depths with
  | [] => mret ()
  | depth :: rest =>
      d ← start_process (root +:+ "-" +:+ dec depth) owner cap_id 10 10 max_depth depth 10 0;
      if bool_decide (d = DBlocked) then mret () else recurse_loop root owner cap_id max_depth rest
  end.

(** [range(n)]. *)
Definition py_range (n : Z) : list Z := map Z.of_nat (List.seq 0 (Z.to_nat n)).

Definition recurse_process (root owner cap_id : string) (max_depth : Z) : KS unit :=
  recurse_loop root owner cap_id max_depth (py_range (max_depth + 2)).

Definition _process_limit_reason (t : Z) (process : jobject) (cost : Z) : res (option string) :=
  started ← int_field process "started_at";
  ttl ← int_field process "ttl";
  if ttl <=? t - started then Ok (Some "ttl_expired")
  else
    timeout ← int_field process "heartbeat_timeout";
    stale ← (if negb (timeout =? 0)
             then beat ← int_field process "heartbeat_at"; Ok (timeout <=? t - beat) else Ok false);
    if stale : bool then Ok (Some "heartbeat_stale")
    else
      calls ← int_field process "call_count";
      max_calls ← int_field process "max_calls";
      if max_calls <=? calls then Ok (Some "max_calls_exceeded")
      else
        poor ← (if negb (cost =? 0)
                then b ← int_field process "budget_remaining"; Ok (b <? cost) else Ok false);
        if poor : bool then Ok (Some "budget_exhausted") else Ok None.

(** * Using an edge *)

(** [next((n for n in (a, b) if n in self.frozen_nodes), None)], then its truth. *)
Fixpoint frozen_endpoint (frozen : gset string) (ns : list json) : res (option string) :=
  match ns with
  | [] => Ok None
  | n :: rest =>
      k ← hashed n;
      match k with
      | Some t => if bool_decide (t ∈ frozen) then Ok (Some t) else frozen_endpoint frozen rest
      | None => frozen_endpoint frozen rest
      end
  end.

(** The capability check of an edge in use; [None]: the edge carries none, or it was granted. *)
Definition edge_authority (edge_id : string) (edge : jobject) : KS bool :=
  let cap_id := jget edge "capability_id" in
  if truthy cap_id then
    target ← lift (jitem edge "to");
    resource ← lift (port_resource target);
    ty ← lift (jitem edge "edge_type");
    d ← use_capability (py_str cap_id) (py_str ty) resource 0;
    mret (bool_decide (d = DAllow))
  else mret true.

Definition reject_use (actor edge_id : string) (more_targets : list string) (reason : string)
    (more : jobject) (auth : json) : KS decision :=
  _ ← record_as "edge.use_rejected" actor (edge_id :: more_targets)
        ([("edge_id", JS edge_id); ("reason", JS reason)] ++ more) auth JNull "public";
  mret DDeny.

(** The part of [use_edge] after the process limits. *)
Definition use_edge_checked (edge_id : string) (edge : jobject) (cost : Z) : KS decision :=
  s ← get_st;
  let from_ref := py_or (jget edge "from") (JObj []) in
  let to_ref := py_or (jget edge "to") (JObj []) in
  fn ← lift (obj_get from_ref "node_id");
  tn ← lift (obj_get to_ref "node_id");
  frozen ← lift (frozen_endpoint (frozen_nodes s) [fn; tn]);
  if nonempty frozen then
    let n := default "" frozen in
    reject_use "policy" edge_id [n] "endpoint_frozen" [("node_id", JS n)] JNull
  else
    let cap_id := jget edge "capability_id" in
    granted ← edge_authority edge_id edge;
    if negb (granted : bool) then
      reject_use "policy" edge_id [py_str cap_id] "capability_denied" [("capability_id", cap_id)]
        (JS (py_str cap_id))
    else
      _ ← record_as "edge.used" (text_or fn "system") [edge_id]
            [("edge_id", JS edge_id); ("process_id", jget edge "process_id"); ("cost", JI cost)]
            (if truthy cap_id then JS (py_str cap_id) else JNull) JNull
            (if truthy cap_id then "authority" else "public");
      mret DAllow.

Definition use_edge (edge_id : string) (cost : Z) : KS decision :=
  s ← get_st;
  match edges s !! edge_id with
  | None => reject_use "system" edge_id [] "missing_edge" [] JNull
  | Some edge =>
      if negb (is_text (jget edge "state") "active") then
        reject_use "system" edge_id [] "edge_not_active" [("state", jget edge "state")] JNull
      else
        let process_id := jget edge "process_id" in
        if truthy process_id then
          match processes s !! py_str process_id with
          | None =>
              reject_use "system" edge_id [py_str process_id] "process_not_active"
                [("process_id", process_id)] JNull
          | Some process =>
              stop ← lift (_process_limit_reason (now s) process cost);
              match (stop : option string) with
              | Some reason => _ ← stop_process (py_str process_id) reason; mret DBlocked
              | None => use_edge_checked edge_id edge cost
              end
          end
        else use_edge_checked edge_id edge cost
  end.
