(* ===== verification/KernelRouting.v ===== *)
(** Signals, routes, outcomes, scores and winners: the evidence side of the
    graph kernel ([emit_signal] to [select_winner] of graph_kernel/state.py).

    Selection takes the best of a list of scored candidates with Python's
    [max]: the first candidate none of the later ones beats.  The comparison of
    two candidates is the comparison of tuples [(float, str)].  With a NaN among
    the scores the listing order of [sorted] is not determined by the
    language; the listing here is the one of a stable merge sort. *)
From S2P Require Import Prelude PyStr PyDict PyFloat PyJson FnMatch Capability Policy KernelState.
From S2P Require Import KernelOps.
Open Scope Z_scope.

Definition emit_signal (node_id signal_type : string) (body : jobject) : KS unit :=
  record_as "signal.emitted" node_id [node_id]
    (dict_update [("signal_type", JS signal_type)] body) JNull JNull "signal".

(** * The best candidate *)

(** A scored candidate: the score, the name, and what explains it. *)
Definition scored : Type := pyfloat * string * string.

Definition score_of (c : scored) : pyfloat := c.1.1.
Definition name_of (c : scored) : string := c.1.2.

Definition str_gt (x y : string) : bool := negb (String.leb x y).

(** [(score, name) > (score', name')]. *)
Definition beats (c d : scored) : bool :=
  if feq (score_of c) (score_of d) then str_gt (name_of c) (name_of d)
  else flt (score_of d) (score_of c).

(** [max(candidates, key=lambda item: (item[0], item[1]))]. *)
Definition best (c : scored) (cs : list scored) : scored :=
  foldl (λ b d, if beats d b then d else b) c cs.

(** [sorted(candidates, reverse=True)]: the whole triples are compared. *)
Definition triple_lt (c d : scored) : bool :=
  if feq (score_of c) (score_of d) then
    if name_of c =s? name_of d then str_gt d.2 c.2 else str_gt (name_of d) (name_of c)
  else flt (score_of c) (score_of d).

Definition triple_le (c d : scored) : Prop := triple_lt d c = false.
#[export] Instance triple_le_dec c d : Decision (triple_le c d).
Proof. unfold triple_le. apply _. Defined.

Definition sorted_desc (cs : list scored) : list scored := rev (merge_sort triple_le (rev cs)).

(** * Routing *)

Definition ten : pyfloat := f_round 10.
Definition thousand : pyfloat := f_round 1000.

(** One signal of the candidate's node: the score and the references after it. *)
Definition weigh (node_id : string) (acc : pyfloat * list string) (signal : jobject) :
    res (pyfloat * list string) :=
  if negb (is_text (jget signal "node_id") node_id) then Ok acc
  else
    let ty := jget signal "signal_type" in
    if is_text ty "success" then
      r ← jitem signal "event_id"; Ok (fadd acc.1 ten, acc.2 ++ [py_str r])
    else if is_text ty "cost" then
      x ← py_float (jget_or signal "usd" (JI 0));
      r ← jitem signal "event_id"; Ok (fsub acc.1 x, acc.2 ++ [py_str r])
    else if is_text ty "latency" then
      x ← py_float (jget_or signal "ms" (JI 0));
      r ← jitem signal "event_id"; Ok (fsub acc.1 (fdiv x thousand), acc.2 ++ [py_str r])
    else Ok acc.

Fixpoint weigh_all (node_id : string) (acc : pyfloat * list string) (signals : list jobject) :
    res (pyfloat * list string) :=
  match signals with
  | [] => Ok acc
  | x :: rest => acc' ← weigh node_id acc x; weigh_all node_id acc' rest
  end.

(** The loop of [select_route]: the authorized candidates with their scores. *)
Fixpoint score_routes (skill : string) (acc : list scored) (candidates : dict string) :
    KS (list scored) :=
  match candidates with
  | [] => mret acc
  | (node_id, cap_id) :: rest =>
      d ← use_capability cap_id "call" ("skill:" +:+ skill) 0;
      if negb (bool_decide (d = DAllow)) then score_routes skill acc rest
      else
        s ← get_st;
        w ← lift (weigh_all node_id (fzero, []) (signals s));
        score_routes skill (acc ++ [(w.1, node_id, String.concat "," w.2)]) rest
  end.

Definition select_route (skill : string) (candidates : dict string) : KS (option string) :=
  cs ← score_routes skill [] candidates;
  match cs with
  | [] =>
      _ ← _record "route.rejected" "router" [skill] (reason_payload "no_authorized_route");
      mret None
  | c :: rest =>
      let b := best c rest in
      _ ← _record "route.selected" "router" [name_of b]
            [("skill", JS skill); ("node_id", JS (name_of b)); ("score", JFloat (score_of b));
             ("explanation_refs", JS b.2)];
      mret (Some (name_of b))
  end.

(** * Outcomes and scores *)

Definition reject_outcome (targets : list string) (body : jobject) : KS decision :=
  _ ← _record "outcome.rejected" "evaluator" targets body; mret DDeny.

Definition edge_active (s : GraphSimState) (eid : string) : bool :=
  match edges s !! eid with Some e => is_text (jget e "state") "active" | None => false end.

Definition record_outcome (outcome_id participant_id : string) (process_id edge_id : option string)
    (metrics : option jobject) (evidence_refs : list string) (status : string) : KS decision :=
  s ← get_st;
  let who := [("outcome_id", JS outcome_id); ("participant_id", JS participant_id)] in
  let pid := default "" process_id in
  let eid := default "" edge_id in
  if negb (bool_decide (participant_id ∈ nodes s)) then
    reject_outcome [outcome_id; participant_id] (who ++ reason_payload "missing_participant")
  else if bool_decide (participant_id ∈ frozen_nodes s) then
    reject_outcome [outcome_id; participant_id] (who ++ reason_payload "participant_frozen")
  else if nonempty process_id && negb (has_key pid (processes s)) then
    reject_outcome [outcome_id; participant_id; pid]
      (who ++ [("process_id", JS pid)] ++ reason_payload "process_not_active")
  else if nonempty edge_id && negb (edge_active s eid) then
    reject_outcome [outcome_id; participant_id; eid]
      (who ++ [("edge_id", JS eid)] ++ reason_payload "edge_not_active")
  else
    _ ← _record "outcome.recorded" "evaluator" [outcome_id; participant_id]
          (who ++ [("process_id", jopt process_id); ("edge_id", jopt edge_id);
                   ("metrics", JObj (default [] metrics)); ("evidence_refs", jstrs evidence_refs);
                   ("status", JS status)] ++ simulation_markers);
    mret DAllow.

Definition reject_score (targets : list string) (body : jobject) : KS decision :=
  _ ← _record "score.rejected" "evaluator" targets body; mret DDeny.

Definition score_participant (score_id participant_id outcome_id : string) (score : json)
    (explanation_refs : list string) : KS decision :=
  s ← get_st;
  let full := [("score_id", JS score_id); ("participant_id", JS participant_id);
               ("outcome_id", JS outcome_id)] in
  match outcomes s !! outcome_id with
  | None =>
      reject_score [score_id; participant_id; outcome_id] (full ++ reason_payload "missing_outcome")
  | Some outcome =>
      if negb (is_text (jget outcome "participant_id") participant_id) then
        reject_score [score_id; participant_id; outcome_id]
          (full ++ reason_payload "outcome_participant_mismatch")
      else if bool_decide (participant_id ∈ frozen_nodes s) then
        reject_score [score_id; participant_id]
          [("score_id", JS score_id); ("participant_id", JS participant_id);
           ("reason", JS "participant_frozen")]
      else
        x ← lift (py_float score);
        _ ← _record "score.assigned" "evaluator" [score_id; participant_id; outcome_id]
              (full ++ [("score", JFloat x); ("explanation_refs", jstrs explanation_refs)]
                 ++ simulation_markers);
        mret DAllow
  end.

(** * Winners *)

(** [refs.get(k)] of a dict of texts. *)
Definition ref_get (refs : dict string) (k : string) : json := jopt (refs !! k).

Definition _winner_exclusion_reason (s : GraphSimState) (participant_id : string) (refs : dict string) :
    option string :=
  if negb (bool_decide (participant_id ∈ nodes s)) then Some "missing_participant"
  else if bool_decide (participant_id ∈ frozen_nodes s) then Some "participant_frozen"
  else match scores s !! text_or (ref_get refs "score_id") "" with
  | None => Some "missing_score"
  | Some score =>
      if negb (is_text (jget score "participant_id") participant_id)
      then Some "score_participant_mismatch"
      else match outcomes s !! py_str (py_or (py_or (jget score "outcome_id")
                                                (ref_get refs "outcome_id")) (JS "")) with
      | None => Some "missing_outcome"
      | Some outcome =>
          if negb (is_text (jget outcome "participant_id") participant_id)
          then Some "outcome_participant_mismatch"
          else
            let process_id := py_or (ref_get refs "process_id") (jget outcome "process_id") in
            if truthy process_id && negb (has_key (py_str process_id) (processes s))
            then Some "process_not_active"
            else
              let edge_id := py_or (ref_get refs "edge_id") (jget outcome "edge_id") in
              if truthy edge_id && negb (edge_active s (py_str edge_id)) then Some "edge_not_active"
              else
                let cap_id := ref_get refs "capability_id" in
                if truthy cap_id then
                  match capabilities s !! py_str cap_id with
                  | None => Some "capability_not_active"
                  | Some c => if revoked c then Some "capability_not_active" else None
                  end
                else None
      end
  end.

(** The two lists the loop of [select_winner] builds. *)
Fixpoint classify (s : GraphSimState) (eligible : list scored) (excluded : list json)
    (candidates : dict (dict string)) : res (list scored * list json) :=
  match candidates with
  | [] => Ok (eligible, excluded)
  | (participant_id, refs) :: rest =>
      let score_id := text_or (ref_get refs "score_id") "" in
      match _winner_exclusion_reason s participant_id refs with
      | Some reason =>
          classify s eligible
            (excluded ++ [JObj [("participant_id", JS participant_id); ("score_id", JS score_id);
                                ("reason", JS reason)]]) rest
      | None =>
          match scores s !! score_id with
          | None => Raise (KeyError score_id)
          | Some row =>
              x ← jitem row "score" ≫= py_float;
              classify s (eligible ++ [(x, participant_id, score_id)]) excluded rest
          end
      end
  end.

Definition candidate_payload (c : scored) : json :=
  JObj [("participant_id", JS (name_of c)); ("score_id", JS c.2); ("score", JFloat (score_of c))].

Definition select_winner (arena_id : string) (candidates : dict (dict string)) : KS (option string) :=
  s ← get_st;
  lists ← lift (classify s [] [] candidates);
  match lists.1 with
  | [] =>
      _ ← _record "winner.rejected" "evaluator" [arena_id]
            ([("arena_id", JS arena_id); ("reason", JS "no_eligible_winner");
              ("excluded_candidates", JList lists.2)] ++ simulation_markers);
      mret None
  | c :: rest =>
      let b := best c rest in
      _ ← _record "winner.selected" "evaluator" [arena_id; name_of b; b.2]
            ([("arena_id", JS arena_id); ("winner_id", JS (name_of b)); ("score_id", JS b.2);
              ("score", JFloat (score_of b));
              ("eligible_candidates", JList (map candidate_payload (sorted_desc lists.1)));
              ("excluded_candidates", JList lists.2)] ++ simulation_markers);
      mret (Some (name_of b))
  end.
