(* ===== verification/KernelLoops.v ===== *)
(** Rewrites, review loops, protocol simulations, freezing and deletion: the
    governed loops of the graph kernel ([propose_rewrite] to [apply_delete] of
    graph_kernel/state.py), and the type of all the kernel's operations.

    A loop appends its alert or violation to the state itself before it records
    the event that makes the reducer add the same one.  The last part is what
    the kernel shows: the redacted export of the ledger ([_redact_payload],
    [export_view]) and [summary]. *)
From S2P Require Import Prelude PyStr PyDict PyFloat PyJson FnMatch Capability Policy KernelState.
From S2P Require Import KernelOps.
From S2P Require Import KernelRouting.
Open Scope Z_scope.

(** * Rewrites *)

Definition propose_rewrite (rewrite_id target : string) (body : jobject) : KS unit :=
  record_as "rewrite.proposed" "system" [target]
    (dict_update [("rewrite_id", JS rewrite_id); ("target", JS target)] body) JNull JNull "rewrite".

Definition approve_rewrite (rewrite_id review : string) (canary : bool) : KS unit :=
  _record "rewrite.approved" "policy" [rewrite_id]
    [("rewrite_id", JS rewrite_id); ("review", JS review); ("canary", JBool canary)].

(** Why [apply_rewrite] refuses, or [None]. *)
Definition rewrite_refusal (row : option jobject) : option string :=
  let r := default [] row in
  if negb (truthy (JObj r)) || negb (truthy (jget r "approved")) then Some "not_approved"
  else if is_text (jget r "review") "critical" then Some "critical_review"
  else if negb (truthy (jget r "canary")) then Some "missing_canary"
  else None.

Definition apply_rewrite (rewrite_id : string) : KS decision :=
  s ← get_st;
  match rewrite_refusal (rewrites s !! rewrite_id) with
  | Some reason =>
      _ ← _record "rewrite.rejected" "policy" [rewrite_id] (reason_payload reason); mret DDeny
  | None =>
      _ ← _record "rewrite.applied" "policy" [rewrite_id] [("rewrite_id", JS rewrite_id)]; mret DAllow
  end.

Definition freeze_node (node_id reason : string) : KS unit :=
  _record "freeze.applied" "policy" [node_id] [("node_id", JS node_id); ("reason", JS reason)].

(** * Review loops *)

Definition record_review (ety actor : string) (targets : list string) (body : jobject) (auth : json) :
    KS unit := record_as ety actor targets body auth JNull "review_loop".

Definition start_review_loop (process_id reviewer target cap_id : string)
    (ttl budget max_iterations : Z) : KS decision :=
  if (ttl <=? 0) || (budget <=? 0) || (max_iterations <=? 0) then
    _ ← record_review "review_loop.rejected" reviewer [process_id; target]
          [("reason", JS "missing_loop_limit"); ("ttl", JI ttl); ("budget", JI budget);
           ("max_iterations", JI max_iterations)] (JS cap_id);
    mret DDeny
  else
    d ← use_capability cap_id "review" ("agent:" +:+ target) 0;
    if negb (bool_decide (d = DAllow)) then
      _ ← record_review "review_loop.rejected" reviewer [process_id; target]
            (reason_payload "missing_review_authority") (JS cap_id);
      mret DDeny
    else
      s ← get_st;
      _ ← record_review "review_loop.started" reviewer [process_id; target]
            [("process_id", JS process_id); ("reviewer", JS reviewer); ("target", JS target);
             ("cap_id", JS cap_id); ("ttl", JI ttl); ("budget", JI budget);
             ("budget_remaining", JI budget); ("max_iterations", JI max_iterations);
             ("iterations", JI 0); ("started_at", JI (now s)); ("findings_only", JBool true);
             ("active_apply_enabled", JBool false)] (JS cap_id);
      mret DAllow.

(** The reviewer stops: the alert, the event, and the answer [blocked]. *)
Definition stop_review (process_id reviewer alert reason : string) (more : jobject) : KS decision :=
  _ ← append_alert alert;
  _ ← record_review "review_loop.stopped" reviewer [process_id]
        ([("process_id", JS process_id); ("reason", JS reason)] ++ more) JNull;
  mret DBlocked.

(** The limits of a loop, in the order they are read; the alert, the reason and
the additional payload of the first one exceeded. *)
Definition review_limit (t : Z) (row : jobject) (cost : Z) : res (option (string * string * jobject)) :=
  started ← int_field row "started_at";
  ttl ← int_field row "ttl";
  if negb (ttl =? 0) && (ttl <=? t - started)
  then Ok (Some ("review_loop_ttl_expired", "ttl_expired", []))
  else
    iterations ← int_field row "iterations";
    max_iterations ← int_field row "max_iterations";
    if negb (max_iterations =? 0) && (max_iterations <=? iterations)
    then Ok (Some ("review_loop_max_iterations_exceeded", "max_iterations_exceeded", []))
    else
      left ← int_field row "budget_remaining";
      if left <? cost
      then Ok (Some ("review_loop_budget_exhausted", "budget_exhausted",
                     [("cost", JI cost); ("budget_remaining", JI left)]))
      else Ok None.

Definition emit_review_finding (process_id reviewer target finding_id severity : string) (cost : Z)
    (can_mutate : bool) : KS decision :=
  s ← get_st;
  match processes s !! process_id with
  | None =>
      _ ← record_review "review_loop.rejected" reviewer [process_id]
            (reason_payload "missing_review_loop") JNull;
      mret DDeny
  | Some row =>
      if can_mutate then
        _ ← append_violation "reviewer_mutation_authority_forbidden";
        _ ← record_review "review_loop.rejected" reviewer [process_id; target]
              [("reason", JS "reviewer_mutation_authority_forbidden"); ("finding_id", JS finding_id)]
              JNull;
        mret DDeny
      else
        limit ← lift (review_limit (now s) row cost);
        match (limit : option (string * string * jobject)) with
        | Some (alert, reason, more) => stop_review process_id reviewer alert reason more
        | None =>
            _ ← record_review "review_loop.finding_emitted" reviewer [process_id; target; finding_id]
                  [("process_id", JS process_id); ("reviewer", JS reviewer); ("target", JS target);
                   ("finding_id", JS finding_id); ("severity", JS severity); ("cost", JI cost);
                   ("findings_only", JBool true); ("active_apply_enabled", JBool false)] JNull;
            _ ← (if severity =s? "critical"
                 then freeze_node target ("critical reviewer finding " +:+ finding_id) else mret ());
            mret DAllow
        end
  end.

Definition propose_fix_from_finding (process_id finding_id proposal_id : string) (direct_apply : bool) :
    KS decision :=
  s ← get_st;
  match processes s !! process_id with
  | None =>
      _ ← record_review "review_loop.fix_rejected" "reviewer" [process_id; finding_id]
            (reason_payload "missing_review_loop") JNull;
      mret DDeny
  | Some row =>
      let reviewer := text_or (jget row "reviewer") "reviewer" in
      if direct_apply then
        _ ← append_violation "review_loop_direct_apply_forbidden";
        _ ← record_review "review_loop.fix_rejected" reviewer [process_id; finding_id]
              [("reason", JS "direct_apply_forbidden"); ("finding_id", JS finding_id);
               ("proposal_id", JS proposal_id)] JNull;
        mret DDeny
      else
        _ ← record_review "review_loop.fix_proposed" reviewer [process_id; finding_id; proposal_id]
              [("process_id", JS process_id); ("finding_id", JS finding_id);
               ("self_improvement_proposal_ref", JS proposal_id); ("proposal_only", JBool true);
               ("active_apply_enabled", JBool false)] JNull;
        _ ← propose_rewrite proposal_id (text_or (jget row "target") "")
              [("finding_id", JS finding_id); ("self_improvement_proposal_ref", JS proposal_id);
               ("proposal_only", JBool true); ("rollback_plan", JS "discard proposed fix")];
        mret DAllow
  end.

Definition stop_review_loop (process_id reason : string) : KS decision :=
  s ← get_st;
  if negb (has_key process_id (processes s)) then
    _ ← record_review "review_loop.stopped" "system" [process_id]
          [("process_id", JS process_id); ("reason", JS "missing_review_loop")] JNull;
    mret DDeny
  else
    _ ← record_review "review_loop.stopped" "system" [process_id]
          [("process_id", JS process_id); ("reason", JS reason); ("kill_switch", JBool true);
           ("active_apply_enabled", JBool false)] JNull;
    mret DAllow.

(** * Protocol simulations *)

Definition record_protocol (ety : string) (targets : list string) (body : jobject) : KS unit :=
  record_as ety "simulator" targets body JNull JNull "protocol_simulation".

Definition start_protocol_simulation (process_id target protocol_id template_ref : string)
    (budget ttl max_episodes : Z) : KS decision :=
  s ← get_st;
  _ ← record_protocol "protocol_simulation.started" [process_id; target]
        ([("process_id", JS process_id); ("target", JS target);
          ("protocol_ref", JObj [("id", JS protocol_id); ("version", JI 1)]);
          ("template_ref", JS template_ref); ("budget_remaining", JI budget); ("ttl", JI ttl);
          ("started_at", JI (now s)); ("max_episodes", JI max_episodes); ("episodes", JI 0)]
         ++ simulation_markers);
  mret DAllow.

Definition stop_protocol (process_id alert reason : string) : KS decision :=
  _ ← append_alert alert;
  _ ← record_protocol "protocol_simulation.stopped" [process_id]
        [("process_id", JS process_id); ("reason", JS reason); ("active_apply_enabled", JBool false)];
  mret DBlocked.

Definition protocol_limit (t : Z) (row : jobject) (cost : Z) : res (option (string * string)) :=
  started ← int_field row "started_at";
  ttl ← int_field row "ttl";
  if ttl <=? t - started then Ok (Some ("protocol_simulation_ttl_exceeded", "ttl_expired"))
  else
    episodes ← int_field row "episodes";
    max_episodes ← int_field row "max_episodes";
    if max_episodes <=? episodes
    then Ok (Some ("protocol_simulation_episode_limit_exceeded", "max_episodes_exceeded"))
    else
      poor ← (if negb (cost =? 0)
              then left ← int_field row "budget_remaining"; Ok (left <? cost) else Ok false);
      if poor : bool then Ok (Some ("protocol_simulation_budget_exceeded", "budget_exceeded"))
      else Ok None.

Definition record_protocol_episode (process_id : string) (episode cost : Z) (direct_apply : bool) :
    KS decision :=
  s ← get_st;
  match processes s !! process_id with
  | None =>
      _ ← record_protocol "protocol_simulation.episode_rejected" [process_id]
            (reason_payload "missing_protocol_simulation");
      mret DDeny
  | Some row =>
      if direct_apply then
        _ ← append_violation "protocol_simulation_direct_apply_forbidden";
        _ ← record_protocol "protocol_simulation.episode_rejected" [process_id]
              [("reason", JS "direct_apply_forbidden"); ("active_apply_enabled", JBool false)];
        mret DDeny
      else
        limit ← lift (protocol_limit (now s) row cost);
        match (limit : option (string * string)) with
        | Some (alert, reason) => stop_protocol process_id alert reason
        | None =>
            _ ← record_protocol "protocol_simulation.episode_recorded" [process_id]
                  [("process_id", JS process_id); ("episode", JI episode); ("cost", JI cost);
                   ("active_apply_enabled", JBool false)];
            mret DAllow
        end
  end.

(** * Credentials and deletion *)

Definition add_credential (credential_id : string) : KS unit :=
  modify (λ s, set_credentials ({[ credential_id ]} ∪ credentials s) s).

Definition deletion_dependents (s : GraphSimState) (node_id : string) : jobject := [
  ("child_grants",
     jstrs (keys (base.filter (λ p, p.2 =s? node_id = true) (capability_owner s))));
  ("active_processes",
     jstrs (keys (base.filter (λ p, is_text (jget p.2 "owner") node_id = true) (processes s))));
  ("credentials", jstrs (sorted_set (credentials s)))
].

Definition preview_delete (node_id : string) : KS jobject :=
  s ← get_st;
  let dependents := deletion_dependents s node_id in
  _ ← _record "delete.previewed" "system" [node_id] (("node_id", JS node_id) :: dependents);
  mret dependents.

Definition apply_delete (node_id : string) : KS decision :=
  s ← get_st;
  if negb (has_key node_id (deletion_previews s)) then
    _ ← _record "delete.rejected" "system" [node_id] (reason_payload "missing_preview"); mret DDeny
  else
    _ ← _record "delete.applied" "system" [node_id] [("node_id", JS node_id)]; mret DAllow.

(** * All the operations *)

Inductive op : Type :=
  | OCreateNode (n : string)
  | OCreatePort (n p direction schema : string) (ty : option string)
  | OProposeEdge (e fn fp tn tp ty : string) (cap pid prov : option string)
  | OActivateEdge (e : string) (ps : list PolicyRule) (did : option string)
  | OFreezeEdge (e reason : string)
  | OUseEdge (e : string) (cost : Z)
  | OStopProcess (p reason : string)
  | OHeartbeat (p : string)
  | OAdvanceTime (secs : Z)
  | OMint (c owner : string) (cap : Capability)
  | ODelegate (parent child owner : string) (req : Capability)
  | ORequestUnion (caps : list string) (u : string)
  | OCheckPolicy (did action resource : string) (ps : list PolicyRule)
  | OUseCapability (c action resource : string) (cost : Z)
  | ORevoke (c : string)
  | OEmitSignal (n ty : string) (body : jobject)
  | OSelectRoute (skill : string) (cands : dict string)
  | ORecordOutcome (o p : string) (pid eid : option string) (m : option jobject) (ev : list string)
      (st : string)
  | OScore (sc p o : string) (score : json) (ex : list string)
  | OSelectWinner (a : string) (cands : dict (dict string))
  | OProposeRewrite (r t : string) (body : jobject)
  | OApproveRewrite (r review : string) (canary : bool)
  | OApplyRewrite (r : string)
  | OStartReview (p reviewer target cap : string) (ttl budget iters : Z)
  | OEmitFinding (p reviewer target f severity : string) (cost : Z) (mutates : bool)
  | OProposeFix (p f proposal : string) (direct : bool)
  | OStopReview (p reason : string)
  | OStartProtocol (p target proto template : string) (budget ttl eps : Z)
  | ORecordEpisode (p : string) (ep cost : Z) (direct : bool)
  | OStartProcess (p owner cap : string) (ttl budget max_depth depth max_calls hb : Z)
  | ORecurse (root owner cap : string) (max_depth : Z)
  | OFreezeNode (n reason : string)
  | OAddCredential (c : string)
  | OPreviewDelete (n : string)
  | OApplyDelete (n : string).

(** The call of an operation, its result dropped. *)
Definition run_op (secret : string) (o : op) : KS unit :=
  match o with
  | OCreateNode n => create_node n
  | OCreatePort n p d sc ty => create_port n p d sc ty
  | OProposeEdge e fn fp tn tp ty c pid prov => _ ← propose_edge e fn fp tn tp ty c pid prov; mret ()
  | OActivateEdge e ps did => _ ← activate_edge secret e ps did; mret ()
  | OFreezeEdge e r => freeze_edge e r
  | OUseEdge e c => _ ← use_edge e c; mret ()
  | OStopProcess p r => _ ← stop_process p r; mret ()
  | OHeartbeat p => _ ← heartbeat_process p; mret ()
  | OAdvanceTime n => advance_time n
  | OMint c o cap => mint_capability c o cap
  | ODelegate p c o r => _ ← delegate p c o r; mret ()
  | ORequestUnion cs u => _ ← request_union cs u; mret ()
  | OCheckPolicy d a r ps => _ ← check_policy_stack secret d a r ps; mret ()
  | OUseCapability c a r n => _ ← use_capability c a r n; mret ()
  | ORevoke c => revoke_capability c
  | OEmitSignal n ty b => emit_signal n ty b
  | OSelectRoute k cs => _ ← select_route k cs; mret ()
  | ORecordOutcome o p pid eid m ev st => _ ← record_outcome o p pid eid m ev st; mret ()
  | OScore sc p o x ex => _ ← score_participant sc p o x ex; mret ()
  | OSelectWinner a cs => _ ← select_winner a cs; mret ()
  | OProposeRewrite r t b => propose_rewrite r t b
  | OApproveRewrite r rv c => approve_rewrite r rv c
  | OApplyRewrite r => _ ← apply_rewrite r; mret ()
  | OStartReview p rv t c ttl b it => _ ← start_review_loop p rv t c ttl b it; mret ()
  | OEmitFinding p rv t f sv c m => _ ← emit_review_finding p rv t f sv c m; mret ()
  | OProposeFix p f pr d => _ ← propose_fix_from_finding p f pr d; mret ()
  | OStopReview p r => _ ← stop_review_loop p r; mret ()
  | OStartProtocol p t pr tm b ttl n => _ ← start_protocol_simulation p t pr tm b ttl n; mret ()
  | ORecordEpisode p n c d => _ ← record_protocol_episode p n c d; mret ()
  | OStartProcess p o c ttl b md d mc hb => _ ← start_process p o c ttl b md d mc hb; mret ()
  | ORecurse r o c md => recurse_process r o c md
  | OFreezeNode n r => freeze_node n r
  | OAddCredential c => add_credential c
  | OPreviewDelete n => _ ← preview_delete n; mret ()
  | OApplyDelete n => _ ← apply_delete n; mret ()
  end.

(** A sequence of calls; the caller stops at the first exception. *)
Definition run_ops (secret : string) (os : list op) : KS unit := for_each os (run_op secret).

(** * What the kernel shows *)

Inductive view : Set := VOwner | VPublic | VOperator.

#[export] Instance view_eq_dec : EqDecision view.
Proof. solve_decision. Defined.

Definition view_name (v : view) : string :=
  match v with VOwner => "owner" | VPublic => "public" | VOperator => "operator" end.

Definition sensitive_parts : list string := ["token"; "secret"; "jwt"; "credential"; "key"].

(** The keys whose values never leave: by a part of the name, or by the exact
name in the views of third parties. *)
Definition hidden_key (v : view) (key : string) : bool :=
  let lowered := lower key in
  has_marker sensitive_parts lowered
  || negb (bool_decide (v = VOwner)) && str_in lowered ["private_file"; "object_key"].

Definition secret_prefixes : list string := ["sk-"; "gitea_"; "eyj"].
Definition secret_text (s : string) : bool := existsb (startswith (lower s)) secret_prefixes.

Definition REDACTED : json := JStr "[redacted]".

Fixpoint _redact_payload (v : view) (value : json) : json :=
  match value with
  | JObj d => JObj (map (λ p, (p.1, if hidden_key v p.1 then REDACTED else _redact_payload v p.2)) d)
  | JList l => JList (map (_redact_payload v) l)
  | JStr s => if secret_text s then REDACTED else value
  | _ => value
  end.

Definition exported_payload (v : view) (e : SimEvent) : json :=
  if bool_decide (v = VPublic) && negb (str_in (redaction_class e) ["public"; "signal"])
  then JObj [("redacted", JBool true)]
  else _redact_payload v (JObj (payload e)).

Definition export_event (v : view) (e : SimEvent) : json :=
  JObj (dict_update (event_dump e) [("payload", exported_payload v e)]).

Definition export_view (v : view) (s : GraphSimState) : jobject := [
  ("view", JStr (view_name v));
  ("events", JList (map (export_event v) (ledger s)));
  ("event_count", JInt (Z.of_nat (length (ledger s))))
].

(** * The summary *)

Definition dump_rows (rows : dict jobject) : json := JObj (dict_map JObj (sorted_items rows)).

Definition summary (s : GraphSimState) : jobject := [
  ("nodes", jstrs (sorted_set (nodes s)));
  ("ports", JObj (dict_map dump_rows (sorted_items (ports s))));
  ("edges", dump_rows (edges s));
  ("capabilities", JObj (dict_map (λ c, JObj (cap_dump c)) (sorted_items (capabilities s))));
  ("processes", jstrs (sort_strs (keys (processes s))));
  ("routes", dump_rows (routes s)); ("outcomes", dump_rows (outcomes s));
  ("scores", dump_rows (scores s)); ("winners", dump_rows (winners s));
  ("rewrites", dump_rows (rewrites s)); ("policy_decisions", dump_rows (policy_decisions s));
  ("frozen_nodes", jstrs (sorted_set (frozen_nodes s)));
  ("deletion_previews", dump_rows (deletion_previews s));
  ("alerts", jstrs (alerts s)); ("violations", jstrs (violations s))
].

(** * What a redacted value contains *)

Lemma redact_payload_with v value : _redact_payload v value = redact_with (hidden_key v) secret_text value.
Proof. apply redact_with_unique. by intros []. Qed.

(** The keys and the texts that an export hides. *)
Definition private_key (v : view) (k : string) : Prop :=
  (∃ part, part ∈ ["token"; "secret"; "jwt"; "credential"; "key"] ∧ contains part (lower k) = true)
  ∨ (v = VPublic ∨ v = VOperator) ∧ lower k ∈ ["private_file"; "object_key"].

Definition looks_secret (s : string) : Prop :=
  ∃ prefix, prefix ∈ ["sk-"; "gitea_"; "eyj"] ∧ startswith (lower s) prefix = true.

Lemma hidden_key_private v k : hidden_key v k = true ↔ private_key v k.
Proof.
  unfold hidden_key, private_key, has_marker. rewrite orb_true_iff, andb_true_iff, existsb_elem, str_in_elem.
  rewrite negb_true_iff, bool_decide_eq_false. destruct v; naive_solver.
Qed.

Lemma secret_text_looks s : secret_text s = true ↔ looks_secret s.
Proof. apply existsb_elem. Qed.

Lemma payload_concealed v value : concealed (private_key v) looks_secret (_redact_payload v value).
Proof.
  rewrite redact_payload_with. by apply redact_conceals; [apply hidden_key_private|apply secret_text_looks|].
Qed.

Lemma payload_unchanged v value : concealed (private_key v) looks_secret value → _redact_payload v value = value.
Proof.
  rewrite redact_payload_with. apply redact_concealed; [apply hidden_key_private|apply secret_text_looks].
Qed.
