(* ===== verification/KernelSteps.v ===== *)
(** The operations of the kernel as a step relation.

    Whatever an operation does to the state, it does in steps of five kinds: an
    event recorded through the reducer, an alert or a violation appended, a
    budget debited, a credential added.  Properties of all reachable states are
    then proved by induction on the steps. *)
From S2P Require Import Prelude PyStr PyDict PyFloat PyJson FnMatch Capability Policy KernelState.
From S2P Require Import KernelOps KernelRouting KernelLoops.
Open Scope Z_scope.

(** The alert and the violation the reducer derives from an event. *)
Definition alert_of_kind (k : kind) (p : jobject) : option string :=
  match k with
  | KProcessStopped => process_alerts !! reason_of p
  | KReviewStopped => review_alerts !! reason_of p
  | KProtocolStopped => protocol_alerts !! reason_of p
  | _ => None
  end.

Definition violation_of_kind (k : kind) (p : jobject) : option string :=
  let r := reason_of p in
  match k with
  | KEdgeRejected | KEdgeUseRejected | KProcessHeartbeatRejected =>
      if r =s? "" then None else Some r
  | KReviewRejected => if r =s? "reviewer_mutation_authority_forbidden" then Some r else None
  | KReviewFixRejected =>
      if r =s? "direct_apply_forbidden" then Some "review_loop_direct_apply_forbidden" else None
  | KProtocolEpisodeRejected =>
      if r =s? "direct_apply_forbidden" then Some "protocol_simulation_direct_apply_forbidden" else None
  | _ => None
  end.

Definition alert_from (ety : string) : jobject → option string := alert_of_kind (kind_of ety).
Definition violation_from (ety : string) : jobject → option string := violation_of_kind (kind_of ety).

Definition with_alert (a : string) (s : GraphSimState) : GraphSimState :=
  set_alerts (alerts s ++ [a]) s.
Definition with_violation (v : string) (s : GraphSimState) : GraphSimState :=
  set_violations (violations s ++ [v]) s.

(** [kstep b s s']: one step; [b] is false when the reducer raised in it.  An
alert is appended only right before an event from which the reducer derives it. *)
Inductive kstep : bool → GraphSimState → GraphSimState → Prop :=
  | step_record ety actor targets body auth pol red s :
      kstep (is_ok (record_as ety actor targets body auth pol red s).1) s
        (record_as ety actor targets body auth pol red s).2
  | step_alert a ety actor targets body auth pol red s :
      alert_from ety body = Some a →
      kstep (is_ok (record_as ety actor targets body auth pol red (with_alert a s)).1) s
        (record_as ety actor targets body auth pol red (with_alert a s)).2
  | step_violation v ety actor targets body auth pol red s :
      violation_from ety body = Some v →
      kstep (is_ok (record_as ety actor targets body auth pol red (with_violation v s)).1) s
        (record_as ety actor targets body auth pol red (with_violation v s)).2
  | step_debit cid c n s :
      capabilities s !! cid = Some c → n ≤ budget c →
      kstep true s (set_capabilities (<[cid := debit c n]> (capabilities s)) s)
  | step_credential c s : kstep true s (set_credentials ({[ c ]} ∪ credentials s) s).

Inductive ksteps : bool → GraphSimState → GraphSimState → Prop :=
  | ksteps_nil s : ksteps true s s
  | ksteps_cons b c s1 s2 s3 : kstep b s1 s2 → ksteps c s2 s3 → ksteps (b && c) s1 s3.

Lemma ksteps_one b s s' : kstep b s s' → ksteps b s s'.
Proof. intros H. rewrite <-(andb_true_r b). by eapply ksteps_cons, ksteps_nil. Qed.

#[export] Instance ksteps_rel : TraceRel ksteps.
Proof.
  split; [apply ksteps_nil|]. intros b c s1 s2 s3 H1 H2.
  induction H1 as [|b1 b2 t1 t2 t3 Hs _ IH]; [done|].
  rewrite <-andb_assoc. eapply ksteps_cons; [exact Hs|by apply IH].
Qed.

Lemma record_as_traced ety actor targets body auth pol red :
  traced ksteps (record_as ety actor targets body auth pol red).
Proof. intros s. eexists. split; [apply ksteps_one, step_record|done]. Qed.

Lemma record_traced ety actor targets body : traced ksteps (_record ety actor targets body).
Proof. unfold _record. exact (record_as_traced _ _ _ _ _ _ _). Qed.

(** An alert or a violation followed by its event is one step. *)
Lemma alert_step_traced {B} a ety actor targets body auth pol red (k : unit → KS B) s :
  alert_from ety body = Some a → (∀ u, traced ksteps (k u)) →
  traced_at ksteps
    (append_alert a ≫= λ _, record_as ety actor targets body auth pol red ≫= k) s.
Proof.
  intros Ha Hk.
  pose proof (traced_bind ksteps (λ t, record_as ety actor targets body auth pol red (with_alert a t))
    k s) as H. apply H; [|exact Hk].
  eexists. split; [by apply ksteps_one, step_alert|done].
Qed.

Lemma violation_step_traced {B} v ety actor targets body auth pol red (k : unit → KS B) s :
  violation_from ety body = Some v → (∀ u, traced ksteps (k u)) →
  traced_at ksteps
    (append_violation v ≫= λ _, record_as ety actor targets body auth pol red ≫= k) s.
Proof.
  intros Ha Hk.
  pose proof (traced_bind ksteps
    (λ t, record_as ety actor targets body auth pol red (with_violation v t)) k s) as H.
  apply H; [|exact Hk].
  eexists. split; [by apply ksteps_one, step_violation|done].
Qed.

Lemma add_credential_traced c : traced ksteps (add_credential c).
Proof. intros s. apply traced_modify, ksteps_one, step_credential. Qed.
(** The calls a method is made of, closed by the lemma of each. *)
Ltac kstep_leaf :=
  idtac; lazymatch goal with
  | |- traced_at ksteps (record_as _ _ _ _ _ _ _) _ => apply record_as_traced
  | |- traced_at ksteps (_record _ _ _ _) _ => apply record_traced
  | |- traced_at ksteps (append_alert _ ≫= _) _ =>
      apply alert_step_traced; [try reflexivity|intros ?]
  | |- traced_at ksteps (append_violation _ ≫= _) _ =>
      apply violation_step_traced; [try reflexivity|intros ?]
  end.

Lemma use_capability_traced cid a r n : traced ksteps (use_capability cid a r n).
Proof.
  unfold use_capability. solve_traced kstep_leaf.
  apply traced_modify, ksteps_one, step_debit; [done|]. lia.
Qed.

Lemma stop_process_traced p r : traced ksteps (stop_process p r).
Proof. unfold stop_process. solve_traced kstep_leaf. Qed.

Lemma start_process_traced p o c ttl b md d mc hb :
  traced ksteps (start_process p o c ttl b md d mc hb).
Proof. unfold start_process, _record. solve_traced kstep_leaf. Qed.

Lemma check_policy_traced secret did a r ps :
  traced ksteps (check_policy_stack secret did a r ps).
Proof. unfold check_policy_stack. solve_traced kstep_leaf. Qed.

Ltac kcall_leaf :=
  idtac; first
    [ kstep_leaf
    | lazymatch goal with
      | |- traced_at ksteps (use_capability _ _ _ _) _ => apply use_capability_traced
      | |- traced_at ksteps (stop_process _ _) _ => apply stop_process_traced
      | |- traced_at ksteps (start_process _ _ _ _ _ _ _ _ _) _ => apply start_process_traced
      | |- traced_at ksteps (check_policy_stack _ _ _ _ _) _ => apply check_policy_traced
      end ].

Ltac ksolve := solve_traced kcall_leaf.

(** * Every operation runs in steps, and in steps without an exception if it returns *)

Lemma propose_edge_traced eid fn fp tn tp ty c pid prov : traced ksteps (propose_edge eid fn fp tn tp ty c pid prov).
Proof. unfold propose_edge. ksolve. Qed.

Lemma activate_edge_traced secret eid ps did : traced ksteps (activate_edge secret eid ps did).
Proof. unfold activate_edge, activate_with_capability, deny_edge. ksolve. Qed.

Lemma use_edge_traced eid c : traced ksteps (use_edge eid c).
Proof. unfold use_edge, use_edge_checked, edge_authority, reject_use. ksolve. Qed.

Lemma heartbeat_process_traced p : traced ksteps (heartbeat_process p).
Proof. unfold heartbeat_process. ksolve. Qed.

Lemma advance_time_traced n : traced ksteps (advance_time n).
Proof. unfold advance_time. ksolve. Qed.

Lemma delegate_traced p c o r : traced ksteps (delegate p c o r).
Proof. unfold delegate. ksolve. Qed.

Lemma request_union_traced cs u : traced ksteps (request_union cs u).
Proof. unfold request_union. ksolve. Qed.

Lemma record_outcome_traced o p pid eid m ev st : traced ksteps (record_outcome o p pid eid m ev st).
Proof. unfold record_outcome, reject_outcome. ksolve. Qed.

Lemma score_participant_traced sc p o x ex : traced ksteps (score_participant sc p o x ex).
Proof. unfold score_participant, reject_score. ksolve. Qed.

Lemma select_winner_traced a cs : traced ksteps (select_winner a cs).
Proof. unfold select_winner. ksolve. Qed.

Lemma apply_rewrite_traced r : traced ksteps (apply_rewrite r).
Proof. unfold apply_rewrite. ksolve. Qed.

Lemma start_review_loop_traced p rv t c ttl b it : traced ksteps (start_review_loop p rv t c ttl b it).
Proof. unfold start_review_loop, record_review. ksolve. Qed.

(** The alert of an exceeded limit is the one its reason stands for. *)
Lemma review_limit_alert t row c a r more :
  review_limit t row c = Ok (Some (a, r, more)) →
  ∀ pid, alert_from "review_loop.stopped" ([("process_id", JS pid); ("reason", JS r)] ++ more) = Some a.
Proof.
  unfold review_limit. intros H pid. inv_res. case_match; [by simplify_eq|]. inv_res.
  case_match; [by simplify_eq|]. inv_res. case_match; by simplify_eq.
Qed.

Lemma protocol_limit_alert t row c a r :
  protocol_limit t row c = Ok (Some (a, r)) →
  ∀ pid, alert_from "protocol_simulation.stopped"
    [("process_id", JS pid); ("reason", JS r); ("active_apply_enabled", JBool false)] = Some a.
Proof.
  unfold protocol_limit. intros H pid. inv_res. case_match; [by simplify_eq|]. inv_res.
  case_match; [by simplify_eq|]. inv_res. case_match; by simplify_eq.
Qed.

Lemma emit_review_finding_traced p rv t f sv c m :
  traced ksteps (emit_review_finding p rv t f sv c m).
Proof.
  unfold emit_review_finding, stop_review, record_review, freeze_node. ksolve.
  by eapply review_limit_alert.
Qed.

Lemma propose_fix_from_finding_traced p f pr d : traced ksteps (propose_fix_from_finding p f pr d).
Proof. unfold propose_fix_from_finding, record_review, propose_rewrite. ksolve. Qed.

Lemma stop_review_loop_traced p r : traced ksteps (stop_review_loop p r).
Proof. unfold stop_review_loop, record_review. ksolve. Qed.

Lemma start_protocol_simulation_traced p t pr tm b ttl n : traced ksteps (start_protocol_simulation p t pr tm b ttl n).
Proof. unfold start_protocol_simulation, record_protocol. ksolve. Qed.

Lemma record_protocol_episode_traced p n c d : traced ksteps (record_protocol_episode p n c d).
Proof.
  unfold record_protocol_episode, stop_protocol, record_protocol. ksolve.
  by eapply protocol_limit_alert.
Qed.

Lemma preview_delete_traced n : traced ksteps (preview_delete n).
Proof. unfold preview_delete. ksolve. Qed.

Lemma apply_delete_traced n : traced ksteps (apply_delete n).
Proof. unfold apply_delete. ksolve. Qed.

Lemma recurse_traced r o c md : traced ksteps (recurse_process r o c md).
Proof.
  unfold recurse_process. induction (py_range (md + 2)) as [|d ds IH]; cbn [recurse_loop];
    ksolve; apply IH.
Qed.

Lemma score_routes_traced k acc cs : traced ksteps (score_routes k acc cs).
Proof.
  revert acc. induction cs as [|[n c] cs IH]; intros acc; cbn [score_routes]; ksolve; apply IH.
Qed.

Lemma select_route_traced k cs : traced ksteps (select_route k cs).
Proof.
  unfold select_route. intros s. apply traced_bind; [apply _|apply score_routes_traced|].
  intros l. ksolve.
Qed.

Lemma drop_result_traced {A} (m : KS A) : traced ksteps m → traced ksteps (_ ← m; mret ()).
Proof.
  intros H s. apply traced_bind; [apply _|apply H|]. intros a s1. apply traced_ret, _.
Qed.

(** The operations that record one event and nothing else. *)
Ltac ksingle d := unfold d; try unfold _record; exact (record_as_traced _ _ _ _ _ _ _).

Lemma op_traced secret o : traced ksteps (run_op secret o).
Proof.
  destruct o; cbn [run_op].
  - ksingle create_node.
  - ksingle create_port.
  - refine (drop_result_traced _ _); apply propose_edge_traced.
  - refine (drop_result_traced _ _); apply activate_edge_traced.
  - ksingle freeze_edge.
  - refine (drop_result_traced _ _); apply use_edge_traced.
  - refine (drop_result_traced _ _); apply stop_process_traced.
  - refine (drop_result_traced _ _); apply heartbeat_process_traced.
  - exact (advance_time_traced _).
  - ksingle mint_capability.
  - refine (drop_result_traced _ _); apply delegate_traced.
  - refine (drop_result_traced _ _); apply request_union_traced.
  - refine (drop_result_traced _ _); apply check_policy_traced.
  - refine (drop_result_traced _ _); apply use_capability_traced.
  - ksingle revoke_capability.
  - ksingle emit_signal.
  - refine (drop_result_traced _ _); apply select_route_traced.
  - refine (drop_result_traced _ _); apply record_outcome_traced.
  - refine (drop_result_traced _ _); apply score_participant_traced.
  - refine (drop_result_traced _ _); apply select_winner_traced.
  - ksingle propose_rewrite.
  - ksingle approve_rewrite.
  - refine (drop_result_traced _ _); apply apply_rewrite_traced.
  - refine (drop_result_traced _ _); apply start_review_loop_traced.
  - refine (drop_result_traced _ _); apply emit_review_finding_traced.
  - refine (drop_result_traced _ _); apply propose_fix_from_finding_traced.
  - refine (drop_result_traced _ _); apply stop_review_loop_traced.
  - refine (drop_result_traced _ _); apply start_protocol_simulation_traced.
  - refine (drop_result_traced _ _); apply record_protocol_episode_traced.
  - refine (drop_result_traced _ _); apply start_process_traced.
  - exact (recurse_traced _ _ _ _).
  - ksingle freeze_node.
  - exact (add_credential_traced _).
  - refine (drop_result_traced _ _); apply preview_delete_traced.
  - refine (drop_result_traced _ _); apply apply_delete_traced.
Qed.

Lemma ops_traced secret os : traced ksteps (run_ops secret os).
Proof. apply traced_for_each; [apply _|]. apply op_traced. Qed.
