(* ===== verification/KernelLedger.v ===== *)
(** The ledger of the kernel: what the reducer leaves alone, and the numbering
    of the events.

    The handlers of the reducer never touch the ledger; a frozen node stays
    frozen; alerts and violations change by exactly what the event says.  On
    the steps of the operations this gives the numbering invariant [ledger_ok]
    and the monotonicity of the ledger. *)
From S2P Require Import Prelude PyStr PyDict PyFloat PyJson FnMatch Capability Policy KernelState.
From S2P Require Import KernelOps KernelRouting KernelLoops KernelSteps.
Open Scope Z_scope.

(** The events are numbered from 1, their ids derive from their numbers, and
exactly they have been seen. *)
Record ledger_ok (s : GraphSimState) : Prop := {
  lo_seqs : map seq (ledger s) = map Z.of_nat (List.seq 1 (length (ledger s)));
  lo_ids : map event_id (ledger s) = map evt_id (List.seq 1 (length (ledger s)));
  lo_seen : seen_event_ids s = list_to_set (map event_id (ledger s));
}.

(** What no handler changes, and what it only lets grow or shrink. *)
Definition frame (_ : bool) (s s' : GraphSimState) : Prop :=
  ledger s' = ledger s ∧ seen_event_ids s' = seen_event_ids s
  ∧ frozen_nodes s ⊆ frozen_nodes s' ∧ credentials s' ⊆ credentials s.

#[export] Instance frame_rel : TraceRel frame.
Proof.
  split; unfold frame; [intros s; by split_and!|].
  intros _ _ s1 s2 s3 (H1 & H2 & H3 & H4) (K1 & K2 & K3 & K4).
  split_and!; [congruence|congruence|set_solver|set_solver].
Qed.

Lemma stop_targets_frame r ts s : frame true s (foldl (stop_target r) s ts).
Proof.
  revert s. induction ts as [|t ts IH]; intros s; [done|]. cbn [foldl].
  apply (trace_trans true true s (stop_target r s t)); [done|apply IH].
Qed.

Ltac frame_leaf :=
  idtac; lazymatch goal with
  | |- traced_at frame (modify _) _ =>
      apply traced_modify; first [apply stop_targets_frame | by split_and! | split_and!; set_solver]
  end.

Lemma handle_frame k e : traced frame (handle k e).
Proof.
  destruct k; cbn [handle];
    unfold apply_node_created, apply_time_advanced, apply_port_created, apply_edge_proposed,
      apply_edge_created, apply_edge_frozen, apply_edge_used, apply_capability_granted,
      apply_capability_revoked, apply_signal_emitted, apply_route_selected, apply_outcome_recorded,
      apply_score_assigned, apply_winner_selected, apply_rewrite_proposed, apply_rewrite_approved,
      apply_rewrite_applied, apply_policy_checked, apply_process_started, apply_process_heartbeat,
      apply_process_stopped, apply_review_rejected, apply_fix_rejected, apply_review_finding,
      apply_review_stopped, apply_protocol_episode, apply_episode_rejected, apply_protocol_stopped,
      apply_freeze_applied, apply_delete_previewed, apply_delete_applied, violation_of, alert_of,
      charge, spend, pop_process, text_of, int_of, update_edge, update_process, update_rewrite,
      add_signal, add_alert, add_violation;
    solve_traced frame_leaf.
Qed.

(** * Alerts and violations *)

Definition same_flags (_ : bool) (s s' : GraphSimState) : Prop :=
  alerts s' = alerts s ∧ violations s' = violations s.

#[export] Instance same_flags_rel : TraceRel same_flags.
Proof.
  split; unfold same_flags; [done|].
  intros _ _ s1 s2 s3 (H1 & H2) (K1 & K2). split; congruence.
Qed.

Lemma stop_targets_flags r ts s : same_flags true s (foldl (stop_target r) s ts).
Proof.
  revert s. induction ts as [|t ts IH]; intros s; [done|]. cbn [foldl].
  apply (trace_trans true true s (stop_target r s t)); [done|apply IH].
Qed.

(** [add_once] of what there is to add. *)
Definition add_opt (o : option string) (l : list string) : list string :=
  match o with Some a => add_once a l | None => l end.

Ltac flags_leaf :=
  idtac; lazymatch goal with
  | |- traced_at same_flags (modify _) _ =>
      apply traced_modify; first [apply stop_targets_flags | by split]
  end.

Lemma traced_flags {A} (m : KS A) s :
  traced_at same_flags m s → alerts (m s).2 = alerts s ∧ violations (m s).2 = violations s.
Proof. by intros (b & H & _). Qed.

(** An alert from a table, then something that leaves the alerts alone. *)
Lemma alert_then_flags {A} p table (m : KS A) s :
  traced same_flags m →
  alerts ((alert_of p table ≫= λ _, m) s).2 = add_opt (table !! reason_of p) (alerts s)
  ∧ violations ((alert_of p table ≫= λ _, m) s).2 = violations s.
Proof.
  intros Hm. unfold alert_of. destruct (table !! reason_of p) as [a|].
  - apply (traced_flags m (set_alerts (add_once a (alerts s)) s)), Hm.
  - apply (traced_flags m s), Hm.
Qed.

Lemma pop_process_flags p : traced same_flags (pop_process p).
Proof. unfold pop_process, text_of. solve_traced flags_leaf. Qed.

(** The kinds that raise neither an alert nor a violation. *)
Definition quiet (k : kind) : bool :=
  match k with
  | KEdgeRejected | KEdgeUseRejected | KProcessHeartbeatRejected | KProcessStopped | KReviewRejected
  | KReviewFixRejected | KReviewStopped | KProtocolEpisodeRejected | KProtocolStopped => false
  | _ => true
  end.

Lemma quiet_flags k e : quiet k = true → traced same_flags (handle k e).
Proof.
  destruct k; try discriminate; intros _; cbn [handle];
    unfold apply_node_created, apply_time_advanced, apply_port_created, apply_edge_proposed,
      apply_edge_created, apply_edge_frozen, apply_edge_used, apply_capability_granted,
      apply_capability_revoked, apply_signal_emitted, apply_route_selected, apply_outcome_recorded,
      apply_score_assigned, apply_winner_selected, apply_rewrite_proposed, apply_rewrite_approved,
      apply_rewrite_applied, apply_policy_checked, apply_process_started, apply_process_heartbeat,
      apply_review_finding, apply_protocol_episode, apply_freeze_applied, apply_delete_previewed,
      apply_delete_applied, charge, spend, pop_process, text_of, int_of, update_edge,
      update_process, update_rewrite, add_signal;
    solve_traced flags_leaf.
Qed.

(** What a handler does to the alerts and violations, as its kind says. *)
Definition flags_as (k : kind) (p : jobject) (m : KS unit) : Prop := ∀ s,
  alerts (m s).2 = add_opt (alert_of_kind k p) (alerts s)
  ∧ violations (m s).2 = add_opt (violation_of_kind k p) (violations s).

Lemma quiet_flags_as k e : quiet k = true → flags_as k (payload e) (handle k e).
Proof.
  intros Hq s. destruct (traced_flags _ s (quiet_flags k e Hq s)) as [-> ->].
  destruct k; done || discriminate.
Qed.

Lemma violation_flags (v : string) s :
  alerts (add_violation v s).2 = alerts s ∧ violations (add_violation v s).2 = add_once v (violations s).
Proof. by split. Qed.

Lemma rejected_flags k p :
  alert_of_kind k p = None →
  violation_of_kind k p = (if reason_of p =s? "" then None else Some (reason_of p)) →
  flags_as k p (violation_of p).
Proof.
  intros Ha Hv s. rewrite Ha, Hv. unfold violation_of. destruct (reason_of p =s? ""); [by split|].
  apply violation_flags.
Qed.

Lemma process_stopped_flags e : flags_as KProcessStopped (payload e) (apply_process_stopped e).
Proof. intros s. apply alert_then_flags. intros t. apply traced_modify, stop_targets_flags. Qed.

Lemma review_stopped_flags e : flags_as KReviewStopped (payload e) (apply_review_stopped e).
Proof. intros s. apply alert_then_flags, pop_process_flags. Qed.

Lemma protocol_stopped_flags e : flags_as KProtocolStopped (payload e) (apply_protocol_stopped e).
Proof. intros s. apply alert_then_flags, pop_process_flags. Qed.

Lemma review_rejected_flags e : flags_as KReviewRejected (payload e) (apply_review_rejected e).
Proof.
  intros s. cbn [alert_of_kind violation_of_kind]. unfold apply_review_rejected.
  destruct (_ =s? _); [apply violation_flags|by split].
Qed.

Lemma fix_rejected_flags e : flags_as KReviewFixRejected (payload e) (apply_fix_rejected e).
Proof.
  intros s. cbn [alert_of_kind violation_of_kind]. unfold apply_fix_rejected.
  destruct (_ =s? _); [apply violation_flags|by split].
Qed.

Lemma episode_rejected_flags e :
  flags_as KProtocolEpisodeRejected (payload e) (apply_episode_rejected e).
Proof.
  intros s. cbn [alert_of_kind violation_of_kind]. unfold apply_episode_rejected.
  destruct (_ =s? _); [apply violation_flags|by split].
Qed.

Lemma handle_flags k e : flags_as k (payload e) (handle k e).
Proof.
  destruct k; try solve [refine (quiet_flags_as _ e _); reflexivity].
  - exact (rejected_flags KEdgeRejected (payload e) eq_refl eq_refl).
  - exact (rejected_flags KEdgeUseRejected (payload e) eq_refl eq_refl).
  - exact (rejected_flags KProcessHeartbeatRejected (payload e) eq_refl eq_refl).
  - exact (process_stopped_flags e).
  - exact (review_rejected_flags e).
  - exact (fix_rejected_flags e).
  - exact (review_stopped_flags e).
  - exact (episode_rejected_flags e).
  - exact (protocol_stopped_flags e).
Qed.

(** * The numbering *)

Lemma ledger_ok_new t : ledger_ok (new_state t).
Proof. by split. Qed.

#[export] Instance evt_id_inj : Inj (=) (=) evt_id.
Proof. intros x y [= H]. by apply (inj pad4). Qed.

(** Under the numbering, the next event is new. *)
Lemma next_event_fresh s : ledger_ok s → evt_id (next_seq s) ∉ seen_event_ids s.
Proof.
  intros [_ Hi Hs]. rewrite Hs, elem_of_list_to_set, Hi. unfold next_seq.
  rewrite list_elem_of_fmap. intros (n & Hn & Hin).
  apply (inj evt_id) in Hn.
  apply list_elem_of_In, in_seq in Hin. lia.
Qed.

Lemma apply_event_new e s :
  event_id e ∉ seen_event_ids s →
  apply_event e s = handle (kind_of (event_type e)) e (log_event e s).
Proof.
  intros H. unfold apply_event. rewrite ST_get_run, bool_decide_eq_false_2 by done.
  by rewrite ST_modify_run.
Qed.

Lemma apply_event_seen e s : event_id e ∈ seen_event_ids s → apply_event e s = (Ok (), s).
Proof. intros H. unfold apply_event. by rewrite ST_get_run, bool_decide_eq_true_2. Qed.

(** Recording appends one event, numbered next, and then runs its handler. *)
Lemma record_as_unfold ety actor targets body auth pol red s :
  ledger_ok s →
  let e := event_for ety actor targets body auth pol red s in
  record_as ety actor targets body auth pol red s
  = handle (kind_of (event_type e)) e (log_event e s).
Proof.
  intros H e. unfold record_as. rewrite ST_get_run. apply apply_event_new.
  by apply next_event_fresh.
Qed.

Lemma handle_ledger k e s :
  ledger (handle k e s).2 = ledger s ∧ seen_event_ids (handle k e s).2 = seen_event_ids s.
Proof. destruct (handle_frame k e s) as (b & (H1 & H2 & _) & _). done. Qed.

Lemma record_ledger ety actor targets body auth pol red s :
  ledger_ok s →
  let e := event_for ety actor targets body auth pol red s in
  let s' := (record_as ety actor targets body auth pol red s).2 in
  ledger s' = ledger s ++ [e] ∧ ledger_ok s'.
Proof.
  intros H e s'. unfold s'. rewrite record_as_unfold by done. fold e.
  destruct (handle_ledger (kind_of (event_type e)) e (log_event e s)) as [Hl Hseen].
  split; [exact Hl|]. destruct H as [H1 H2 H3].
  split; rewrite ?Hseen, Hl; cbn [log_event ledger set_ledger set_seen_event_ids seen_event_ids];
    rewrite ?length_app, ?map_app, ?seq_app; cbn [length].
  - by rewrite H1, map_app.
  - by rewrite H2, map_app.
  - rewrite H3. cbn. set_solver.
Qed.

Lemma kstep_ledger_ok b s s' : kstep b s s' → ledger_ok s → ledger_ok s'.
Proof.
  intros H Hok. destruct H.
  - by apply record_ledger.
  - apply record_ledger. by destruct Hok.
  - apply record_ledger. by destruct Hok.
  - by destruct Hok.
  - by destruct Hok.
Qed.

Lemma ksteps_ledger_ok b s s' : ksteps b s s' → ledger_ok s → ledger_ok s'.
Proof. induction 1; eauto using kstep_ledger_ok. Qed.

(** What holds of every reachable state, step by step. *)
Section step_induction.
Context (R : GraphSimState → GraphSimState → Prop) `{!PreOrder R}.
Hypothesis Hrec : ∀ ety actor targets body auth pol red s,
  ledger_ok s → R s (record_as ety actor targets body auth pol red s).2.
Hypothesis Halert : ∀ a s, R s (with_alert a s).
Hypothesis Hviol : ∀ v s, R s (with_violation v s).
Hypothesis Hdebit : ∀ cid c n s,
  capabilities s !! cid = Some c → n ≤ budget c →
  R s (set_capabilities (<[cid := debit c n]> (capabilities s)) s).
Hypothesis Hcred : ∀ c s, R s (set_credentials ({[ c ]} ∪ credentials s) s).

Lemma kstep_related b s s' : kstep b s s' → ledger_ok s → R s s'.
Proof.
  intros H Hok. destruct H; [by apply Hrec| | |by apply Hdebit|by apply Hcred].
  - etrans; [apply (Halert a)|]. apply Hrec. by destruct Hok.
  - etrans; [apply (Hviol v)|]. apply Hrec. by destruct Hok.
Qed.

Lemma ksteps_related b s s' : ksteps b s s' → ledger_ok s → R s s'.
Proof.
  induction 1 as [s|b c s1 s2 s3 Hs _ IH]; intros Hok; [done|].
  etrans; [by eapply kstep_related|]. apply IH. by eapply kstep_ledger_ok.
Qed.

Lemma traced_related {A} (m : KS A) s : traced ksteps m → ledger_ok s → R s (m s).2.
Proof. intros Hm Hok. destruct (Hm s) as (b & Hb & _). by eapply ksteps_related. Qed.
End step_induction.

(** The ledger only grows, and a frozen node stays frozen. *)
Definition grows (s s' : GraphSimState) : Prop :=
  ledger s `prefix_of` ledger s' ∧ frozen_nodes s ⊆ frozen_nodes s'.

#[export] Instance grows_preorder : PreOrder grows.
Proof.
  split; [by intros s|]. intros s1 s2 s3 [H1 H2] [K1 K2]. split; [by etrans|set_solver].
Qed.

Lemma traced_grows {A} (m : KS A) s :
  traced ksteps m → ledger_ok s → grows s (m s).2.
Proof.
  intros Hm. apply (traced_related grows); try done.
  intros ety actor targets body auth pol red t Ht.
  split; [by destruct (record_ledger ety actor targets body auth pol red t Ht) as [-> _]; eexists|].
  rewrite record_as_unfold by done. set (e := event_for _ _ _ _ _ _ _ t).
  by destruct (handle_frame (kind_of (event_type e)) e (log_event e t)) as (b & (_ & _ & H & _) & _).
Qed.
