(* ===== verification/KernelReplay.v ===== *)
(** Replaying the ledger.

    [core] is the part of the state the ledger determines: everything but the
    budgets of the capabilities, the credentials, and the lists of alerts and
    violations.  The reducer respects it, and every step of an operation is
    reproduced, up to [core], by the events it recorded.  Alerts and violations
    come out in their order, each one once. *)
From S2P Require Import Prelude PyStr PyDict PyFloat PyJson FnMatch Capability Policy KernelState.
From S2P Require Import KernelOps KernelRouting KernelLoops KernelSteps KernelLedger.
Open Scope Z_scope.

Definition erase (c : Capability) : Capability := {|
  actions := actions c; resources := resources c; deny := deny c; expires_at := expires_at c;
  budget := 0; delegation_depth := delegation_depth c; revoked := revoked c |}.

Definition core (s : GraphSimState) : GraphSimState :=
  set_violations [] (set_alerts [] (set_credentials ∅
    (set_capabilities (dict_map erase (capabilities s)) s))).

(** A list without its repetitions: the first occurrences, in order. *)
Definition first_seen (l : list string) : list string := foldl (flip add_once) [] l.

(** The state [r] a replay reaches, against the live state [s]. *)
Record replays (r s : GraphSimState) : Prop := {
  rp_core : core r = core s;
  rp_alerts : alerts r = first_seen (alerts s);
  rp_violations : violations r = first_seen (violations s);
}.

(** * The reducer respects the core *)

Lemma erase_revoke_in caps c : dict_map erase (revoke_in caps c) = revoke_in (dict_map erase caps) c.
Proof.
  unfold revoke_in. rewrite dict_map_lookup. destruct (caps !! c); cbn [fmap option_fmap option_map]; [|done].
  by rewrite dict_map_insert.
Qed.

Lemma erase_revoke_all caps cs :
  dict_map erase (foldl revoke_in caps cs) = foldl revoke_in (dict_map erase caps) cs.
Proof.
  revert caps. induction cs as [|c cs IH]; intros caps; [done|]. cbn [foldl].
  by rewrite IH, erase_revoke_in.
Qed.

Lemma erase_revoke_owned n owners caps :
  dict_map erase (revoke_owned n owners caps) = revoke_owned n owners (dict_map erase caps).
Proof.
  unfold revoke_owned. revert caps. induction owners as [|[c o] os IH]; intros caps; [done|].
  cbn [foldl fst snd]. rewrite IH. by destruct (o =s? n); rewrite ?erase_revoke_in.
Qed.

(** [core s = core s' → core (f s) = core (f s')] for an update [f] that reads what
the core keeps. *)
Ltac core_update :=
  lazymatch goal with |- core ?s = core ?s' → _ =>
    let Hc := fresh in
    destruct s, s'; unfold core, log_event, stop_target, edge_row; intros Hc; state_simpl;
    simplify_eq Hc; intros; subst;
    rewrite ?dict_map_insert, ?erase_revoke_all, ?erase_revoke_in, ?erase_revoke_owned;
    f_equal; congruence
  end.

Lemma core_log_event e s s' : core s = core s' → core (log_event e s) = core (log_event e s').
Proof. core_update. Qed.

(** Two runs from states with the same core: the same outcome, the same core. *)
Definition resp {A} (m m' : KS A) (s s' : GraphSimState) : Prop :=
  (m s).1 = (m' s').1 ∧ core (m s).2 = core (m' s').2.

Definition respects {A} (m : KS A) : Prop := ∀ s s', core s = core s' → resp m m s s'.

Lemma resp_bind {A B} (m m' : KS A) (f f' : A → KS B) s s' :
  resp m m' s s' → (∀ a t t', core t = core t' → resp (f a) (f' a) t t') →
  resp (m ≫= f) (m' ≫= f') s s'.
Proof.
  intros [H1 H2] Hf. unfold resp, mbind, ST_bind in *.
  destruct (m s) as [[a|e] t], (m' s') as [[a'|e'] t']; cbn [fst snd] in *; try discriminate H1;
    injection H1 as ->; [by apply Hf|by split].
Qed.

Lemma resp_ret {A} (a : A) s s' : core s = core s' → resp (mret a) (mret a) s s'.
Proof. by intros H. Qed.

Lemma resp_lift {A} (m : res A) s s' : core s = core s' → resp (lift m) (lift m) s s'.
Proof. by intros H. Qed.

Lemma resp_modify f f' s s' : core (f s) = core (f' s') → resp (modify f) (modify f') s s'.
Proof. by intros H. Qed.

Lemma resp_get {A} (f f' : GraphSimState → KS A) s s' :
  resp (f s) (f' s') s s' → resp (get_st ≫= f) (get_st ≫= f') s s'.
Proof. done. Qed.

Lemma core_processes s s' : core s = core s' → processes s = processes s'.
Proof. intros H. by apply (f_equal processes) in H. Qed.

Lemma core_stop_target r s s' t : core s = core s' → core (stop_target r s t) = core (stop_target r s' t).
Proof. core_update. Qed.

Lemma core_stop_targets r ts s s' :
  core s = core s' → core (foldl (stop_target r) s ts) = core (foldl (stop_target r) s' ts).
Proof.
  revert s s'. induction ts as [|t ts IH]; intros s s' H; [done|]. cbn [foldl].
  by apply IH, core_stop_target.
Qed.

Ltac resp_step :=
  lazymatch goal with
  | |- respects _ => intros ? ? ?
  | |- resp (get_st ≫= _) (get_st ≫= _) ?s ?s' =>
      apply resp_get; cbv beta; rewrite ?(core_processes s s') by assumption
  | |- resp (_ ≫= _) (_ ≫= _) _ _ => apply resp_bind; [|intros ? ? ? ?]
  | |- resp (mret _) _ _ _ => by apply resp_ret
  | |- resp (lift _) _ _ _ => by apply resp_lift
  | |- resp (modify _) _ _ _ => apply resp_modify; first
      [ by apply core_stop_targets
      | match goal with H : core _ = core _ |- _ => revert H; core_update end ]
  | |- resp (let _ := _ in _) _ _ _ => cbv zeta
  | |- resp (if ?b then _ else _) _ _ _ => destruct b
  | |- resp (match ?x with _ => _ end) _ _ _ => destruct x
  end.
Ltac solve_resp := repeat first [progress cbv zeta | resp_step].

Lemma handle_respects k e : respects (handle k e).
Proof.
  destruct k; cbn [handle];
    unfold apply_node_created, apply_time_advanced, apply_port_created, apply_edge_proposed,
      apply_edge_created, apply_edge_frozen, apply_edge_used, apply_capability_granted,
      apply_capability_revoked, apply_signal_emitted, apply_route_selected, apply_outcome_recorded,
      apply_score_assigned, apply_winner_selected, apply_rewrite_proposed, apply_rewrite_approved,
      apply_rewrite_applied, apply_policy_checked, apply_process_started, apply_process_heartbeat,
      apply_process_stopped, apply_review_rejected, apply_fix_rejected, apply_review_finding,
      apply_review_stopped, apply_protocol_episode, apply_episode_rejected, apply_protocol_stopped,
      apply_freeze_applied, apply_delete_previewed, apply_delete_applied, violation_of, alert_of,
      charge, spend, pop_process, text_of, int_of, update_edge, update_process, update_rewrite,
      add_signal, add_alert, add_violation, edge_row;
    solve_resp.
Qed.

Lemma core_seen s s' : core s = core s' → seen_event_ids s = seen_event_ids s'.
Proof. intros H. by apply (f_equal seen_event_ids) in H. Qed.

(** * Alerts and violations without repetitions *)

Lemma first_seen_snoc l x : first_seen (l ++ [x]) = add_once x (first_seen l).
Proof. unfold first_seen. by rewrite foldl_app. Qed.

Lemma elem_of_first_seen x l : x ∈ first_seen l ↔ x ∈ l.
Proof.
  induction l as [|y l IH] using rev_ind; [done|].
  rewrite first_seen_snoc, elem_of_add_once, IH, elem_of_app, list_elem_of_singleton. tauto.
Qed.

Lemma add_once_in x l : x ∈ l → add_once x l = l.
Proof. intros H. unfold add_once. by rewrite (proj2 (str_in_elem x l) H). Qed.

Lemma add_once_notin x l : x ∉ l → add_once x l = l ++ [x].
Proof. intros H. unfold add_once. by rewrite (proj2 (str_in_false x l) H). Qed.

Lemma first_seen_add_once x l : first_seen (add_once x l) = add_once x (first_seen l).
Proof.
  destruct (decide (x ∈ l)) as [H|H]; [|by rewrite add_once_notin, first_seen_snoc by done].
  rewrite !add_once_in; [done| |done]. by rewrite elem_of_first_seen.
Qed.

Lemma first_seen_add_opt o l : first_seen (add_opt o l) = add_opt o (first_seen l).
Proof. destruct o as [a|]; [apply first_seen_add_once|done]. Qed.

Lemma add_opt_appended a l : first_seen (add_opt (Some a) (l ++ [a])) = add_opt (Some a) (first_seen l).
Proof. cbn. rewrite (add_once_in a (l ++ [a])) by set_solver. apply first_seen_snoc. Qed.

Lemma NoDup_first_seen l : NoDup (first_seen l).
Proof.
  induction l as [|y l IH] using rev_ind; [constructor|]. rewrite first_seen_snoc.
  destruct (decide (y ∈ first_seen l)) as [H|H]; [by rewrite add_once_in|].
  rewrite add_once_notin by done. apply NoDup_app. split_and!; [done| |apply NoDup_singleton].
  intros x Hx ->%list_elem_of_singleton. done.
Qed.

Lemma first_seen_id l : first_seen l = l ↔ NoDup l.
Proof.
  split; [intros <-; apply NoDup_first_seen|].
  induction l as [|y l IH] using rev_ind; [done|]. intros (Hl & Hy & _)%NoDup_app.
  rewrite first_seen_snoc, IH by done. apply add_once_notin. intros H. by apply (Hy y H), list_elem_of_singleton.
Qed.

(** * One event *)

Section replay_event.
Context (ety actor : string) (targets : list string) (body : jobject) (auth pol : json) (red : string).

Lemma replay_record r s :
    ledger_ok s → core r = core s →
  add_opt (alert_from ety body) (alerts r) = first_seen (add_opt (alert_from ety body) (alerts s)) →
  add_opt (violation_from ety body) (violations r)
  = first_seen (add_opt (violation_from ety body) (violations s)) →
    let live := record_as ety actor targets body auth pol red s in
    let again := apply_event (event_for ety actor targets body auth pol red s) r in
    again.1 = live.1 ∧ replays again.2 live.2.
Proof.
  intros Hok Hc Ha Hv live again. unfold live, again.
  rewrite record_as_unfold by done. set (e := event_for _ _ _ _ _ _ _ s).
  assert (event_id e ∉ seen_event_ids r) as Hn.
  { rewrite (core_seen _ _ Hc). by apply next_event_fresh. }
  rewrite apply_event_new by done.
  destruct (handle_respects (kind_of (event_type e)) e (log_event e r) (log_event e s)
    (core_log_event e r s Hc)) as [H1 H2].
  destruct (handle_flags (kind_of (event_type e)) e (log_event e r)) as [Ar Vr].
  destruct (handle_flags (kind_of (event_type e)) e (log_event e s)) as [As Vs].
  split; [exact H1|]. split; [exact H2|by rewrite Ar, As|by rewrite Vr, Vs].
Qed.
End replay_event.

(** [again evs r s]: the events [evs], applied to any state that replays [s],
lead without an exception to one that replays [s']. *)
Definition reproduces (evs : list SimEvent) (s s' : GraphSimState) : Prop :=
  ∀ r, replays r s → ∃ r', for_each evs apply_event r = (Ok (), r') ∧ replays r' s'.

Lemma reproduces_one e s s' :
  (∀ r, replays r s → (apply_event e r).1 = Ok () ∧ replays (apply_event e r).2 s') →
  reproduces [e] s s'.
Proof.
  intros H r Hr. destruct (H r Hr) as [H1 H2]. cbn [for_each].
  destruct (apply_event e r) as [o r'] eqn:E. cbn [fst snd] in *. subst o.
  exists r'. split; [|done]. unfold mbind, ST_bind. by rewrite E.
Qed.

Lemma for_each_app {S A} (l k : list A) (body : A → ST S unit) s s1 :
  for_each l body s = (Ok (), s1) → for_each (l ++ k) body s = for_each k body s1.
Proof.
  revert s. induction l as [|x l IH]; intros s; cbn [for_each app]; [by intros [= ->]|].
  intros H. apply ST_bind_ok in H as (u & s2 & H1 & H2). unfold mbind, ST_bind.
  rewrite H1. by apply IH.
Qed.

Lemma is_ok_unit (m : res unit) : is_ok m = true → m = Ok ().
Proof. by destruct m as [[]|]. Qed.

Lemma kstep_reproduced b s s' :
  kstep b s s' → b = true → ledger_ok s →
  ∃ evs, ledger s' = ledger s ++ evs ∧ reproduces evs s s'.
Proof.
  intros H. destruct H as [ety actor targets body auth pol red s
    |a ety actor targets body auth pol red s Ha|v ety actor targets body auth pol red s Hv
    |cid c n s Hc _|c s]; intros Hb Hok.
  - eexists [_]. split; [by apply record_ledger|]. apply reproduces_one. intros r [Hc Ha Hv].
    apply is_ok_unit in Hb. rewrite <-Hb.
    by apply replay_record; rewrite ?first_seen_add_opt, ?Ha, ?Hv.
  - assert (ledger_ok (with_alert a s)) as Hok' by (by destruct Hok).
    eexists [_]. split; [apply (record_ledger _ _ _ _ _ _ _ (with_alert a s) Hok')|]. apply reproduces_one. intros r [Hc Hal Hv].
    apply is_ok_unit in Hb. rewrite <-Hb.
    apply (replay_record _ _ _ _ _ _ _ r (with_alert a s)); [done|done| |].
    + rewrite Ha. cbn [alerts with_alert set_alerts]. by rewrite add_opt_appended, Hal.
    + by rewrite first_seen_add_opt, Hv.
  - assert (ledger_ok (with_violation v s)) as Hok' by (by destruct Hok).
    eexists [_]. split; [apply (record_ledger _ _ _ _ _ _ _ (with_violation v s) Hok')|]. apply reproduces_one. intros r [Hc Hal Hvl].
    apply is_ok_unit in Hb. rewrite <-Hb.
    apply (replay_record _ _ _ _ _ _ _ r (with_violation v s)); [done|done| |].
    + by rewrite first_seen_add_opt, Hal.
    + rewrite Hv. cbn [violations with_violation set_violations]. by rewrite add_opt_appended, Hvl.
  - exists []. split; [by rewrite app_nil_r|]. intros r [Hr Ha Hv]. exists r. split; [done|].
    split; [|done..]. rewrite Hr. unfold core. cbn [capabilities set_capabilities].
    rewrite dict_map_insert. change (erase (debit c n)) with (erase c).
    by rewrite dict_insert_id by (by rewrite dict_map_lookup, Hc).
  - exists []. split; [by rewrite app_nil_r|]. intros r [Hr Ha Hv]. exists r. by split.
Qed.

Lemma ksteps_reproduced b s s' :
  ksteps b s s' → b = true → ledger_ok s →
  ∃ evs, ledger s' = ledger s ++ evs ∧ reproduces evs s s'.
Proof.
  induction 1 as [s|b c s1 s2 s3 Hs Hrest IH]; intros Hb Hok.
  - exists []. split; [by rewrite app_nil_r|]. intros r Hr. by exists r.
  - apply andb_true_iff in Hb as [-> ->].
    destruct (kstep_reproduced _ _ _ Hs eq_refl Hok) as (evs1 & Hl1 & H1).
    assert (ledger_ok s2) as Hok2 by (by eapply kstep_ledger_ok).
    destruct (IH eq_refl Hok2) as (evs2 & Hl2 & H2).
    exists (evs1 ++ evs2). split; [by rewrite Hl2, Hl1, app_assoc|].
    intros r Hr. destruct (H1 r Hr) as (r1 & Hf1 & Hr1). destruct (H2 r1 Hr1) as (r2 & Hf2 & Hr2).
    exists r2. split; [|done]. by rewrite (for_each_app _ _ _ _ _ Hf1).
Qed.

(** * The whole ledger *)

Lemma numbered_sorted (l : list SimEvent) :
  map seq l = map Z.of_nat (List.seq 1 (length l)) → StronglySorted seq_le l.
Proof.
  generalize 1%nat as k. induction l as [|e l IH]; intros k; [constructor|].
  cbn. intros [= He Hl]. constructor; [by eapply IH|].
  apply Forall_forall. intros f Hf. unfold seq_le. rewrite He.
  assert (seq f ∈ map seq l) as Hin by (by apply list_elem_of_fmap_2).
  rewrite Hl in Hin. apply list_elem_of_fmap in Hin as (n & -> & Hn).
  apply list_elem_of_In, in_seq in Hn. lia.
Qed.

Lemma numbered_nodup (l : list SimEvent) :
  map seq l = map Z.of_nat (List.seq 1 (length l)) →
  ∀ e f, e ∈ l → f ∈ l → seq e = seq f → e = f.
Proof.
  intros H e f (i & Hi)%list_elem_of_lookup (j & Hj)%list_elem_of_lookup Hef.
  assert (∀ n g, l !! n = Some g → seq g = Z.of_nat (S n)) as Hseq.
  { intros n g Hn. assert (map seq l !! n = Some (seq g)) as Hm by (by rewrite list_lookup_fmap, Hn).
    rewrite H, list_lookup_fmap in Hm. apply fmap_Some in Hm as (m & Hm & ->).
    apply lookup_seq in Hm as [-> _]. lia. }
  rewrite (Hseq _ _ Hi), (Hseq _ _ Hj) in Hef. assert (i = j) as -> by lia. congruence.
Qed.

#[export] Instance seq_le_total : Total seq_le.
Proof. intros e f. unfold seq_le. lia. Qed.
#[export] Instance seq_le_trans : Transitive seq_le.
Proof. intros e f g. unfold seq_le. lia. Qed.

(** Sorting a numbered ledger by [seq] changes nothing. *)
Lemma numbered_merge_sort (l : list SimEvent) :
  map seq l = map Z.of_nat (List.seq 1 (length l)) → merge_sort seq_le l = l.
Proof.
  intros H. apply (StronglySorted_unique_strong seq_le).
  - intros e f He Hf H1 H2. apply (numbered_nodup l H); [|done|unfold seq_le in *; lia].
    by rewrite <-(merge_sort_Permutation seq_le).
  - apply (StronglySorted_merge_sort seq_le _).
  - by apply numbered_sorted.
  - apply merge_sort_Permutation.
Qed.

(** The events a load gives back unchanged from their dump. *)
Definition loadable (e : SimEvent) : Prop := actor_node_id e ≠ "" ∧ redaction_class e ≠ "".

Lemma event_load_dump e : loadable e → event_load (event_dump e) = Ok e.
Proof.
  intros [Ha Hr]. unfold event_load.
  change (jget (event_dump e) "actor_node_id") with (JStr (actor_node_id e)).
  change (jget (event_dump e) "redaction_class") with (JStr (redaction_class e)).
  rewrite (py_or_text _ _ Ha), (py_or_text _ _ Hr).
  change (jget_or (event_dump e) "target_refs" (JList [])) with (jstrs (target_refs e)).
  cbn -[py_str_list]. rewrite py_str_list_jstrs. cbn. destruct e as [i q c t a tr au po [|? ?] rd]; done.
Qed.

Lemma load_items_dump l :
  Forall loadable l → res_map load_item (map (inr ∘ event_dump) l) = Ok l.
Proof.
  induction 1 as [|e l He _ IH]; [done|]. cbn [map res_map load_item compose].
  rewrite event_load_dump by done. cbn [mbind res_bind]. by rewrite IH.
Qed.

Lemma load_items_events l : res_map load_item (map inl l) = Ok l.
Proof. induction l as [|e l IH]; [done|]. cbn [map res_map load_item mbind res_bind]. by rewrite IH. Qed.

(** What a list of items that load to the ledger is replayed to. *)
Lemma replay_ledger items s :
  ksteps true (new_state 0) s → res_map load_item items = Ok (ledger s) →
  ∃ r, replay items = Ok r ∧ replays r s.
Proof.
  intros Hs Hl. destruct (ksteps_reproduced _ _ _ Hs eq_refl (ledger_ok_new 0)) as (evs & Hev & Hrep).
  destruct (Hrep (new_state 0)) as (r & Hr & Hrs); [by split|]. exists r. split; [|done].
  assert (ledger_ok s) as Hok by (by eapply ksteps_ledger_ok, ledger_ok_new).
  unfold replay. rewrite Hl. cbn [mbind res_bind].
  rewrite numbered_merge_sort by apply Hok. cbn in Hev. by rewrite Hev, Hr.
Qed.

Lemma run_ops_ksteps secret os t s :
  run_ops secret os (new_state t) = (Ok (), s) → ksteps true (new_state t) s.
Proof.
  intros H. destruct (ops_traced secret os (new_state t)) as (b & Hb & Hok).
  rewrite H in Hb, Hok. by rewrite (Hok eq_refl) in Hb.
Qed.
