(* ===== verification/KernelBudget.v ===== *)
(** Budgets in a replay.

    The ledger gives a capability the budget of its last grant, since paying
    from it is recorded by an event the reducer has no branch for.  So a replay
    shows the same summary exactly when every capability still has the budget it
    was granted and no alert or violation is listed twice. *)
From S2P Require Import Prelude PyStr PyDict PyFloat PyJson FnMatch Capability Policy KernelState.
From S2P Require Import KernelOps KernelRouting KernelLoops KernelSteps KernelLedger.
From S2P Require Import KernelReplay.
Open Scope Z_scope.

(** The capability in the payload of a grant. *)
Definition granted_cap (e : SimEvent) : res Capability :=
  (jitem (payload e) "capability" ≫= py_dict) ≫= cap_load.

(** The capability an event grants, by its id. *)
Definition grant_of (e : SimEvent) : option (string * Capability) :=
  if bool_decide (kind_of (event_type e) = KCapabilityGranted) then
    match jitem (payload e) "cap_id", granted_cap e with
    | Ok c, Ok cap => Some (py_str c, cap)
    | _, _ => None
    end
  else None.

(** The budget of the last grant of a capability. *)
Definition note_grant (cid : string) (acc : option Z) (e : SimEvent) : option Z :=
  match grant_of e with
  | Some (c, cap) => if c =s? cid then Some (budget cap) else acc
  | None => acc
  end.

Definition granted_budget (cid : string) (l : list SimEvent) : option Z := foldl (note_grant cid) None l.

Lemma granted_budget_snoc cid l e : granted_budget cid (l ++ [e]) = note_grant cid (granted_budget cid l) e.
Proof. unfold granted_budget. by rewrite foldl_app. Qed.

(** * What the handlers do to the budgets *)

(** Every capability of the second dict has the budget it had in the first, and
the keys of a dict stay distinct. *)
Definition budgets_from (_ : bool) (s s' : GraphSimState) : Prop :=
  (dict_wf (capabilities s) → dict_wf (capabilities s'))
  ∧ ∀ cid cap', capabilities s' !! cid = Some cap' →
      ∃ cap, capabilities s !! cid = Some cap ∧ budget cap = budget cap'.

#[export] Instance budgets_from_rel : TraceRel budgets_from.
Proof.
  split; unfold budgets_from; [eauto|]. intros _ _ s1 s2 s3 [W1 H1] [W2 H2]. split; [tauto|].
  intros cid c3 H3. destruct (H2 _ _ H3) as (c2 & Hc2 & E2). destruct (H1 _ _ Hc2) as (c1 & Hc1 & E1).
  exists c1. split; [done|congruence].
Qed.

(** Revoking in a list of capabilities keeps keys and budgets. *)
Definition caps_from (caps caps' : dict Capability) : Prop :=
  (dict_wf caps → dict_wf caps')
  ∧ ∀ cid cap', caps' !! cid = Some cap' → ∃ cap, caps !! cid = Some cap ∧ budget cap = budget cap'.

#[export] Instance caps_from_preorder : PreOrder caps_from.
Proof.
  split; [intros c; split; eauto|]. intros s1 s2 s3 [W1 H1] [W2 H2]. split; [tauto|].
  intros cid c3 H3. destruct (H2 _ _ H3) as (c2 & Hc2 & E2). destruct (H1 _ _ Hc2) as (c1 & Hc1 & E1).
  exists c1. split; [done|congruence].
Qed.

Lemma revoke_in_caps caps c : caps_from caps (revoke_in caps c).
Proof.
  unfold revoke_in. destruct (caps !! c) as [x|] eqn:E; [|done]. split; [apply dict_wf_insert|].
  intros cid cap'. rewrite dict_lookup_insert_case. destruct (decide _) as [->|]; [|eauto].
  intros [= <-]. by exists x.
Qed.

Lemma revoke_all_caps cs caps : caps_from caps (foldl revoke_in caps cs).
Proof.
  revert caps. induction cs as [|c cs IH]; intros caps; [done|]. cbn [foldl].
  etrans; [apply (revoke_in_caps _ c)|apply IH].
Qed.

Lemma revoke_owned_caps n owners caps : caps_from caps (revoke_owned n owners caps).
Proof.
  unfold revoke_owned. revert caps. induction owners as [|[c o] os IH]; intros caps; [done|].
  cbn [foldl fst snd]. etrans; [|apply IH]. by destruct (o =s? n); [apply revoke_in_caps|].
Qed.

Lemma stop_targets_caps r ts s : capabilities (foldl (stop_target r) s ts) = capabilities s.
Proof. revert s. induction ts as [|t ts IH]; intros s; [done|]. cbn [foldl]. by rewrite IH. Qed.

Ltac budgets_leaf :=
  idtac; lazymatch goal with
  | |- traced_at budgets_from (modify _) _ =>
      apply traced_modify; first
        [ by apply (caps_from_preorder)
        | exact (revoke_owned_caps _ _ _)
        | refine (transitivity (revoke_in_caps _ _) (revoke_all_caps _ _))
        | unfold budgets_from; rewrite stop_targets_caps; by eauto ]
  end.

Lemma handle_budgets k e : k ≠ KCapabilityGranted → traced budgets_from (handle k e).
Proof.
  destruct k; try done; intros _; cbn [handle];
    unfold apply_node_created, apply_time_advanced, apply_port_created, apply_edge_proposed,
      apply_edge_created, apply_edge_frozen, apply_edge_used,
      apply_capability_revoked, apply_signal_emitted, apply_route_selected, apply_outcome_recorded,
      apply_score_assigned, apply_winner_selected, apply_rewrite_proposed, apply_rewrite_approved,
      apply_rewrite_applied, apply_policy_checked, apply_process_started, apply_process_heartbeat,
      apply_process_stopped, apply_review_rejected, apply_fix_rejected, apply_review_finding,
      apply_review_stopped, apply_protocol_episode, apply_episode_rejected, apply_protocol_stopped,
      apply_freeze_applied, apply_delete_previewed, apply_delete_applied, violation_of, alert_of,
      charge, spend, pop_process, text_of, int_of, update_edge, update_process, update_rewrite,
      add_signal, add_alert, add_violation;
    solve_traced budgets_leaf.
Qed.

(** A grant sets the capability it names, when it can be read. *)
Lemma grant_caps e s : capabilities (apply_capability_granted e s).2 =
  match jitem (payload e) "cap_id", granted_cap e with
  | Ok c, Ok cap => <[py_str c := cap]> (capabilities s)
  | _, _ => capabilities s
  end.
Proof.
  unfold apply_capability_granted, text_of.
  destruct (jitem (payload e) "cap_id") as [c|x]; [|done].
  fold (granted_cap e). generalize (granted_cap e) as m. intros m.
  unfold mbind, ST_bind, lift, mret, ST_ret, modify. cbn. destruct m as [cap|x]; [|done]. cbn.
  destruct (jitem (payload e) "owner") as [o|x]; [|done]. cbn. by destruct (truthy _).
Qed.

(** * The invariant of a replay *)

(** Every capability has the budget the ledger says it was granted. *)
Record budgets_granted (s : GraphSimState) : Prop := {
  bg_wf : dict_wf (capabilities s);
  bg_budget cid cap : capabilities s !! cid = Some cap → granted_budget cid (ledger s) = Some (budget cap);
}.

Lemma apply_event_granted e s : budgets_granted s → budgets_granted (apply_event e s).2.
Proof.
  intros [Hwf Hb]. destruct (decide (event_id e ∈ seen_event_ids s)) as [Hin|Hin].
  { rewrite apply_event_seen by done. by split. }
  rewrite apply_event_new by done. set (s1 := log_event e s).
  destruct (handle_ledger (kind_of (event_type e)) e s1) as [Hl _].
  assert (ledger s1 = ledger s ++ [e]) as Hl1 by done. assert (capabilities s1 = capabilities s) as Hc1 by done.
  destruct (decide (kind_of (event_type e) = KCapabilityGranted)) as [Hk|Hk].
  - assert (∀ cid, note_grant cid (granted_budget cid (ledger s)) e = match
        match jitem (payload e) "cap_id", granted_cap e with
        | Ok c, Ok cap => Some (py_str c, cap) | _, _ => None end
      with Some (c, cap) => if c =s? cid then Some (budget cap) else granted_budget cid (ledger s)
      | None => granted_budget cid (ledger s) end) as Hn.
    { intros cid. unfold note_grant, grant_of. by rewrite bool_decide_eq_true_2. }
    split; rewrite ?Hk in *; cbn [handle] in *; rewrite grant_caps, Hc1.
    + repeat case_match; try done. by apply dict_wf_insert.
    + intros cid cap. rewrite Hl, Hl1, granted_budget_snoc, Hn.
      destruct (jitem (payload e) "cap_id") as [c|], (granted_cap e) as [cp|]; eauto.
      rewrite dict_lookup_insert_case.
      destruct (String.eqb_spec (py_str c) cid), (decide _); try congruence; eauto.
  - destruct (handle_budgets _ e Hk s1) as (b & [Hw Hf] & _). split; [by apply Hw|].
    intros cid cap Hcap. destruct (Hf _ _ Hcap) as (cap0 & Hcap0 & <-).
    rewrite Hl, Hl1, granted_budget_snoc. unfold note_grant, grant_of. rewrite bool_decide_eq_false_2 by done.
    by apply Hb.
Qed.

Lemma for_each_granted evs s s' : for_each evs apply_event s = (Ok (), s') → budgets_granted s → budgets_granted s'.
Proof.
  revert s. induction evs as [|e evs IH]; intros s; cbn [for_each]; [by intros [= ->]|].
  intros (u & s1 & H1 & H2)%ST_bind_ok Hs. apply (IH s1); [done|].
  replace s1 with (apply_event e s).2 by by rewrite H1. by apply apply_event_granted.
Qed.

Lemma replay_granted items r : replay items = Ok r → budgets_granted r.
Proof.
  unfold replay. intros (l & _ & H)%res_bind_ok.
  destruct (for_each _ apply_event (new_state 0)) as [[[]|] r'] eqn:E; [|done]. injection H as ->.
  eapply for_each_granted; [exact E|]. split; [constructor|done].
Qed.

(** * Equal summaries *)

Lemma erase_budget_eq (c d : Capability) : erase c = erase d → budget c = budget d → c = d.
Proof. destruct c, d. unfold erase. cbn. intros H ?. simplify_eq H. intros; by subst. Qed.

(** Two dicts with the same erasure and the same budgets are the same. *)
Lemma erased_eq (c d : dict Capability) : dict_wf c →
  dict_map erase c = dict_map erase d →
  (∀ k x y, c !! k = Some x → d !! k = Some y → budget x = budget y) → c = d.
Proof.
  revert d. induction c as [|[k x] c IH]; intros [|[k' y] d] Hwf; try done.
  cbn. intros [= <- Ha Hb Hc He Hf Hg Hrest] Hbud. apply NoDup_cons in Hwf as [Hk Hwf].
  assert (x = y) as ->.
  { apply erase_budget_eq; [by unfold erase; f_equal|].
    apply (Hbud k); rewrite dict_lookup_cons; by rewrite String.eqb_refl. }
  f_equal. apply IH; [done|done|]. intros j u v Hu Hv.
  assert (j ≠ k) as Hj by (intros ->; apply Hk, dict_lookup_keys; by eexists).
  apply (Hbud j); rewrite dict_lookup_cons; by destruct (String.eqb_spec j k).
Qed.

Lemma cap_dump_inj c d : cap_dump c = cap_dump d → c = d.
Proof.
  intros H. apply (f_equal cap_load) in H. rewrite !cap_load_dump in H. by injection H.
Qed.

Lemma JObj_inj d e : JObj d = JObj e → d = e.
Proof. congruence. Qed.

Lemma dict_map_inj {V W} (f : V → W) (c d : dict V) :
  (∀ x y, f x = f y → x = y) → dict_map f c = dict_map f d → c = d.
Proof.
  intros Hf. revert d. induction c as [|[k x] c IH]; intros [|[k' y] d]; try done.
  cbn. intros [= -> Hx%Hf Hr]. by rewrite Hx, (IH d Hr).
Qed.

(** Dicts with the same sorted items hold the same items. *)
Lemma sorted_items_eq {V} (c d : dict V) : sorted_items c = sorted_items d → ∀ p, p ∈ c ↔ p ∈ d.
Proof.
  intros H p. rewrite <-(merge_sort_Permutation item_le c), <-(merge_sort_Permutation item_le d).
  unfold sorted_items in H. by rewrite H.
Qed.

(** * Exactness of a replay *)

(** What the ledger does not determine: a budget that was paid from, an alert or a violation
that came twice. *)
Definition unspent (s : GraphSimState) : Prop :=
  ∀ cid cap, capabilities s !! cid = Some cap → granted_budget cid (ledger s) = Some (budget cap).

Definition reproducible (s : GraphSimState) : Prop := unspent s ∧ NoDup (alerts s) ∧ NoDup (violations s).

Lemma core_erase r s : core r = core s → dict_map erase (capabilities r) = dict_map erase (capabilities s).
Proof. intros H. by apply (f_equal capabilities) in H. Qed.

Lemma core_caps_wf r s : core r = core s → dict_wf (capabilities r) → dict_wf (capabilities s).
Proof.
  intros H%core_erase. unfold dict_wf. by rewrite <-(keys_dict_map erase (capabilities r)), H, keys_dict_map.
Qed.

Lemma replays_unspent r s : replays r s → budgets_granted r → capabilities r = capabilities s ↔ unspent s.
Proof.
  intros [Hc _ _] [Hwf Hb]. assert (ledger r = ledger s) as Hl by by apply (f_equal ledger) in Hc.
  unfold unspent. rewrite <-Hl. split; [by intros <-|]. intros Hu.
  apply erased_eq; [done|by apply core_erase|]. intros k x y Hx Hy.
  apply Hb in Hx. apply Hu in Hy. congruence.
Qed.

Lemma core_summary r s : core r = core s → capabilities r = capabilities s → alerts r = alerts s →
  violations r = violations s → summary r = summary s.
Proof.
  destruct r, s. unfold core. intros H. state_simpl. simplify_eq H. intros. subst.
  cbn in *. by subst.
Qed.

Lemma summary_caps r s : replays r s → dict_wf (capabilities r) →
  summary r = summary s → capabilities r = capabilities s.
Proof.
  intros [Hc _ _] Hwf H.
  assert (sorted_items (capabilities r) = sorted_items (capabilities s)) as Hs.
  { apply (dict_map_inj (λ c, JObj (cap_dump c))); [by intros x y ?%JObj_inj%cap_dump_inj|].
    apply (f_equal (λ d, jget d "capabilities")) in H. by apply JObj_inj in H. }
  apply erased_eq; [done|by apply core_erase|]. intros k x y Hx Hy.
  apply dict_lookup_elem in Hx. apply (sorted_items_eq _ _ Hs) in Hx.
  apply dict_elem_lookup in Hx; [|by eapply core_caps_wf]. congruence.
Qed.

Lemma jstrs_inj l k : jstrs l = jstrs k → l = k.
Proof.
  unfold jstrs. intros [= H]. revert k H. induction l as [|x l IH]; intros [|y k]; try done.
  cbn. intros [= -> H]. by rewrite (IH k H).
Qed.

(** A replay has the same summary exactly when the ledger determines the state. *)
Lemma replay_exact items r s : replay items = Ok r → replays r s →
  summary r = summary s ↔ reproducible s.
Proof.
  intros Hr%replay_granted Hrs. pose proof Hrs as [Hc Ha Hv]. unfold reproducible.
  rewrite <-!first_seen_id, <-(replays_unspent r s Hrs Hr), <-Ha, <-Hv. split.
  - intros H. split_and!; [by apply summary_caps; [|apply Hr|]| |]; apply jstrs_inj.
    + by apply (f_equal (λ d, jget d "alerts")) in H.
    + by apply (f_equal (λ d, jget d "violations")) in H.
  - intros (H1 & H2 & H3). by apply core_summary.
Qed.
