(* ===== verification/KernelTypes.v ===== *)
(** The types of the rows of the kernel, and why a typed state never raises.

    The rows of the state are free JSON, and a method raises when a field it
    needs is missing or is no number.  [typed] says, field by field, what the
    methods read; every event of a typed payload is handled without an
    exception and leaves the state typed. *)
From S2P Require Import Prelude PyStr PyDict PyFloat PyJson FnMatch Capability Policy KernelState.
From S2P Require Import KernelOps KernelRouting KernelLoops.
Open Scope Z_scope.

(** * Methods that return *)

(** [returns_at I m s]: from [s] the method returns, in a state that satisfies [I]. *)
Definition returns_at {S A} (I : S → Prop) (m : ST S A) (s : S) : Prop :=
  match m s with (Ok _, s') => I s' | (Raise _, _) => False end.

Section returns_rules.
Context {S : Type} (I : S → Prop).

Lemma returns_ret {A} (a : A) s : I s → returns_at I (mret a) s.
Proof. done. Qed.

Lemma returns_get {A} (f : S → ST S A) s : returns_at I (f s) s → returns_at I (get_st ≫= f) s.
Proof. done. Qed.

Lemma returns_modify f s : I (f s) → returns_at I (modify f) s.
Proof. done. Qed.

Lemma returns_lift_bind {A B} (m : res A) (f : A → ST S B) s :
  is_ok m = true → (∀ a, m = Ok a → returns_at I (f a) s) → returns_at I (lift m ≫= f) s.
Proof. unfold returns_at, lift, mbind, ST_bind. destruct m as [a|e]; [|done]. intros _ H. by apply H. Qed.

Lemma returns_bind {A B} (m : ST S A) (f : A → ST S B) s :
  returns_at I m s → (∀ a s', I s' → returns_at I (f a) s') → returns_at I (m ≫= f) s.
Proof.
  unfold returns_at, mbind, ST_bind. destruct (m s) as [[a|e] s1]; [|done]. intros H Hf. by apply Hf.
Qed.

Lemma returns_weaken (J : S → Prop) {A} (m : ST S A) s :
  (∀ s, J s → I s) → returns_at J m s → returns_at I m s.
Proof. unfold returns_at. intros H. destruct (m s) as [[a|e] s1]; [apply H|done]. Qed.

Lemma returns_run (m : ST S unit) s : returns_at I m s → ∃ s', m s = (Ok (), s') ∧ I s'.
Proof. unfold returns_at. destruct (m s) as [[[]|e] s1]; [|done]. intros H. by exists s1. Qed.
End returns_rules.

(** * The types of rows *)

(** The node of an endpoint, which may be looked up among the frozen ones. *)
Definition endpoint_node (row : jobject) (k : string) : res (option string) :=
  obj_get (py_or (jget row k) (JObj [])) "node_id" ≫= hashed.

(** An edge row: what activating and using the edge read. *)
Definition edge_typed (row : jobject) : bool :=
  has_key "edge_type" row && is_ok (jitem row "to" ≫= port_resource)
  && is_ok (endpoint_node row "from") && is_ok (endpoint_node row "to")
  && is_ok (hashed (jget row "process_id")).

(** The counters of a process row are missing, or numbers. *)
Definition counters : list string :=
  ["started_at"; "ttl"; "heartbeat_timeout"; "heartbeat_at"; "call_count"; "max_calls";
   "budget_remaining"; "iterations"; "max_iterations"; "episodes"; "max_episodes"].

Definition process_typed (row : jobject) : bool := forallb (λ k, is_ok (int_field row k)) counters.

(** A signal row: its reference, and the number that routing weighs. *)
Definition weight_typed (row : jobject) : bool :=
  if is_text (jget row "signal_type") "success" then true
  else if is_text (jget row "signal_type") "cost" then is_ok (py_float (jget_or row "usd" (JI 0)))
  else if is_text (jget row "signal_type") "latency" then is_ok (py_float (jget_or row "ms" (JI 0)))
  else true.

Definition signal_typed (row : jobject) : bool := has_key "event_id" row && weight_typed row.

Definition score_typed (row : jobject) : bool := is_ok (jitem row "score" ≫= py_float).

Definition typed (s : GraphSimState) : bool :=
  forallb (λ p, edge_typed p.2) (edges s) && forallb (λ p, process_typed p.2) (processes s)
  && forallb signal_typed (signals s) && forallb (λ p, score_typed p.2) (scores s).

(** A typed state in which the edges [E] exist. *)
Record typed_with (E : list string) (s : GraphSimState) : Prop := {
  ty_edges : Forall (λ p, edge_typed p.2 = true) (edges s);
  ty_processes : Forall (λ p, process_typed p.2 = true) (processes s);
  ty_signals : Forall (λ row, signal_typed row = true) (signals s);
  ty_scores : Forall (λ p, score_typed p.2 = true) (scores s);
  ty_known : Forall (λ e, has_key e (edges s) = true) E;
}.

Lemma forallb_Forall {A} (f : A → bool) l : forallb f l = true ↔ Forall (λ x, f x = true) l.
Proof. by rewrite forallb_elem, Forall_forall. Qed.

Lemma typed_iff s : typed s = true ↔ typed_with [] s.
Proof.
  unfold typed. rewrite !andb_true_iff, !forallb_Forall. split.
  - intros [[[? ?] ?] ?]. by split.
  - by intros [? ? ? ? ?].
Qed.

Lemma typed_with_cons E e s : typed_with E s → has_key e (edges s) = true → typed_with (e :: E) s.
Proof. intros [? ? ? ? ?] ?. split; try done. by constructor. Qed.

Lemma typed_with_tail E e s : typed_with (e :: E) s → typed_with E s.
Proof. intros [? ? ? ? H]. split; try done. by inversion H. Qed.

Lemma edge_row_typed E s e row : typed_with E s → edges s !! e = Some row → edge_typed row = true.
Proof. intros H. exact (Forall_row (λ d, edge_typed d = true) _ _ _ (ty_edges _ _ H)). Qed.

Lemma process_row_typed E s k row : typed_with E s → processes s !! k = Some row → process_typed row = true.
Proof. intros H. exact (Forall_row (λ d, process_typed d = true) _ _ _ (ty_processes _ _ H)). Qed.

Lemma score_row_typed E s k row : typed_with E s → scores s !! k = Some row → score_typed row = true.
Proof. intros H. exact (Forall_row (λ d, score_typed d = true) _ _ _ (ty_scores _ _ H)). Qed.

(** * Updates keep the types *)

(** Two rows that agree on what an edge needs. *)
Lemma edge_typed_agree (d e : jobject) :
  (∀ k, k ∈ ["edge_type"; "to"; "from"; "process_id"] → d !! k = e !! k) → edge_typed d = edge_typed e.
Proof.
  intros H. unfold edge_typed, endpoint_node, has_key, jitem, jget.
  by rewrite !H by set_solver.
Qed.

Lemma edge_typed_update (row u : jobject) :
  edge_typed row = true → Forall (λ k, k ∉ keys u) ["edge_type"; "to"; "from"; "process_id"] →
  edge_typed (with_updates row u) = true.
Proof.
  intros Hr Hu. rewrite <-Hr. apply edge_typed_agree. intros k Hk. rewrite Forall_forall in Hu.
  by apply dict_update_lookup_notin, Hu.
Qed.

Lemma int_field_insert (d : jobject) j n k : is_ok (int_field d k) = true →
  is_ok (int_field (<[j:=JInt n]> d) k) = true.
Proof.
  intros H. unfold int_field, jget in *. rewrite dict_lookup_insert_case. case_decide; [|done].
  cbn. by destruct n.
Qed.

Lemma process_typed_insert (row : jobject) j n :
  process_typed row = true → process_typed (<[j:=JInt n]> row) = true.
Proof.
  unfold process_typed. rewrite !forallb_elem. intros H k Hk. by apply int_field_insert, H.
Qed.

Lemma process_typed_update (row u : jobject) :
  process_typed row = true → Forall (λ p, ∃ n, p.2 = JInt n) u → process_typed (with_updates row u) = true.
Proof.
  intros Hr Hu. revert row Hr. induction Hu as [|[k v] u [n Hv] _ IH]; intros row Hr; [done|].
  apply (IH (<[k:=v]> row)). cbn in Hv. subst v. by apply process_typed_insert.
Qed.

(** A signal row keeps the weight of the payload it is made of. *)
Lemma signal_row_typed (d p : jobject) : has_key "event_id" d = true → dict_wf p →
  has_key "signal_type" p = true → Forall (λ k, k ∉ keys d) ["usd"; "ms"] →
  weight_typed p = true → signal_typed (dict_update d p) = true.
Proof.
  intros Hid Hwf Hty Hd Hw. unfold signal_typed. rewrite (dict_update_has_key "event_id" d p Hid).
  assert (∀ k, has_key k p = true ∨ k ∉ keys d → dict_update d p !! k = p !! k) as Hl.
  { intros k Hk. destruct (p !! k) as [v|] eqn:E; [by apply dict_update_lookup_in|].
    destruct Hk as [Hk|Hk]; [unfold has_key in Hk; by rewrite E in Hk|].
    rewrite dict_update_lookup_notin; [by apply dict_lookup_none|].
    intros Hin. apply dict_lookup_keys in Hin as [? ?]. congruence. }
  rewrite !Forall_cons in Hd. destruct Hd as (Hu & Hm & _). cbn [andb].
  etransitivity; [|exact Hw].
  unfold weight_typed, jget_or, jget. rewrite !Hl by auto. reflexivity.
Qed.

(** * Typed events *)

Definition keys_in (ks : list string) (p : jobject) : bool := forallb (λ k, has_key k p) ks.

(** The endpoint of a proposed edge, as [propose_edge] writes it. *)
Definition end_typed (j : json) : bool :=
  match j with
  | JObj d => is_ok (port_resource j) && is_ok (hashed (jget d "node_id"))
  | _ => false
  end.

(** The edge an event names exists. *)
Definition names_edge (E : list string) (p : jobject) : bool :=
  match p !! "edge_id" with Some j => str_in (py_str j) E | None => false end.

(** What the reducer reads of the payload of an event. *)
Definition body_typed (E : list string) (k : kind) (p : jobject) : bool :=
  match k with
  | KNodeCreated | KFreezeApplied | KDeletePreviewed | KDeleteApplied => keys_in ["node_id"] p
  | KTimeAdvanced => is_ok (jitem p "now" ≫= py_int)
  | KPortCreated => keys_in ["node_id"; "port_id"] p
  | KEdgeProposed =>
      keys_in ["edge_id"; "from"; "to"; "edge_type"] p && end_typed (jget p "from") && end_typed (jget p "to")
      && is_ok (hashed (jget p "process_id"))
  | KEdgeCreated | KEdgeFrozen => names_edge E p
  | KEdgeUsed => names_edge E p && is_ok (int_field p "cost")
  | KCapabilityGranted =>
      keys_in ["cap_id"; "owner"] p && is_ok ((jitem p "capability" ≫= py_dict) ≫= cap_load)
  | KCapabilityRevoked => keys_in ["cap_id"] p
  | KSignalEmitted => bool_decide (dict_wf p) && keys_in ["signal_type"] p && weight_typed p
  | KRouteSelected => keys_in ["skill"] p
  | KOutcomeRecorded => keys_in ["outcome_id"] p
  | KScoreAssigned => keys_in ["score_id"] p && score_typed p
  | KWinnerSelected => keys_in ["arena_id"] p
  | KRewriteProposed => keys_in ["target"; "rewrite_id"] p
  | KRewriteApproved | KRewriteApplied => keys_in ["rewrite_id"] p
  | KPolicyChecked => keys_in ["decision_id"] p && is_ok (jitem p "decision" ≫= py_dict)
  | KProcessStarted | KReviewStarted | KProtocolStarted => keys_in ["process_id"] p && process_typed p
  | KProcessHeartbeat => keys_in ["process_id"] p && is_ok (jitem p "heartbeat_at" ≫= py_int)
  | KReviewFinding =>
      keys_in ["process_id"] p && is_ok (int_field p "cost") && negb (has_key "signal_type" p)
  | KReviewStopped | KProtocolStopped => keys_in ["process_id"] p
  | KProtocolEpisode => keys_in ["process_id"] p && is_ok (int_field p "cost")
  | _ => true
  end.

Lemma jitem_has (d : jobject) k : has_key k d = true → is_ok (jitem d k) = true.
Proof. unfold has_key, jitem. by destruct (d !! k). Qed.

Lemma has_key_insert {V} k j (v : V) (d : dict V) : has_key k d = true → has_key k (<[j:=v]> d) = true.
Proof. exact (dict_update_has_key k d [(j, v)]). Qed.

Section handlers.
Context (E : list string).

Lemma typed_same s s' : edges s' = edges s → processes s' = processes s → signals s' = signals s →
  scores s' = scores s → typed_with E s → typed_with E s'.
Proof. intros H1 H2 H3 H4 [? ? ? ? ?]. by split; rewrite ?H1, ?H2, ?H3, ?H4. Qed.

Lemma typed_edges k row s : typed_with E s → edge_typed row = true →
  typed_with E (set_edges (<[k:=row]> (edges s)) s).
Proof.
  intros [? ? ? ? Hk] Hr. split; try done; [by apply (Forall_insert (λ d, edge_typed d = true))|].
  eapply Forall_impl; [exact Hk|]. intros e He. by apply has_key_insert.
Qed.

Lemma typed_processes k row s : typed_with E s → process_typed row = true →
  typed_with E (set_processes (<[k:=row]> (processes s)) s).
Proof. intros [? ? ? ? ?] Hr. split; try done. by apply (Forall_insert (λ d, process_typed d = true)). Qed.

Lemma Forall_sublist_rows {V} (P : V → Prop) (d e : dict V) :
  Forall (λ p, P p.2) d → (∀ p, p ∈ e → p ∈ d) → Forall (λ p, P p.2) e.
Proof. rewrite !Forall_forall. auto. Qed.

Lemma dict_pop_elem {V} k (d : dict V) p : p ∈ delete k d → p ∈ d.
Proof.
  unfold delete, dict_delete. induction d as [|[j v] d IH]; cbn [dict_pop]; [done|]. case_match; set_solver.
Qed.

Lemma typed_fewer_processes ps s : typed_with E s → (∀ p, p ∈ ps → p ∈ processes s) →
  typed_with E (set_processes ps s).
Proof.
  intros [? ? ? ? ?] H. split; try done.
  by apply (Forall_sublist_rows (λ d, process_typed d = true) (processes s)).
Qed.

Lemma typed_signals row s : typed_with E s → signal_typed row = true →
  typed_with E (set_signals (signals s ++ [row]) s).
Proof. intros [? ? ? ? ?] Hr. split; try done. apply Forall_app. by repeat constructor. Qed.

Lemma typed_scores k row s : typed_with E s → score_typed row = true →
  typed_with E (set_scores (<[k:=row]> (scores s)) s).
Proof. intros [? ? ? ? ?] Hr. split; try done. by apply (Forall_insert (λ d, score_typed d = true)). Qed.

Lemma typed_stop r t s : typed_with E s → typed_with E (stop_target r s t).
Proof.
  intros H. unfold stop_target. pose proof (typed_fewer_processes _ _ H (dict_pop_elem t _)) as [He Hp Hs Hc Hk].
  split; try done; cbn [edges set_edges set_processes] in *.
  - apply Forall_map. eapply Forall_impl; [exact He|]. intros [k row] Hrow. cbn in *. unfold expire_edge.
  case_match; [|done]. apply edge_typed_update; [done|]. rewrite Forall_forall. set_solver.
  - eapply Forall_impl; [exact Hk|]. intros e. rewrite !has_key_true, dict_map_lookup.
  intros [row ->]. by eexists.
Qed.

Lemma typed_stops r ts s : typed_with E s → typed_with E (foldl (stop_target r) s ts).
Proof. revert s. induction ts as [|t ts IH]; intros s H; [done|]. by apply IH, typed_stop. Qed.

(** A field read as text, and what follows. *)
Lemma returns_text {B} (p : jobject) k (f : string → KS B) s I : has_key k p = true →
  (∀ j, jitem p k = Ok j → returns_at I (f (py_str j)) s) → returns_at I (text_of p k ≫= f) s.
Proof.
  intros Hk H. unfold text_of. pose proof (jitem_has _ _ Hk) as Hj. revert H Hj.
  unfold returns_at, lift, mbind, ST_bind. destruct (jitem p k) as [j|e]; [|done]. intros H _. exact (H j eq_refl).
Qed.

Lemma returns_int {B} (p : jobject) k (f : Z → KS B) s I : is_ok (jitem p k ≫= py_int) = true →
  (∀ n, returns_at I (f n) s) → returns_at I (int_of p k ≫= f) s.
Proof.
  unfold int_of, returns_at, lift, mbind, ST_bind, res_bind. destruct (jitem p k) as [j|e]; [|done].
  destruct (py_int j) as [n|e]; [|done]. intros _ H. exact (H n).
Qed.

Lemma known_edge_typed s eid (u : jobject) : typed_with E s → eid ∈ E →
  Forall (λ k, k ∉ keys u) ["edge_type"; "to"; "from"; "process_id"] →
  returns_at (typed_with E) (update_edge eid u) s.
Proof.
  intros H Hin Hu. apply returns_modify, typed_edges; [done|]. apply edge_typed_update; [|done].
  pose proof (ty_known _ _ H) as Hk. rewrite Forall_forall in Hk. apply Hk, has_key_true in Hin as [r0 Hr0].
  unfold edge_row, row_or. destruct (edges s !! eid) as [[|x row]|] eqn:Er; [| |discriminate Hr0].
  - exact (edge_row_typed _ _ _ _ H Er).
  - exact (edge_row_typed _ _ _ _ H Er).
Qed.

Lemma charge_typed s pid row p counter : typed_with E s → process_typed row = true → counter ∈ counters →
  is_ok (int_field p "cost") = true → returns_at (typed_with E) (charge pid row p counter) s.
Proof.
  intros H Hr Hc Hp. unfold charge, spend, process_typed in *. rewrite forallb_elem in Hr.
  apply returns_lift_bind; [by apply Hr|]. intros n _.
  assert (is_ok (int_field row "budget_remaining") = true) as Hb by (apply Hr; set_solver).
  destruct (int_field row "budget_remaining") as [b|]; [|done]. destruct (int_field p "cost") as [c|]; [|done].
  apply typed_processes; [done|]. apply process_typed_update; [by apply forallb_elem|].
  repeat constructor; by eexists.
Qed.
End handlers.

(** * Every typed event is handled *)

Ltac split_body :=
  repeat match goal with
  | H : _ && _ = true |- _ => apply andb_true_iff in H as [? ?]
  end.

(** The rules of the walk through a handler or a method. *)
Ltac returns_step :=
  idtac; lazymatch goal with
  | |- returns_at _ (get_st ≫= _) _ => apply returns_get; cbv beta
  | |- returns_at _ (text_of _ _ ≫= _) _ => apply returns_text; [assumption|intros ? ?]
  | |- returns_at _ (int_of _ _ ≫= _) _ => apply returns_int; [assumption|intros ?]
  | |- returns_at _ (lift _ ≫= _) _ => apply returns_lift_bind; [try assumption|intros ? ?]
  | |- returns_at _ (mret _) _ => apply returns_ret; try assumption
  | |- returns_at _ (modify _) _ => apply returns_modify
  | |- returns_at _ (let _ := _ in _) _ => cbv zeta
  | |- returns_at _ (if ?b then _ else _) _ => destruct b eqn:?
  | |- returns_at _ (match ?x with _ => _ end) _ => destruct x eqn:?
  | |- returns_at _ (_ ≫= _) _ => apply returns_bind; [|intros ? ? ?]
  end.

(** A step that leaves alone what the types are about. *)
Ltac same_typed :=
  match goal with
  | H : typed_with ?E ?s |- typed_with ?E _ => apply (typed_same E s); [reflexivity..|exact H]
  end.

Ltac fields Hb := cbn [body_typed keys_in forallb] in Hb; rewrite ?andb_true_r in Hb; split_body.

Section handled.
Context (E : list string) (e : SimEvent) (s : GraphSimState) (Hs : typed_with E s).
Let p := payload e.

Lemma names_edge_elem j : jitem p "edge_id" = Ok j → names_edge E p = true → py_str j ∈ E.
Proof.
  unfold jitem, names_edge. destruct (p !! "edge_id"); [|done]. intros [= ->]. apply str_in_elem.
Qed.

Lemma names_edge_key : names_edge E p = true → has_key "edge_id" p = true.
Proof. unfold names_edge, has_key. by destruct (p !! "edge_id"). Qed.

Lemma edge_proposed_returns : body_typed E KEdgeProposed p = true → returns_at (typed_with E) (apply_edge_proposed e) s.
Proof.
  intros Hb. fields Hb. unfold apply_edge_proposed. fold p.
  assert (∀ k, end_typed (jget p k) = true → ∃ d, jitem p k ≫= py_dict = Ok d ∧
  is_ok (port_resource (JObj d)) = true ∧ is_ok (hashed (jget d "node_id")) = true) as Hend.
  { intros k. unfold jitem, jget at 1. destruct (p !! k) as [[| | | | | |d]|]; try done.
  intros [? ?]%andb_true_iff. by exists d. }
  destruct (Hend "from") as (df & Hf & _ & Hf2); [done|]. destruct (Hend "to") as (dt & Ht & Ht1 & Ht2); [done|].
  apply returns_text; [done|]. intros eid _. rewrite Hf. apply returns_lift_bind; [done|]. intros ? [= <-].
  apply returns_lift_bind; [exact (f_equal is_ok Ht)|]. intros dt' Hdt. pose proof (eq_trans (eq_sym Ht) Hdt) as [= <-].
  apply returns_text; [done|]. intros ty _. apply returns_modify, typed_edges; [done|].
  unfold edge_typed, endpoint_node. cbn -[port_resource]. rewrite Ht1. cbn [andb].
  destruct df, dt; try done; cbn in *; by rewrite ?Hf2, ?Ht2.
Qed.

Lemma edge_set_returns (u : jobject) : names_edge E p = true →
  Forall (λ k, k ∉ keys u) ["edge_type"; "to"; "from"; "process_id"] →
  returns_at (typed_with E) (text_of p "edge_id" ≫= λ eid, update_edge eid u) s.
Proof.
  intros Hn Hu. apply returns_text; [by apply names_edge_key|]. intros j Hj.
  apply known_edge_typed; [done|by apply names_edge_elem|done].
Qed.

Lemma charge_row_returns s' k counter : typed_with E s' → counter ∈ counters → is_ok (int_field p "cost") = true →
  returns_at (typed_with E) (match processes s' !! k with Some row => charge k row p counter | None => mret () end) s'.
Proof.
  intros H Hc Hp. destruct (processes s' !! k) as [row|] eqn:Er; [|by apply returns_ret].
  apply charge_typed; try done. by eapply process_row_typed.
Qed.

Lemma edge_used_returns : body_typed E KEdgeUsed p = true → returns_at (typed_with E) (apply_edge_used e) s.
Proof.
  intros Hb. fields Hb. unfold apply_edge_used. fold p. apply returns_text; [by apply names_edge_key|]. intros j Hj.
  apply returns_bind; [apply known_edge_typed; [done|by apply names_edge_elem|rewrite Forall_forall; set_solver]|].
  intros _ s' Hs'. apply returns_get. cbv zeta. case_match; [|by apply returns_ret].
  apply charge_row_returns; [done|unfold counters; set_solver|done].
Qed.

Lemma process_started_returns : body_typed E KProcessStarted p = true →
  returns_at (typed_with E) (apply_process_started e) s.
Proof.
  intros Hb. fields Hb. unfold apply_process_started. fold p. repeat returns_step. by apply typed_processes.
Qed.

Lemma heartbeat_returns : body_typed E KProcessHeartbeat p = true →
  returns_at (typed_with E) (apply_process_heartbeat e) s.
Proof.
  intros Hb. fields Hb. unfold apply_process_heartbeat. fold p. repeat returns_step.
  apply returns_modify, typed_processes; [done|]. apply process_typed_update; [by eapply process_row_typed|].
  repeat constructor. by eexists.
Qed.

Lemma alert_returns table : returns_at (typed_with E) (alert_of p table) s.
Proof. unfold alert_of, add_alert. repeat returns_step. same_typed. Qed.

Lemma pop_returns s' : typed_with E s' → has_key "process_id" p = true → returns_at (typed_with E) (pop_process p) s'.
Proof.
  intros Hs' Hk. unfold pop_process. repeat returns_step. apply typed_fewer_processes; [done|]. intros q. apply dict_pop_elem.
Qed.

Lemma stopped_returns : returns_at (typed_with E) (apply_process_stopped e) s.
Proof.
  unfold apply_process_stopped. apply returns_bind; [apply alert_returns|]. intros _ s' Hs'.
  by apply returns_modify, typed_stops.
Qed.

Lemma loop_stopped_returns table : has_key "process_id" p = true →
  returns_at (typed_with E) (_ ← alert_of p table; pop_process p) s.
Proof. intros Hk. apply returns_bind; [apply alert_returns|]. intros _ s' Hs'. by apply pop_returns. Qed.

Lemma signal_returns : body_typed E KSignalEmitted p = true → returns_at (typed_with E) (apply_signal_emitted e) s.
Proof.
  intros Hb. fields Hb. apply returns_modify, typed_signals; [done|].
  apply signal_row_typed; try done; [by eapply bool_decide_eq_true_1|]. rewrite Forall_forall. set_solver.
Qed.

Lemma finding_returns : body_typed E KReviewFinding p = true → returns_at (typed_with E) (apply_review_finding e) s.
Proof.
  intros Hb. fields Hb. unfold apply_review_finding. fold p. apply returns_text; [done|]. intros j _.
  apply returns_get, returns_bind; [apply charge_row_returns; [done|unfold counters; set_solver|done]|].
  intros _ s' Hs'. apply returns_modify, typed_signals; [done|]. set (d := [("event_id", _); _; _]).
  assert (jget (dict_update d p) "signal_type" = JStr "review_finding") as Hty.
  { unfold jget. rewrite dict_update_lookup_notin; [reflexivity|]. intros Hin. apply dict_lookup_keys in Hin.
  apply has_key_true in Hin. by rewrite Hin in *. }
  unfold signal_typed, weight_typed. rewrite Hty, dict_update_has_key; reflexivity.
Qed.

Lemma score_returns : body_typed E KScoreAssigned p = true → returns_at (typed_with E) (apply_score_assigned e) s.
Proof. intros Hb. fields Hb. unfold apply_score_assigned. fold p. repeat returns_step. by apply typed_scores. Qed.

Lemma deleted_returns : body_typed E KDeleteApplied p = true → returns_at (typed_with E) (apply_delete_applied e) s.
Proof.
  intros Hb. fields Hb. unfold apply_delete_applied. fold p. repeat returns_step.
  apply (typed_same E (set_processes (drop_owned (py_str j) (processes s)) s)); [reflexivity..|].
  apply typed_fewer_processes; [done|]. intros q Hq. unfold drop_owned in Hq. by apply list_elem_of_filter in Hq as [_ Hq].
Qed.
End handled.

Lemma handle_returns E k e s : typed_with E s → body_typed E k (payload e) = true →
  returns_at (typed_with E) (handle k e) s.
Proof.
  intros Hs Hb. destruct k; cbn [handle].
  all: first
    [ by apply returns_ret
    | by apply edge_proposed_returns | by apply edge_used_returns | by apply process_started_returns
    | by apply heartbeat_returns | by apply stopped_returns | by apply signal_returns | by apply finding_returns
    | by apply score_returns | by apply deleted_returns
    | fields Hb ].
  all: first
    [ apply edge_set_returns; [done..|rewrite Forall_forall; set_solver]
    | by apply loop_stopped_returns
    | unfold apply_node_created, apply_time_advanced, apply_port_created, apply_capability_granted,
        apply_capability_revoked, apply_route_selected, apply_outcome_recorded,
        apply_winner_selected, apply_rewrite_proposed, apply_rewrite_approved, apply_rewrite_applied,
        apply_policy_checked, apply_review_rejected, apply_fix_rejected, apply_protocol_episode,
        apply_episode_rejected, apply_freeze_applied, apply_delete_previewed, violation_of, update_rewrite,
        add_violation; repeat returns_step ].
  all: try (by apply jitem_has).
  all: try same_typed.
  apply charge_typed; [done|by eapply process_row_typed|unfold counters; set_solver|done].
Qed.

(** * Recording *)

Lemma record_returns E ety actor targets body auth pol red s :
  typed_with E s → body_typed E (kind_of ety) body = true →
  returns_at (typed_with E) (record_as ety actor targets body auth pol red) s.
Proof.
  intros Hs Hb. unfold record_as, apply_event. apply returns_get, returns_get. case_match; [by apply returns_ret|].
  apply returns_bind; [by apply returns_modify, (typed_same E s)|]. intros _ s' Hs'. by apply handle_returns.
Qed.
