(* ===== verification/KernelTotal.v ===== *)
(** Typed calls on a typed state never raise.

    [op_typed] is what a call needs of its arguments: the parent of a
    delegation and the edge to freeze exist, costs and scores are numbers, and
    the texts of policy rules may be signed.  Whatever else is missing is
    answered by a denial, not by an exception. *)
From S2P Require Import Prelude PyStr PyDict PyFloat PyJson FnMatch Capability Policy KernelState.
From S2P Require Import KernelOps KernelRouting KernelLoops KernelTypes.
Open Scope Z_scope.

(** * Typed calls *)

(** A rule whose texts may be signed. *)
Definition rule_typed (p : PolicyRule) : bool := is_ok (snapshot_from_payload (rule_dump p)).

(** What a call needs of its arguments and of the state. *)
Definition op_typed (s : GraphSimState) (o : op) : bool :=
  match o with
  | OFreezeEdge e _ => has_key e (edges s)
  | OActivateEdge _ ps _ | OCheckPolicy _ _ _ ps => forallb rule_typed ps
  | ODelegate parent _ _ _ => has_key parent (capabilities s)
  | OEmitSignal _ ty body =>
      let p := dict_update [("signal_type", JS ty)] body in weight_typed p
  | OScore _ _ _ score _ => is_ok (py_float score)
  | _ => true
  end.

(** Calls that are typed, each in the state it is made in. *)
Fixpoint calls_typed (secret : string) (s : GraphSimState) (os : list op) : bool :=
  match os with
  | [] => true
  | o :: rest => op_typed s o && calls_typed secret (run_op secret o s).2 rest
  end.

(** * The payloads the operations write *)

Lemma py_or_zero n : py_or (JInt n) (JInt 0) = JInt n.
Proof. unfold py_or. cbn. by destruct n. Qed.

Lemma names_own E eid (more : jobject) : names_edge (eid :: E) (("edge_id", JS eid) :: more) = true.
Proof. unfold names_edge. cbn. by rewrite String.eqb_refl. Qed.

Lemma names_edge_tail E e p : names_edge E p = true → names_edge (e :: E) p = true.
Proof. unfold names_edge. destruct (p !! "edge_id"); [|done]. rewrite !str_in_elem. set_solver. Qed.

Ltac typed_body :=
  first
    [ reflexivity
    | apply names_own
    | cbn -[cap_dump cap_load]; rewrite cap_load_dump; reflexivity
    | cbn -[py_or]; unfold int_field, JI; cbn -[py_or]; rewrite ?py_or_zero; reflexivity ].

Ltac call_leaf :=
  idtac; lazymatch goal with
  | |- returns_at (typed_with _) (record_as _ _ _ _ _ _ _) _ => apply record_returns; [assumption|try typed_body]
  | |- returns_at (typed_with _) (KernelState._record _ _ _ _) _ =>
      unfold KernelState._record; apply record_returns; [assumption|try typed_body]
  | |- returns_at (typed_with _) (append_alert _) _ => apply returns_modify; same_typed
  | |- returns_at (typed_with _) (append_violation _) _ => apply returns_modify; same_typed
  | |- returns_at (typed_with _) (modify _) _ => apply returns_modify; try same_typed
  end.
Tactic Notation "solve_returns" tactic3(leaf) := repeat first [progress cbv zeta | leaf | returns_step].

Lemma res_map_total {A B} (f : A → res B) l : (∀ x, x ∈ l → is_ok (f x) = true) → is_ok (res_map f l) = true.
Proof.
  induction l as [|x l IH]; intros H; [done|]. cbn. pose proof (H x ltac:(set_solver)) as Hx.
  destruct (f x); [|done]. cbn. specialize (IH ltac:(set_solver)). by destruct (res_map f l).
Qed.

Section ops.
Context (E : list string).

Definition returning {A} (m : KS A) : Prop := ∀ s, typed_with E s → returns_at (typed_with E) m s.

Lemma create_node_returns n : returning (create_node n).
Proof. intros s Hs. unfold create_node. solve_returns call_leaf. Qed.

Lemma create_port_returns n p d sc ty : returning (create_port n p d sc ty).
Proof. intros s Hs. unfold create_port. solve_returns call_leaf. Qed.

Lemma propose_edge_returns e fn fp tn tp ty c pid prov : returning (propose_edge e fn fp tn tp ty c pid prov).
Proof. intros s Hs. unfold propose_edge. solve_returns call_leaf. by destruct pid. Qed.

Lemma use_capability_returns c a r n : returning (use_capability c a r n).
Proof. intros s Hs. unfold use_capability. solve_returns call_leaf. Qed.

Lemma mint_returns c o cap : returning (mint_capability c o cap).
Proof. intros s Hs. unfold mint_capability. solve_returns call_leaf. Qed.

Lemma request_union_returns cs u : returning (request_union cs u).
Proof. intros s Hs. unfold request_union. solve_returns call_leaf. Qed.

Lemma revoke_returns c : returning (revoke_capability c).
Proof. intros s Hs. unfold revoke_capability. solve_returns call_leaf. Qed.

Lemma stop_process_returns p r : returning (stop_process p r).
Proof. intros s Hs. unfold stop_process. solve_returns call_leaf. Qed.

Lemma heartbeat_process_returns p : returning (heartbeat_process p).
Proof. intros s Hs. unfold heartbeat_process. solve_returns call_leaf. Qed.

Lemma advance_time_returns n : returning (advance_time n).
Proof. intros s Hs. unfold advance_time. solve_returns call_leaf. Qed.

Lemma start_process_returns p o c ttl b md d mc hb : returning (start_process p o c ttl b md d mc hb).
Proof. intros s Hs. unfold start_process. solve_returns call_leaf. Qed.

Lemma delegate_returns p c o r s : typed_with E s → has_key p (capabilities s) = true →
  returns_at (typed_with E) (delegate p c o r) s.
Proof.
  intros Hs Hp. unfold delegate. apply returns_get. unfold has_key in Hp.
  destruct (capabilities s !! p); [|done]. solve_returns call_leaf.
Qed.

Lemma recurse_loop_returns r o c md ds : returning (recurse_loop r o c md ds).
Proof.
  induction ds as [|d ds IH]; intros s Hs; cbn [recurse_loop]; [by apply returns_ret|].
  apply returns_bind; [by apply start_process_returns|]. intros v s' Hs'. case_match; [by apply returns_ret|by apply IH].
Qed.

Lemma policy_bodies did p env red : body_typed E KPolicyChecked
  [("decision_id", JS did); ("action", p); ("resource", env); ("decision", JObj red)] = true.
Proof. reflexivity. Qed.

Lemma check_policy_returns secret did a r ps s : typed_with E s → forallb rule_typed ps = true →
  returns_at (typed_with E) (check_policy_stack secret did a r ps) s.
Proof.
  intros Hs Hps. unfold check_policy_stack. apply returns_get. cbv zeta. apply returns_lift_bind.
  - unfold build_policy_decision_envelope.
  assert (is_ok (res_map snapshot_from_payload (map rule_dump (matched_rules a r ps))) = true) as H.
  { apply res_map_total. intros x (q & -> & Hq)%list_elem_of_fmap. rewrite forallb_elem in Hps. apply Hps.
    unfold matched_rules in Hq. rewrite merge_sort_Permutation in Hq. by apply list_elem_of_filter in Hq as [_ Hq]. }
  by destruct (res_map _ _).
  - intros env _. solve_returns call_leaf.
Qed.

Lemma emit_signal_returns n ty body s : typed_with E s → weight_typed (dict_update [("signal_type", JS ty)] body) = true →
  returns_at (typed_with E) (emit_signal n ty body) s.
Proof.
  intros Hs Hw. unfold emit_signal. apply record_returns; [done|]. change (kind_of "signal.emitted") with KSignalEmitted.
  cbn [body_typed keys_in forallb]. rewrite Hw, dict_update_has_key by reflexivity.
  rewrite bool_decide_eq_true_2; [reflexivity|]. apply dict_update_wf. by repeat constructor; set_solver.
Qed.

Lemma propose_rewrite_returns r t body : returning (propose_rewrite r t body).
Proof.
  intros s Hs. unfold propose_rewrite. apply record_returns; [done|]. change (kind_of "rewrite.proposed") with KRewriteProposed.
  cbn [body_typed keys_in forallb]. by rewrite !dict_update_has_key by reflexivity.
Qed.

Lemma approve_rewrite_returns r rv c : returning (approve_rewrite r rv c).
Proof. intros s Hs. unfold approve_rewrite. solve_returns call_leaf. Qed.

Lemma apply_rewrite_returns r : returning (apply_rewrite r).
Proof. intros s Hs. unfold apply_rewrite. solve_returns call_leaf. Qed.

Lemma freeze_node_returns n r : returning (freeze_node n r).
Proof. intros s Hs. unfold freeze_node. solve_returns call_leaf. Qed.

Lemma record_outcome_returns o p pid eid m ev st : returning (record_outcome o p pid eid m ev st).
Proof. intros s Hs. unfold record_outcome, reject_outcome. solve_returns call_leaf. Qed.

Lemma score_participant_returns sc p o x ex s : typed_with E s → is_ok (py_float x) = true →
  returns_at (typed_with E) (score_participant sc p o x ex) s.
Proof. intros Hs Hx. unfold score_participant, reject_score. solve_returns call_leaf. Qed.

Lemma preview_delete_returns n : returning (preview_delete n).
Proof. intros s Hs. unfold preview_delete. solve_returns call_leaf. Qed.

Lemma apply_delete_returns n : returning (apply_delete n).
Proof. intros s Hs. unfold apply_delete. solve_returns call_leaf. Qed.

Lemma add_credential_returns c : returning (add_credential c).
Proof. intros s Hs. unfold add_credential. solve_returns call_leaf. Qed.

Lemma start_review_returns p rv t c ttl b it : returning (start_review_loop p rv t c ttl b it).
Proof.
  intros s Hs. unfold start_review_loop, record_review. case_match; [solve_returns call_leaf|].
  apply returns_bind; [by apply use_capability_returns|]. intros d s' Hs'. solve_returns call_leaf.
Qed.

Lemma stop_review_returns p r : returning (stop_review_loop p r).
Proof. intros s Hs. unfold stop_review_loop, record_review. solve_returns call_leaf. Qed.

Lemma propose_fix_returns p f pr d : returning (propose_fix_from_finding p f pr d).
Proof.
  intros s Hs. unfold propose_fix_from_finding, record_review. apply returns_get. case_match; [|solve_returns call_leaf].
  cbv zeta. case_match; [solve_returns call_leaf|]. apply returns_bind; [solve_returns call_leaf|]. intros _ s' Hs'.
  apply returns_bind; [by apply propose_rewrite_returns|]. intros _ s2 Hs2. by apply returns_ret.
Qed.

Lemma start_protocol_returns p t pr tm b ttl n : returning (start_protocol_simulation p t pr tm b ttl n).
Proof. intros s Hs. unfold start_protocol_simulation, record_protocol. solve_returns call_leaf. Qed.

(** The limits of a loop read counters only. *)
Lemma counter_reads row k : process_typed row = true → k ∈ counters → is_ok (int_field row k) = true.
Proof. unfold process_typed. rewrite forallb_elem. auto. Qed.

Lemma res_bind_total {A B} (m : res A) (f : A → res B) :
  is_ok m = true → (∀ a, is_ok (f a) = true) → is_ok (m ≫= f) = true.
Proof. destruct m as [a|e]; [intros _ H; apply (H a)|done]. Qed.

Ltac read_counters :=
  repeat lazymatch goal with
  | |- is_ok (int_field _ _ ≫= _) = true =>
      apply res_bind_total; [apply counter_reads; [assumption|unfold counters; set_solver]|intros ?]
  | |- is_ok ((if ?b then _ else _) ≫= _) = true => destruct b; [|cbn [mbind res_bind]]
  | |- is_ok ((int_field _ _ ≫= _) ≫= _) = true => apply res_bind_total; [|intros ?]
  | |- is_ok (if ?b then _ else _) = true => destruct b
  | |- is_ok (Ok _) = true => reflexivity
  end.

Lemma review_limit_total t row c : process_typed row = true → is_ok (review_limit t row c) = true.
Proof. intros H. unfold review_limit. read_counters. Qed.

Lemma protocol_limit_total t row c : process_typed row = true → is_ok (protocol_limit t row c) = true.
Proof. intros H. unfold protocol_limit. read_counters. Qed.

Lemma process_limit_total t row c : process_typed row = true → is_ok (_process_limit_reason t row c) = true.
Proof. intros H. unfold _process_limit_reason. read_counters. Qed.

Lemma emit_finding_returns p rv t f sv c m : returning (emit_review_finding p rv t f sv c m).
Proof.
  intros s Hs. unfold emit_review_finding, record_review. apply returns_get.
  destruct (processes s !! p) as [row|] eqn:Er; [|solve_returns call_leaf].
  case_match; [solve_returns call_leaf|].
  apply returns_lift_bind; [by eapply review_limit_total, process_row_typed|]. intros limit _.
  unfold stop_review, record_review, freeze_node. solve_returns call_leaf.
Qed.

Lemma record_episode_returns p n c d : returning (record_protocol_episode p n c d).
Proof.
  intros s Hs. unfold record_protocol_episode, record_protocol. apply returns_get.
  destruct (processes s !! p) as [row|] eqn:Er; [|solve_returns call_leaf].
  case_match; [solve_returns call_leaf|].
  apply returns_lift_bind; [by eapply protocol_limit_total, process_row_typed|]. intros limit _.
  unfold stop_protocol, record_protocol. solve_returns call_leaf.
Qed.

(** * Routes and winners *)

Lemma weigh_total n acc row : signal_typed row = true → is_ok (weigh n acc row) = true.
Proof.
  unfold signal_typed, weight_typed, weigh. intros [Hid Hw]%andb_true_iff. apply jitem_has in Hid.
  destruct (jitem row "event_id"); [|done]. repeat case_match; try done; by destruct (py_float _).
Qed.

Lemma weigh_all_total n acc rows : Forall (λ row, signal_typed row = true) rows →
  is_ok (weigh_all n acc rows) = true.
Proof.
  intros H. revert acc. induction H as [|row rows Hr _ IH]; intros acc; [done|]. cbn [weigh_all].
  apply res_bind_total; [by apply weigh_total|done].
Qed.

Lemma score_routes_returns k acc cs : returning (score_routes k acc cs).
Proof.
  revert acc. induction cs as [|[n c] cs IH]; intros acc s Hs; cbn [score_routes]; [by apply returns_ret|].
  apply returns_bind; [by apply use_capability_returns|]. intros d s' Hs'. case_match; [by apply IH|].
  apply returns_get, returns_lift_bind; [by eapply weigh_all_total, ty_signals|]. intros w _. by apply IH.
Qed.

Lemma select_route_returns k cs : returning (select_route k cs).
Proof.
  intros s Hs. unfold select_route. apply returns_bind; [by apply score_routes_returns|].
  intros l s' Hs'. solve_returns call_leaf.
Qed.

Lemma exclusion_score s p refs : _winner_exclusion_reason s p refs = None →
  is_Some (scores s !! text_or (ref_get refs "score_id") "").
Proof. unfold _winner_exclusion_reason. intros H. repeat case_match; try done; by eexists. Qed.

Lemma classify_total s el ex cs : typed_with E s → is_ok (classify s el ex cs) = true.
Proof.
  intros Hs. revert el ex. induction cs as [|[p refs] cs IH]; intros el ex; cbn [classify]; [done|]. cbv zeta.
  destruct (_winner_exclusion_reason s p refs) eqn:Hr; [apply IH|]. apply exclusion_score in Hr.
  destruct (scores s !! _) as [row|] eqn:Er; [|by destruct Hr].
  apply res_bind_total; [exact (score_row_typed _ _ _ _ Hs Er)|]. intros x. apply IH.
Qed.

Lemma select_winner_returns a cs : returning (select_winner a cs).
Proof.
  intros s Hs. unfold select_winner. apply returns_get, returns_lift_bind; [by apply classify_total|].
  intros l _. solve_returns call_leaf.
Qed.
End ops.

(** * Edges *)

Section edges.
Context (E : list string).

Lemma freeze_edge_returns e r s : typed_with E s → has_key e (edges s) = true →
  returns_at (typed_with E) (freeze_edge e r) s.
Proof.
  intros Hs He. apply (returns_weaken _ (typed_with (e :: E))); [apply typed_with_tail|]. unfold freeze_edge.
  pose proof (typed_with_cons _ _ _ Hs He). solve_returns call_leaf.
Qed.

Lemma edge_parts edge : edge_typed edge = true →
  has_key "edge_type" edge = true ∧ is_ok (jitem edge "to" ≫= port_resource) = true
  ∧ is_ok (endpoint_node edge "from") = true ∧ is_ok (endpoint_node edge "to") = true
  ∧ is_ok (hashed (jget edge "process_id")) = true.
Proof. unfold edge_typed. rewrite !andb_true_iff. tauto. Qed.

Lemma node_parts edge k : is_ok (endpoint_node edge k) = true →
  ∃ j, obj_get (py_or (jget edge k) (JObj [])) "node_id" = Ok j ∧ is_ok (hashed j) = true.
Proof. unfold endpoint_node. destruct (obj_get _ _) as [j|e]; [|done]. by exists j. Qed.

Lemma frozen_endpoint_total F l : Forall (λ j, is_ok (hashed j) = true) l → is_ok (frozen_endpoint F l) = true.
Proof.
  induction 1 as [|j l Hj _ IH]; [done|]. cbn [frozen_endpoint]. destruct (hashed j) as [[t|]|e]; [| |done]; cbn;
  [by case_match|exact IH].
Qed.

(** The resource an edge leads to, read from its row. *)
Lemma resource_returns {B} edge (f : string → KS B) s I : is_ok (jitem edge "to" ≫= port_resource) = true →
  (∀ r, returns_at I (f r) s) →
  returns_at I (target ← lift (jitem edge "to"); resource ← lift (port_resource target); f resource) s.
Proof.
  intros H Hf. apply returns_lift_bind; [by destruct (jitem edge "to")|]. intros target Ht. rewrite Ht in H.
  apply returns_lift_bind; [exact H|]. intros r _. apply Hf.
Qed.

Lemma edge_authority_returns e edge : edge_typed edge = true → returning E (edge_authority e edge).
Proof.
  intros (Hty & Hres & _)%edge_parts s Hs. unfold edge_authority. cbv zeta. case_match; [|by apply returns_ret].
  apply resource_returns; [done|]. intros r. apply returns_lift_bind; [by apply jitem_has|]. intros ty _.
  apply returns_bind; [by apply use_capability_returns|]. intros d s' Hs'. by apply returns_ret.
Qed.

Lemma use_edge_checked_returns e edge c : e ∈ E → edge_typed edge = true → returning E (use_edge_checked e edge c).
Proof.
  intros Hin Ht s Hs. pose proof (edge_parts _ Ht) as (_ & _ & Hf & Hto & _).
  apply node_parts in Hf as (fn & Hfn & Hf). apply node_parts in Hto as (tn & Htn & Hto).
  unfold use_edge_checked. apply returns_get. cbv zeta. rewrite Hfn, Htn.
  apply returns_lift_bind; [done|]. intros ? [= <-]. apply returns_lift_bind; [done|]. intros ? [= <-].
  apply returns_lift_bind; [apply frozen_endpoint_total; by repeat constructor|]. intros frozen _.
  unfold reject_use. case_match; [solve_returns call_leaf|].
  apply returns_bind; [by apply edge_authority_returns|]. intros granted s' Hs'. solve_returns call_leaf.
  change (kind_of "edge.used") with KEdgeUsed. cbn [body_typed]. rewrite andb_true_iff. split.
  - unfold names_edge. cbn. by apply str_in_elem.
  - unfold int_field. cbn -[py_or]. unfold JI. by rewrite py_or_zero.
Qed.
End edges.

Lemma use_edge_returns E e c : returning E (use_edge e c).
Proof.
  intros s Hs. unfold use_edge, reject_use. apply returns_get.
  destruct (edges s !! e) as [edge|] eqn:He; [|solve_returns call_leaf].
  case_match; [solve_returns call_leaf|]. cbv zeta. pose proof (edge_row_typed _ _ _ _ Hs He) as Ht.
  assert (∀ s', typed_with E s' → edges s' = edges s → returns_at (typed_with E) (use_edge_checked e edge c) s') as Hc.
  { intros s' Hs' Es. apply (returns_weaken _ (typed_with (e :: E))); [apply typed_with_tail|].
    apply use_edge_checked_returns; [set_solver|done|]. apply typed_with_cons; [done|].
    rewrite Es. unfold has_key. by rewrite He. }
  case_match; [|by apply Hc]. destruct (processes s !! _) as [row|] eqn:Er; [|solve_returns call_leaf].
  apply returns_lift_bind; [by eapply process_limit_total, process_row_typed|]. intros [reason|] _; [|by apply Hc].
  apply returns_bind; [by apply stop_process_returns|]. intros d s' Hs'. by apply returns_ret.
Qed.

Lemma not_running_total s x : is_ok (hashed x) = true → is_ok (not_running s x) = true.
Proof. unfold not_running. case_match; [|done]. by destruct (hashed x). Qed.

Lemma activate_with_capability_returns E e did ty r pid c : e ∈ E →
  returning E (activate_with_capability e did ty r pid c).
Proof.
  intros Hin s Hs. unfold activate_with_capability, deny_edge. apply returns_bind.
  - case_match; [|by apply returns_ret]. apply returns_bind; [by apply use_capability_returns|].
    intros d s' Hs'. by apply returns_ret.
  - intros granted s' Hs'. solve_returns call_leaf.
    change (kind_of "edge.created") with KEdgeCreated. cbn [body_typed]. unfold names_edge. cbn.
    by apply str_in_elem.
Qed.

Lemma activate_edge_returns E secret e ps did s : typed_with E s → forallb rule_typed ps = true →
  returns_at (typed_with E) (activate_edge secret e ps did) s.
Proof.
  intros Hs Hps. unfold activate_edge, deny_edge. apply returns_get.
  destruct (edges s !! e) as [edge|] eqn:He; [|solve_returns call_leaf].
  pose proof (edge_parts _ (edge_row_typed _ _ _ _ Hs He)) as (Hty & Hres & _ & _ & Hpid).
  apply (returns_weaken _ (typed_with (e :: E))); [apply typed_with_tail|].
  assert (typed_with (e :: E) s) as Hs1 by (apply typed_with_cons; [done|]; unfold has_key; by rewrite He).
  case_match; [by apply returns_ret|]. cbv zeta.
  apply returns_lift_bind; [by apply not_running_total|]. intros stopped _.
  case_match; [solve_returns call_leaf|].
  apply returns_lift_bind; [by apply jitem_has|]. intros ty _. apply resource_returns; [done|]. intros r.
  apply returns_bind.
  - destruct ps as [|q ps]; [by apply returns_ret|]. apply returns_bind; [by apply check_policy_returns|].
    intros d s' Hs'. by apply returns_ret.
  - intros [d|] s' Hs'; [solve_returns call_leaf|]. apply activate_with_capability_returns; [set_solver|done].
Qed.

(** * All the operations *)

Lemma returning_at {A} E (m : KS A) s : returning E m → typed_with E s → returns_at (typed_with E) m s.
Proof. intros H. apply H. Qed.

Create HintDb returning discriminated.
#[export] Hint Resolve returning_at create_node_returns create_port_returns propose_edge_returns use_capability_returns
  mint_returns request_union_returns revoke_returns stop_process_returns heartbeat_process_returns
  advance_time_returns start_process_returns delegate_returns recurse_loop_returns check_policy_returns
  emit_signal_returns propose_rewrite_returns approve_rewrite_returns apply_rewrite_returns
  freeze_node_returns record_outcome_returns score_participant_returns preview_delete_returns
  apply_delete_returns add_credential_returns start_review_returns stop_review_returns
  propose_fix_returns start_protocol_returns emit_finding_returns record_episode_returns
  select_route_returns select_winner_returns freeze_edge_returns use_edge_returns
  activate_edge_returns : returning.

Lemma run_op_returns secret o s : typed s = true → op_typed s o = true →
  returns_at (λ s, typed s = true) (run_op secret o) s.
Proof.
  intros Hs%typed_iff Ho. apply (returns_weaken _ (typed_with [])); [intros ?; apply typed_iff|].
  destruct o; cbn [run_op op_typed] in *.
  all: try (apply returns_bind; [|intros ? ? ?; by apply returns_ret]).
  all: unfold recurse_process; eauto with returning.
Qed.

(** C40: calls on a typed state never raise, and leave it typed.  A state is typed when its rows
hold what the methods read; a call is typed when the parent of a delegation and the edge to freeze
exist, costs and scores are numbers and the texts of policy rules may be signed. *)
Theorem typed_calls_return secret os s : typed s = true → calls_typed secret s os = true →
  ∃ s', run_ops secret os s = (Ok (), s') ∧ typed s' = true.
Proof.
  revert s. induction os as [|o os IH]; intros s Hs Hos; [by exists s|].
  cbn [calls_typed] in Hos. apply andb_true_iff in Hos as [Ho Hos].
  destruct (returns_run _ _ _ (run_op_returns secret o s Hs Ho)) as (s1 & H1 & Hs1). rewrite H1 in Hos.
  destruct (IH s1 Hs1 Hos) as (s' & H' & Hs'). exists s'. split; [|done].
  unfold run_ops in *. cbn [for_each]. unfold mbind, ST_bind. by rewrite H1.
Qed.

Definition typed_cap : Capability :=
  mkCap {["call"; "review"]} ["*"] [] None 10 2 false.

Definition typed_rule : PolicyRule :=
  mkRule "p1" LOwner EAllow {["call"]} ["*"] 0.

Definition typed_run : list op :=
  [OCreateNode "n"; OCreateNode "m"; OCreatePort "n" "out" "output" "s" None;
   OCreatePort "m" "in" "input" "s" None; OMint "c" "n" typed_cap; ODelegate "c" "d" "m" typed_cap;
   OStartProcess "p" "n" "c" 10 10 3 0 10 0; OProposeEdge "e" "n" "out" "m" "in" "call" None (Some "p") None;
   OActivateEdge "e" [typed_rule] None; OUseEdge "e" 2; OUseEdge "ghost" 2;
   OEmitSignal "n" "cost" [("usd", JStr "2.5")]; OSelectRoute "x" [("n", "c")];
   ORecordOutcome "o" "n" None None None [] "ok"; OScore "sc" "n" "o" (JInt 3) [];
   OSelectWinner "arena" [("n", [("score_id", "sc")])]; OStartReview "rv" "n" "m" "c" 5 5 2;
   OEmitFinding "rv" "n" "m" "f" "critical" 1 false; OFreezeEdge "e" "incident"; OActivateEdge "e" [] None].

Lemma typed_calls_return_witness :
  ∃ s, run_ops "secret" typed_run (new_state 0) = (Ok (), s) ∧ typed s = true.
Proof. apply (typed_calls_return "secret" typed_run (new_state 0)); vm_compute; reflexivity. Defined.
