(* ===== verification/KernelFacts.v ===== *)
(** What the operations of the kernel do: capabilities, freezing, revocation,
    edges, processes, rewrites and deletion.

    The lemmas describe a call from a state whose ledger is numbered; the
    event a call records is then always taken in. *)
From S2P Require Import Prelude PyStr PyDict PyFloat PyJson FnMatch Capability Policy PolicyFacts.
From S2P Require Import KernelState KernelOps KernelRouting KernelLoops KernelSteps KernelLedger.
Open Scope Z_scope.

(** The state without its log. *)
Definition unlogged (s : GraphSimState) : GraphSimState :=
  set_ledger [] (set_seen_event_ids ∅ s).

Lemma unlogged_log_event e s : unlogged (log_event e s) = unlogged s.
Proof. done. Qed.

(** Recording an event of a known kind. *)
Lemma record_kind k ety actor targets body auth pol red s :
  ledger_ok s → kind_of ety = k →
  let e := event_for ety actor targets body auth pol red s in
  record_as ety actor targets body auth pol red s = handle k e (log_event e s).
Proof.
  intros Hok Hk e. rewrite record_as_unfold by done.
  change (event_type (event_for ety actor targets body auth pol red s)) with ety. by rewrite Hk.
Qed.

(** An event of a kind the reducer has no branch for is only logged. *)
Lemma record_other ety actor targets body auth pol red s :
  ledger_ok s → kind_of ety = KOther →
  record_as ety actor targets body auth pol red s
  = (Ok (), log_event (event_for ety actor targets body auth pol red s) s).
Proof.
  intros Hok Hk. by rewrite (record_kind KOther).
Qed.

Lemma bind_ok_run {A B} (m : KS A) (f : A → KS B) s a s' :
  m s = (Ok a, s') → (m ≫= f) s = f a s'.
Proof. intros H. unfold mbind, ST_bind. by rewrite H. Qed.

Lemma record_ok ety actor targets body auth pol red s :
  ledger_ok s → ledger_ok (record_as ety actor targets body auth pol red s).2.
Proof. intros H. by apply record_ledger. Qed.

(** * Capabilities *)

Definition owner_of (s : GraphSimState) (cid : string) : string :=
  default "system" (capability_owner s !! cid).

(** When the kernel lets a capability be used. *)
Definition authorized (s : GraphSimState) (cid a r : string) (cost : Z) : bool :=
  match capabilities s !! cid with
  | None => false
  | Some c =>
      negb (bool_decide (owner_of s cid ∈ frozen_nodes s))
      && ((cost =? 0) || (cost <=? budget c)) && can_use c a r (now s)
  end.

Definition charge_capability (cid : string) (cost : Z) (s : GraphSimState) : GraphSimState :=
  match capabilities s !! cid with
  | Some c =>
      if cost =? 0 then s else set_capabilities (<[cid := debit c cost]> (capabilities s)) s
  | None => s
  end.

Lemma denied_use ety actor cid body auth s (d : decision) :
  ledger_ok s → kind_of ety = KOther →
  ∃ s', (record_as ety actor [cid] body auth JNull "public" ≫= λ _, mret d) s = (Ok d, s')
    ∧ unlogged s' = unlogged s.
Proof.
  intros Hok Hk. eexists. rewrite (bind_ok_run _ _ _ _ _ (record_other _ _ _ _ _ _ _ _ Hok Hk)).
  split; [done|]. by rewrite unlogged_log_event.
Qed.

Lemma use_capability_spec cid a r cost s :
  ledger_ok s →
  ∃ s', use_capability cid a r cost s
        = (Ok (if authorized s cid a r cost then DAllow else DDeny), s')
    ∧ unlogged s'
      = unlogged (if authorized s cid a r cost then charge_capability cid cost s else s).
Proof.
  intros Hok. unfold use_capability, authorized, charge_capability, _record. rewrite ST_get_run. cbv zeta.
  fold (owner_of s cid). destruct (capabilities s !! cid) as [c|] eqn:Hc; [|apply denied_use; [exact Hok|reflexivity]].
  case_bool_decide as Hf; [apply denied_use; [exact Hok|reflexivity]|]. cbn [negb andb].
  rewrite Z.ltb_antisym. destruct (cost =? 0) eqn:H0; cbn [negb andb orb].
  - destruct (can_use c a r (now s)) eqn:Hu; cbn [negb]; [|apply denied_use; [exact Hok|reflexivity]].
    rewrite (bind_ok_run (mret ()) _ s () s eq_refl). apply denied_use; [exact Hok|reflexivity].
  - destruct (cost <=? budget c) eqn:Hb; cbn [negb andb]; [|apply denied_use; [exact Hok|reflexivity]].
    destruct (can_use c a r (now s)) eqn:Hu; cbn [negb]; [|apply denied_use; [exact Hok|reflexivity]].
    set (s1 := set_capabilities (<[cid := debit c cost]> (capabilities s)) s).
    assert (ledger_ok s1) as Hok1 by (by destruct Hok).
    pose proof (record_other "budget.debited" (owner_of s cid) [cid] [("cost", JI cost)] (JS cid)
      JNull "public" s1 Hok1 eq_refl) as Hr.
    erewrite bind_ok_run; [|rewrite ST_modify_run; exact Hr].
    pose proof (record_ok "budget.debited" (owner_of s cid) [cid] [("cost", JI cost)] (JS cid)
      JNull "public" s1 Hok1) as Hok2. rewrite Hr in Hok2. cbn [snd] in Hok2.
    destruct (denied_use "capability.used" (owner_of s cid) cid
      [("action", JS a); ("resource", JS r)] (JS cid) _ DAllow Hok2 eq_refl) as (s3 & E1 & E2).
    exists s3. split; [exact E1|]. by rewrite E2, unlogged_log_event.
Qed.

(** A frozen owner, a revoked or an expired capability: no use. *)
Lemma authorized_false s cid a r cost :
  (owner_of s cid ∈ frozen_nodes s
   ∨ (∀ c, capabilities s !! cid = Some c → revoked c = true ∨ ∃ t, expires_at c = Some t ∧ t ≤ now s)) →
  authorized s cid a r cost = false.
Proof.
  unfold authorized. intros H. destruct (capabilities s !! cid) as [c|]; [|done].
  case_bool_decide as Hf; [done|]. destruct H as [H|H]; [done|]. cbn [negb andb].
  destruct (can_use c a r (now s)) eqn:Hu; [|by rewrite andb_false_r].
  apply can_use_iff in Hu as (Hr & He & _). destruct (H c eq_refl) as [?|(t & Ht & Hle)]; [congruence|].
  specialize (He _ Ht). lia.
Qed.

(** [authorized], said without the checks of the code. *)
Definition permitted (s : GraphSimState) (cid a r : string) (cost : Z) : Prop :=
  ∃ c, capabilities s !! cid = Some c ∧ covers c a r (now s) ∧ (cost = 0 ∨ cost ≤ budget c)
    ∧ ¬ default "system" (capability_owner s !! cid) ∈ frozen_nodes s.

Lemma authorized_permitted s cid a r cost : authorized s cid a r cost = true ↔ permitted s cid a r cost.
Proof.
  unfold authorized, permitted, owner_of. destruct (capabilities s !! cid) as [c|]; [|by split; [|intros (? & ? & _)]].
  rewrite !andb_true_iff, can_use_covers, orb_true_iff, Z.eqb_eq, Z.leb_le, negb_true_iff, bool_decide_eq_false.
  split; [intros [[H1 H2] H3]; by exists c|by intros (? & [= <-] & H1 & H2 & H3)].
Qed.

(** The capability after a use that costs [cost]. *)
Definition spent (c : Capability) (cost : Z) : Capability := {|
  actions := actions c; resources := resources c; deny := deny c; expires_at := expires_at c;
  budget := if cost =? 0 then budget c else Z.max (budget c - cost) 0;
  delegation_depth := delegation_depth c; revoked := revoked c |}.

Lemma charge_spent s cid cost c : capabilities s !! cid = Some c →
  charge_capability cid cost s = set_capabilities (<[cid := spent c cost]> (capabilities s)) s.
Proof.
  intros Hc. unfold charge_capability, spent. rewrite Hc. destruct (cost =? 0); [|done].
  replace ({| actions := _ |}) with c by by destruct c. rewrite dict_insert_id by done. by destruct s.
Qed.

(** * Grants *)

Definition granted_state (cid owner : string) (c : Capability) (parent : json) (s : GraphSimState) :
    GraphSimState :=
  let s1 := set_capability_owner (<[cid := owner]> (capability_owner s))
              (set_capabilities (<[cid := c]> (capabilities s)) s) in
  if truthy parent then
    set_child_grants
      (<[py_str parent := default [] (child_grants s !! py_str parent) ++ [cid]]> (child_grants s)) s1
  else s1.

Lemma apply_granted_run e s cid owner c :
  jitem (payload e) "cap_id" = Ok (JS cid) →
  jitem (payload e) "capability" = Ok (JObj (cap_dump c)) →
  jitem (payload e) "owner" = Ok (JS owner) →
  apply_capability_granted e s
  = (Ok (), granted_state cid owner c (jget (payload e) "parent_cap_id") s).
Proof.
  intros H1 H2 H3. unfold apply_capability_granted, text_of. rewrite H1, H2, H3.
  cbn [mbind res_bind py_dict]. rewrite cap_load_dump.
  unfold granted_state, lift, modify, mbind, ST_bind, mret, ST_ret. cbn [py_str JS].
  by destruct (truthy (jget (payload e) "parent_cap_id")).
Qed.

(** When [delegate] refuses: the parent may not delegate, or nothing is left. *)
Definition delegation_refused (parent requested : Capability) : bool :=
  revoked parent || (delegation_depth parent <=? 0)
  || (bool_decide (actions (narrowed_to parent requested) = ∅)
      || bool_decide (resources (narrowed_to parent requested) = [])).

(** What [delegate] does with a known parent. *)
Lemma delegate_spec pid cid owner requested parent s :
  ledger_ok s → capabilities s !! pid = Some parent →
  let refused := delegation_refused parent requested in
  ∃ s', delegate pid cid owner requested s
        = (Ok (if refused then DDeny else if is_subset_of requested parent then DAllow else DNarrow), s')
    ∧ unlogged s'
      = unlogged (if refused then s else granted_state cid owner (narrowed_to parent requested) (JS pid) s).
Proof.
  intros Hok Hp refused. unfold delegate. rewrite ST_get_run, Hp. cbv zeta.
  set (narrowed := narrowed_to parent requested).
  unfold refused, delegation_refused. fold narrowed.
  destruct (revoked parent || (delegation_depth parent <=? 0)); cbn [orb].
  { apply denied_use; [exact Hok|reflexivity]. }
  destruct (bool_decide (actions narrowed = ∅) || bool_decide (resources narrowed = [])).
  { apply denied_use; [exact Hok|reflexivity]. }
  set (verdict := if negb (is_subset_of requested parent) then DNarrow else DAllow).
  match goal with |- context [record_as ?ety ?actor ?ts ?b ?au ?po ?rd] =>
    pose proof (record_kind KCapabilityGranted ety actor ts b au po rd s Hok eq_refl) as Hr;
    set (e := event_for ety actor ts b au po rd s) in Hr end.
  cbn [handle] in Hr.
  rewrite (apply_granted_run e (log_event e s) cid owner narrowed eq_refl eq_refl eq_refl) in Hr.
  rewrite (bind_ok_run _ _ _ _ _ Hr). eexists. split.
  - unfold mret, ST_ret. subst verdict. by destruct (is_subset_of requested parent).
  - change (jget (payload e) "parent_cap_id") with (JS pid). unfold granted_state.
    by destruct (truthy (JS pid)).
Qed.

(** * Revocation *)

Definition revoked_in (x : string) (s : GraphSimState) : Prop :=
  ∃ c, capabilities s !! x = Some c ∧ revoked c = true.

(** The capability an event grants. *)
Definition grant_of (e : SimEvent) : option string :=
  match kind_of (event_type e) with
  | KCapabilityGranted => py_str <$> payload e !! "cap_id"
  | _ => None
  end.

Definition stays_revoked (x : string) (_ : bool) (s s' : GraphSimState) : Prop :=
  revoked_in x s → revoked_in x s'.

#[export] Instance stays_revoked_rel x : TraceRel (stays_revoked x).
Proof. split; unfold stays_revoked; auto. Qed.

Lemma revoke_in_lookup caps c x :
  revoke_in caps c !! x
  = (if decide (c = x) then revoked_copy <$> caps !! x else caps !! x).
Proof.
  unfold revoke_in. destruct (caps !! c) as [v|] eqn:E; [|by case_decide; subst; rewrite ?E].
  rewrite dict_lookup_insert_case. case_decide; subst; by rewrite ?E.
Qed.

Definition revoked_at (caps : dict Capability) (x : string) : Prop :=
  ∃ c, caps !! x = Some c ∧ revoked c = true.

Lemma revoke_in_keeps caps c x : revoked_at caps x → revoked_at (revoke_in caps c) x.
Proof.
  intros (v & Hv & Hr). unfold revoked_at. rewrite revoke_in_lookup, Hv.
  case_decide; cbn; eauto.
Qed.

Lemma revoke_in_revokes caps c v : caps !! c = Some v → revoked_at (revoke_in caps c) c.
Proof. intros Hv. unfold revoked_at. rewrite revoke_in_lookup, decide_True, Hv by done. cbn. eauto. Qed.

Lemma revoke_all_keeps cs caps x : revoked_at caps x → revoked_at (foldl revoke_in caps cs) x.
Proof. revert caps. induction cs as [|c cs IH]; intros caps H; [done|]. by apply IH, revoke_in_keeps. Qed.

Lemma revoke_in_some caps c x : is_Some (caps !! x) → is_Some (revoke_in caps c !! x).
Proof. rewrite revoke_in_lookup. case_decide; [by rewrite fmap_is_Some|done]. Qed.

Lemma revoke_all_revokes cs caps x : x ∈ cs → is_Some (caps !! x) → revoked_at (foldl revoke_in caps cs) x.
Proof.
  revert caps. induction cs as [|c cs IH]; intros caps Hx Hs; [by apply not_elem_of_nil in Hx|].
  cbn [foldl]. apply elem_of_cons in Hx as [->|Hx].
  - destruct Hs as [v Hv]. by eapply revoke_all_keeps, revoke_in_revokes.
  - apply IH; [done|]. by apply revoke_in_some.
Qed.

Lemma revoke_owned_keeps n os caps x : revoked_at caps x → revoked_at (revoke_owned n os caps) x.
Proof.
  unfold revoke_owned. revert caps. induction os as [|[c o] os IH]; intros caps H; [done|].
  cbn [foldl fst snd]. apply IH. destruct (o =s? n); [by apply revoke_in_keeps|done].
Qed.

Lemma revoke_owned_some n os caps x : is_Some (caps !! x) → is_Some (revoke_owned n os caps !! x).
Proof.
  unfold revoke_owned. revert caps. induction os as [|[c o] os IH]; intros caps H; [done|].
  cbn [foldl fst snd]. apply IH. destruct (o =s? n); [by apply revoke_in_some|done].
Qed.

Lemma revoke_owned_revokes n os caps x :
  (x, n) ∈ os → is_Some (caps !! x) → revoked_at (revoke_owned n os caps) x.
Proof.
  revert caps. induction os as [|[c o] os IH]; intros caps Hx Hs; [by apply not_elem_of_nil in Hx|].
  apply elem_of_cons in Hx as [[= <- <-]|Hx].
  - apply (revoke_owned_keeps n os). cbn [fst snd]. rewrite String.eqb_refl.
    destruct Hs as [v Hv]. by eapply revoke_in_revokes.
  - apply IH; [done|]. cbn [fst snd]. destruct (o =s? n); [by apply revoke_in_some|done].
Qed.

Lemma stop_targets_revoked x r ts s : stays_revoked x true s (foldl (stop_target r) s ts).
Proof.
  revert s. induction ts as [|t ts IH]; intros s H; [done|]. cbn [foldl]. by apply (IH (stop_target r s t)).
Qed.

Ltac revoked_leaf :=
  idtac; lazymatch goal with
  | |- traced_at (stays_revoked _) (modify _) _ =>
      apply traced_modify;
      first [ apply stop_targets_revoked
            | intros ?; by apply revoke_owned_keeps
            | intros ?; by apply revoke_all_keeps, revoke_in_keeps
            | let H := fresh in intros H; exact H ]
  end.

Lemma handle_stays_revoked x k e :
  k ≠ KCapabilityGranted → traced (stays_revoked x) (handle k e).
Proof.
  destruct k; try congruence; intros _; cbn [handle];
    unfold apply_node_created, apply_time_advanced, apply_port_created, apply_edge_proposed,
      apply_edge_created, apply_edge_frozen, apply_edge_used,
      apply_capability_revoked, apply_signal_emitted, apply_route_selected, apply_outcome_recorded,
      apply_score_assigned, apply_winner_selected, apply_rewrite_proposed, apply_rewrite_approved,
      apply_rewrite_applied, apply_policy_checked, apply_process_started, apply_process_heartbeat,
      apply_process_stopped, apply_review_rejected, apply_fix_rejected, apply_review_finding,
      apply_review_stopped, apply_protocol_episode, apply_episode_rejected, apply_protocol_stopped,
      apply_freeze_applied, apply_delete_previewed, apply_delete_applied, violation_of, alert_of,
      charge, spend, pop_process, text_of, int_of, update_edge, update_process, update_rewrite,
      add_signal, add_alert, add_violation;
    solve_traced revoked_leaf.
Qed.

Lemma traced_text_of {A} R `{!TraceRel R} (p : jobject) k (f : string → KS A) s :
  (∀ j, jitem p k = Ok j → traced_at R (f (py_str j)) s) → traced_at R (text_of p k ≫= f) s.
Proof.
  intros H. unfold text_of. destruct (jitem p k) as [j|x]; [by apply H|].
  exists true. by split; [apply trace_refl|].
Qed.

Lemma set_capability_revoked x cid c s :
  cid ≠ x → stays_revoked x true s (set_capabilities (<[cid := c]> (capabilities s)) s).
Proof.
  intros Hne (v & Hv & Hr). exists v. split; [|done].
  cbn [capabilities set_capabilities]. by rewrite dict_lookup_insert_ne.
Qed.

Lemma granted_stays_revoked x e :
  py_str <$> payload e !! "cap_id" ≠ Some x → traced (stays_revoked x) (apply_capability_granted e).
Proof.
  intros Hne s. unfold apply_capability_granted.
  apply traced_text_of; [apply _|]. intros j Hj.
  unfold jitem in Hj. destruct (payload e !! "cap_id") as [j'|]; [|done]. injection Hj as ->.
  apply traced_lift_bind; [apply _|]. intros c _. apply traced_bind; [apply _| |intros ?].
  - apply traced_modify, set_capability_revoked. intros Heq. apply Hne. cbn. by rewrite Heq.
  - unfold text_of. solve_traced revoked_leaf.
Qed.

(** Between two states of a run, a revoked capability stays revoked unless the
ledger shows a new grant of it. *)
Definition revoked_until_grant (x : string) (s s' : GraphSimState) : Prop :=
  ∃ evs, ledger s' = ledger s ++ evs
    ∧ ((∀ e, e ∈ evs → grant_of e ≠ Some x) → revoked_in x s → revoked_in x s').

#[export] Instance revoked_until_grant_preorder x : PreOrder (revoked_until_grant x).
Proof.
  split.
  - intros s. exists []. split; [by rewrite app_nil_r|done].
  - intros s1 s2 s3 (l1 & H1 & K1) (l2 & H2 & K2). exists (l1 ++ l2).
    split; [by rewrite H2, H1, app_assoc|]. intros Hg Hr.
    apply K2; [|apply K1; [|done]]; intros e He; apply Hg, elem_of_app; auto.
Qed.

Lemma same_capabilities_until x s s' :
  ledger s' = ledger s → capabilities s' = capabilities s → revoked_until_grant x s s'.
Proof.
  intros Hl Hc. exists []. split; [by rewrite app_nil_r|]. unfold revoked_in. by rewrite Hc.
Qed.

Lemma record_revoked_until x ety actor targets body auth pol red s :
  ledger_ok s → revoked_until_grant x s (record_as ety actor targets body auth pol red s).2.
Proof.
  intros Hok. eexists [_]. split; [by apply record_ledger|]. intros Hg Hr.
  rewrite record_as_unfold by done. set (e := event_for _ _ _ _ _ _ _ s) in *.
  specialize (Hg e ltac:(set_solver)). unfold grant_of in Hg.
  assert (revoked_in x (log_event e s)) as Hr' by exact Hr.
  destruct (decide (kind_of (event_type e) = KCapabilityGranted)) as [Hk|Hk].
  - rewrite Hk in *. destruct (granted_stays_revoked x e Hg (log_event e s)) as (b & H & _).
    by apply H.
  - destruct (handle_stays_revoked x _ e Hk (log_event e s)) as (b & H & _). by apply H.
Qed.

Lemma traced_revoked_until {A} x (m : KS A) s :
  traced ksteps m → ledger_ok s → revoked_until_grant x s (m s).2.
Proof.
  intros Hm. apply (traced_related (revoked_until_grant x)); try done.
  - intros. by apply record_revoked_until.
  - intros a t. by apply same_capabilities_until.
  - intros v t. by apply same_capabilities_until.
  - intros cid c n t Hc _. exists []. split; [by rewrite app_nil_r|]. intros _ (v & Hv & Hr).
    unfold revoked_in. cbn [capabilities set_capabilities]. rewrite dict_lookup_insert_case.
    case_decide; [subst; simplify_eq|]; eauto.
  - intros c t. by apply same_capabilities_until.
Qed.
