(* ===== verification/KernelEdges.v ===== *)
(** Edges in use and the processes that pay for them. *)
From S2P Require Import Prelude PyStr PyDict PyFloat PyJson FnMatch Capability Policy PolicyFacts.
From S2P Require Import KernelState KernelOps KernelRouting KernelLoops KernelSteps KernelLedger.
From S2P Require Import KernelFacts.
Open Scope Z_scope.

(** The limits a process row is within, at time [t], for one more use of cost [c]. *)
Record within_limits (t c : Z) (row : jobject) : Prop := {
  wl_ttl : ∃ started ttl, int_field row "started_at" = Ok started ∧ int_field row "ttl" = Ok ttl
             ∧ t - started < ttl;
  wl_heartbeat : ∃ timeout, int_field row "heartbeat_timeout" = Ok timeout
             ∧ (timeout ≠ 0 → ∃ beat, int_field row "heartbeat_at" = Ok beat ∧ t - beat < timeout);
  wl_calls : ∃ calls limit, int_field row "call_count" = Ok calls ∧ int_field row "max_calls" = Ok limit
             ∧ calls < limit;
  wl_budget : c ≠ 0 → ∃ b, int_field row "budget_remaining" = Ok b ∧ c ≤ b;
}.

Lemma limit_reason_none t row c : _process_limit_reason t row c = Ok None → within_limits t c row.
Proof.
  unfold _process_limit_reason. intros H.
  apply res_bind_ok in H as (started & Hs & H). apply res_bind_ok in H as (ttl & Ht & H).
  destruct (Z.leb_spec ttl (t - started)) as [|Hlt]; [done|].
  apply res_bind_ok in H as (timeout & Hto & H). apply res_bind_ok in H as (stale & Hst & H).
  destruct stale; [done|].
  apply res_bind_ok in H as (calls & Hc & H). apply res_bind_ok in H as (limit & Hl & H).
  destruct (Z.leb_spec limit calls) as [|Hcl]; [done|].
  apply res_bind_ok in H as (poor & Hp & H). destruct poor; [done|].
  split; [by eauto| |by eauto|].
  - exists timeout. split; [done|]. intros Hne. apply Z.eqb_neq in Hne. rewrite Hne in Hst. cbn in Hst.
    apply res_bind_ok in Hst as (beat & Hb & [= Hle]). exists beat. split; [done|]. lia.
  - intros Hne. apply Z.eqb_neq in Hne. rewrite Hne in Hp. cbn in Hp.
    apply res_bind_ok in Hp as (b & Hb & [= Hle]). exists b. split; [done|]. lia.
Qed.

Definition endpoint_node (edge : jobject) (k : string) : res json :=
  obj_get (py_or (jget edge k) (JObj [])) "node_id".

(** The capability check of an edge, on the state alone. *)
Definition edge_granted (s : GraphSimState) (edge : jobject) : Prop :=
  let cap_id := jget edge "capability_id" in
  truthy cap_id = true →
  ∃ target resource ty, jitem edge "to" = Ok target ∧ port_resource target = Ok resource
    ∧ jitem edge "edge_type" = Ok ty
    ∧ permitted s (py_str cap_id) (py_str ty) resource 0.

Lemma unlogged_eq_fields s s' : unlogged s' = unlogged s →
  now s' = now s ∧ edges s' = edges s ∧ processes s' = processes s ∧ capabilities s' = capabilities s
  ∧ frozen_nodes s' = frozen_nodes s ∧ rewrites s' = rewrites s.
Proof.
  intros H. split_and!;
    [apply (f_equal now) in H|apply (f_equal edges) in H|apply (f_equal processes) in H
    |apply (f_equal capabilities) in H|apply (f_equal frozen_nodes) in H|apply (f_equal rewrites) in H];
    exact H.
Qed.

Lemma charge_zero cid s : charge_capability cid 0 s = s.
Proof. unfold charge_capability. by destruct (capabilities s !! cid). Qed.

Lemma traced_ledger_ok {A} (m : KS A) s : traced ksteps m → ledger_ok s → ledger_ok (m s).2.
Proof. intros Hm Hok. destruct (Hm s) as (b & Hb & _). by eapply ksteps_ledger_ok. Qed.

(** A use without a cost only writes the log. *)
Lemma use_free cid a r s d s' :
  ledger_ok s → use_capability cid a r 0 s = (Ok d, s') →
  d = (if authorized s cid a r 0 then DAllow else DDeny) ∧ unlogged s' = unlogged s ∧ ledger_ok s'.
Proof.
  intros Hok H. pose proof (traced_ledger_ok _ s (use_capability_traced cid a r 0) Hok) as Hok'.
  destruct (use_capability_spec cid a r 0 s Hok) as (t & Ht & Hu).
  rewrite H in Ht, Hok'. injection Ht as -> ->. split_and!; [done| |done].
  rewrite Hu, charge_zero. by destruct (authorized s cid a r 0).
Qed.

Lemma edge_authority_granted eid edge s s' :
  ledger_ok s → edge_authority eid edge s = (Ok true, s') →
  edge_granted s edge ∧ unlogged s' = unlogged s ∧ ledger_ok s'.
Proof.
  unfold edge_authority, edge_granted. intros Hok H.
  destruct (truthy (jget edge "capability_id")); [|injection H as <-; split_and!; done].
  apply ST_bind_ok in H as (target & s1 & H1 & H). injection H1 as H1 <-.
  apply ST_bind_ok in H as (resource & s2 & H2 & H). injection H2 as H2 <-.
  apply ST_bind_ok in H as (ty & s3 & H3 & H). injection H3 as H3 <-.
  apply ST_bind_ok in H as (d & s4 & H4 & H). injection H as Hd <-.
  destruct (use_free _ _ _ _ _ _ Hok H4) as (Hv & Hu & Hok'). split_and!; [|done|done].
  intros _. exists target, resource, ty. split_and!; try done.
  apply authorized_permitted. destruct (authorized s _ _ _ 0); [done|]. by subst d.
Qed.

(** The row of a process after it paid for a use. *)
Definition charged_row (row : jobject) (calls left : Z) : jobject :=
  with_updates row [("call_count", JInt calls); ("budget_remaining", JInt left)].

Lemma charged_row_fields row calls left :
  int_field (charged_row row calls left) "call_count" = Ok calls
  ∧ int_field (charged_row row calls left) "budget_remaining" = Ok left
  ∧ jget (charged_row row calls left) "max_calls" = jget row "max_calls".
Proof.
  unfold charged_row, with_updates, dict_update. cbn [foldl fst snd]. split_and!.
  - apply int_field_int. rewrite jget_insert_ne by done. apply jget_insert.
  - apply int_field_int, jget_insert.
  - by rewrite !jget_insert_ne by done.
Qed.

Lemma edge_used_run e s row calls b c :
  jitem (payload e) "edge_id" = Ok (JS (default "" (target_refs e !! 0%nat))) →
  truthy (jget (payload e) "process_id") = true →
  processes s !! py_str (jget (payload e) "process_id") = Some row →
  int_field row "call_count" = Ok calls → int_field row "budget_remaining" = Ok b →
  int_field (payload e) "cost" = Ok c →
  ∃ s', apply_edge_used e s = (Ok (), s')
    ∧ processes s' !! py_str (jget (payload e) "process_id")
      = Some (charged_row row (calls + 1) (Z.max (b - c) 0)).
Proof.
  intros H1 H2 H3 H4 H5 H6. eexists. split.
  - unfold apply_edge_used, text_of. rewrite H1.
    unfold update_edge, get_st, modify, mbind, ST_bind, mret, ST_ret, lift.
    rewrite H2. cbn [processes set_edges]. rewrite H3. unfold charge, spend. rewrite H4, H5, H6.
    reflexivity.
  - cbn [processes set_processes]. apply dict_lookup_insert.
Qed.

(** [nonempty] of the frozen endpoint: no endpoint with a name is frozen. *)
Lemma frozen_endpoint_none frozen ns o :
  frozen_endpoint frozen ns = Ok o → nonempty o = false → "" ∉ frozen →
  ∀ n, n ∈ frozen → JS n ∉ ns.
Proof.
  intros H Ho He. revert o H Ho. induction ns as [|j ns IH]; intros o H Ho n Hn; [set_solver|].
  cbn in H. apply res_bind_ok in H as (k & Hk & H).
  destruct k as [t|].
  - case_bool_decide as Ht.
    + injection H as <-. cbn in Ho. destruct (String.eqb_spec t ""); [by subst|done].
    + intros [<-|Hin]%elem_of_cons; [|by eapply IH]. cbn in Hk. by simplify_eq.
  - intros [<-|Hin]%elem_of_cons; [by cbn in Hk; simplify_eq|by eapply IH].
Qed.

(** No endpoint of an edge is frozen; said of states in which the empty name is
not, since freezing it switches the check off. *)
Definition endpoints_free (s : GraphSimState) (edge : jobject) : Prop :=
  "" ∉ frozen_nodes s →
  ∃ fn tn, endpoint_node edge "from" = Ok fn ∧ endpoint_node edge "to" = Ok tn
    ∧ ∀ n, n ∈ frozen_nodes s → JS n ∉ [fn; tn].

(** * An allowed use *)

Lemma use_checked_allowed eid edge cost s s' :
  ledger_ok s → use_edge_checked eid edge cost s = (Ok DAllow, s') →
  edge_granted s edge
  ∧ endpoints_free s edge
  ∧ (∀ row calls b, truthy (jget edge "process_id") = true →
       processes s !! py_str (jget edge "process_id") = Some row →
       int_field row "call_count" = Ok calls → int_field row "budget_remaining" = Ok b →
       processes s' !! py_str (jget edge "process_id")
       = Some (charged_row row (calls + 1) (Z.max (b - cost) 0))).
Proof.
  intros Hok H. unfold use_edge_checked in H. rewrite ST_get_run in H. cbv zeta in H.
  apply ST_bind_ok in H as (fn & s1 & H1 & H). injection H1 as H1 <-.
  apply ST_bind_ok in H as (tn & s1 & H2 & H). injection H2 as H2 <-.
  apply ST_bind_ok in H as (o & s1 & H3 & H). injection H3 as H3 <-.
  destruct (nonempty o) eqn:Ho.
  { apply ST_bind_ok in H as (u & s1 & _ & H). by injection H. }
  apply ST_bind_ok in H as (g & s1 & H4 & H). destruct g; cbn [negb] in H; cycle 1.
  { apply ST_bind_ok in H as (u & s2 & _ & H). by injection H. }
  destruct (edge_authority_granted _ _ _ _ Hok H4) as (Hg & Hu & Hok1).
  split; [done|]. split; [intros He; by exists fn, tn; split_and!; [done..|exact (frozen_endpoint_none (frozen_nodes s) [fn; tn] o H3 Ho He)]|]. intros row calls b Ht Hp Hc Hb.
  apply unlogged_eq_fields in Hu as (_ & _ & Hpr & _).
  apply ST_bind_ok in H as (u & s2 & H5 & H). injection H as <-.
  match type of H5 with record_as ?ety ?actor ?ts ?bd ?au ?po ?rd s1 = _ =>
    rewrite (record_kind KEdgeUsed ety actor ts bd au po rd s1 Hok1 eq_refl) in H5;
    set (e := event_for ety actor ts bd au po rd s1) in H5 end.
  assert (int_field (payload e) "cost" = Ok cost) as Hcost by (by apply int_field_int).
  destruct (edge_used_run e (log_event e s1) row calls b cost) as (s3 & E & Hs3); try done.
  { cbn [log_event processes set_ledger set_seen_event_ids]. by rewrite Hpr. }
  cbn [handle] in H5. rewrite E in H5. by injection H5 as _ <-.
Qed.

Lemma use_edge_allowed eid cost s s' :
  ledger_ok s → use_edge eid cost s = (Ok DAllow, s') →
  ∃ edge, edges s !! eid = Some edge ∧ is_text (jget edge "state") "active" = true
    ∧ edge_granted s edge
    ∧ endpoints_free s edge
    ∧ (truthy (jget edge "process_id") = true →
       ∃ row, processes s !! py_str (jget edge "process_id") = Some row
         ∧ within_limits (now s) cost row
         ∧ ∀ calls b, int_field row "call_count" = Ok calls → int_field row "budget_remaining" = Ok b →
             processes s' !! py_str (jget edge "process_id")
             = Some (charged_row row (calls + 1) (Z.max (b - cost) 0))).
Proof.
  intros Hok H. unfold use_edge in H. rewrite ST_get_run in H.
  destruct (edges s !! eid) as [edge|]; [|apply ST_bind_ok in H as (? & ? & _ & H); by injection H].
  exists edge. split; [done|]. destruct (is_text (jget edge "state") "active"); cbn [negb] in H;
    [|apply ST_bind_ok in H as (? & ? & _ & H); by injection H].
  split; [done|]. cbv zeta in H. destruct (truthy (jget edge "process_id")) eqn:Ht.
  - destruct (processes s !! py_str (jget edge "process_id")) as [row|] eqn:Hp;
      [|apply ST_bind_ok in H as (? & ? & _ & H); by injection H].
    apply ST_bind_ok in H as (stop & s1 & H1 & H). injection H1 as H1 <-.
    destruct stop; [apply ST_bind_ok in H as (? & ? & _ & H); by injection H|].
    destruct (use_checked_allowed _ _ _ _ _ Hok H) as (Hg & Hf & Hc).
    split_and!; [done|done|]. intros _. exists row. split; [done|].
    split; [by apply limit_reason_none|]. intros calls b. by apply Hc.
  - destruct (use_checked_allowed _ _ _ _ _ Hok H) as (Hg & Hf & _). by split_and!.
Qed.

(** * Activation *)

Lemma checked_policy secret did a r ps s d s' :
  ledger_ok s → check_policy_stack secret did a r ps s = (Ok d, s') →
  d = resolve a r ps ∧ ledger_ok s'
  ∧ (∀ cid b t n, authorized s' cid b t n = authorized s cid b t n).
Proof.
  intros Hok H. pose proof (traced_ledger_ok _ s (check_policy_traced secret did a r ps) Hok) as Hok'.
  rewrite H in Hok'. unfold check_policy_stack in H. rewrite ST_get_run in H. cbv zeta in H.
  apply ST_bind_ok in H as (env & s1 & H1 & H). injection H1 as H1 <-.
  apply ST_bind_ok in H as (u & s2 & H2 & H). injection H as <- <-. split_and!; [done|done|].
  intros cid b t n.
  match type of H2 with record_as ?ety ?actor ?ts ?bd ?au ?po ?rd s = _ =>
    rewrite (record_kind KPolicyChecked ety actor ts bd au po rd s Hok eq_refl) in H2;
    set (e := event_for ety actor ts bd au po rd s) in H2 end.
  cbn [handle] in H2. unfold apply_policy_checked in H2.
  apply ST_bind_ok in H2 as (dp & s3 & H3 & H2). injection H3 as _ <-.
  unfold text_of in H2. apply ST_bind_ok in H2 as (k & s3 & H3 & H2).
  apply ST_bind_ok in H3 as (j & s4 & H4 & H3). injection H4 as _ <-. injection H3 as _ <-.
  injection H2 as _ <-. done.
Qed.

(** The event that activates an edge. *)
Lemma edge_created_run e s eid :
  jitem (payload e) "edge_id" = Ok (JS eid) →
  ∃ s' row, apply_edge_created e s = (Ok (), s') ∧ edges s' !! eid = Some row
    ∧ jget row "state" = JStr "active".
Proof.
  intros H. unfold apply_edge_created, text_of. rewrite H. eexists _, _. split; [reflexivity|].
  split; [apply dict_lookup_insert|]. apply jget_insert.
Qed.

Lemma activate_with_capability_allowed eid did ty res pid cap s s' :
  ledger_ok s → activate_with_capability eid did ty res pid cap s = (Ok DAllow, s') →
  (truthy cap = true → authorized s (py_str cap) ty res 0 = true)
  ∧ ∃ row, edges s' !! eid = Some row ∧ jget row "state" = JStr "active".
Proof.
  intros Hok H. unfold activate_with_capability in H.
  apply ST_bind_ok in H as (g & s1 & H1 & H). destruct g; cbn [negb] in H;
    [|apply ST_bind_ok in H as (? & ? & _ & H); by injection H].
  assert ((truthy cap = true → authorized s (py_str cap) ty res 0 = true) ∧ ledger_ok s1) as [Ha Hok1].
  { destruct (truthy cap); [|by injection H1 as <-].
    apply ST_bind_ok in H1 as (d & s2 & H2 & H1). injection H1 as Hd <-.
    destruct (use_free _ _ _ _ _ _ Hok H2) as (Hv & _ & Hok2). split; [|done]. intros _.
    destruct (authorized s (py_str cap) ty res 0); [done|]. by subst d. }
  split; [done|]. apply ST_bind_ok in H as (u & s2 & H2 & H). injection H as <-.
  match type of H2 with record_as ?ety ?actor ?ts ?bd ?au ?po ?rd s1 = _ =>
    rewrite (record_kind KEdgeCreated ety actor ts bd au po rd s1 Hok1 eq_refl) in H2;
    set (e := event_for ety actor ts bd au po rd s1) in H2 end.
  destruct (edge_created_run e (log_event e s1) eid eq_refl) as (s3 & row & H3 & Hrow).
  cbn [handle] in H2. rewrite H3 in H2. injection H2 as _ <-. by exists row.
Qed.

(** The conditions under which an edge that was not active has been activated. *)
Lemma activate_edge_allowed secret eid ps did s s' edge :
  ledger_ok s → activate_edge secret eid ps did s = (Ok DAllow, s') →
  edges s !! eid = Some edge → is_text (jget edge "state") "active" = false →
  ∃ ty target res, jitem edge "edge_type" = Ok ty ∧ jitem edge "to" = Ok target
    ∧ port_resource target = Ok res
    ∧ not_running s (jget edge "process_id") = Ok false
    ∧ (ps ≠ [] → let d := pd_decision (resolve (py_str ty) res ps) in d = DAllow ∨ d = DNarrow)
    ∧ (truthy (jget edge "capability_id") = true →
       authorized s (py_str (jget edge "capability_id")) (py_str ty) res 0 = true)
    ∧ ∃ row, edges s' !! eid = Some row ∧ jget row "state" = JStr "active".
Proof.
  intros Hok H He Hs. unfold activate_edge in H. rewrite ST_get_run, He, Hs in H. cbv zeta in H.
  apply ST_bind_ok in H as (stopped & s1 & H1 & H). injection H1 as H1 <-.
  destruct stopped; [apply ST_bind_ok in H as (? & ? & _ & H); by injection H|].
  apply ST_bind_ok in H as (ty & s1 & H2 & H). injection H2 as H2 <-.
  apply ST_bind_ok in H as (target & s1 & H3 & H). injection H3 as H3 <-.
  apply ST_bind_ok in H as (res & s1 & H4 & H). injection H4 as H4 <-.
  apply ST_bind_ok in H as (refused & s1 & H5 & H).
  destruct refused as [d|]; [apply ST_bind_ok in H as (? & ? & _ & H); by injection H|].
  assert ((ps ≠ [] → let d := pd_decision (resolve (py_str ty) res ps) in d = DAllow ∨ d = DNarrow)
    ∧ ledger_ok s1 ∧ ∀ cid b t n, authorized s1 cid b t n = authorized s cid b t n) as (Hd & Hok1 & Ha).
  { destruct ps as [|p ps]; [by injection H5 as <-|].
    apply ST_bind_ok in H5 as (d & s2 & H6 & H5).
    destruct (checked_policy _ _ _ _ _ _ _ _ Hok H6) as (-> & Hok2 & Ha).
    injection H5 as Hd <-. split_and!; [|done|done]. intros _. cbv zeta.
    case_bool_decide as Hx; [exact Hx|done]. }
  destruct (activate_with_capability_allowed _ _ _ _ _ _ _ _ Hok1 H) as (Hc & Hrow).
  exists ty, target, res. split_and!; try done. intros Ht. rewrite <-Ha. by apply Hc.
Qed.
