(* ===== verification/KernelGovern.v ===== *)
(** The governed choices of the kernel: the winner and the route chosen are
    eligible and none of the others beats them; rewrites, deletion, recursion
    and review loops need their approvals and end. *)
From Stdlib Require Import SpecFloat.
From S2P Require Import Prelude PyStr PyDict PyFloat PyJson FnMatch Capability Policy PolicyFacts.
From S2P Require Import KernelState.
From S2P Require Import KernelOps KernelRouting KernelLoops KernelSteps KernelLedger KernelReplay.
From S2P Require Import KernelFacts KernelEdges.
Open Scope Z_scope.

(** * The best of a list *)

Lemma str_gt_irrefl x : str_gt x x = false.
Proof. unfold str_gt. assert (str_le x x) as H by (by destruct (str_le_total x x)). by rewrite H. Qed.

Lemma str_gt_trans x y z : str_gt x y = true → str_gt y z = true → str_gt x z = true.
Proof.
  unfold str_gt. intros Hxy Hyz. destruct (String.leb x z) eqn:Hxz; [|done].
  assert (str_le y x) as Hyx.
  { destruct (str_le_total x y) as [H|H]; [|done]. unfold str_le in H. by rewrite H in Hxy. }
  assert (str_le y z) as H by (by etrans). unfold str_le in H. by rewrite H in Hyz.
Qed.

Lemma beats_irrefl c : beats c c = false.
Proof. unfold beats. destruct (feq (score_of c) (score_of c)); [apply str_gt_irrefl|apply flt_irrefl]. Qed.

Lemma beats_trans c d e : beats c d = true → beats d e = true → beats c e = true.
Proof.
  unfold beats. destruct (feq (score_of c) (score_of d)) eqn:H1.
  - rewrite <-!(feq_sym (score_of e)). unfold flt, feq, SFltb, SFeqb.
    rewrite (feq_compare_r _ _ (score_of e) H1). intros Hn.
    destruct (SFcompare (score_of e) (score_of d)) as [[]|]; try done. by apply str_gt_trans.
  - intros Hlt. destruct (feq (score_of d) (score_of e)) eqn:H2.
    + intros _. assert (feq (score_of c) (score_of e) = feq (score_of c) (score_of d)) as ->.
      { unfold feq, SFeqb. by rewrite (feq_compare_r _ _ (score_of c) H2). }
      rewrite H1. unfold flt, SFltb in *. by rewrite <-(feq_compare _ _ (score_of c) H2).
    + intros Hlt'. pose proof (flt_trans _ _ _ Hlt' Hlt) as H.
      rewrite feq_sym, (flt_feq _ _ H). exact H.
Qed.

Lemma best_in c cs : best c cs ∈ c :: cs.
Proof.
  unfold best. revert c. induction cs as [|d cs IH]; intros c; cbn [foldl]; [set_solver|].
  destruct (beats d c); [specialize (IH d)|specialize (IH c)]; set_solver.
Qed.

(** Nothing in the list beats the best. *)
Lemma best_unbeaten_go cs b seen :
  (∀ x, x ∈ seen → beats x b = false) → ∀ x, x ∈ seen ++ cs → beats x (best b cs) = false.
Proof.
  unfold best. revert b seen. induction cs as [|e cs IH]; intros b seen Hs x Hx.
  { rewrite app_nil_r in Hx. by apply Hs. }
  cbn [foldl]. apply (IH _ (seen ++ [e])); [|by rewrite <-app_assoc].
  intros y [Hy|Hy%list_elem_of_singleton]%elem_of_app; [|subst y].
  - specialize (Hs y Hy). destruct (beats e b) eqn:He; [|done].
    destruct (beats y e) eqn:Hye; [|done]. by rewrite (beats_trans _ _ _ Hye He) in Hs.
  - destruct (beats e b) eqn:He; [apply beats_irrefl|done].
Qed.

Lemma best_unbeaten c cs d : d ∈ c :: cs → beats d (best c cs) = false.
Proof.
  apply (best_unbeaten_go cs c [c]). intros x Hx. apply list_elem_of_singleton in Hx as ->.
  apply beats_irrefl.
Qed.

(** * Winners *)

(** The candidates [classify] finds eligible are the ones without a reason to
exclude them, with the score of their row. *)
Definition eligible_in (s : GraphSimState) (cands : dict (dict string)) (c : scored) : Prop :=
  ∃ refs row j, (name_of c, refs) ∈ cands ∧ _winner_exclusion_reason s (name_of c) refs = None
    ∧ c.2 = text_or (ref_get refs "score_id") "" ∧ scores s !! c.2 = Some row
    ∧ jitem row "score" = Ok j ∧ py_float j = Ok (score_of c).

Lemma classify_eligible s cands el ex el' ex' :
  classify s el ex cands = Ok (el', ex') →
  (∀ c, c ∈ el' → c ∈ el ∨ eligible_in s cands c)
  ∧ (∀ c, c ∈ el → c ∈ el')
  ∧ (∀ p refs, (p, refs) ∈ cands → _winner_exclusion_reason s p refs = None →
       ∃ c, c ∈ el' ∧ name_of c = p).
Proof.
  revert el ex. induction cands as [|[p refs] cands IH]; intros el ex H.
  { injection H as <- <-. split_and!; [auto|auto|]. intros p refs Hin. set_solver. }
  cbn [classify] in H. cbv zeta in H. destruct (_winner_exclusion_reason s p refs) as [r|] eqn:Hr.
  - destruct (IH _ _ H) as (H1 & H2 & H3). split_and!; [|done|].
    + intros c Hc. destruct (H1 c Hc) as [|(rf & row & j & Hin & Hx)]; [by left|right].
      exists rf, row, j. split; [set_solver|done].
    + intros p' refs' [[= -> ->]|Hin]%elem_of_cons Hn; [congruence|by eapply H3].
  - destruct (scores s !! text_or (ref_get refs "score_id") "") as [row|] eqn:Hs; [|done].
    apply res_bind_ok in H as (x & Hx & H). apply res_bind_ok in Hx as (j & Hj & Hx).
    destruct (IH _ _ H) as (H1 & H2 & H3). split_and!.
    + intros c Hc. destruct (H1 c Hc) as [Hin|(rf & rw & j' & Hin & Hy)].
      * apply elem_of_app in Hin as [Hin|Hin]; [by left|right].
        apply list_elem_of_singleton in Hin as ->. exists refs, row, j. split_and!; try done. set_solver.
      * right. exists rf, rw, j'. split; [set_solver|done].
    + intros c Hc. apply H2. set_solver.
    + intros p' refs' [[= -> ->]|Hin]%elem_of_cons Hn; [|by eapply H3].
      exists (x, p, text_or (ref_get refs "score_id") ""). split; [apply H2; set_solver|done].
Qed.

(** The winner is an eligible candidate that no eligible candidate beats. *)
Lemma winner_best arena cands s s' w :
  select_winner arena cands s = (Ok (Some w), s') →
  ∃ c, name_of c = w ∧ eligible_in s cands c
    ∧ (∀ p refs, (p, refs) ∈ cands → _winner_exclusion_reason s p refs = None →
         ∃ d, name_of d = p ∧ eligible_in s cands d ∧ beats d c = false).
Proof.
  intros H. unfold select_winner in H. rewrite ST_get_run in H.
  apply ST_bind_ok in H as (lists & s1 & H1 & H). injection H1 as H1 <-.
  destruct lists as [el ex]. cbn [fst snd] in H.
  destruct (classify_eligible _ _ _ _ _ _ H1) as (Hel & _ & Hall).
  destruct el as [|c rest]; [apply ST_bind_ok in H as (? & ? & _ & H); by injection H|].
  apply ST_bind_ok in H as (? & ? & _ & H). injection H as Hw _.
  assert (∀ d, d ∈ c :: rest → eligible_in s cands d) as Hin.
  { intros d Hd. destruct (Hel d Hd) as [Hx|]; [set_solver|done]. }
  exists (best c rest). split; [done|]. split; [apply Hin, best_in|].
  intros p refs Hp Hn. destruct (Hall p refs Hp Hn) as (d & Hd & <-).
  exists d. split_and!; [done|by apply Hin|by apply best_unbeaten].
Qed.

(** * Routes *)

Definition authorized_candidate (s : GraphSimState) (skill : string) (cands : dict string) (n : string) :
    Prop :=
  ∃ cap, (n, cap) ∈ cands ∧ authorized s cap "call" ("skill:" +:+ skill) 0 = true.

Lemma authorized_unlogged s s' cid a r n : unlogged s' = unlogged s → authorized s' cid a r n = authorized s cid a r n.
Proof.
  intros H. unfold authorized, owner_of.
  assert (capability_owner s' = capability_owner s) as -> by (by apply (f_equal capability_owner) in H).
  apply unlogged_eq_fields in H as (-> & _ & _ & -> & -> & _). done.
Qed.

(** A candidate once scored stays in the list. *)
Lemma score_routes_nonempty skill acc cands s l s' :
  acc ≠ [] → score_routes skill acc cands s = (Ok l, s') → l ≠ [].
Proof.
  revert acc s. induction cands as [|[m cp] cands IH]; intros acc s Hne H; [by injection H as <- _|].
  cbn [score_routes] in H. apply ST_bind_ok in H as (d & t1 & _ & H).
  destruct (bool_decide (d = DAllow)); cbn [negb] in H; [|by eapply IH].
  rewrite ST_get_run in H. apply ST_bind_ok in H as (w & t2 & _ & H).
  eapply IH; [|exact H]. by destruct acc.
Qed.

Lemma score_routes_authorized skill acc cands s l s' :
  ledger_ok s → score_routes skill acc cands s = (Ok l, s') →
  (∀ c, c ∈ l → c ∈ acc ∨ authorized_candidate s skill cands (name_of c))
  ∧ (acc = [] → l = [] → ∀ n, ¬ authorized_candidate s skill cands n).
Proof.
  revert acc s. induction cands as [|[n cap] cands IH]; intros acc s Hok H.
  { injection H as <- <-. split; [auto|]. intros _ _ n (c & Hin & _). set_solver. }
  cbn [score_routes] in H. apply ST_bind_ok in H as (d & s1 & Hd & H).
  destruct (use_free _ _ _ _ _ _ Hok Hd) as (Hv & Hu & Hok1).
  assert (∀ m, authorized_candidate s1 skill cands m → authorized_candidate s skill ((n, cap) :: cands) m)
    as Hmono.
  { intros m (c & Hin & Ha). exists c. split; [set_solver|]. by rewrite <-(authorized_unlogged s s1). }
  destruct (authorized s cap "call" ("skill:" +:+ skill) 0) eqn:Ha; subst d; cbn [negb] in H.
  - rewrite bool_decide_eq_true_2 in H by done. cbn [negb] in H.
    rewrite ST_get_run in H. apply ST_bind_ok in H as (w & s2 & Hw & H). injection Hw as Hw <-.
    destruct (IH _ _ Hok1 H) as [H1 _]. split.
    + intros c Hc. destruct (H1 c Hc) as [Hin|Hx]; [|right; by apply Hmono].
      apply elem_of_app in Hin as [|Hin]; [by left|right].
      apply list_elem_of_singleton in Hin as ->. exists cap. split; [set_solver|done].
    + intros -> ->. by eapply score_routes_nonempty in H.
  - rewrite bool_decide_eq_false_2 in H by done. cbn [negb] in H.
    destruct (IH _ _ Hok1 H) as [H1 H2]. split.
    + intros c Hc. destruct (H1 c Hc); [by left|right; by apply Hmono].
    + intros -> -> m (c & Hin & Hau). apply elem_of_cons in Hin as [[= -> ->]|Hin]; [congruence|].
      apply (H2 eq_refl eq_refl m). exists c. split; [done|]. by rewrite (authorized_unlogged s s1).
Qed.

(** A route goes to a candidate whose capability allows the call; there is none
exactly when no candidate is authorized. *)
Lemma route_authorized skill cands s r s' :
  ledger_ok s → select_route skill cands s = (Ok r, s') →
  match r with
  | Some n => authorized_candidate s skill cands n
  | None => ∀ n, ¬ authorized_candidate s skill cands n
  end.
Proof.
  intros Hok H. unfold select_route in H. apply ST_bind_ok in H as (l & s1 & Hl & H).
  destruct (score_routes_authorized _ _ _ _ _ _ Hok Hl) as [H1 H2].
  destruct l as [|c rest]; apply ST_bind_ok in H as (? & ? & _ & H); injection H as <- _.
  - by apply H2.
  - destruct (H1 (best c rest) (best_in c rest)) as [Hx|]; [set_solver|done].
Qed.

(** * Rewrites, deletion, recursion and reviews *)

(** * Rewrites *)

Definition applied_rewrite (rid : string) (s : GraphSimState) : GraphSimState :=
  set_rewrites
    (<[rid := with_updates (row_or (rewrites s) rid []) [("applied", JBool true)]]> (rewrites s)) s.

Lemma rewrite_apply_spec rid s :
  ledger_ok s →
  let refusal := rewrite_refusal (rewrites s !! rid) in
  ∃ s', apply_rewrite rid s = (Ok (if refusal then DDeny else DAllow), s')
    ∧ unlogged s' = unlogged (if refusal then s else applied_rewrite rid s).
Proof.
  intros Hok refusal. unfold apply_rewrite. rewrite ST_get_run. fold refusal.
  unfold _record. destruct refusal as [r|]; [apply denied_use; [exact Hok|reflexivity]|].
  pose proof (record_kind KRewriteApplied "rewrite.applied" "policy" [rid] [("rewrite_id", JS rid)]
    JNull JNull "public" s Hok eq_refl) as Hr.
  eexists. split; [by rewrite (bind_ok_run _ _ _ () _ Hr)|done].
Qed.

(** A rewrite is applied only when it is approved, its review is not critical
and it has a canary. *)
Lemma refusal_none row :
  rewrite_refusal row = None ↔
    ∃ r, row = Some r ∧ truthy (jget r "approved") = true ∧ is_text (jget r "review") "critical" = false
      ∧ truthy (jget r "canary") = true.
Proof.
  unfold rewrite_refusal. destruct row as [r|]; cbn [default from_option id].
  2:{ cbn. split; [done|]. by intros (r & H & _). }
  destruct (truthy (jget r "approved")) eqn:Ha; cbn [negb orb]; rewrite ?orb_true_r.
  2:{ split; [done|]. intros (r' & [= <-] & H & _). congruence. }
  destruct r as [|p r]; [by cbn in Ha|]. cbn [truthy negb orb].
  destruct (is_text (jget (p :: r) "review") "critical") eqn:Hc.
  { split; [done|]. intros (r' & [= <-] & _ & H & _). congruence. }
  destruct (truthy (jget (p :: r) "canary")) eqn:Hy; cbn [negb].
  - split; [|done]. intros _. by exists (p :: r).
  - split; [done|]. intros (r' & [= <-] & _ & _ & H). congruence.
Qed.

(** * Deletion *)

Definition deleted (n : string) (s : GraphSimState) : GraphSimState :=
  set_credentials ∅
    (set_processes (drop_owned n (processes s))
      (set_capabilities (revoke_owned n (capability_owner s) (capabilities s)) s)).

Lemma delete_spec n s :
  ledger_ok s →
  let previewed := has_key n (deletion_previews s) in
  ∃ s', apply_delete n s = (Ok (if previewed then DAllow else DDeny), s')
    ∧ unlogged s' = unlogged (if previewed then deleted n s else s).
Proof.
  intros Hok previewed. unfold apply_delete. rewrite ST_get_run. fold previewed.
  destruct previewed; cbn [negb]; unfold _record.
  - pose proof (record_kind KDeleteApplied "delete.applied" "system" [n] [("node_id", JS n)]
      JNull JNull "public" s Hok eq_refl) as Hr.
    eexists. split; [by rewrite (bind_ok_run _ _ _ () _ Hr)|done].
  - apply denied_use; [exact Hok|reflexivity].
Qed.

(** After a deletion the node's capabilities are revoked, its processes are gone
and no credential is left. *)
Lemma deleted_clears n s :
  (∀ c, (c, n) ∈ capability_owner s → is_Some (capabilities s !! c) → revoked_in c (deleted n s))
  ∧ (∀ p row, (p, row) ∈ processes (deleted n s) → is_text (jget row "owner") n = false)
  ∧ credentials (deleted n s) = ∅.
Proof.
  split_and!; [|intros p row Hin|done].
  - intros c Ho Hs. by apply revoke_owned_revokes.
  - cbn in Hin. unfold drop_owned in Hin. by apply list_elem_of_filter in Hin as [H _].
Qed.

(** * Recursion *)

Definition new_events (s s' : GraphSimState) : list SimEvent :=
  drop (length (ledger s)) (ledger s').

Lemma start_process_run pid o c ttl b md d mc hb s :
  ledger_ok s → d ≤ md →
  ∃ s' e, start_process pid o c ttl b md d mc hb s = (Ok DAllow, s') ∧ ledger s' = ledger s ++ [e]
    ∧ event_type e = "process.started" ∧ ledger_ok s'.
Proof.
  intros Hok Hd. unfold start_process. rewrite (proj2 (Z.ltb_ge _ _)) by lia. rewrite ST_get_run.
  match goal with |- context [record_as ?ety ?a ?ts ?bd ?au ?po ?rd] =>
    pose proof (record_kind KProcessStarted ety a ts bd au po rd s Hok eq_refl) as Hr;
    pose proof (record_ledger ety a ts bd au po rd s Hok) as Hl;
    set (e := event_for ety a ts bd au po rd s) in * end.
  rewrite Hr in Hl. eexists _, e. split; [by rewrite (bind_ok_run _ _ _ () _ Hr)|].
  destruct Hl as [Hl Hok']. split_and!; [exact Hl|done|exact Hok'].
Qed.

Lemma start_process_blocked pid o c ttl b md d mc hb s :
  ledger_ok s → md < d →
  ∃ s' e, start_process pid o c ttl b md d mc hb s = (Ok DBlocked, s') ∧ ledger s' = ledger s ++ [e]
    ∧ event_type e = "process.stopped".
Proof.
  intros Hok Hd. unfold start_process. rewrite (proj2 (Z.ltb_lt _ _)) by lia.
  unfold append_alert, _record. rewrite ST_modify_run. cbv beta.
  set (s1 := set_alerts _ s). assert (ledger_ok s1) as Hok1 by (by destruct Hok).
  pose proof (record_kind KProcessStopped "process.stopped" o [pid] (reason_payload "max_depth_exceeded")
    JNull JNull "public" s1 Hok1 eq_refl) as Hr.
  pose proof (record_ledger "process.stopped" o [pid] (reason_payload "max_depth_exceeded")
    JNull JNull "public" s1 Hok1) as [Hl _].
  cbv zeta in Hr, Hl. set (e := event_for _ _ _ _ _ _ _ s1) in *. rewrite Hr in Hl.
  assert ((handle KProcessStopped e (log_event e s1)).1 = Ok ()) as Ho by reflexivity.
  destruct (handle KProcessStopped e (log_event e s1)) as [out s2]. cbn [fst] in Ho. subst out.
  exists s2, e. split; [by rewrite (bind_ok_run _ _ _ () _ Hr)|]. by split.
Qed.

(** The loop starts one process per depth up to the limit, then records the stop. *)
Lemma recurse_loop_run root o c md k n s :
  ledger_ok s → Z.of_nat (k + n) = md + 1 →
  ∃ s', recurse_loop root o c md (map Z.of_nat (List.seq k (S n))) s = (Ok (), s')
    ∧ map event_type (new_events s s') = replicate n "process.started" ++ ["process.stopped"].
Proof.
  revert k s. induction n as [|n IH]; intros k s Hok Hk.
  - destruct (start_process_blocked (root +:+ "-" +:+ dec (Z.of_nat k)) o c 10 10 md (Z.of_nat k) 10 0 s)
      as (s' & e & H1 & H2 & H3); [done|lia|].
    exists s'. split.
    + cbn [List.seq map recurse_loop]. by rewrite (bind_ok_run _ _ _ _ _ H1).
    + unfold new_events. rewrite H2, drop_app_length. cbn. by rewrite H3.
  - destruct (start_process_run (root +:+ "-" +:+ dec (Z.of_nat k)) o c 10 10 md (Z.of_nat k) 10 0 s)
      as (s1 & e & H1 & H2 & H3 & Hok1); [done|lia|].
    destruct (IH (S k) s1 Hok1 ltac:(lia)) as (s' & H4 & H5). exists s'. split.
    + change (List.seq k (S (S n))) with (k :: List.seq (S k) (S n)). cbn [map recurse_loop].
      by rewrite (bind_ok_run _ _ _ _ _ H1).
    + destruct (traced_grows (recurse_loop root o c md (map Z.of_nat (List.seq (S k) (S n)))) s1)
        as [[l Hl] _]; [|done|].
      { clear. generalize (map Z.of_nat (List.seq (S k) (S n))) as ds. induction ds as [|d ds IH];
          cbn [recurse_loop]; ksolve; apply IH. }
      rewrite H4 in Hl. cbn [snd] in Hl. revert H5. unfold new_events. rewrite Hl.
      rewrite drop_app_length. intros H5. rewrite H2, <-app_assoc, drop_app_length. cbn. by rewrite H3, H5.
Qed.

(** * Review findings *)

(** A reviewer that claims it may mutate is refused; the state keeps only the violation. *)
Lemma mutating_review_refused p rv t f sv c row s :
  ledger_ok s → processes s !! p = Some row →
  ∃ s', emit_review_finding p rv t f sv c true s = (Ok DDeny, s')
    ∧ set_violations [] (unlogged s') = set_violations [] (unlogged s)
    ∧ "reviewer_mutation_authority_forbidden" ∈ violations s'.
Proof.
  intros Hok Hp. unfold emit_review_finding. rewrite ST_get_run, Hp. unfold append_violation, record_review.
  rewrite ST_modify_run. cbv beta. set (s1 := set_violations _ s).
  assert (ledger_ok s1) as Hok1 by (by destruct Hok).
  match goal with |- context [record_as ?ety ?a ?ts ?bd ?au ?po ?rd] =>
    pose proof (record_kind KReviewRejected ety a ts bd au po rd s1 Hok1 eq_refl) as Hr;
    set (e := event_for ety a ts bd au po rd s1) in * end.
  cbn [handle] in Hr. unfold apply_review_rejected in Hr.
  change (reason_of (payload e)) with "reviewer_mutation_authority_forbidden" in Hr.
  eexists. split; [by rewrite (bind_ok_run _ _ _ () _ Hr)|]. split; [done|].
  cbn [violations set_violations]. apply elem_of_add_once. auto.
Qed.
