(* ===== verification/KernelDivergence.v ===== *)
(** Runs of the kernel on which the code and its documentation part.

    Each scenario is a concrete sequence of calls, evaluated.  The
    documentation is docs/design/capability-graph/ of the control plane. *)
From Stdlib Require Import Ascii.
From S2P Require Import Prelude PyStr PyDict PyFloat PyJson FnMatch Capability Policy KernelState.
From S2P Require Import KernelOps KernelRouting KernelLoops.
Open Scope Z_scope.

Definition call_cap (budget depth : Z) : Capability :=
  mkCap {[ "call" ]} ["skill:*"] [] None budget depth false.

(** The state after a sequence of calls from the empty state. *)
Definition after (os : list op) : GraphSimState := (run_ops "secret" os (new_state 0)).2.

Definition replayed (s : GraphSimState) : option GraphSimState :=
  match replay (map (inr ∘ event_dump) (ledger s)) with Ok r => Some r | Raise _ => None end.

(** What [state.summary()] shows after a replay. *)
Definition budget_in (s : option GraphSimState) (c : string) : option Z :=
  s ← s; budget <$> capabilities s !! c.

(** A debit changes the budget in place; the reducer has no branch for
[budget.debited], so the replay shows the budget before the debit. *)
Definition debit_run : list op :=
  [OMint "c" "agent" (call_cap 10 0); OUseCapability "c" "call" "skill:x" 3].

Lemma budget_not_replayed :
  budget_in (Some (after debit_run)) "c" = Some 7
  ∧ budget_in (replayed (after debit_run)) "c" = Some 10.
Proof. vm_compute. done. Qed.

(** A second overflow appends its alert again; the replay keeps one. *)
Definition overflow_run : list op :=
  [OStartProcess "p" "agent" "c" 10 10 0 1 10 0; OStartProcess "q" "agent" "c" 10 10 0 1 10 0].

Lemma alerts_not_replayed :
  alerts (after overflow_run) = ["max_depth_exceeded"; "max_depth_exceeded"]
  ∧ (alerts <$> replayed (after overflow_run)) = Some ["max_depth_exceeded"].
Proof. vm_compute. done. Qed.

(** Revocation reaches the direct children only: a grandchild stays usable. *)
Definition cascade_run : list op :=
  [OMint "a" "x" (call_cap 10 3); ODelegate "a" "b" "y" (call_cap 10 2);
   ODelegate "b" "c" "z" (call_cap 10 1); ORevoke "a"].

Lemma revocation_stops_at_children :
  (use_capability "b" "call" "skill:x" 0 (after cascade_run)).1 = Ok DDeny
  ∧ (use_capability "c" "call" "skill:x" 0 (after cascade_run)).1 = Ok DAllow.
Proof. vm_compute. done. Qed.

(** A frozen edge is activated again by [activate_edge]. *)
Definition frozen_edge_run : list op :=
  [OCreatePort "n" "out" "output" "s" None; OCreatePort "m" "in" "input" "s" None;
   OProposeEdge "e" "n" "out" "m" "in" "call" None None None; OActivateEdge "e" [] None;
   OFreezeEdge "e" "incident"].

Lemma frozen_edge_reactivated :
  ((λ row, jget row "state") <$> edges (after frozen_edge_run) !! "e") = Some (JStr "frozen")
  ∧ (activate_edge "secret" "e" [] None (after frozen_edge_run)).1 = Ok DAllow
  ∧ (use_edge "e" 1 (activate_edge "secret" "e" [] None (after frozen_edge_run)).2).1 = Ok DAllow.
Proof. vm_compute. done. Qed.

(** Freezing an edge that was never proposed leaves a row without a type; activating
it raises [KeyError]. *)
Lemma freeze_unknown_edge_raises :
  (activate_edge "secret" "e" [] None (after [OFreezeEdge "e" "incident"])).1 = Raise (KeyError "edge_type").
Proof. vm_compute. done. Qed.

(** Minting an existing id again brings a revoked capability back. *)
Lemma mint_revives_revoked :
  (use_capability "c" "call" "skill:x" 0
     (after [OMint "c" "agent" (call_cap 10 0); ORevoke "c"])).1 = Ok DDeny
  ∧ (use_capability "c" "call" "skill:x" 0
     (after [OMint "c" "agent" (call_cap 10 0); ORevoke "c"; OMint "c" "agent" (call_cap 10 0)])).1
    = Ok DAllow.
Proof. vm_compute. done. Qed.

(** The payload of a signal overrides the node it is credited to. *)
Lemma signal_payload_overrides_node :
  (λ row, jget row "node_id") <$> signals (after [OEmitSignal "mallory" "success" [("node_id", JStr "alice")]])
  = [JStr "alice"].
Proof. vm_compute. done. Qed.

(** The order on patterns takes a child whose names the parent does not match. *)
Lemma pattern_order_bracket :
  let parent := String "a" (String "[" (String "*" "")) in
  let child := String "a" (String "[" (String "b" (String "c" (String "]" "")))) in
  _pattern_subset child parent = true ∧ fnmatch "ab" child = true ∧ fnmatch "ab" parent = false.
Proof. vm_compute. done. Qed.

(** A negative cost passes the check and raises the budget. *)
Lemma negative_cost_raises_budget :
  budget_in (Some (after [OMint "c" "agent" (call_cap 10 0); OUseCapability "c" "call" "skill:x" (-5)])) "c"
  = Some 15.
Proof. vm_compute. done. Qed.

(** In a state replayed from a ledger with a gap, the next event takes an id that has been
seen: the call returns, and nothing is recorded. *)
Definition gap_ledger : list SimEvent :=
  [mkEvent "evt-0002" 2 0 "node.created" "system" ["b"] JNull JNull [("node_id", JStr "b")] "public"].

Lemma record_lost_after_gap :
  match replay (map inl gap_ledger) with
  | Ok r => (create_node "a" r).1 = Ok () ∧ nodes (create_node "a" r).2 = {[ "b" ]}
            ∧ length (ledger (create_node "a" r).2) = 1%nat
  | Raise _ => False
  end.
Proof. vm_compute. done. Qed.

(** An incident freeze below a revocation: the stack answers with the revocation,
although the documented order puts the denial and the freeze first. *)
Lemma revoke_before_deny :
  pd_effect (resolve "call" "skill:x"
    [mkRule "p" LPlatform EDeny {[ "*" ]} ["*"] 0; mkRule "q" LOwner EFreeze {[ "*" ]} ["*"] 5;
     mkRule "r" LProcess ERevoke {[ "*" ]} ["*"] 9]) = Some ERevoke.
Proof. vm_compute. done. Qed.

(** A signal of a node without a name is replayed, from the dump of its event, as
one of the system. *)
Lemma empty_actor_not_replayed :
  let s := after [OEmitSignal "" "success" []] in
  ((λ row, jget row "node_id") <$> signals s) = [JStr ""]
  ∧ (map (λ row, jget row "node_id") ∘ signals <$> replayed s) = Some [JStr "system"].
Proof. vm_compute. done. Qed.

(** A frozen endpoint without a name lets the edge be used, and hides that the other
endpoint is frozen too. *)
Lemma nameless_endpoint_unchecked :
  let s := after [OCreatePort "" "out" "output" "s" None; OCreatePort "m" "in" "input" "s" None;
                  OProposeEdge "e" "" "out" "m" "in" "call" None None None; OActivateEdge "e" [] None;
                  OFreezeNode "" "incident"; OFreezeNode "m" "incident"] in
  "m" ∈ frozen_nodes s ∧ (use_edge "e" 1 s).1 = Ok DAllow.
Proof. split; [by apply (bool_decide_unpack (_ ∈ _))|vm_compute; done]. Qed.

(** An export hides values of the payload only: the actor and the keys are shown. *)
Lemma export_names_shown :
  map (λ e, match export_event VPublic e with JObj row => (jget row "actor_node_id", jget row "payload") | j => (j, j) end)
    (ledger (after [OEmitSignal "sk-live-1" "success" [("sk-live-2", JInt 1)]]))
  = [(JStr "sk-live-1", JObj [("signal_type", JStr "success"); ("sk-live-2", JInt 1)])].
Proof. vm_compute. done. Qed.
