(* ===== verification/KernelProperties.v ===== *)
(** The properties of the graph kernel.

    [run_ops] is any sequence of public calls; [ledger_ok] holds in every state
    such a sequence reaches ([ledger_numbered]), so the properties of single
    calls assume it and nothing else of the state. *)
From S2P Require Import Prelude PyStr PyDict PyFloat PyJson FnMatch Capability Policy PolicyFacts.
From S2P Require Import KernelState KernelOps KernelRouting KernelLoops KernelSteps.
From S2P Require Import KernelLedger KernelReplay KernelFacts KernelEdges KernelGovern.
From S2P Require Import KernelDivergence.
Open Scope Z_scope.

Lemma after_ok os : ledger_ok (after os).
Proof. apply traced_ledger_ok; [apply ops_traced|apply ledger_ok_new]. Qed.

(** * Replay *)

(** C1: replaying the events that a run of public calls recorded rebuilds the state, when
none of the calls raised: every part of it but the budgets and the credentials, and the
alerts and violations without their repetitions.  So does replaying the dump of the
events, when each of them names an actor and a redaction class: an empty name loads as
the default one. *)
Theorem replay_rebuilds_state secret os s :
  run_ops secret os (new_state 0) = (Ok (), s) →
  (∃ r, replay (map inl (ledger s)) = Ok r ∧ replays r s)
  ∧ ((∀ e, e ∈ ledger s → actor_node_id e ≠ "" ∧ redaction_class e ≠ "") →
     ∃ r, replay (map (inr ∘ event_dump) (ledger s)) = Ok r ∧ replays r s).
Proof.
  intros Hrun. apply run_ops_ksteps in Hrun. split; [|intros Hload]; apply replay_ledger; try done.
  - apply load_items_events.
  - by apply load_items_dump, Forall_forall.
Qed.

Definition sample_run : list op :=
  [OCreateNode "n"; OCreatePort "n" "out" "output" "s" None; OCreatePort "m" "in" "input" "s" None;
   OMint "c" "n" (call_cap 10 2); ODelegate "c" "d" "m" (call_cap 4 1);
   OStartProcess "p" "n" "c" 10 10 3 0 10 0;
   OProposeEdge "e" "n" "out" "m" "in" "call" None (Some "p") None; OActivateEdge "e" [] None;
   OUseEdge "e" 2; OEmitSignal "n" "success" []; OSelectRoute "x" [("n", "c")]; OAdvanceTime 3;
   OFreezeNode "m" "incident"; OPreviewDelete "n"].

Lemma sample_run_ok : run_ops "secret" sample_run (new_state 0) = (Ok (), after sample_run).
Proof. vm_compute. reflexivity. Qed.

Lemma replay_rebuilds_state_witness :
  ∃ r, replay (map (inr ∘ event_dump) (ledger (after sample_run))) = Ok r ∧ replays r (after sample_run).
Proof.
  apply (replay_rebuilds_state "secret" sample_run _ sample_run_ok). apply (proj1 (Forall_forall loadable _)).
  apply (bool_decide_unpack (Forall loadable (ledger (after sample_run)))). vm_compute. exact I.
Defined.

(** C5: whatever is called, and even when a call raises, the ledger is numbered from 1 without
gaps, the ids derive from the numbers, and exactly these ids have been seen. *)
Theorem ledger_numbered secret os t : ledger_ok (run_ops secret os (new_state t)).2.
Proof. apply traced_ledger_ok; [apply ops_traced|apply ledger_ok_new]. Qed.

(** No call removes or rewrites an event, and none unfreezes a node. *)
Theorem ledger_append_only secret os o t :
  let s := (run_ops secret os (new_state t)).2 in
  let s' := (run_op secret o s).2 in
  ledger s `prefix_of` ledger s' ∧ frozen_nodes s ⊆ frozen_nodes s'.
Proof.
  intros s s'. apply (traced_grows (run_op secret o) s); [apply op_traced|].
  apply traced_ledger_ok; [apply ops_traced|apply ledger_ok_new].
Qed.

(** * Authority *)

(** C2: a capability that was delegated allows no action its parent does not, denies whatever
its parent denies, expires no later, has no more budget and a smaller depth.  When no
resource pattern of the parent holds a bracket, whatever the child can be used for, the
parent could be used for. *)
Theorem delegate_attenuates pid cid owner requested parent s s' d :
  ledger_ok s → capabilities s !! pid = Some parent →
  delegate pid cid owner requested s = (Ok d, s') → d ≠ DDeny →
  ∃ child, capabilities s' !! cid = Some child ∧ capability_owner s' !! cid = Some owner
    ∧ is_subset_of child parent = true ∧ actions child ⊆ actions parent ∧ deny parent ⊆ deny child
    ∧ (∀ e, expires_at parent = Some e → ∃ e', expires_at child = Some e' ∧ e' ≤ e)
    ∧ budget child ≤ budget parent ∧ delegation_depth child < delegation_depth parent
    ∧ ((∀ p, p ∈ resources parent → bracket_free p = true) → ∀ a r t, covers child a r t → covers parent a r t).
Proof.
  intros Hok Hp H Hd. destruct (delegate_spec pid cid owner requested parent s Hok Hp) as (t & Ht & Hu).
  rewrite H in Ht. injection Ht as Hv <-.
  destruct (delegation_refused parent requested) eqn:E; [destruct (Hd Hv)|].
  assert (revoked parent = false ∧ 0 < delegation_depth parent) as [Hr Hdep].
  { unfold delegation_refused in E. apply orb_false_iff in E as [E _].
    apply orb_false_iff in E as [E1 E2]. split; [done|lia]. }
  exists (narrowed_to parent requested).
  assert (∀ (A : Type) (f : GraphSimState → A), f (unlogged s')
    = f (unlogged (granted_state cid owner (narrowed_to parent requested) (JS pid) s))) as Hf by (intros; by rewrite Hu).
  pose proof (Hf _ capabilities) as Hcap. pose proof (Hf _ capability_owner) as Hown.
  assert (capabilities s' !! cid = Some (narrowed_to parent requested)) as Hc.
  { unfold granted_state in Hcap. destruct (truthy (JS pid)); cbn in Hcap; rewrite Hcap; apply dict_lookup_insert. }
  assert (capability_owner s' !! cid = Some owner) as Ho.
  { unfold granted_state in Hown. destruct (truthy (JS pid)); cbn in Hown; rewrite Hown; apply dict_lookup_insert. }
  clear Hf Hcap Hown Hu. destruct (narrowed_bounds parent requested) as [Hbud Hdepth]. split; [exact Hc|]. split; [exact Ho|].
  split; [apply narrowed_is_subset|]. split; [intros x Hx; apply elem_of_intersection in Hx; apply Hx|].
  split; [apply narrowed_deny|]. split; [apply narrowed_expiry|]. split; [exact Hbud|]. split; [by apply Hdepth|].
  intros Hb a r u. rewrite <-!can_use_covers. apply delegation_attenuates; [exact Hr|]. by apply forallb_elem.
Qed.

Lemma delegate_attenuates_witness :
  let s := after [OMint "a" "x" (call_cap 10 3)] in
  ∃ child, capabilities (delegate "a" "b" "y" (call_cap 20 9) s).2 !! "b" = Some child
    ∧ budget child ≤ 10.
Proof.
  intros s. destruct (delegate_attenuates "a" "b" "y" (call_cap 20 9) (call_cap 10 3) s
    (delegate "a" "b" "y" (call_cap 20 9) s).2 DNarrow) as (child & H1 & _ & _ & _ & _ & _ & H2 & _).
  - apply after_ok.
  - vm_compute. reflexivity.
  - vm_compute. reflexivity.
  - discriminate.
  - exists child. split; [exact H1|exact H2].
Defined.

(** C3: a use is allowed exactly when the capability exists, its owner is not frozen, the
budget covers the cost, and the capability is neither revoked nor expired, lists the
action, has a pattern that matches the resource and denies it by none; otherwise it is
denied.  An allowed use takes the cost from the budget, down to zero at most, and changes
nothing else; a denied one changes nothing.  Both write the log. *)
Theorem use_capability_exact cid a r cost s :
  ledger_ok s →
  ∃ d s', use_capability cid a r cost s = (Ok d, s') ∧ (d = DAllow ∨ d = DDeny)
    ∧ (d = DAllow ↔ ∃ c, capabilities s !! cid = Some c
         ∧ default "system" (capability_owner s !! cid) ∉ frozen_nodes s ∧ (cost = 0 ∨ cost ≤ budget c)
         ∧ revoked c = false ∧ (∀ e, expires_at c = Some e → now s < e) ∧ a ∈ actions c
         ∧ (∃ p, p ∈ resources c ∧ fnmatch r p = true) ∧ (∀ p, p ∈ deny c → fnmatch r p = false))
    ∧ (d = DDeny → unlogged s' = unlogged s)
    ∧ (d = DAllow → ∀ c, capabilities s !! cid = Some c →
         unlogged s' = unlogged (set_capabilities (<[cid := spent c cost]> (capabilities s)) s)).
Proof.
  intros Hok. destruct (use_capability_spec cid a r cost s Hok) as (s' & H & Hu). eexists _, s'. split; [exact H|].
  pose proof (authorized_permitted s cid a r cost) as Hp. destruct (authorized s cid a r cost).
  - split; [by left|]. split; [|split; [done|intros _ c Hc; by rewrite Hu, (charge_spent _ _ _ c)]].
    split; [intros _|done]. destruct (proj1 Hp eq_refl) as (c & ? & [] & ? & ?). exists c. by split_and!.
  - split; [by right|]. split; [|by split]. split; [done|].
    intros (c & ? & ? & ? & ? & ? & ? & ? & ?). enough (false = true) by done. apply Hp. exists c. by split_and!.
Qed.

Lemma use_capability_exact_witness :
  ∃ s', use_capability "c" "call" "skill:x" 3 (after [OMint "c" "agent" (call_cap 10 0)]) = (Ok DAllow, s').
Proof.
  destruct (use_capability_exact "c" "call" "skill:x" 3 (after [OMint "c" "agent" (call_cap 10 0)])
    (after_ok _)) as (d & s' & H & _ & Hd & _).
  exists s'. rewrite H. enough (d = DAllow) as -> by reflexivity. apply Hd. exists (call_cap 10 0).
  split; [reflexivity|]. split; [by apply (bool_decide_unpack (_ ∉ _))|]. split; [right; cbn; lia|].
  split; [reflexivity|]. split; [discriminate|]. split; [by apply (bool_decide_unpack (_ ∈ _))|].
  split; [exists "skill:*"; split; [left|reflexivity]|]. intros p Hp. destruct (not_elem_of_nil p Hp).
Defined.

Lemma no_grant_check x l :
  forallb (λ e, negb (bool_decide (grant_of e = Some x))) l = true → ∀ e, e ∈ l → grant_of e ≠ Some x.
Proof.
  intros H e He. apply (proj1 (forallb_elem _ _) H) in He. by case_bool_decide.
Qed.

(** C4: once revoked, a capability is refused for every later use, whatever is called in
between, until the ledger shows a new grant of the same id. *)
Theorem revoked_stays_denied secret os x s a r cost :
  ledger_ok s → revoked_in x s →
  let s' := (run_ops secret os s).2 in
  (∀ e, e ∈ new_events s s' → grant_of e ≠ Some x) →
  (use_capability x a r cost s').1 = Ok DDeny.
Proof.
  intros Hok Hr s' Hg.
  destruct (traced_revoked_until x (run_ops secret os) s (ops_traced secret os) Hok) as (evs & Hl & Hx).
  destruct Hx as (c & Hc & Hrev); [|done|].
  { intros e He. apply Hg. unfold new_events, s'. by rewrite Hl, drop_app_length. }
  destruct (use_capability_spec x a r cost s') as (t & -> & _).
  { apply traced_ledger_ok; [apply ops_traced|done]. }
  rewrite authorized_false; [done|]. right. intros c' Hc'. left. unfold s' in Hc'. congruence.
Qed.

Lemma revoked_stays_denied_witness :
  (use_capability "c" "call" "skill:x" 0
    (run_ops "secret" [OAdvanceTime 5; OMint "d" "agent" (call_cap 1 0)]
       (after [OMint "c" "agent" (call_cap 10 0); ORevoke "c"])).2).1 = Ok DDeny.
Proof.
  apply (revoked_stays_denied "secret" [OAdvanceTime 5; OMint "d" "agent" (call_cap 1 0)] "c"
    (after [OMint "c" "agent" (call_cap 10 0); ORevoke "c"]) "call" "skill:x" 0 (after_ok _)).
  - exists (revoked_copy (call_cap 10 0)). split; vm_compute; reflexivity.
  - apply no_grant_check. vm_compute. reflexivity.
Defined.

(** * Edges *)

(** C7: an edge is used only when it is active, its capability, if it carries one, covers the
call, no endpoint is frozen (where no node of the empty name is), and its process, if it
has one, exists and is within its limits; the process then has one call more and pays the
cost, so that it stays within its call limit and never below a zero budget. *)
Theorem use_edge_requires eid cost s s' :
  ledger_ok s → use_edge eid cost s = (Ok DAllow, s') →
  ∃ edge, edges s !! eid = Some edge ∧ is_text (jget edge "state") "active" = true
    ∧ edge_granted s edge
    ∧ ("" ∉ frozen_nodes s → ∃ fn tn, endpoint_node edge "from" = Ok fn ∧ endpoint_node edge "to" = Ok tn
         ∧ ∀ n, n ∈ frozen_nodes s → fn ≠ JStr n ∧ tn ≠ JStr n)
    ∧ (truthy (jget edge "process_id") = true →
       ∃ row, processes s !! py_str (jget edge "process_id") = Some row
         ∧ within_limits (now s) cost row
         ∧ ∀ calls b limit, int_field row "call_count" = Ok calls →
             int_field row "budget_remaining" = Ok b → int_field row "max_calls" = Ok limit →
             ∃ row', processes s' !! py_str (jget edge "process_id") = Some row'
               ∧ int_field row' "call_count" = Ok (calls + 1) ∧ calls + 1 ≤ limit
               ∧ int_field row' "budget_remaining" = Ok (Z.max (b - cost) 0)).
Proof.
  intros Hok H. destruct (use_edge_allowed eid cost s s' Hok H) as (edge & H1 & H2 & H3 & H4 & H5).
  exists edge. split; [done|]. split; [done|]. split; [done|]. split.
  { intros He. destruct (H4 He) as (fn & tn & Hf & Ht & Hn). exists fn, tn. split; [done|]. split; [done|].
    intros n Hin. specialize (Hn n Hin). set_solver. }
  intros Ht. destruct (H5 Ht) as (row & H6 & H7 & H8).
  exists row. split_and!; [done..|]. intros calls b limit Hc Hb Hl.
  exists (charged_row row (calls + 1) (Z.max (b - cost) 0)).
  destruct (charged_row_fields row (calls + 1) (Z.max (b - cost) 0)) as (F1 & F2 & _).
  split_and!; [by apply H8|done| |done].
  destruct H7 as [_ _ (calls' & limit' & Hc' & Hl' & Hlt) _]. rewrite Hc in Hc'. rewrite Hl in Hl'.
  injection Hc' as <-. injection Hl' as <-. lia.
Qed.

Definition edge_run : list op :=
  [OCreatePort "n" "out" "output" "s" None; OCreatePort "m" "in" "input" "s" None;
   OStartProcess "p" "n" "c" 10 10 3 0 10 0;
   OProposeEdge "e" "n" "out" "m" "in" "call" None (Some "p") None; OActivateEdge "e" [] None].

Lemma use_edge_requires_witness :
  ∃ edge, edges (after edge_run) !! "e" = Some edge ∧ truthy (jget edge "process_id") = true
    ∧ ∃ row, processes (after edge_run) !! py_str (jget edge "process_id") = Some row
        ∧ within_limits 0 4 row.
Proof.
  destruct (use_edge_requires "e" 4 (after edge_run) (use_edge "e" 4 (after edge_run)).2
    (after_ok _)) as (edge & H1 & _ & _ & _ & H2); [vm_compute; reflexivity|].
  exists edge. assert (truthy (jget edge "process_id") = true) as Ht.
  { vm_compute in H1. injection H1 as <-. reflexivity. }
  split; [exact H1|]. split; [exact Ht|]. destruct (H2 Ht) as (row & H3 & H4 & _).
  exists row. split; [exact H3|exact H4].
Defined.

(** An edge is activated only when its process is running, the policy stack that was given
decides allow or narrow, and its capability covers the call; it is active afterwards. *)
Theorem activate_edge_requires secret eid ps did s s' edge :
  ledger_ok s → activate_edge secret eid ps did s = (Ok DAllow, s') →
  edges s !! eid = Some edge → is_text (jget edge "state") "active" = false →
  ∃ ty target res, jitem edge "edge_type" = Ok ty ∧ jitem edge "to" = Ok target
    ∧ port_resource target = Ok res
    ∧ not_running s (jget edge "process_id") = Ok false
    ∧ (ps ≠ [] → let d := pd_decision (resolve (py_str ty) res ps) in d = DAllow ∨ d = DNarrow)
    ∧ (truthy (jget edge "capability_id") = true →
       authorized s (py_str (jget edge "capability_id")) (py_str ty) res 0 = true)
    ∧ ∃ row, edges s' !! eid = Some row ∧ jget row "state" = JStr "active".
Proof. apply activate_edge_allowed. Qed.

Definition allow_rule : PolicyRule := mkRule "r" LOwner EAllow {[ "call" ]} ["m:*"] 0.

Lemma activate_edge_requires_witness :
  let s := after (take 4 edge_run) in
  ∃ row, edges (activate_edge "secret" "e" [allow_rule] None s).2 !! "e" = Some row
    ∧ jget row "state" = JStr "active".
Proof.
  intros s. destruct (edges s !! "e") as [edge|] eqn:He; [|vm_compute in He; discriminate He].
  destruct (activate_edge_requires "secret" "e" [allow_rule] None s
    (activate_edge "secret" "e" [allow_rule] None s).2 edge (after_ok _))
    as (ty & target & res & _ & _ & _ & _ & _ & _ & row & H1 & H2).
  - vm_compute. reflexivity.
  - exact He.
  - vm_compute in He. injection He as <-. reflexivity.
  - exists row. split; [exact H1|exact H2].
Defined.

(** * Governance *)

(** A rewrite is applied exactly when it is approved, its review is not critical and it
has a canary; otherwise nothing changes but the log. *)
Theorem rewrite_gate rid s :
  ledger_ok s →
  ∃ d s', apply_rewrite rid s = (Ok d, s')
    ∧ (d = DAllow ↔ ∃ r, rewrites s !! rid = Some r ∧ truthy (jget r "approved") = true
         ∧ is_text (jget r "review") "critical" = false ∧ truthy (jget r "canary") = true)
    ∧ unlogged s' = unlogged (if decide (d = DAllow) then applied_rewrite rid s else s).
Proof.
  intros Hok. destruct (rewrite_apply_spec rid s Hok) as (s' & H1 & H2).
  eexists _, s'. split; [exact H1|]. rewrite <-refusal_none.
  by destruct (rewrite_refusal (rewrites s !! rid)).
Qed.

Lemma rewrite_gate_witness :
  ∃ d s', apply_rewrite "r" (after [OProposeRewrite "r" "t" []; OApproveRewrite "r" "passed" true])
          = (Ok d, s') ∧ d = DAllow.
Proof.
  destruct (rewrite_gate "r" (after [OProposeRewrite "r" "t" []; OApproveRewrite "r" "passed" true])
    (after_ok _)) as (d & s' & H1 & H2 & _).
  exists d, s'. split; [exact H1|]. apply H2. eexists. split; [vm_compute; reflexivity|].
  vm_compute. done.
Defined.

(** A node is deleted only after a preview; its capabilities are then revoked, its
processes gone and no credential is left. *)
Theorem delete_after_preview n s :
  ledger_ok s →
  ∃ d s', apply_delete n s = (Ok d, s') ∧ (d = DAllow ↔ is_Some (deletion_previews s !! n))
    ∧ (d ≠ DAllow → unlogged s' = unlogged s)
    ∧ (d = DAllow → credentials s' = ∅
        ∧ (∀ c, (c, n) ∈ capability_owner s → is_Some (capabilities s !! c) → revoked_in c s')
        ∧ ∀ p row, (p, row) ∈ processes s' → is_text (jget row "owner") n = false).
Proof.
  intros Hok. destruct (delete_spec n s Hok) as (s' & H1 & H2). eexists _, s'. split; [exact H1|].
  rewrite <-has_key_true. destruct (has_key n (deletion_previews s)).
  - split_and!; [done|by intros []|]. intros _. destruct (deleted_clears n s) as (D1 & D2 & D3).
    assert (∀ (A : Type) (f : GraphSimState → A), f (unlogged s') = f (unlogged (deleted n s))) as Hf
      by (intros; by rewrite H2).
    split_and!; [exact (Hf _ credentials)| |].
    + intros c Ho Hs. destruct (D1 c Ho Hs) as (v & Hv & Hr). exists v. split; [|done].
      pose proof (Hf _ capabilities) as Hc. cbn in Hc. rewrite Hc. exact Hv.
    + intros p row Hin. pose proof (Hf _ processes) as Hp. cbn in Hp. rewrite Hp in Hin. by apply (D2 p).
  - split_and!; [split; discriminate|done|discriminate].
Qed.

Lemma delete_after_preview_witness :
  ∃ d s', apply_delete "n" (after sample_run) = (Ok d, s') ∧ d = DAllow ∧ revoked_in "c" s'.
Proof.
  destruct (delete_after_preview "n" (after sample_run) (after_ok _)) as (d & s' & H1 & H2 & _ & H3).
  assert (d = DAllow) as Hd by (apply H2; eexists; vm_compute; reflexivity).
  exists d, s'. split; [exact H1|]. split; [exact Hd|]. apply (H3 Hd).
  - vm_compute. left.
  - eexists. vm_compute. reflexivity.
Defined.

(** The winner of an arena is an eligible candidate, and every eligible candidate has a
score that does not beat the winner's. *)
Theorem winner_is_best arena cands s s' w :
  select_winner arena cands s = (Ok (Some w), s') →
  ∃ c, name_of c = w ∧ eligible_in s cands c
    ∧ ∀ p refs, (p, refs) ∈ cands → _winner_exclusion_reason s p refs = None →
        ∃ d, name_of d = p ∧ eligible_in s cands d ∧ beats d c = false.
Proof. apply winner_best. Qed.

Definition arena_run : list op :=
  [OCreateNode "a"; OCreateNode "b";
   ORecordOutcome "oa" "a" None None None [] "completed"; ORecordOutcome "ob" "b" None None None [] "completed";
   OScore "sa" "a" "oa" (JInt 3) []; OScore "sb" "b" "ob" (JInt 5) []].

Definition arena_candidates : dict (dict string) :=
  [("a", [("score_id", "sa")]); ("b", [("score_id", "sb")]); ("z", [("score_id", "sz")])].

Lemma winner_is_best_witness :
  ∃ c, name_of c = "b" ∧ eligible_in (after arena_run) arena_candidates c.
Proof.
  destruct (winner_is_best "arena" arena_candidates (after arena_run)
    (select_winner "arena" arena_candidates (after arena_run)).2 "b") as (c & H1 & H2 & _).
  - vm_compute. reflexivity.
  - exists c. split; [exact H1|exact H2].
Defined.

(** Signals never authorize: a route goes to a candidate whose capability allows the call,
and there is no route only if no candidate is authorized. *)
Theorem route_is_authorized skill cands s r s' :
  ledger_ok s → select_route skill cands s = (Ok r, s') →
  match r with
  | Some n => authorized_candidate s skill cands n
  | None => ∀ n, ¬ authorized_candidate s skill cands n
  end.
Proof. apply route_authorized. Qed.

Lemma route_is_authorized_witness :
  authorized_candidate (after [OMint "c" "n" (call_cap 10 0); OEmitSignal "m" "success" []])
    "x" [("m", "none"); ("n", "c")] "n".
Proof.
  apply (route_is_authorized "x" [("m", "none"); ("n", "c")]
    (after [OMint "c" "n" (call_cap 10 0); OEmitSignal "m" "success" []]) (Some "n")
    (select_route "x" [("m", "none"); ("n", "c")]
       (after [OMint "c" "n" (call_cap 10 0); OEmitSignal "m" "success" []])).2 (after_ok _)).
  vm_compute. reflexivity.
Defined.

(** A recursion of depth limit [d] always ends: it starts [d + 1] processes and records
one stop. *)
Theorem recursion_bounded root owner cap d s :
  ledger_ok s → 0 ≤ d →
  ∃ s', recurse_process root owner cap d s = (Ok (), s')
    ∧ map event_type (new_events s s')
      = replicate (Z.to_nat (d + 1)) "process.started" ++ ["process.stopped"].
Proof.
  intros Hok Hd. destruct (recurse_loop_run root owner cap d 0 (Z.to_nat (d + 1)) s Hok ltac:(lia))
    as (s' & H1 & H2). exists s'. split; [|exact H2]. unfold recurse_process, py_range.
  replace (Z.to_nat (d + 2)) with (S (Z.to_nat (d + 1))) by lia. exact H1.
Qed.

Lemma recursion_bounded_witness :
  ∃ s', recurse_process "root" "n" "c" 2 (after []) = (Ok (), s')
    ∧ map event_type (new_events (after []) s')
      = ["process.started"; "process.started"; "process.started"; "process.stopped"].
Proof. apply (recursion_bounded "root" "n" "c" 2 (after []) (after_ok _)). lia. Defined.

(** C17: in the payload of an exported event, at any depth, every value under a key
whose name has a sensitive part is replaced by a mark, so is a private file or an object
key in the views of third parties, and no text begins like a secret; a payload with
nothing of the kind is exported as it is.  The public view shows nothing of the payload
of an event that is neither public nor a signal.  The other fields (the actor, the
targets, the authority) and the names of keys are exported as they are. *)
Theorem export_leaks_nothing v s i e :
  ledger s !! i = Some e →
  ∃ row, (JList (map (export_event v) (ledger s)) = jget (export_view v s) "events")
    ∧ map (export_event v) (ledger s) !! i = Some (JObj row)
    ∧ (∀ d k x, inside (JObj d) (jget row "payload") → (k, x) ∈ d →
         (∃ part, part ∈ ["token"; "secret"; "jwt"; "credential"; "key"] ∧ contains part (lower k) = true)
         ∨ (v = VPublic ∨ v = VOperator) ∧ lower k ∈ ["private_file"; "object_key"] →
         x = JStr "[redacted]")
    ∧ (∀ t prefix, inside (JStr t) (jget row "payload") → prefix ∈ ["sk-"; "gitea_"; "eyj"] →
         startswith (lower t) prefix = false)
    ∧ (v ≠ VPublic ∨ redaction_class e ∈ ["public"; "signal"] →
       concealed (private_key v) looks_secret (JObj (payload e)) → jget row "payload" = JObj (payload e))
    ∧ (v = VPublic → redaction_class e ∉ ["public"; "signal"] → jget row "payload" = JObj [("redacted", JBool true)])
    ∧ (∀ k, k ≠ "payload" → jget row k = jget (event_dump e) k).
Proof.
  intros He. exists (dict_update (event_dump e) [("payload", exported_payload v e)]).
  split; [done|]. split; [by rewrite list_lookup_fmap, He|].
  assert (jget (dict_update (event_dump e) [("payload", exported_payload v e)]) "payload"
          = exported_payload v e) as -> by apply jget_insert.
  assert (concealed (private_key v) looks_secret (exported_payload v e)) as [Hk Ht].
  { unfold exported_payload. case_match; [|apply payload_concealed].
    apply concealed_object, Forall_singleton. cbn [fst snd]. split; [|by apply concealed_plain].
    intros Hp. apply hidden_key_private in Hp. by destruct v. }
  split; [exact Hk|]. split.
  { intros t prefix Hi Hp. apply not_true_iff_false. intros Hs. apply (Ht t Hi). by exists prefix. }
  split; [|split].
  - intros Hv Hc. unfold exported_payload. destruct (bool_decide_reflect (v = VPublic)) as [->|]; [|by apply payload_unchanged].
    destruct Hv as [|Hr]; [done|]. apply str_in_elem in Hr. rewrite Hr. by apply payload_unchanged.
  - intros -> Hc. apply str_in_false in Hc. unfold exported_payload. by rewrite Hc.
  - intros k Hk'. by apply jget_insert_ne.
Qed.

Lemma export_leaks_nothing_witness :
  ∃ row, map (export_event VPublic) (ledger (after sample_run)) !! 3%nat = Some (JObj row)
    ∧ jget row "payload" = JObj [("redacted", JBool true)].
Proof.
  destruct (ledger (after sample_run) !! 3%nat) as [e|] eqn:He; [|vm_compute in He; discriminate He].
  destruct (export_leaks_nothing VPublic (after sample_run) 3 e He) as (row & _ & H1 & _ & _ & _ & H2 & _).
  exists row. split; [exact H1|]. apply H2; [reflexivity|].
  vm_compute in He. injection He as <-. apply str_in_false. reflexivity.
Defined.

(** a reviewer that claims it may mutate is refused, and the state keeps nothing of the
finding but the violation. *)
Theorem mutating_reviewer_refused p rv t f sv c row s :
  ledger_ok s → processes s !! p = Some row →
  ∃ s', emit_review_finding p rv t f sv c true s = (Ok DDeny, s')
    ∧ set_violations [] (unlogged s') = set_violations [] (unlogged s)
    ∧ "reviewer_mutation_authority_forbidden" ∈ violations s'.
Proof. apply mutating_review_refused. Qed.

Lemma mutating_reviewer_refused_witness :
  ∃ s', emit_review_finding "p" "r" "m" "f" "info" 1 true (after sample_run) = (Ok DDeny, s').
Proof.
  destruct (processes (after sample_run) !! "p") as [row|] eqn:Hp; [|vm_compute in Hp; discriminate Hp].
  destruct (mutating_reviewer_refused "p" "r" "m" "f" "info" 1 row (after sample_run) (after_ok _) Hp)
    as (s' & H & _).
  exists s'. exact H.
Defined.
