(* ===== verification/PolicyProperties.v ===== *)
(** What the policy stack decides, and what its signed decisions are worth. *)
From S2P Require Import Prelude PyStr PyDict PyJson PyHash FnMatch Capability Policy PolicyFacts.
From S2P Require Import KernelState KernelOps KernelLoops KernelSteps KernelLedger KernelFacts.
From S2P Require Import KernelEdges KernelDivergence KernelProperties.
Open Scope Z_scope.

Lemma matched_nil a r ps : matched_rules a r ps = [] ↔ matching a r ps = [].
Proof.
  pose proof (matched_perm a r ps) as H. split; intros E; rewrite E in H.
  - by apply Permutation_nil_l in H.
  - by apply Permutation_nil_r in H.
Qed.

Lemma decide_matched_effect ps : ps ≠ [] → is_Some (pd_effect (decide_matched ps)).
Proof. destruct ps; [done|]. intros _. unfold decide_matched. repeat case_match; cbn; eauto. Qed.

Lemma resolve_refs a r ps i : i ∈ pd_policy_refs (resolve a r ps) ↔ i ∈ map policy_id (matching a r ps).
Proof.
  assert (pd_policy_refs (resolve a r ps) = map policy_id (matched_rules a r ps)) as ->.
  { unfold resolve, decide_matched. destruct (matched_rules a r ps); [done|]. by repeat case_match. }
  by rewrite matched_perm.
Qed.

(** The rule whose effect a stack takes, if any matches. *)
Lemma resolve_strongest a r ps :
  matching a r ps = [] ∧ pd_decision (resolve a r ps) = DDeny ∨
  ∃ p, p ∈ matching a r ps ∧ pd_effect (resolve a r ps) = Some (rule_effect p)
    ∧ pd_decision (resolve a r ps) = effect_decision (rule_effect p)
    ∧ ∀ q, q ∈ matching a r ps → strength (rule_effect q) ≤ strength (rule_effect p).
Proof.
  destruct (decide (matched_rules a r ps = [])) as [E|E].
  - left. split; [by apply matched_nil|]. unfold resolve. by rewrite E.
  - right. destruct (decide_matched_effect _ E) as [e He].
    destruct (decide_matched_strongest _ e E He) as (Hh & Hs & Hd).
    apply has_effect_true in Hh as (p & Hp & <-). rewrite matched_perm in Hp.
    exists p. split_and!; [done|done|done|]. intros q Hq. apply Hs. by rewrite matched_perm.
Qed.

(** A rule of the stack that speaks about the action and the resource. *)
Definition applies (ps : list PolicyRule) (a r : string) (p : PolicyRule) : Prop :=
  p ∈ ps ∧ ("*" ∈ rule_actions p ∨ a ∈ rule_actions p) ∧ ∃ pattern, pattern ∈ rule_resources p ∧ fnmatch r pattern = true.

Lemma matching_applies ps a r p : p ∈ matching a r ps ↔ applies ps a r p.
Proof.
  unfold matching, applies. rewrite list_elem_of_filter. unfold rule_matches.
  rewrite andb_true_iff, orb_true_iff, !bool_decide_eq_true, matches_any_true. tauto.
Qed.

Definition refusing (e : effect) : bool := bool_decide (e ∈ [EDeny; EFreeze; ERevoke; EApproval]).

(** The strongest effect among some tells which kinds are among them. *)
Lemma strongest_kind (P : PolicyRule → Prop) p : P p → (∀ q, P q → strength (rule_effect q) ≤ strength (rule_effect p)) →
  (rule_effect p = EAllow ↔ ∀ q, P q → rule_effect q = EAllow)
  ∧ (rule_effect p = ENarrower ↔
       (∃ q, P q ∧ rule_effect q = ENarrower) ∧ ∀ q, P q → rule_effect q = EAllow ∨ rule_effect q = ENarrower)
  ∧ (refusing (rule_effect p) = true ↔ ∃ q, P q ∧ refusing (rule_effect q) = true).
Proof.
  intros Hp Hmax. split_and!; split.
  - intros He q Hq. specialize (Hmax q Hq). rewrite He in Hmax. by destruct (rule_effect q).
  - auto.
  - intros He. split; [by exists p|]. intros q Hq. specialize (Hmax q Hq). rewrite He in Hmax.
    destruct (rule_effect q); auto; cbn in Hmax; lia.
  - intros [(q & Hq & He) Hall]. destruct (Hall p Hp) as [Hpe|]; [|done]. specialize (Hmax q Hq).
    rewrite He, Hpe in Hmax. cbn in Hmax. lia.
  - intros Hr. by exists p.
  - intros (q & Hq & Hr). specialize (Hmax q Hq). destruct (rule_effect q), (rule_effect p); try done; cbn in Hmax; lia.
Qed.

(** C9: a policy stack allows exactly when some rule applies and every rule that
applies says allow; it narrows exactly when some rule that applies asks for a
narrower scope and no other says more; in all other cases, when no rule applies
or one of those that do denies, freezes, revokes or asks for approval, it denies
or blocks.  The decision is that of a rule that applies, the references are
those of all of them, the order of the rules does not matter, and asking changes
neither what any capability is permitted nor what is frozen.  (Which of several
refusals is named is the order of the code, not the documented one.) *)
Theorem policy_stack_strongest secret did a r ps s d s' :
  ledger_ok s → check_policy_stack secret did a r ps s = (Ok d, s') →
  (pd_decision d = DAllow ↔ (∃ p, applies ps a r p) ∧ ∀ p, applies ps a r p → rule_effect p = EAllow)
  ∧ (pd_decision d = DNarrow ↔ (∃ p, applies ps a r p ∧ rule_effect p = ENarrower)
       ∧ ∀ p, applies ps a r p → rule_effect p = EAllow ∨ rule_effect p = ENarrower)
  ∧ (pd_decision d = DDeny ∨ pd_decision d = DBlocked ↔
       (∀ p, ¬ applies ps a r p) ∨ ∃ p, applies ps a r p ∧ rule_effect p ∈ [EDeny; EFreeze; ERevoke; EApproval])
  ∧ ((∃ p, applies ps a r p) → ∃ p, applies ps a r p ∧ pd_effect d = Some (rule_effect p)
       ∧ pd_decision d = match rule_effect p with
                         | EDeny | ERevoke => DDeny | EFreeze | EApproval => DBlocked
                         | ENarrower => DNarrow | EAllow => DAllow
                         end)
  ∧ (∀ i, i ∈ pd_policy_refs d ↔ ∃ p, applies ps a r p ∧ policy_id p = i)
  ∧ (∀ qs, qs ≡ₚ ps → pd_decision (resolve a r qs) = pd_decision d ∧ pd_effect (resolve a r qs) = pd_effect d)
  ∧ (∀ cid b t n, permitted s' cid b t n ↔ permitted s cid b t n).
Proof.
  intros Hok H. destruct (checked_policy _ _ _ _ _ _ _ _ Hok H) as (-> & _ & Ha).
  assert (∀ i, i ∈ pd_policy_refs (resolve a r ps) ↔ ∃ p, applies ps a r p ∧ policy_id p = i) as Hrefs.
  { intros i. rewrite resolve_refs, list_elem_of_fmap. setoid_rewrite matching_applies. naive_solver. }
  destruct (resolve_strongest a r ps) as [[Hn Hd]|(p & Hp & He & Hd & Hmax)].
  - assert (∀ p, ¬ applies ps a r p) as Hno.
    { intros p. rewrite <-matching_applies, Hn. apply not_elem_of_nil. }
    rewrite Hd. split_and!; [split; [done|]..| | |apply Hrefs| |].
    + intros [(p & Hp) _]. by destruct (Hno p).
    + intros [(p & Hp & _) _]. by destruct (Hno p).
    + split; [by left|by left].
    + intros (p & Hp). by destruct (Hno p).
    + intros qs. rewrite <-Hd. by apply resolve_perm.
    + intros cid b t n. by rewrite <-!authorized_permitted, Ha.
  - setoid_rewrite matching_applies in Hmax. apply matching_applies in Hp.
    destruct (strongest_kind _ p Hp Hmax) as (K1 & K2 & K3). unfold refusing in K3.
    setoid_rewrite bool_decide_eq_true in K3. split_and!.
    + rewrite Hd. split.
      * intros Hx. split; [by exists p|]. apply K1. by destruct (rule_effect p).
      * intros [_ Hall%K1]. by rewrite Hall.
    + rewrite Hd, <-K2. by destruct (rule_effect p).
    + rewrite Hd, <-K3. split; [right|intros [Hno|]; [by destruct (Hno p)|]]; destruct (rule_effect p); set_solver.
    + intros _. exists p. by split_and!.
    + apply Hrefs.
    + intros qs. by apply resolve_perm.
    + intros cid b t n. by rewrite <-!authorized_permitted, Ha.
Qed.

Definition allow_all : PolicyRule := mkRule "p1" LOwner EAllow {["*"]} ["*"] 5.
Definition freeze_calls : PolicyRule := mkRule "p2" LProcess EFreeze {["call"]} ["skill:*"] 9.

Lemma policy_stack_strongest_witness :
  (∀ qs, qs ≡ₚ [allow_all; freeze_calls] → pd_decision (resolve "call" "skill:x" qs) = DBlocked) ∧
  ledger_ok (after [OAdvanceTime 3]).
Proof.
  destruct (check_policy_stack "secret" "d1" "call" "skill:x" [allow_all; freeze_calls] (after [OAdvanceTime 3]))
    as [[d|] s'] eqn:E.
  - destruct (policy_stack_strongest "secret" "d1" "call" "skill:x" [allow_all; freeze_calls]
      (after [OAdvanceTime 3]) d s' (after_ok _) E) as (_ & _ & _ & _ & _ & Hp & _).
    split; [|apply after_ok]. intros qs Hqs. destruct (Hp qs Hqs) as [-> _].
    apply (f_equal (λ x, match x.1 with Ok d => Some (pd_decision d) | _ => None end)) in E.
    vm_compute in E. by injection E.
  - apply (f_equal (λ x, match x.1 with Ok d => true | _ => false end)) in E. vm_compute in E. discriminate E.
Defined.

(** A decision signed by the control plane verifies under its secret until it expires. *)
Theorem signed_decision_verifies iso secret u n now :
  clean_envelope u = true → ev_schema u = POLICY_DECISION_SCHEMA →
  ev_signature_algorithm u = POLICY_DECISION_SIGNATURE_ALG → ev_expires_at u = TInt n →
  verify_policy_decision iso secret (JObj (to_payload (envelope_create secret u))) (TInt now)
  = if n <=? now then Raise (ValueError "policy decision has expired") else Ok true.
Proof. apply verify_created. Qed.

Definition sample_decision : PolicyDecisionEnvelope :=
  unsigned_envelope "d1" "policy" "call" "skill:x" "allow" (Some "allow") "all matching policies allow"
    ["p1"] [mkSnapshot "p1" "owner" "allow" ["*"] ["*"] 5] ["d1"] (TInt 0) (TInt 900).

Lemma signed_decision_verifies_witness :
  verify_policy_decision (λ _, None) "secret" (JObj (to_payload (envelope_create "secret" sample_decision)))
    (TInt 899) = Ok true.
Proof.
  rewrite (signed_decision_verifies (λ _, None) "secret" sample_decision 900 899); vm_compute; reflexivity.
Defined.

(** C11: whatever verifies is an object whose signature is the HMAC, under the
secret, of the content it parses to, in the supported schema and not expired:
a decision changed after signing verifies only if the two HMACs collide. *)
Theorem verified_decision_signed iso secret env now :
  verify_policy_decision iso secret env now = Ok true →
  ∃ d e t n, env = JObj d ∧ envelope_from_payload d = Ok e
    ∧ ev_schema e = POLICY_DECISION_SCHEMA
    ∧ ev_signature e = Some (_signature secret (to_unsigned_payload e))
    ∧ _coerce_time iso now = Ok t ∧ _coerce_time iso (ev_expires_at e) = Ok n ∧ t < n
    ∧ ∀ u, ev_signature (envelope_create secret u) = ev_signature e →
           hmac_sha256_hex secret (_canonical_payload (to_unsigned_payload u))
           = hmac_sha256_hex secret (_canonical_payload (to_unsigned_payload e)).
Proof.
  intros H. destruct (verify_sound iso secret env now H) as (d & e & t & n & Hd & He & Hs & Hsig & Ht & Hn & Hlt).
  exists d, e, t, n. split_and!; try done. intros u Hu. rewrite Hsig in Hu. by injection Hu.
Qed.

Lemma verified_decision_signed_witness :
  ∃ d e, JObj (to_payload (envelope_create "secret" sample_decision)) = JObj d ∧ envelope_from_payload d = Ok e ∧
    ev_signature e = Some (_signature "secret" (to_unsigned_payload e)).
Proof.
  destruct (verified_decision_signed (λ _, None) "secret"
    (JObj (to_payload (envelope_create "secret" sample_decision))) (TInt 10))
    as (d & e & _ & _ & Hd & He & _ & Hs & _); [vm_compute; reflexivity|].
  exists d, e. split; [exact Hd|]. split; [exact He|exact Hs].
Defined.
