(* ===== verification/IpAddress.v ===== *)
(** Internet addresses: what the code uses of Python's [ipaddress].

    An address is its value below 2^32 or 2^128, with the scope of an IPv6
    address.  Contents: reading and writing the text forms, membership in a
    network, the addresses embedded in an IPv6 address, and [is_global] with the
    registry of special networks of Python 3.11. *)
From Stdlib Require Import Ascii.
From S2P Require Import Prelude PyStr.
Open Scope Z_scope.

Inductive address : Type := IPv4Address (ip : Z) | IPv6Address (ip : Z) (scope_id : option string).

#[export] Instance address_eq_dec : EqDecision address.
Proof. solve_decision. Defined.

(** * Reading *)

Definition octet (s : string) : option Z :=
  let l := chars s in
  if negb (s =s? "") && forallb is_digit l && (length l <=? 3)%nat
     && ((s =s? "0") || negb (startswith s "0")) && (digits_value l <=? 255)
  then Some (digits_value l) else None.

(** [int.from_bytes(l, "big")] for digits of [base]. *)
Definition big_endian (base : Z) (l : list Z) : Z := fold_left (λ acc d, acc * base + d) l 0.

Definition ipv4_value (s : string) : option Z :=
  match split "."%char s with
  | [_; _; _; _] as octets => big_endian 256 <$> mapM octet octets
  | _ => None
  end.

Definition hex_val (c : ascii) : option Z :=
  let n := Z.of_N (code c) in
  if (48 <=? n) && (n <=? 57) then Some (n - 48)
  else if (97 <=? n) && (n <=? 102) then Some (n - 87)
  else if (65 <=? n) && (n <=? 70) then Some (n - 55) else None.

Definition hextet (s : string) : option Z :=
  if (s =s? "") || (4 <? length (chars s))%nat then None else big_endian 16 <$> mapM hex_val (chars s).

(** [f"{n:x}"] for [n] below 2^16. *)
Definition nibble (n : Z) : ascii := ascii_of_N (Z.to_N (if n <? 10 then 48 + n else 87 + n)).

Definition hex_text (n : Z) : string :=
  let digits := map (λ i, Z.land (Z.shiftr n (4 * i)) 15) [3; 2; 1; 0] in
  of_chars match drop_while (Ascii.eqb "0"%char) (map nibble digits) with [] => ["0"%char] | l => l end.

(** A dotted suffix stands for two groups. *)
Definition groups_of (s : string) : option (list string) :=
  let parts := split ":"%char s in
  if (length parts <? 3)%nat then None
  else
    let tail := default "" (last parts) in
    if contains "." tail then
      ip ← ipv4_value tail;
      Some (removelast parts ++ [hex_text (Z.land (Z.shiftr ip 16) 65535); hex_text (Z.land ip 65535)])
    else Some parts.

(** How many groups stand before and after the double colon. *)
Definition group_bounds (parts : list string) : option (nat * nat) :=
  let n := length parts in
  let empty i := default "" (parts !! i) =s? "" in
  match List.filter empty (seq 1 (n - 2)) with
  | [] => if (n =? 8)%nat && negb (empty 0%nat) && negb (empty (n - 1)%nat) then Some (8%nat, 0%nat) else None
  | [i] =>
      hi ← (if empty 0%nat then if (i - 1 =? 0)%nat then Some 0%nat else None else Some i);
      lo ← (if empty (n - 1)%nat then if (n - i - 1 - 1 =? 0)%nat then Some 0%nat else None else Some (n - i - 1)%nat);
      if (hi + lo <? 8)%nat then Some (hi, lo) else None
  | _ => None
  end.

Definition groups_value (parts : list string) : option Z :=
  if (9 <? length parts)%nat then None
  else
    '(hi, lo) ← group_bounds parts;
    high ← mapM hextet (take hi parts);
    low ← mapM hextet (drop (length parts - lo) parts);
    Some (big_endian 65536 (high ++ repeat 0 (8 - (hi + lo)) ++ low)).

Definition ipv6_value (s : string) : option Z := parts ← groups_of s; groups_value parts.

Definition split_scope (s : string) : option (string * option string) :=
  match split1 "%"%char s with
  | (addr, None) => Some (addr, None)
  | (addr, Some scope) => if (scope =s? "") || contains "%" scope then None else Some (addr, Some scope)
  end.

(** [ipaddress.ip_address(s)], [None] for [ValueError]. *)
Definition ip_address (s : string) : option address :=
  if contains "/" s then None
  else match ipv4_value s with
       | Some ip => Some (IPv4Address ip)
       | None => '(addr, scope) ← split_scope s; ip ← ipv6_value addr; Some (IPv6Address ip scope)
       end.

(** * Writing *)

Definition octets (ip : Z) : list Z := map (λ i, Z.land (Z.shiftr ip (8 * i)) 255) [3; 2; 1; 0].
Definition hextets (ip : Z) : list Z := map (λ i, Z.land (Z.shiftr ip (16 * i)) 65535) [7; 6; 5; 4; 3; 2; 1; 0].

(** The first longest run of zero groups: where it starts and its length. *)
Record runs : Type := mkRuns { best_start : nat; best_len : nat; cur_start : option nat; cur_len : nat }.

Definition run_step (r : runs) (g : nat * string) : runs :=
  let '(index, text) := g in
  if text =s? "0" then
    let len := S (cur_len r) in
    let start := default index (cur_start r) in
    if (best_len r <? len)%nat then mkRuns start len (Some start) len
    else mkRuns (best_start r) (best_len r) (Some start) len
  else mkRuns (best_start r) (best_len r) None 0.

Definition best_run (groups : list string) : runs :=
  foldl run_step (mkRuns 0 0 None 0) (zip (seq 0 (length groups)) groups).

Definition compress (groups : list string) : list string :=
  let r := best_run groups in
  let stop := (best_start r + best_len r)%nat in
  if (1 <? best_len r)%nat then
    (if (best_start r =? 0)%nat then [""] else [])
    ++ take (best_start r) groups ++ [""] ++ drop stop groups
    ++ (if (stop =? length groups)%nat then [""] else [])
  else groups.

Definition compressed (a : address) : string :=
  match a with
  | IPv4Address ip => String.concat "." (map dec (octets ip))
  | IPv6Address ip scope =>
      String.concat ":" (compress (map hex_text (hextets ip)))
      +:+ match scope with Some s => "%" +:+ s | None => "" end
  end.

(** * Networks *)

(** Membership in a network given by one of its addresses and its prefix. *)
Definition ip_in (bits ip net prefix : Z) : bool :=
  Z.shiftr ip (bits - prefix) =? Z.shiftr net (bits - prefix).

Definition v4 (a b c d : Z) : Z := big_endian 256 [a; b; c; d].

Definition v4_private : list (Z * Z) :=
  [(v4 0 0 0 0, 8); (v4 10 0 0 0, 8); (v4 127 0 0 0, 8); (v4 169 254 0 0, 16); (v4 172 16 0 0, 12);
   (v4 192 0 0 0, 24); (v4 192 0 0 170, 31); (v4 192 0 2 0, 24); (v4 192 168 0 0, 16); (v4 198 18 0 0, 15);
   (v4 198 51 100 0, 24); (v4 203 0 113 0, 24); (v4 240 0 0 0, 4); (v4 255 255 255 255, 32)].
Definition v4_exceptions : list (Z * Z) := [(v4 192 0 0 9, 32); (v4 192 0 0 10, 32)].

Definition v6 (a b c d : Z) : Z := big_endian 65536 [a; b; c; d; 0; 0; 0; 0].

Definition v6_private : list (Z * Z) :=
  [(1, 128); (0, 128); (big_endian 65536 [0; 0; 0; 0; 0; 65535; 0; 0], 96); (v6 100 65435 1 0, 48);
   (v6 256 0 0 0, 64); (v6 8193 0 0 0, 23); (v6 8193 3512 0 0, 32); (v6 8194 0 0 0, 16); (v6 64512 0 0 0, 7);
   (v6 65152 0 0 0, 10)].
Definition v6_exceptions : list (Z * Z) :=
  [(v6 8193 1 0 0 + 1, 128); (v6 8193 1 0 0 + 2, 128); (v6 8193 3 0 0, 32); (v6 8193 4 274 0, 48);
   (v6 8193 32 0 0, 28); (v6 8193 48 0 0, 28)].

Definition in_any (bits ip : Z) (nets : list (Z * Z)) : bool := existsb (λ n, ip_in bits ip n.1 n.2) nets.

Definition v4_is_private (ip : Z) : bool := in_any 32 ip v4_private && negb (in_any 32 ip v4_exceptions).

Definition v4_is_global (ip : Z) : bool := negb (ip_in 32 ip (v4 100 64 0 0) 10) && negb (v4_is_private ip).

Definition low32 (ip : Z) : Z := Z.land ip 4294967295.

Definition ipv4_mapped (ip : Z) : option Z := if Z.shiftr ip 32 =? 65535 then Some (low32 ip) else None.

Definition sixtofour (ip : Z) : option Z :=
  if Z.shiftr ip 112 =? 8194 then Some (low32 (Z.shiftr ip 80)) else None.

(** The server and the client. *)
Definition teredo (ip : Z) : option (Z * Z) :=
  if Z.shiftr ip 96 =? 536936448 then Some (low32 (Z.shiftr ip 64), low32 (Z.lnot ip)) else None.

Definition v6_is_private (ip : Z) : bool :=
  match ipv4_mapped ip with
  | Some v4 => v4_is_private v4
  | None => in_any 128 ip v6_private && negb (in_any 128 ip v6_exceptions)
  end.

Definition is_global (a : address) : bool :=
  match a with IPv4Address ip => v4_is_global ip | IPv6Address ip _ => negb (v6_is_private ip) end.
