(* ===== verification/IpFacts.v ===== *)
(** The text forms of addresses: reading what is written gives the address
    back, and an IPv4 text is the only one of its address. *)
From Stdlib Require Import Ascii.
From S2P Require Import Prelude PyStr IpAddress.
Open Scope Z_scope.

(** * IPv4 *)

Definition all_digits : list ascii := map ascii_of_nat (seq 48 10).

Lemma digit_enum c : is_digit c = true → c ∈ all_digits.
Proof. destruct c as [[] [] [] [] [] [] [] []]; try done; intros _; by apply (bool_decide_unpack _). Qed.

Definition octet_text_ok (l : list ascii) : bool :=
  match octet (of_chars l) with Some n => (dec n =? of_chars l)%string && (0 <=? n) && (n <=? 255) | None => true end.

Fixpoint texts_ok (n : nat) (l : list ascii) : bool :=
  octet_text_ok l && match n with O => true | S n => forallb (λ c, texts_ok n (c :: l)) all_digits end.

Lemma octet_texts : texts_ok 3 [] = true.
Proof. vm_compute. reflexivity. Qed.

Lemma texts_ok_spec n l k : texts_ok n l = true → Forall (λ c, c ∈ all_digits) k → (length k ≤ n)%nat →
  octet_text_ok (rev k ++ l) = true.
Proof.
  revert n l. induction k as [|c k IH]; intros n l; cbn [rev].
  { destruct n; cbn; rewrite andb_true_iff; tauto. }
  intros H [Hc Hk]%Forall_cons Hn. cbn in Hn. destruct n as [|n]; [lia|]. rewrite <- app_assoc. apply (IH n); [|done|lia].
  cbn [texts_ok] in H. apply andb_true_iff in H as [_ H]. rewrite forallb_forall in H. by apply H, list_elem_of_In.
Qed.

Lemma octet_spec s n : octet s = Some n → dec n = s ∧ 0 ≤ n ≤ 255.
Proof.
  intros H. assert (octet_text_ok (chars s) = true) as Hok.
  { assert (Forall (λ c, c ∈ all_digits) (chars s) ∧ (length (chars s) ≤ 3)%nat) as [Hd Hl].
    { unfold octet in H. destruct (_ && _) eqn:E in H; [|done]. rewrite !andb_true_iff in E.
      destruct E as [[[[_ Hd] Hl] _] _]. apply Nat.leb_le in Hl. split; [|done].
      rewrite forallb_forall in Hd. apply Forall_forall. intros c Hc. apply digit_enum, Hd. by apply list_elem_of_In. }
    rewrite <- (rev_involutive (chars s)), <- (app_nil_r (rev (rev _))). apply (texts_ok_spec 3); [exact octet_texts|..].
    - by apply Forall_rev.
    - by rewrite length_rev. }
  unfold octet_text_ok in Hok. rewrite of_chars_chars, H, !andb_true_iff, String.eqb_eq, !Z.leb_le in Hok. tauto.
Qed.

Lemma big_endian_octets a b c d : 0 ≤ a ≤ 255 → 0 ≤ b ≤ 255 → 0 ≤ c ≤ 255 → 0 ≤ d ≤ 255 →
  octets (big_endian 256 [a; b; c; d]) = [a; b; c; d].
Proof.
  intros. unfold octets, big_endian; cbn [map fold_left].
  change 255 with (Z.ones 8). rewrite !Z.land_ones, !Z.shiftr_div_pow2 by lia.
  change (2 ^ (8 * 3)) with 16777216. change (2 ^ (8 * 2)) with 65536. change (2 ^ (8 * 1)) with 256.
  change (2 ^ (8 * 0)) with 1. change (2 ^ 8) with 256.
  repeat f_equal; Z.to_euclidean_division_equations; lia.
Qed.

(** The text of an IPv4 address is unique. *)
Lemma ipv4_text s ip : ipv4_value s = Some ip → compressed (IPv4Address ip) = s.
Proof.
  unfold ipv4_value. destruct (split "." s) as [|a [|b [|c [|d []]]]] eqn:Hs; try done. cbn -[compressed].
  destruct (octet a) as [a'|] eqn:Ha; [|done]. destruct (octet b) as [b'|] eqn:Hb; [|done].
  destruct (octet c) as [c'|] eqn:Hc; [|done]. destruct (octet d) as [d'|] eqn:Hd; [|done].
  intros [= <-]. apply octet_spec in Ha as [<- ?], Hb as [<- ?], Hc as [<- ?], Hd as [<- ?].
  unfold compressed. rewrite big_endian_octets by done. by rewrite <- (concat_split "."%char s), Hs.
Qed.

(** * IPv6 *)

(** What a written group is: readable, not empty, of lower case hexadecimal digits. *)
Definition group_char (c : ascii) : bool := bool_decide (is_Some (hex_val c)) && Ascii.eqb (lower_char c) c.

Definition hextet_ok (n : Z) : bool :=
  let s := hex_text n in
  bool_decide (hextet s = Some n) && negb (s =s? "") && forallb group_char (chars s) && Bool.eqb (s =s? "0") (n =? 0).

Lemma hextets_ok :
  forallb (λ a, forallb (λ b, hextet_ok (Z.of_nat a * 256 + Z.of_nat b)) (seq 0 256)) (seq 0 256) = true.
Proof. vm_compute. reflexivity. Qed.

Lemma hextet_text n : 0 ≤ n < 65536 →
  hextet (hex_text n) = Some n ∧ hex_text n ≠ "" ∧ forallb group_char (chars (hex_text n)) = true
  ∧ (hex_text n =s? "0") = (n =? 0).
Proof.
  intros Hn. assert (hextet_ok n = true) as Hok.
  { pose proof hextets_ok as H. rewrite forallb_forall in H. specialize (H (Z.to_nat (n / 256))). cbv beta in H.
    rewrite forallb_forall in H. specialize (H ltac:(apply in_seq; Z.to_euclidean_division_equations; lia)
      (Z.to_nat (n mod 256)) ltac:(apply in_seq; Z.to_euclidean_division_equations; lia)).
    rewrite !Z2Nat.id in H by (Z.to_euclidean_division_equations; lia).
    by replace (n / 256 * 256 + n mod 256) with n in H by (Z.to_euclidean_division_equations; lia). }
  unfold hextet_ok in Hok. rewrite !andb_true_iff, negb_true_iff, bool_decide_eq_true in Hok.
  destruct Hok as [[[H1 H2%String.eqb_neq] H3] H4%Bool.eqb_prop]. done.
Qed.

(** The zero groups from [i] on, [k] of them. *)
Definition zeros (groups : list string) (i k : nat) : Prop := ∀ j, (i ≤ j < i + k)%nat → groups !! j = Some "0".

(** The runs found when [n] groups have been read. *)
Definition runs_ok (groups : list string) (n : nat) (r : runs) : Prop :=
  (best_start r + best_len r ≤ n)%nat ∧ zeros groups (best_start r) (best_len r)
  ∧ match cur_start r with
    | Some s => (s + cur_len r)%nat = n ∧ zeros groups s (cur_len r)
    | None => cur_len r = 0%nat
    end.

Lemma run_step_ok groups n r text : runs_ok groups n r → groups !! n = Some text →
  runs_ok groups (S n) (run_step r (n, text)).
Proof.
  intros (Hb & Hz & Hc) Hn. unfold run_step. destruct (String.eqb_spec text "0") as [->|Hne].
  2:{ split_and!; cbn; [lia|done|done]. }
  set (start := default n (cur_start r)).
  assert ((start + S (cur_len r))%nat = S n ∧ zeros groups start (S (cur_len r))) as [Hs Hzs].
  { subst start. destruct (cur_start r) as [s|]; cbn.
    - destruct Hc as [Hc Hzc]. split; [lia|]. intros j Hj. destruct (decide (j = n)) as [->|]; [done|]. apply Hzc. lia.
    - rewrite Hc. split; [lia|]. intros j Hj. by replace j with n by lia. }
  destruct (Nat.ltb_spec (best_len r) (S (cur_len r))); split_and!; cbn [best_start best_len cur_start cur_len]; try done; lia.
Qed.

Lemma best_run_ok groups : runs_ok groups (length groups) (best_run groups).
Proof.
  unfold best_run.
  enough (∀ rest n r, runs_ok groups n r → drop n groups = rest →
    runs_ok groups (n + length rest) (foldl run_step r (zip (seq n (length rest)) rest))) as H.
  { apply (H groups 0%nat); [|done]. split_and!; cbn; [lia| |done]. intros j Hj. lia. }
  induction rest as [|text rest IH]; intros n r Hr Hd; cbn [length seq zip foldl]; [by rewrite Nat.add_0_r|].
  replace (n + S (length rest))%nat with (S n + length rest)%nat by lia. apply IH.
  - apply run_step_ok; [done|]. by rewrite <- (Nat.add_0_r n), <- lookup_drop, Hd.
  - by rewrite <- (Nat.add_1_r n), <- drop_drop, Hd.
Qed.

(** The groups with those from [start] to [stop] left out. *)
Definition collapse (start stop : nat) (groups : list string) : list string :=
  (if (start =? 0)%nat then [""] else []) ++ take start groups ++ [""] ++ drop stop groups
  ++ (if (stop =? length groups)%nat then [""] else []).

Definition reads (g : string) (h : Z) : Prop := hextet g = Some h ∧ (g =s? "") = false.

(** Put zero in for the groups that [Hz] says are zero. *)
Ltac zero_group Hz j := try pose proof (Hz j _ eq_refl ltac:(apply (bool_decide_unpack _); exact I)) as ->.
Ltac zero_groups Hz :=
  zero_group Hz 0%nat; zero_group Hz 1%nat; zero_group Hz 2%nat; zero_group Hz 3%nat; zero_group Hz 4%nat;
  zero_group Hz 5%nat; zero_group Hz 6%nat; zero_group Hz 7%nat;
  repeat match goal with H : hextet "0" = Some _ |- _ => vm_compute in H; injection H as <- end.

Lemma start_stops start len : (2 ≤ len)%nat → (start + len ≤ 8)%nat →
  (start, len) ∈ (s ← seq 0 8; l ← seq 2 (7 - s); [(s, l)]).
Proof.
  intros Hl Hs. apply list_elem_of_bind. exists start. split; [|apply elem_of_seq; lia].
  apply list_elem_of_bind. exists len. split; [by apply list_elem_of_singleton|apply elem_of_seq; lia].
Qed.

(** Read the groups whose texts are known to be readable. *)
Ltac eval_groups :=
  unfold groups_value, group_bounds, collapse; cbn -[String.eqb hextet big_endian];
  repeat (first [progress change ("" =s? "") with true | progress change ("0" =s? "") with false
          | match goal with H : (?g =s? "") = false |- _ => rewrite H end]; cbn -[String.eqb hextet big_endian]);
  repeat (first [progress change (hextet "0") with (Some 0)
          | match goal with H : hextet ?g = Some _ |- _ => rewrite H end]; cbn -[String.eqb hextet big_endian]);
  reflexivity.

Lemma collapse_value start len gs hs : length gs = 8%nat → Forall2 reads gs hs →
  (2 ≤ len)%nat → (start + len ≤ 8)%nat → zeros gs start len →
  groups_value (collapse start (start + len) gs) = Some (big_endian 65536 hs).
Proof.
  intros Hl Hr Hlen Hstop Hz.
  destruct gs as [|g0 [|g1 [|g2 [|g3 [|g4 [|g5 [|g6 [|g7 []]]]]]]]]; try done.
  repeat match goal with
  | H : Forall2 reads (_ :: _) _ |- _ => apply Forall2_cons_inv_l in H as (? & ? & [? ?] & H & ->)
  | H : Forall2 reads [] _ |- _ => apply Forall2_nil_inv_l in H as ->
  end.
  assert (∀ j g, [g0; g1; g2; g3; g4; g5; g6; g7] !! j = Some g → (start ≤ j < start + len)%nat → g = "0") as Hzero.
  { intros j g Hj Hin. rewrite (Hz j Hin) in Hj. by injection Hj. }
  clear Hz.
  pose proof (start_stops start len Hlen Hstop) as Hin. clear Hl Hlen Hstop. cbn in Hin.
  repeat (apply elem_of_cons in Hin as [[= -> ->]|Hin]); [..|by apply elem_of_nil in Hin].
  all: zero_groups Hzero; clear Hzero; eval_groups.
Qed.

Lemma compress_value gs hs : length gs = 8%nat → Forall2 reads gs hs →
  groups_value (compress gs) = Some (big_endian 65536 hs).
Proof.
  intros Hl Hr. unfold compress. destruct (Nat.ltb_spec 1 (best_len (best_run gs))) as [Hb|Hb].
  - destruct (best_run_ok gs) as (Hstop & Hz & _). rewrite Hl in Hstop. by apply collapse_value.
  - destruct gs as [|g0 [|g1 [|g2 [|g3 [|g4 [|g5 [|g6 [|g7 []]]]]]]]]; try done. clear Hl Hb.
    repeat match goal with
    | H : Forall2 reads (_ :: _) _ |- _ => apply Forall2_cons_inv_l in H as (? & ? & [? ?] & H & ->)
    | H : Forall2 reads [] _ |- _ => apply Forall2_nil_inv_l in H as ->
    end. eval_groups.
Qed.

Lemma compress_groups_length gs : length gs = 8%nat → (3 ≤ length (compress gs))%nat.
Proof.
  intros Hl. unfold compress. destruct (Nat.ltb_spec 1 (best_len (best_run gs))) as [Hb|Hb]; [|lia].
  destruct (best_run_ok gs) as (Hstop & _). rewrite !length_app, length_take, length_drop. cbn [length].
  destruct (Nat.eqb_spec (best_start (best_run gs)) 0), (Nat.eqb_spec (best_start (best_run gs) + best_len (best_run gs)) (length gs));
    cbn [length]; lia.
Qed.

Lemma compress_parts (P : string → Prop) gs : P "" → Forall P gs → Forall P (compress gs).
Proof.
  intros H0 Hg. unfold compress. destruct (1 <? _)%nat; [|done].
  repeat apply Forall_app_2; repeat case_match; auto using Forall_take, Forall_drop.
Qed.

Lemma contains_lacks c s : lacks c s = true → contains (String c "") s = false.
Proof.
  unfold lacks. induction s as [|d s IH]; [done|]. cbn. intros [Hd Hs]%andb_true_iff.
  rewrite IH by done. destruct (ascii_dec c d) as [->|]; [by rewrite Ascii.eqb_refl in Hd|by rewrite orb_false_r].
Qed.

Lemma split1_lacks sep s : lacks sep s = true → split1 sep s = (s, None).
Proof.
  intros H. unfold split1, lacks in *.
  assert (∀ l acc, forallb (λ c, negb (Ascii.eqb c sep)) l = true → split1_chars sep acc l = (rev acc ++ l, None)) as Hl.
  { induction l as [|c l IH]; intros acc; cbn; [by rewrite app_nil_r|]. destruct (Ascii.eqb c sep); [done|].
    cbn. intros Hl. rewrite IH by done. cbn. by rewrite <- app_assoc. }
  rewrite Hl by done. cbn. by rewrite of_chars_chars.
Qed.

(** The characters of an IPv6 text. *)
Definition v6_char (c : ascii) : bool := group_char c || Ascii.eqb c ":"%char.

Definition of_kind (p : ascii → bool) (s : string) : Prop := forallb p (chars s) = true.

Lemma concat_kind p sep parts : of_kind p sep → Forall (of_kind p) parts → of_kind p (String.concat sep parts).
Proof.
  unfold of_kind. intros Hs. induction parts as [|s parts IH]; [done|]. intros [H Hp]%Forall_cons.
  destruct parts as [|t parts]; [done|].
  change (String.concat sep (s :: t :: parts)) with (s +:+ (sep +:+ String.concat sep (t :: parts))).
  by rewrite !chars_app, !forallb_app, H, Hs, IH.
Qed.

Lemma kind_lacks p c s : of_kind p s → p c = false → lacks c s = true.
Proof.
  unfold of_kind, lacks. rewrite !forallb_forall. intros H Hc d Hd. specialize (H d Hd).
  destruct (Ascii.eqb_spec d c) as [->|]; [congruence|done].
Qed.

Lemma hextets_bounds ip : Forall (λ h, 0 ≤ h < 65536) (hextets ip).
Proof.
  unfold hextets. apply Forall_forall. intros h (i & -> & _)%list_elem_of_fmap.
  change 65535 with (Z.ones 16). rewrite Z.land_ones by lia. by apply Z.mod_pos_bound.
Qed.

Definition v6_text (ip : Z) : string := String.concat ":" (compress (map hex_text (hextets ip))).

Lemma v6_groups ip : Forall2 reads (map hex_text (hextets ip)) (hextets ip)
  ∧ Forall (of_kind group_char) (map hex_text (hextets ip)).
Proof.
  pose proof (hextets_bounds ip) as H. induction H as [|h hs Hh _ IH]; [done|].
  destruct (hextet_text h Hh) as (H1 & H2 & H3 & _). destruct IH. cbn.
  split; constructor; try done. split; [done|]. by apply String.eqb_neq.
Qed.

Lemma v6_compressed ip : compressed (IPv6Address ip None) = v6_text ip.
Proof. unfold compressed. apply (inj chars). by rewrite chars_app, app_nil_r. Qed.

Lemma v6_text_kind ip : of_kind v6_char (v6_text ip).
Proof.
  apply concat_kind; [done|]. apply compress_parts; [done|]. eapply Forall_impl; [apply v6_groups|].
  intros s. unfold of_kind, v6_char. rewrite !forallb_forall. intros Hs c Hc. by rewrite Hs.
Qed.

Lemma v6_text_value ip : ipv6_value (v6_text ip) = Some (big_endian 65536 (hextets ip)).
Proof.
  destruct (v6_groups ip) as [Hr Hk]. unfold ipv6_value, groups_of, v6_text.
  assert (Forall (of_kind group_char) (compress (map hex_text (hextets ip)))) as Hp by by apply compress_parts.
  pose proof (compress_groups_length (map hex_text (hextets ip)) eq_refl) as Hlen.
  rewrite split_concat; cycle 1.
  { by intros E; rewrite E in Hlen; cbn in Hlen; lia. }
  { eapply Forall_impl; [exact Hp|]. intros s Hs. by apply (kind_lacks group_char). }
  destruct (Nat.ltb_spec (length (compress (map hex_text (hextets ip)))) 3) as [|_]; [lia|].
  rewrite contains_lacks; [by apply compress_value|].
  destruct (last (compress (map hex_text (hextets ip)))) as [t|] eqn:E; [|done]. cbn.
  apply (kind_lacks group_char); [|done]. apply last_Some_elem_of in E. rewrite Forall_forall in Hp. by apply Hp.
Qed.

Lemma big_endian_snoc base l d : big_endian base (l ++ [d]) = big_endian base l * base + d.
Proof. unfold big_endian. by rewrite fold_left_app. Qed.

Lemma shift_hextet x k : 0 ≤ x → 0 ≤ k →
  Z.shiftr x (k + 16) * 65536 + Z.land (Z.shiftr x k) 65535 = Z.shiftr x k.
Proof.
  intros. change 65535 with (Z.ones 16). rewrite Z.land_ones, <- Z.shiftr_shiftr, (Z.shiftr_div_pow2 _ 16) by lia.
  change (2 ^ 16) with 65536. rewrite Z.mul_comm. symmetry. by apply Z.div_mod.
Qed.

Lemma big_endian_hextets ip : 0 ≤ ip < 2 ^ 128 → big_endian 65536 (hextets ip) = ip.
Proof.
  intros Hip. unfold hextets, big_endian; cbn [map fold_left].
  assert (Z.shiftr ip 128 = 0) as H0 by (rewrite Z.shiftr_div_pow2 by lia; by apply Z.div_small).
  assert (0 = Z.shiftr ip (16 * 7 + 16)) as E by by rewrite <- H0.
  rewrite E at 1. clear E. repeat match goal with
  | |- context [Z.shiftr ip (16 * ?i + 16) * 65536 + Z.land (Z.shiftr ip (16 * ?i)) 65535] =>
      rewrite (shift_hextet ip (16 * i)) by lia;
      try (let j := eval vm_compute in (i - 1) in
           change (Z.shiftr ip (16 * i)) with (Z.shiftr ip (16 * j + 16)))
  end.
  apply Z.shiftr_0_r.
Qed.

Lemma big_endian_bound base l : 0 < base → Forall (λ d, 0 ≤ d < base) l →
  0 ≤ big_endian base l < base ^ Z.of_nat (length l).
Proof.
  intros Hb. induction l as [|d l IH] using rev_ind; [cbn; lia|]. intros [Hl Hd]%Forall_app.
  apply Forall_cons in Hd as [Hd _]. specialize (IH Hl). rewrite big_endian_snoc, length_app. cbn [length].
  rewrite Nat2Z.inj_add, Z.pow_add_r by lia. change (base ^ Z.of_nat 1) with (base ^ 1). rewrite Z.pow_1_r. nia.
Qed.

Lemma hex_val_bound c h : hex_val c = Some h → 0 ≤ h < 16.
Proof.
  unfold hex_val. repeat (case_match; [intros [= <-]; repeat match goal with H : _ && _ = true |- _ => apply andb_true_iff in H as [H ?] end;
    rewrite ?Z.leb_le in *; lia|]). done.
Qed.

Lemma hextet_bound s h : hextet s = Some h → 0 ≤ h < 65536.
Proof.
  unfold hextet. destruct (_ || _) eqn:E; [done|]. apply orb_false_iff in E as [_ Hl]. apply Nat.ltb_ge in Hl.
  destruct (mapM hex_val (chars s)) as [l|] eqn:El; [|done]. intros [= <-].
  pose proof (length_mapM _ _ _ El) as Hlen. apply mapM_Some in El.
  destruct (big_endian_bound 16 l) as [H1 H2]; [lia| |].
  - apply Forall_forall. intros d Hd. apply list_elem_of_lookup in Hd as [i Hi].
    destruct (Forall2_lookup_r _ _ _ _ _ El Hi) as (c & _ & Hc). by eapply hex_val_bound.
  - split; [done|]. eapply Z.lt_le_trans; [exact H2|]. change 65536 with (16 ^ 4). apply Z.pow_le_mono_r; lia.
Qed.

Lemma group_bounds_sum parts hi lo : group_bounds parts = Some (hi, lo) → (hi + lo ≤ 8)%nat.
Proof.
  unfold group_bounds. destruct (List.filter _ _) as [|i [|]]; [by case_match; [intros [= <- <-]|]| |done].
  intros (h & _ & (l & _ & H)%bind_Some)%bind_Some. destruct (Nat.ltb_spec (h + l) 8); [|done].
  injection H as <- <-. lia.
Qed.

Lemma groups_value_bound parts ip : groups_value parts = Some ip → 0 ≤ ip < 2 ^ 128.
Proof.
  unfold groups_value. destruct (9 <? _)%nat; [done|]. destruct (group_bounds parts) as [[hi lo]|] eqn:Hb; [|done]. cbn -[big_endian].
  destruct (mapM hextet (take hi parts)) as [high|] eqn:Hh; [|done]. cbn -[big_endian].
  destruct (mapM hextet (drop (length parts - lo) parts)) as [low|] eqn:Hl; [|done]. intros [= <-].
  assert (∀ l k, mapM hextet k = Some l → length l = length k ∧ Forall (λ d, 0 ≤ d < 65536) l) as Hm.
  { intros l k Hk. split; [by apply length_mapM in Hk|]. apply mapM_Some in Hk. apply Forall_forall. intros d Hd.
    apply list_elem_of_lookup in Hd as [i Hi]. destruct (Forall2_lookup_r _ _ _ _ _ Hk Hi) as (c & _ & Hc).
    by eapply hextet_bound. }
  destruct (Hm _ _ Hh) as [Lh Bh], (Hm _ _ Hl) as [Ll Bl].
  assert (hi + lo ≤ 8)%nat as Hs.
  { by eapply group_bounds_sum. }
  destruct (big_endian_bound 65536 (high ++ repeat 0 (8 - (hi + lo)) ++ low)) as [H1 H2]; [lia| |].
  - repeat apply Forall_app_2; try done. apply Forall_forall. intros d Hd%list_elem_of_In%repeat_spec. lia.
  - split; [done|]. eapply Z.lt_le_trans; [exact H2|]. change (2 ^ 128) with (65536 ^ 8).
    apply Z.pow_le_mono_r; [lia|]. rewrite !length_app, repeat_length, Lh, Ll, length_take, length_drop. lia.
Qed.

Lemma ip_address_v6 s ip scope : ip_address s = Some (IPv6Address ip scope) → 0 ≤ ip < 2 ^ 128.
Proof.
  unfold ip_address. destruct (contains _ _); [done|]. destruct (ipv4_value s); [done|].
  destruct (split_scope s) as [[addr sc]|]; [|done]. cbn. unfold ipv6_value.
  destruct (groups_of addr) as [parts|]; [|done]. cbn. destruct (groups_value parts) eqn:E; [|done].
  intros [= <- _]. by apply groups_value_bound in E.
Qed.

(** Reading the written form of an IPv6 address gives the address back. *)
Lemma v6_roundtrip ip : 0 ≤ ip < 2 ^ 128 → ip_address (compressed (IPv6Address ip None)) = Some (IPv6Address ip None).
Proof.
  intros Hip. rewrite v6_compressed. pose proof (v6_text_kind ip) as Hk.
  unfold ip_address. rewrite contains_lacks by (by apply (kind_lacks v6_char)).
  assert (ipv4_value (v6_text ip) = None) as ->.
  { unfold ipv4_value. rewrite split_lacks; [done|]. by apply (kind_lacks v6_char). }
  unfold split_scope. rewrite split1_lacks by (by apply (kind_lacks v6_char)). cbn [mbind option_bind].
  by rewrite v6_text_value, big_endian_hextets.
Qed.

Lemma v6_text_lower ip : lower (v6_text ip) = v6_text ip.
Proof.
  unfold lower. rewrite <- (of_chars_chars (v6_text ip)) at 2. f_equal. pose proof (v6_text_kind ip) as H.
  unfold of_kind in H. induction (chars (v6_text ip)) as [|c l IH]; [done|]. cbn in H. apply andb_true_iff in H as [Hc Hl].
  cbn. rewrite IH by done. f_equal. unfold v6_char, group_char in Hc.
  apply orb_true_iff in Hc as [[_ Hc%Ascii.eqb_eq]%andb_true_iff|Hc%Ascii.eqb_eq]; [done|by subst].
Qed.

(** An IPv6 text has a colon. *)
Lemma v6_colon s ip scope : lacks "%"%char s = true → ip_address s = Some (IPv6Address ip scope) →
  lacks ":"%char s = false ∧ scope = None.
Proof.
  intros Hp. unfold ip_address. destruct (contains _ _); [done|]. destruct (ipv4_value s); [done|].
  unfold split_scope. rewrite split1_lacks by done. cbn [mbind option_bind].
  destruct (ipv6_value s) as [v|] eqn:E; [|done]. cbn. intros [= <- <-]. split; [|done].
  apply not_true_is_false. intros Hl. unfold ipv6_value, groups_of in E. by rewrite split_lacks in E.
Qed.

Lemma ip_address_v4 s ip : ip_address s = Some (IPv4Address ip) → compressed (IPv4Address ip) = s.
Proof.
  unfold ip_address. destruct (contains _ _); [done|]. destruct (ipv4_value s) as [v|] eqn:E.
  - intros [= <-]. by apply ipv4_text.
  - destruct (split_scope s) as [[a sc]|]; [|done]. cbn. by destruct (ipv6_value a).
Qed.

Definition v4_char (c : ascii) : bool := is_digit c || Ascii.eqb c "."%char.

Lemma dec_kind n : 0 ≤ n → of_kind is_digit (dec n).
Proof.
  intros Hn. destruct (dec_digits n Hn) as (_ & H & _). unfold of_kind. apply forallb_forall. intros c Hc.
  rewrite Forall_forall in H. by apply H, list_elem_of_In.
Qed.

Lemma v4_text_kind ip : of_kind v4_char (compressed (IPv4Address ip)).
Proof.
  apply concat_kind; [done|]. apply Forall_forall. intros s (o & -> & Ho)%list_elem_of_fmap.
  unfold octets in Ho. apply list_elem_of_fmap in Ho as (i & -> & _).
  assert (0 ≤ Z.land (Z.shiftr ip (8 * i)) 255) as H0.
  { change 255 with (Z.ones 8). rewrite Z.land_ones by lia. by apply Z.mod_pos_bound. }
  pose proof (dec_kind _ H0) as H. unfold of_kind, v4_char in *. rewrite forallb_forall in *. intros c Hc. by rewrite H.
Qed.

(** * Special addresses *)

Definition lies (x : Z) (r : Z * Z) : Prop := r.1 ≤ x ≤ r.2.

(** The first and the last address of each range that the internet does not route, and
of those within them that it does. *)
Definition v4_special : list (Z * Z) :=
  [(v4 0 0 0 0, v4 0 255 255 255); (v4 10 0 0 0, v4 10 255 255 255); (v4 100 64 0 0, v4 100 127 255 255);
   (v4 127 0 0 0, v4 127 255 255 255); (v4 169 254 0 0, v4 169 254 255 255); (v4 172 16 0 0, v4 172 31 255 255);
   (v4 192 0 0 0, v4 192 0 0 255); (v4 192 0 2 0, v4 192 0 2 255); (v4 192 168 0 0, v4 192 168 255 255);
   (v4 198 18 0 0, v4 198 19 255 255); (v4 198 51 100 0, v4 198 51 100 255); (v4 203 0 113 0, v4 203 0 113 255);
   (v4 240 0 0 0, v4 255 255 255 255)].
Definition v4_routed : list (Z * Z) := [(v4 192 0 0 9, v4 192 0 0 9); (v4 192 0 0 10, v4 192 0 0 10)].

Definition v6_special : list (Z * Z) :=
  [(0, 0); (1, 1); (v6 0x64 0xff9b 1 0, v6 0x64 0xff9b 2 0 - 1); (v6 0x100 0 0 0, v6 0x100 0 0 1 - 1);
   (v6 0x2001 0 0 0, v6 0x2001 0x200 0 0 - 1); (v6 0x2001 0xdb8 0 0, v6 0x2001 0xdb9 0 0 - 1);
   (v6 0x2002 0 0 0, v6 0x2003 0 0 0 - 1); (v6 0xfc00 0 0 0, v6 0xfe00 0 0 0 - 1);
   (v6 0xfe80 0 0 0, v6 0xfec0 0 0 0 - 1)].
Definition v6_routed : list (Z * Z) :=
  [(v6 0x2001 1 0 0 + 1, v6 0x2001 1 0 0 + 1); (v6 0x2001 1 0 0 + 2, v6 0x2001 1 0 0 + 2); (v6 0x2001 3 0 0, v6 0x2001 4 0 0 - 1);
   (v6 0x2001 4 0x112 0, v6 0x2001 4 0x113 0 - 1); (v6 0x2001 0x20 0 0, v6 0x2001 0x30 0 0 - 1);
   (v6 0x2001 0x30 0 0, v6 0x2001 0x40 0 0 - 1)].

Definition special_v4 (x : Z) : Prop := Exists (lies x) v4_special ∧ ¬ Exists (lies x) v4_routed.
Definition special_v6 (x : Z) : Prop := Exists (lies x) v6_special ∧ ¬ Exists (lies x) v6_routed.

#[export] Instance special_dec x : Decision (special_v4 x).
Proof. unfold special_v4, lies. solve_decision. Defined.

(** An IPv6 address that stands for an IPv4 address: mapped (::ffff:0:0/96) or
translated (64:ff9b::/96). *)
Definition mapped_range : Z * Z := (0xffff00000000, 0xffffffffffff).
Definition nat64_range : Z * Z := (v6 0x64 0xff9b 0 0, v6 0x64 0xff9b 0 0 + 0xffffffff).
Definition stands_for_v4 (x : Z) : Prop := lies x mapped_range ∨ lies x nat64_range.

(** An address of the public internet. *)
Definition public (a : address) : Prop :=
  match a with
  | IPv4Address x => ¬ special_v4 x
  | IPv6Address x _ => ¬ special_v6 x ∧ (stands_for_v4 x → ¬ special_v4 (x mod 2 ^ 32))
  end.

Lemma ip_in_lies bits ip net prefix : 0 ≤ bits - prefix → net mod 2 ^ (bits - prefix) = 0 →
  ip_in bits ip net prefix = true ↔ lies ip (net, net + 2 ^ (bits - prefix) - 1).
Proof.
  intros Hp Hm. unfold ip_in, lies. cbn [fst snd]. rewrite Z.eqb_eq, !Z.shiftr_div_pow2 by done.
  assert (0 < 2 ^ (bits - prefix)) as Hpos by (apply Z.pow_pos_nonneg; lia).
  revert Hm Hpos. generalize (2 ^ (bits - prefix)) as k. intros k Hm Hpos.
  Z.to_euclidean_division_equations. nia.
Qed.

Definition net_range (bits : Z) (n : Z * Z) : Z * Z := (n.1, n.1 + 2 ^ (bits - n.2) - 1).

Lemma in_any_lies bits ip nets :
  forallb (λ n, (0 <=? bits - n.2) && (n.1 mod 2 ^ (bits - n.2) =? 0)) nets = true →
  in_any bits ip nets = true ↔ Exists (lies ip) (map (net_range bits) nets).
Proof.
  intros H. unfold in_any. rewrite existsb_exists, Exists_exists. rewrite forallb_forall in H. split.
  - intros (n & Hin & Hn). assert (Hc := H n Hin). rewrite andb_true_iff, Z.leb_le, Z.eqb_eq in Hc.
    apply ip_in_lies in Hn; [|tauto..]. exists (net_range bits n). split; [|done].
    apply list_elem_of_fmap. exists n. by rewrite list_elem_of_In.
  - intros (r & (n & -> & Hin%list_elem_of_In)%list_elem_of_fmap & Hn). exists n. split; [done|].
    assert (Hc := H n Hin). rewrite andb_true_iff, Z.leb_le, Z.eqb_eq in Hc. apply ip_in_lies; [tauto..|done].
Qed.

(** The ranges of two lists cover the same addresses when each lies in one of the other. *)
Definition covered (l k : list (Z * Z)) : bool :=
  forallb (λ r, existsb (λ s, (s.1 <=? r.1) && (r.2 <=? s.2)) k) l.

Lemma covered_lies l k x : covered l k = true → Exists (lies x) l → Exists (lies x) k.
Proof.
  unfold covered. rewrite forallb_forall, !Exists_exists. intros H (r & Hr%list_elem_of_In & Hx).
  specialize (H r Hr). apply existsb_exists in H as (s & Hs%list_elem_of_In & H).
  rewrite andb_true_iff, !Z.leb_le in H. exists s. split; [done|]. unfold lies in *. lia.
Qed.

Lemma same_ranges bits ip nets l :
  forallb (λ n, (0 <=? bits - n.2) && (n.1 mod 2 ^ (bits - n.2) =? 0)) nets
  && covered (map (net_range bits) nets) l && covered l (map (net_range bits) nets) = true →
  in_any bits ip nets = true ↔ Exists (lies ip) l.
Proof.
  rewrite !andb_true_iff. intros [[Hn H1] H2]. rewrite in_any_lies by done. split; by apply covered_lies.
Qed.

Lemma same_range bits ip net prefix r :
  (0 <=? bits - prefix) && (net mod 2 ^ (bits - prefix) =? 0) && (r.1 =? net)
  && (r.2 =? net + 2 ^ (bits - prefix) - 1) = true →
  ip_in bits ip net prefix = true ↔ lies ip r.
Proof.
  rewrite !andb_true_iff, Z.leb_le, !Z.eqb_eq. intros [[[H1 H2] H3] H4]. rewrite ip_in_lies by done.
  destruct r. cbn in *. by subst.
Qed.

(** No range of one list meets one of the other. *)
Definition apart (l k : list (Z * Z)) : bool :=
  forallb (λ r, forallb (λ s, (s.2 <? r.1) || (r.2 <? s.1)) k) l.

Lemma apart_lies l k x : apart l k = true → Exists (lies x) l → ¬ Exists (lies x) k.
Proof.
  unfold apart. rewrite forallb_forall, !Exists_exists. intros H (r & Hr%list_elem_of_In & Hx) (s & Hs%list_elem_of_In & Hy).
  specialize (H r Hr). rewrite forallb_forall in H. specialize (H s Hs). rewrite orb_true_iff, !Z.ltb_lt in H.
  unfold lies in *. lia.
Qed.

Definition shared_range : Z * Z := (v4 100 64 0 0, v4 100 127 255 255).

Lemma v4_global_iff x : v4_is_global x = true ↔ ¬ special_v4 x.
Proof.
  assert (special_v4 x ↔ lies x shared_range ∨ Exists (lies x) (map (net_range 32) v4_private) ∧ ¬ Exists (lies x) v4_routed) as ->.
  { unfold special_v4. split.
    - intros [H1 H2]. apply (covered_lies _ (shared_range :: map (net_range 32) v4_private)) in H1; [|by vm_compute].
      apply Exists_cons in H1 as [H1|H1]; tauto.
    - intros [H|[H1 H2]]; (split; [|done || idtac]).
      + apply (covered_lies [shared_range]); [by vm_compute|]. by apply Exists_cons; left.
      + apply (apart_lies [shared_range]); [by vm_compute|]. by apply Exists_cons; left.
      + by apply (covered_lies (map (net_range 32) v4_private)); [vm_compute|]. }
  unfold v4_is_global, v4_is_private.
  rewrite andb_true_iff, !negb_true_iff, andb_false_iff, negb_false_iff, <-!not_true_iff_false.
  rewrite (same_ranges 32 x v4_exceptions v4_routed) by (vm_compute; reflexivity).
  rewrite in_any_lies by (vm_compute; reflexivity).
  rewrite (same_range 32 x (v4 100 64 0 0) 10 shared_range) by (vm_compute; reflexivity).
  assert (Decision (Exists (lies x) v4_routed)) as [?|?] by (unfold lies; solve_decision); tauto.
Qed.

Lemma low32_remainder x : low32 x = x mod 2 ^ 32.
Proof. unfold low32. change 4294967295 with (Z.ones 32). by apply Z.land_ones. Qed.

Lemma mapped_lies x : lies x mapped_range ↔ Z.shiftr x 32 = 65535.
Proof. rewrite <-(same_range 128 x (65535 * 2 ^ 32) 96) by (vm_compute; reflexivity). apply Z.eqb_eq. Qed.

Lemma v6_private_iff x : ¬ lies x mapped_range → v6_is_private x = true ↔ special_v6 x.
Proof.
  intros Hm. unfold v6_is_private, ipv4_mapped.
  destruct (Z.eqb_spec (Z.shiftr x 32) 65535) as [E|_]; [by apply mapped_lies in E|].
  rewrite andb_true_iff, negb_true_iff, <-not_true_iff_false.
  rewrite (same_ranges 128 x v6_private (mapped_range :: v6_special)) by (vm_compute; reflexivity).
  rewrite (same_ranges 128 x v6_exceptions v6_routed) by (vm_compute; reflexivity).
  unfold special_v6. rewrite Exists_cons. tauto.
Qed.

(** The ranges of 6to4 and Teredo, which carry IPv4 addresses, are special themselves. *)
Lemma special_tunnels x r : lies x r → r ∈ [(v6 0x2002 0 0 0, v6 0x2003 0 0 0 - 1); (v6 0x2001 0 0 0, v6 0x2001 1 0 0 - 1)] →
  special_v6 x ∧ ¬ lies x mapped_range.
Proof.
  intros Hx Hr. assert (Exists (lies x) [r]) as H by by constructor.
  assert (covered [r] v6_special && apart [r] v6_routed && apart [r] [mapped_range] = true) as Hc.
  { rewrite !elem_of_cons in Hr. destruct Hr as [->|[->|Hr%elem_of_nil]]; [..|done]; by vm_compute. }
  rewrite !andb_true_iff in Hc. destruct Hc as [[H1 H2] H3]. split.
  - split; [by apply (covered_lies [r])|by apply (apart_lies [r])].
  - intros Hm. apply (apart_lies _ _ _ H3 H). by constructor.
Qed.
