(* ===== verification/RateKeys.v ===== *)
(** The policy and the bucket keys of the HTTP rate limiter (rate_limit.py, and
    [_credential_token] and [_is_keycloak_token] of auth.py).

    First the rules, the tables that give a route its rule, and [rule_for]; then
    [request_key], which derives the key of a request from its address, its
    verified account, or the agent its body names.  IP addresses and networks
    are the host's ([ipaddress]); tokens are decoded by PyJWT: both are
    parameters, and the theorems hold for all of them.  The metrics the code
    counts on the way are not modelled. *)
From Stdlib Require Import Ascii.
From S2P Require Import Prelude PyStr PyDict PyJson.
Open Scope Z_scope.

(** What a bucket is keyed by. *)
Inductive scope : Set := IP | ACCOUNT | AUDIENCE | GLOBAL.

#[export] Instance scope_eq_dec : EqDecision scope.
Proof. solve_decision. Defined.

Record RateLimitRule : Type := mkLimit {
  rule_name : string;
  limit : Z;
  window_seconds : Z;
  rule_scope : scope;
  subject : string;
}.

#[export] Instance RateLimitRule_eq_dec : EqDecision RateLimitRule.
Proof. solve_decision. Defined.

Definition AUTH_REDEEM : RateLimitRule :=
  mkLimit "auth_redeem" 120 300 IP "one-time sign-in code redemption".
Definition AUTH_FLOW : RateLimitRule :=
  mkLimit "auth_flow" 600 300 IP "sign-in redirect endpoints".
Definition AGENT_SESSION_EXCHANGE : RateLimitRule :=
  mkLimit "agent_session_exchange" 600 300 AUDIENCE "hosted-agent session exchange".
Definition AUTH_MINT : RateLimitRule :=
  mkLimit "auth_mint" 30 60 ACCOUNT "session-code minting".
Definition PUBLIC_READ : RateLimitRule :=
  mkLimit "public_read" 600 60 IP "public discovery endpoints".
Definition AGENT_BUILD : RateLimitRule :=
  mkLimit "agent_build" 60 600 ACCOUNT "agent create/build/deploy endpoints".
Definition LLM_RUN : RateLimitRule :=
  mkLimit "llm_run" 60 300 ACCOUNT "LLM-backed run endpoints".
Definition AGENT_RUN : RateLimitRule :=
  mkLimit "agent_run" 120 300 ACCOUNT "agent and orchestrator run endpoints".

(** [(method, route template)] to rule. *)
Definition _EXACT_RULES : list (string * string * RateLimitRule) := [
  ("GET", "/v1/auth/cli-session/redeem", AUTH_REDEEM);
  ("POST", "/v1/auth/cli-session/confirm", AUTH_REDEEM);
  ("GET", "/v1/auth/oidc/start", AUTH_FLOW);
  ("GET", "/v1/auth/oidc/callback", AUTH_FLOW);
  ("GET", "/v1/auth/agent-session/authorize", AUTH_FLOW);
  ("POST", "/v1/auth/agent-session/exchange", AGENT_SESSION_EXCHANGE);
  ("POST", "/v1/auth/cli-session", AUTH_MINT);
  ("GET", "/v1/bounties/{slug}", PUBLIC_READ);
  ("POST", "/v1/agents", AGENT_BUILD);
  ("POST", "/v1/agents/import", AGENT_BUILD);
  ("POST", "/v1/agents/from-source", AGENT_BUILD);
  ("POST", "/v1/agents/from-openapi", AGENT_BUILD);
  ("POST", "/v1/agents/compose", AGENT_BUILD);
  ("POST", "/v1/agents/from-tarball", AGENT_BUILD);
  ("POST", "/v1/agents/{name}/source/deploy", AGENT_BUILD);
  ("POST", "/v1/agents/{name}/runtime-upgrade", AGENT_BUILD);
  ("POST", "/v1/agents/{name}/template-update", AGENT_BUILD);
  ("POST", "/v1/me/chat", LLM_RUN);
  ("POST", "/v1/agents/studio/runs", LLM_RUN);
  ("POST", "/v1/agents/studio/idea-factory", LLM_RUN);
  ("POST", "/v1/agents/studio/autopilot/run", LLM_RUN);
  ("POST", "/v1/me/agent-proofs/{name}/run", AGENT_RUN);
  ("POST", "/v1/me/trial-rooms/{slug}/runs", AGENT_RUN);
  ("POST", "/v1/me/schedules/{schedule_id}/run", AGENT_RUN);
  ("POST", "/v1/me/subagent-runs/{grant_id}/rerun", AGENT_RUN);
  ("POST", "/v1/me/collective-runtime/runs", AGENT_RUN);
  ("POST", "/v1/me/collective-runtime/runs/{dag_run_id}/advance", AGENT_RUN);
  ("POST", "/v1/me/collective-runtime/memories/extract", AGENT_RUN);
  ("POST", "/v1/me/kernel-simulations/runs", AGENT_RUN);
  ("POST", "/v1/me/kernel-simulations/runs/{job_id}/replay", AGENT_RUN);
  ("POST", "/v1/me/kernel-evolution/runs", AGENT_RUN);
  ("POST", "/v1/me/kernel-evolution/runs/{job_id}/replay", AGENT_RUN)
].

(** [(template prefix, methods or None)] to rule. *)
Definition _PREFIX_RULES : list (string * option (gset string) * RateLimitRule) := [
  ("/v1/public/", None, PUBLIC_READ)
].

Definition exact_rule (method template : string) : option RateLimitRule :=
  snd <$> find (λ e, (e.1.1 =s? method) && (e.1.2 =s? template)) _EXACT_RULES.

Definition prefix_applies (method template : string) (e : string * option (gset string) * RateLimitRule) : bool :=
  startswith template e.1.1 && match e.1.2 with None => true | Some ms => bool_decide (method ∈ ms) end.

Definition rule_for (method path_template : string) : option RateLimitRule :=
  let method := upper method in
  match exact_rule method path_template with
  | Some rule => Some rule
  | None => snd <$> find (prefix_applies method path_template) _PREFIX_RULES
  end.

Definition limited_operations : list (string * string) := map fst _EXACT_RULES.

(** Every rule a route can have: its limit is positive, its window is positive,
and the name holds no colon, so that bucket keys of two rules never meet. *)
Definition sound_rule (r : RateLimitRule) : bool :=
  (1 <=? limit r) && (limit r <=? 1000) && (1 <=? window_seconds r) && negb (contains ":" (rule_name r)).

Lemma find_elem {A} (f : A → bool) l x : find f l = Some x → x ∈ l ∧ f x = true.
Proof. intros [Hi Hf]%find_some. split; [by apply list_elem_of_In|done]. Qed.

Lemma rule_for_sound m t r : rule_for m t = Some r → sound_rule r = true.
Proof.
  unfold rule_for, exact_rule. destruct (find _ _EXACT_RULES) as [[? r']|] eqn:E; cbn.
  - intros [= <-]. apply find_elem in E as [Hi _].
    assert (forallb (λ e : string * string * RateLimitRule, sound_rule e.2) _EXACT_RULES = true) as Hall
      by (vm_compute; reflexivity).
    by apply (proj1 (forallb_elem _ _) Hall) in Hi.
  - destruct (prefix_applies _ _ _); [|done]. cbn. intros [= <-]. vm_compute. reflexivity.
Qed.

(** * Keys *)

Record Request : Type := mkRequest {
  rq_method : string;
  rq_template : option string;  (* [scope["route"].path_format], when it is text *)
  rq_headers : dict string;     (* by lower-case name *)
  rq_cookies : dict string;
  rq_client : option string;    (* [client.host] *)
  rq_body : option string;      (* [None]: reading it raises *)
}.

Definition AGENT_INVOKE_TOKEN_TYPE : string := "agent_invoke".
Definition AGENT_RUNTIME_TOKEN_TYPE : string := "agent_runtime".
Definition AGENT_SESSION_TOKEN_TYPE : string := "agent_session".

(** The first non-empty text, or nothing. *)
Definition nonempty (s : string) : option string := if s =s? "" then None else Some s.

Definition str_drop (n : nat) (s : string) : string := of_chars (drop n (chars s)).

Definition _credential_token (authorization session_cookie : option string) : option string :=
  match authorization ≫= nonempty with
  | Some a =>
      if startswith (lower a) "bearer " then nonempty (strip (str_drop 7 a))
      else strip <$> (session_cookie ≫= nonempty)
  | None => strip <$> (session_cookie ≫= nonempty)
  end.

(** [str(sub) if sub not in (None, "") else None]. *)
Definition subject_text (sub : json) : option string :=
  match sub with
  | JNull => None
  | JStr s => nonempty s
  | j => Some (py_str j)
  end.

Fixpoint index_of (c : ascii) (l : list ascii) : nat :=
  match l with
  | [] => 0
  | d :: l' => if Ascii.eqb c d then 0 else S (index_of c l')
  end.

Definition count_char (c : ascii) (s : string) : nat :=
  length (base.filter (λ d, Ascii.eqb c d = true) (chars s)).

(** The address text of a hop: a port and the brackets of an IPv6 address go. *)
Definition hop_text (value : string) : string :=
  if startswith value "[" && existsb (Ascii.eqb "]"%char) (chars value)
  then of_chars (take (index_of "]"%char (chars value) - 1) (drop 1 (chars value)))
  else if (count_char ":"%char value =? 1)%nat then (split1 ":"%char value).1
  else value.

Section keys.
(** [ipaddress]: an address from its text, [is_global], [compressed], a
network from its text, membership. *)
Context {address network : Type}.
Context (ip_address : string → option address) (is_global : address → bool) (compressed : address → string).
Context (ip_network : string → option network) (in_network : address → network → bool).

(** PyJWT: the claims of a token verified with the platform's secret, the
unverified header, the key ids the cached key set knows, the claims of a
token verified against the realm; [None] where it raises. *)
Context (jwt_claims : string → option jobject) (jwt_header : string → option jobject).
Context (known_kids : list string) (keycloak_claims : string → option jobject).

(** The JSON decoder. *)
Context (json_loads : string → option json).

(** The settings. *)
Context (trusted_proxy_cidrs : string) (exempt_private_clients keycloak_enabled : bool).
Context (session_cookie_name : string).

(** Entries that do not parse are skipped. *)
Definition _trusted_proxy_networks (raw : string) : list network :=
  omap (λ entry, nonempty (strip entry) ≫= ip_network) (split ","%char raw).

Definition _is_our_infrastructure (a : address) : bool :=
  negb (is_global a) || existsb (in_network a) (_trusted_proxy_networks trusted_proxy_cidrs).

Definition _parse (raw : option string) : option address :=
  value ← raw ≫= nonempty; value ← nonempty (strip value); ip_address (hop_text value).

Definition _forwarded_chain (r : Request) : list (option address) :=
  match default "" (rq_headers r !! "x-forwarded-for") with
  | "" => []
  | raw => map (λ hop, _parse (Some hop)) (split ","%char raw)
  end.

Definition _peer (r : Request) : option address := _parse (rq_client r).

(** The addresses of the chain that are not ours. *)
Definition untrusted (chain : list (option address)) : list address :=
  omap (λ o, a ← o; if _is_our_infrastructure a then None else Some a) chain.

Definition _client_address (r : Request) : option address :=
  match last (untrusted (_forwarded_chain r)) with
  | Some a => Some a
  | None =>
      match _peer r with
      | Some p => if _is_our_infrastructure p then None else Some p
      | None => None
      end
  end.

Definition ip_bucket (a : address) : string := "ip:" +:+ compressed a.

(** The nearest hop that parsed. *)
Definition nearest_hop (chain : list (option address)) : option address := last (omap id chain).

Definition _ip_key (r : Request) : option string :=
  match _client_address r with
  | Some a => Some (ip_bucket a)
  | None =>
      if exempt_private_clients then None
      else match nearest_hop (_forwarded_chain r) with
           | Some a => Some (ip_bucket a)
           | None => ip_bucket <$> _peer r
           end
  end.

Definition _platform_subject (token : string) : res (option string) :=
  match jwt_claims token with
  | None => Ok None
  | Some claims =>
      typ ← hashed (jget claims "typ");
      match typ with
      | Some t =>
          if (t =s? AGENT_INVOKE_TOKEN_TYPE) || (t =s? AGENT_RUNTIME_TOKEN_TYPE) || (t =s? AGENT_SESSION_TOKEN_TYPE)
          then Ok None else Ok (subject_text (jget claims "sub"))
      | None => Ok (subject_text (jget claims "sub"))
      end
  end.

(** [None]: it raises. *)
Definition _is_keycloak_token (token : string) : option bool :=
  if negb keycloak_enabled then Some false
  else header ← jwt_header token;
       match py_or (jget header "alg") (JStr "") with
       | JStr alg => Some (startswith (upper alg) "RS")
       | _ => None
       end.

Definition _keycloak_subject (token : string) : option string :=
  is_kc ← _is_keycloak_token token;
  if negb is_kc then None
  else header ← jwt_header token;
       if negb (truthy (jget header "kid")) then None
       else if negb (existsb (is_text (jget header "kid")) known_kids) then None
       else claims ← keycloak_claims token; subject_text (jget claims "sub").

Definition _account_key (r : Request) : res (option string) :=
  match _credential_token (rq_headers r !! "authorization") (rq_cookies r !! session_cookie_name) ≫= nonempty with
  | None => Ok None
  | Some token =>
      subject ← _platform_subject token;
      match subject with
      | Some s => Ok (Some ("user:" +:+ s))
      | None => Ok ((λ s, "kc:" +:+ s) <$> _keycloak_subject token)
      end
  end.

Definition _MAX_AUDIENCE_BODY_BYTES : Z := 8192.

(** Whether the declared length, if any, allows reading the body. *)
Definition length_allowed (declared : option string) : bool :=
  match declared with
  | None => true
  | Some d => match int_of_text d with Ok n => n <=? _MAX_AUDIENCE_BODY_BYTES | Raise _ => false end
  end.

Definition _audience_key (r : Request) : option string :=
  if negb (contains "json" (lower (default "" (rq_headers r !! "content-type")))) then None
  else if negb (length_allowed (rq_headers r !! "content-length")) then None
  else
    raw ← rq_body r;
    if (raw =s? "") || (_MAX_AUDIENCE_BODY_BYTES <? Z.of_nat (String.length raw)) then None
    else match json_loads raw with
    | Some (JObj payload) =>
        match jget payload "audience" with
        | JStr a =>
            let audience := strip a in
            if (audience =s? "") || (128 <? Z.of_nat (String.length audience)) then None
            else Some ("agent:" +:+ audience)
        | _ => None
        end
    | _ => None
    end.

(** [x or y] on keys: no key here is the empty text. *)
Definition or_key (x y : option string) : option string := match x with Some k => Some k | None => y end.

Definition request_key (rule : RateLimitRule) (r : Request) : res (option string) :=
  match rule_scope rule with
  | GLOBAL => Ok (Some "all")
  | ACCOUNT => k ← _account_key r; Ok (or_key k (_ip_key r))
  | AUDIENCE => Ok (or_key (_audience_key r) (_ip_key r))
  | IP => Ok (_ip_key r)
  end.
End keys.
