(* ===== verification/RateLimiter.v ===== *)
(** The counters, the circuit breaker and the request hook of the HTTP rate
    limiter (rate_limit.py).

    [Backend] is what the limiter needs of a counter.  Two instances: the
    process-local map, and the Redis counter over the client's two commands.
    The clock readings of a call are arguments; the metrics and the log lines
    are not modelled. *)
From Stdlib Require Import Ascii.
From S2P Require Import Prelude PyStr PyDict PyFloat RateKeys.
Open Scope Z_scope.

(** [incr key window_seconds]: the hits of the current window and the seconds
until it resets; the argument before the state is the clock. *)
Class Backend (B : Type) : Type :=
  incr : string → Z → pyfloat → B → res (Z * Z) * B.

(** * The process-local counter *)

Record InMemoryRateLimitBackend : Type := mkMemory { _hits : dict (pyfloat * pyfloat) }.

Definition _MAX_KEYS : nat := N.to_nat 20000.

Definition expired (now : pyfloat) (entry : pyfloat * pyfloat) : bool := fle entry.2 now.

(** Pop the oldest entry until the cap holds. *)
Fixpoint evict_oldest (hits : dict (pyfloat * pyfloat)) : dict (pyfloat * pyfloat) :=
  match hits with
  | [] => []
  | _ :: rest => if (_MAX_KEYS <? length hits)%nat then evict_oldest rest else hits
  end.

Definition _evict (now : pyfloat) (hits : dict (pyfloat * pyfloat)) : dict (pyfloat * pyfloat) :=
  if (length hits <=? _MAX_KEYS)%nat then hits
  else evict_oldest (base.filter (λ p, expired now p.2 = false) hits).

Definition open_window (key : string) (window : Z) (now : pyfloat) (hits : dict (pyfloat * pyfloat)) :
    dict (pyfloat * pyfloat) :=
  _evict now (<[key := (f_round 1, fadd now (f_round window))]> hits).

Definition memory_incr (key : string) (window : Z) (now : pyfloat) (m : InMemoryRateLimitBackend) :
    res (Z * Z) * InMemoryRateLimitBackend :=
  match _hits m !! key with
  | Some (count, reset) =>
      if expired now (count, reset) then (Ok (1, window), mkMemory (open_window key window now (_hits m)))
      else
        let count' := fadd count (f_round 1) in
        ((n ← int_of_float count'; left_ ← round_half_even (fsub reset now); Ok (n, Z.max 1 left_)),
         mkMemory (<[key := (count', reset)]> (_hits m)))
  | None => (Ok (1, window), mkMemory (open_window key window now (_hits m)))
  end.

#[export] Instance memory_backend : Backend InMemoryRateLimitBackend := memory_incr.

(** * The shared counter *)

(** What the Redis client offers, over the state [W] of the server and the connection:
the pipelined [INCR] and [TTL], and [EXPIRE]. *)
Class RedisClient (W : Type) : Type := {
  incr_ttl : string → W → res (Z * option Z) * W;
  expire : string → Z → W → res unit * W;
}.

Record RedisRateLimitBackend (W : Type) : Type := mkRedis { redis_state : W }.
Arguments mkRedis {W} _.
Arguments redis_state {W} _.

Definition redis_incr {W} `{RedisClient W} (key : string) (window : Z) (b : RedisRateLimitBackend W) :
    res (Z * Z) * RedisRateLimitBackend W :=
  match incr_ttl key (redis_state b) with
  | (Raise e, w) => (Raise e, mkRedis w)
  | (Ok (count, ttl), w) =>
      match ttl with
      | Some t =>
          if t <? 0 then
            match expire key window w with
            | (Ok _, w') => (Ok (1, window), mkRedis w')
            | (Raise e, w') => (Raise e, mkRedis w')
            end
          else (Ok (count, t), mkRedis w)
      | None =>
          match expire key window w with
          | (Ok _, w') => (Ok (1, window), mkRedis w')
          | (Raise e, w') => (Raise e, mkRedis w')
          end
      end
  end.

#[export] Instance redis_backend {W} `{RedisClient W} : Backend (RedisRateLimitBackend W) :=
  λ key window _, redis_incr key window.

(** * The limiter *)

Record RateLimitDecision : Type := mkVerdict {
  allowed : bool;
  decision_rule : RateLimitRule;
  remaining : Z;
  retry_after : Z;
}.

Record _Breaker : Type := mkBreaker {
  _threshold : Z;
  _cooldown : pyfloat;
  _failures : Z;
  _opened_at : option pyfloat;
}.

(** [now - opened_at >= cooldown] of an open breaker closes it. *)
Definition is_open (now : pyfloat) (b : _Breaker) : bool * _Breaker :=
  match _opened_at b with
  | None => (false, b)
  | Some opened =>
      if fle (_cooldown b) (fsub now opened)
      then (false, mkBreaker (_threshold b) (_cooldown b) 0 None)
      else (true, b)
  end.

Definition record_success (b : _Breaker) : _Breaker := mkBreaker (_threshold b) (_cooldown b) 0 None.

Definition record_failure (now : pyfloat) (b : _Breaker) : _Breaker :=
  let failures := _failures b + 1 in
  mkBreaker (_threshold b) (_cooldown b) failures
    (if _threshold b <=? failures then Some now else _opened_at b).

Definition _KEY_PREFIX : string := "control-plane:rate-limit".

Definition bucket (rule : RateLimitRule) (key : string) : string :=
  _KEY_PREFIX +:+ ":" +:+ rule_name rule +:+ ":" +:+ key.

(** The answer when the backend cannot be asked. *)
Definition fail_open (rule : RateLimitRule) : RateLimitDecision := mkVerdict true rule (limit rule) 0.

Definition verdict_of (rule : RateLimitRule) (count reset : Z) : RateLimitDecision :=
  mkVerdict (count <=? limit rule) rule (Z.max 0 (limit rule - count)) (Z.max 1 reset).

Section limiter.
Context {B : Type} `{Backend B}.

Record RateLimiter : Type := mkLimiter { backend : B; _breaker : _Breaker }.

Definition new_limiter (b : B) : RateLimiter := mkLimiter b (mkBreaker 3 (f_round 15) 0 None).

(** [now] is the limiter's clock reading, [now'] the backend's. *)
Definition check (rule : RateLimitRule) (key : string) (now now' : pyfloat) (l : RateLimiter) :
    RateLimitDecision * RateLimiter :=
  let '(opened, breaker) := is_open now (_breaker l) in
  if opened then (fail_open rule, mkLimiter (backend l) breaker)
  else match incr (bucket rule key) (window_seconds rule) now' (backend l) with
       | (Raise _, b) => (fail_open rule, mkLimiter b (record_failure now breaker))
       | (Ok (count, reset), b) => (verdict_of rule count reset, mkLimiter b (record_success breaker))
       end.

(** A request that comes through, or the 429 with its detail and headers. *)
Inductive answer : Type := Pass | Reject (status : Z) (detail : string) (headers : list (string * string)).

Definition _detail (d : RateLimitDecision) : string :=
  "rate limit exceeded for " +:+ subject (decision_rule d) +:+ ": at most " +:+ dec (limit (decision_rule d))
  +:+ " requests per " +:+ dec (window_seconds (decision_rule d)) +:+ "s. Retry in " +:+ dec (retry_after d) +:+ "s.".

Definition throttle (d : RateLimitDecision) : answer :=
  if allowed d then Pass
  else Reject 429 (_detail d) [
    ("Retry-After", dec (retry_after d)); ("RateLimit-Limit", dec (limit (decision_rule d)));
    ("RateLimit-Remaining", "0"); ("RateLimit-Reset", dec (retry_after d)); ("Cache-Control", "no-store")].

(** [rate_limit_guard]: [key_of] is [request_key] with the host's functions. *)
Definition rate_limit_guard (enabled : bool) (method : string) (template : option string)
    (key_of : RateLimitRule → res (option string)) (now now' : pyfloat) (l : RateLimiter) :
    res answer * RateLimiter :=
  if negb enabled then (Ok Pass, l)
  else match template ≫= (λ t, if t =s? "" then None else Some t) with
  | None => (Ok Pass, l)
  | Some t =>
      match rule_for method t with
      | None => (Ok Pass, l)
      | Some rule =>
          match key_of rule with
          | Raise e => (Raise e, l)
          | Ok None => (Ok Pass, l)
          | Ok (Some key) => let '(d, l') := check rule key now now' l in (Ok (throttle d), l')
          end
      end
  end.
End limiter.
Arguments RateLimiter B : clear implicits.
