(* ===== verification/RateProperties.v ===== *)
(** What the HTTP rate limiter guarantees: it refuses only what its counter put
    over the limit, its window counts are exact, a failing counter is left
    alone, and neither an address nor an account key can be chosen by the
    caller. *)
From Stdlib Require Import Ascii.
From S2P Require Import Prelude PyStr PyDict PyFloat PyJson IpAddress RateKeys RateLimiter.
Open Scope Z_scope.

Lemma nonempty_some s t : nonempty s = Some t ↔ s = t ∧ t ≠ "".
Proof.
  unfold nonempty. destruct (String.eqb_spec s "") as [->|]; split; [done|by intros [<- ?]|by intros [= <-]|by intros [<- _]].
Qed.

Section keys.
Context {address network : Type}.
Context (ip_address : string → option address) (is_global : address → bool) (compressed : address → string).
Context (ip_network : string → option network) (in_network : address → network → bool).
Context (jwt_claims : string → option jobject) (jwt_header : string → option jobject).
Context (known_kids : list string) (keycloak_claims : string → option jobject).
Context (trusted_proxy_cidrs : string) (exempt_private_clients keycloak_enabled : bool).
Context (session_cookie_name : string).

Let ours := _is_our_infrastructure is_global ip_network in_network trusted_proxy_cidrs.
Let outside := untrusted is_global ip_network in_network trusted_proxy_cidrs.
Let client_address := _client_address ip_address is_global ip_network in_network trusted_proxy_cidrs.
Let ip_key := _ip_key ip_address is_global compressed ip_network in_network trusted_proxy_cidrs exempt_private_clients.
Let account_key := _account_key jwt_claims jwt_header known_kids keycloak_claims keycloak_enabled session_cookie_name.

(** The hops of a header text. *)
Definition hops (raw : string) : list (option address) :=
  map (λ hop, _parse ip_address (Some hop)) (split ","%char raw).

Lemma untrusted_app xs ys : outside (xs ++ ys) = outside xs ++ outside ys.
Proof. apply omap_app. Qed.

Lemma forwarded_chain_hops r raw : rq_headers r !! "x-forwarded-for" = Some raw → raw ≠ "" →
  _forwarded_chain ip_address r = hops raw.
Proof. intros H Hne. unfold _forwarded_chain. rewrite H. cbn. by destruct raw. Qed.

Lemma client_address_last r a :
  last (outside (_forwarded_chain ip_address r)) = Some a → client_address r = Some a.
Proof. intros H. unfold client_address, _client_address. unfold outside in H. by rewrite H. Qed.

(** C31: the address a request is counted under depends only on the hops our
own ingress appended: whatever the caller puts before them, the address is the
last one there that is not ours, and the bucket is that address's. *)
Theorem forwarded_spoof_proof r spoof appended a
    (Hheader : rq_headers r !! "x-forwarded-for" = Some (spoof +:+ "," +:+ appended))
    (Hlast : last (outside (hops appended)) = Some a) :
  client_address r = Some a ∧ ip_key r = Some (ip_bucket compressed a).
Proof.
  assert (client_address r = Some a) as Hc.
  { apply client_address_last. rewrite (forwarded_chain_hops r _ Hheader); [|by destruct spoof].
    unfold hops. change ("," +:+ appended) with (String ","%char appended).
    rewrite split_app, map_app, untrusted_app. fold (hops appended).
    by apply last_app_Some; left. }
  split; [done|]. unfold ip_key, _ip_key. unfold client_address in Hc. by rewrite Hc.
Qed.

(** The claims of a token of the platform that lives in someone else's process. *)
Definition agent_held (claims : jobject) : bool :=
  is_text (jget claims "typ") AGENT_INVOKE_TOKEN_TYPE || is_text (jget claims "typ") AGENT_RUNTIME_TOKEN_TYPE
  || is_text (jget claims "typ") AGENT_SESSION_TOKEN_TYPE.

Lemma platform_subject_some token o :
  _platform_subject jwt_claims token = Ok (Some o) →
  ∃ claims, jwt_claims token = Some claims ∧ agent_held claims = false ∧ subject_text (jget claims "sub") = Some o.
Proof.
  unfold _platform_subject. destruct (jwt_claims token) as [claims|]; [|done]. intros (typ & Ht & H)%res_bind_ok.
  exists claims. split; [done|]. unfold agent_held. destruct (jget claims "typ") as [| | | |t| |]; cbn in *;
    try discriminate Ht; injection Ht as <-; try (split; [done|by injection H]).
  destruct (_ || _); [discriminate H|]. split; [done|]. by injection H.
Qed.

Lemma keycloak_subject_some token o :
  _keycloak_subject jwt_header known_kids keycloak_claims keycloak_enabled token = Some o →
  keycloak_enabled = true ∧ ∃ header claims, jwt_header token = Some header
    ∧ existsb (is_text (jget header "kid")) known_kids = true
    ∧ keycloak_claims token = Some claims ∧ subject_text (jget claims "sub") = Some o.
Proof.
  unfold _keycloak_subject, _is_keycloak_token. destruct keycloak_enabled; cbn [negb]; [|done].
  destruct (jwt_header token) as [header|]; [|done]. cbn [mbind option_bind].
  intros (is_kc & _ & H)%bind_Some. destruct is_kc; cbn [negb] in H; [|done].
  cbn [mbind option_bind] in H.
  destruct (truthy _); cbn [negb] in H; [|done]. destruct (existsb _ _) eqn:Hk; cbn [negb] in H; [|done].
  apply bind_Some in H as (claims & Hc & Ho). split; [done|]. by exists header, claims.
Qed.

(** C32: an account key always comes from the subject of a verified credential
the request carries: [user:] from claims signed by the platform that no agent
or visitor session holds, [kc:] from claims the realm signed, with a key
already known. *)
Theorem account_key_verified r k
    (Hkey : account_key r = Ok (Some k)) :
  ∃ token, _credential_token (rq_headers r !! "authorization") (rq_cookies r !! session_cookie_name) = Some token ∧
  ((∃ claims sub, jwt_claims token = Some claims ∧ agent_held claims = false
      ∧ subject_text (jget claims "sub") = Some sub ∧ k = "user:" +:+ sub) ∨
   (∃ header claims sub, keycloak_enabled = true ∧ jwt_header token = Some header
      ∧ existsb (is_text (jget header "kid")) known_kids = true ∧ keycloak_claims token = Some claims
      ∧ subject_text (jget claims "sub") = Some sub ∧ k = "kc:" +:+ sub)).
Proof.
  unfold account_key, _account_key in Hkey.
  destruct (_credential_token _ _) as [token|]; cbn in Hkey; [|done].
  destruct (nonempty token) as [t|] eqn:Ht; [|done]. apply nonempty_some in Ht as [<- _].
  exists token. split; [done|]. apply res_bind_ok in Hkey as ([sub|] & Hs & H).
  - injection H as <-. apply platform_subject_some in Hs as (claims & Hc & Ha & Hsub). left. by exists claims, sub.
  - destruct (_keycloak_subject _ _ _ _ _) as [sub|] eqn:Hkc; [|done]. injection H as <-.
    apply keycloak_subject_some in Hkc as (He & header & claims & Hh & Hk & Hc & Hsub).
    right. by exists header, claims, sub.
Qed.

(** Two credentials of one account give one key. *)
Lemma account_key_of_subject r token claims sub :
  _credential_token (rq_headers r !! "authorization") (rq_cookies r !! session_cookie_name) = Some token →
  token ≠ "" → jwt_claims token = Some claims → is_ok (hashed (jget claims "typ")) = true →
  agent_held claims = false → subject_text (jget claims "sub") = Some sub →
  account_key r = Ok (Some ("user:" +:+ sub)).
Proof.
  intros Hc Hne Hj Hh Ha Hs. unfold account_key, _account_key. rewrite Hc. cbn [mbind option_bind].
  rewrite (proj2 (nonempty_some token token)) by done. unfold _platform_subject. rewrite Hj.
  unfold agent_held in Ha. destruct (jget claims "typ") as [| | | |t| |]; cbn in *; try discriminate Hh;
    rewrite ?Ha, ?Hs; done.
Qed.

(** No rotation of the credential makes a second budget: two requests whose
tokens the platform signed for the same subject are counted under one key. *)
Theorem account_key_survives_rotation r r' token token' claims claims' sub
    (Htoken : _credential_token (rq_headers r !! "authorization") (rq_cookies r !! session_cookie_name) = Some token)
    (Htoken' : _credential_token (rq_headers r' !! "authorization") (rq_cookies r' !! session_cookie_name) = Some token')
    (Hne : token ≠ "") (Hne' : token' ≠ "")
    (Hclaims : jwt_claims token = Some claims) (Hclaims' : jwt_claims token' = Some claims')
    (Htyp : is_ok (hashed (jget claims "typ")) = true) (Htyp' : is_ok (hashed (jget claims' "typ")) = true)
    (Hheld : agent_held claims = false) (Hheld' : agent_held claims' = false)
    (Hsub : subject_text (jget claims "sub") = Some sub) (Hsub' : subject_text (jget claims' "sub") = Some sub) :
  account_key r = account_key r' ∧ account_key r = Ok (Some ("user:" +:+ sub)).
Proof.
  rewrite (account_key_of_subject r token claims sub), (account_key_of_subject r' token' claims' sub) by done. done.
Qed.
End keys.

(** * A concrete host: the addresses of Python, and one trusted network. *)

Definition edge_network (s : string) : option (Z * Z) :=
  if s =s? "104.16.0.0/13" then Some (v4 104 16 0 0, 13) else None.
Definition edge_member (a : address) (n : Z * Z) : bool :=
  match a with IPv4Address ip => ip_in 32 ip n.1 n.2 | IPv6Address _ _ => false end.

(** Tokens [s1] and [s2] are the platform's for user 7; [k1] is the realm's. *)
Definition host_claims (t : string) : option jobject :=
  if t =s? "s1" then Some [("sub", JInt 7); ("typ", JStr "session")]
  else if t =s? "s2" then Some [("sub", JStr "7")]
  else if t =s? "a1" then Some [("sub", JInt 7); ("typ", JStr "agent_invoke")]
  else None.
Definition host_header (t : string) : option jobject := Some [("alg", JStr "rs256"); ("kid", JStr "k")].
Definition realm_claims (t : string) : option jobject := Some [("sub", JStr "u-1")].

Definition sample_request (forwarded authorization : string) : Request :=
  mkRequest "GET" (Some "/v1/public/agents") [("x-forwarded-for", forwarded); ("authorization", authorization)] []
    (Some "10.0.0.9") None.

(** Our hops are a private address and one of the trusted network, whose list has
an entry that does not parse; the caller claims to be 8.8.4.4. *)
Lemma forwarded_spoof_proof_witness :
  let r := sample_request "8.8.4.4,[2001:4860:4860:0:0::8888]:80, 104.17.3.4 , 10.0.0.1" "" in
  _client_address ip_address is_global edge_network edge_member "edge, 104.16.0.0/13" r
    = Some (IPv6Address 42541956123769884636017138956568135816 None)
  ∧ _ip_key ip_address is_global compressed edge_network edge_member "edge, 104.16.0.0/13" true r
    = Some "ip:2001:4860:4860::8888".
Proof.
  apply (forwarded_spoof_proof ip_address is_global compressed edge_network edge_member "edge, 104.16.0.0/13" true
    (sample_request "8.8.4.4,[2001:4860:4860:0:0::8888]:80, 104.17.3.4 , 10.0.0.1" "") "8.8.4.4"
    "[2001:4860:4860:0:0::8888]:80, 104.17.3.4 , 10.0.0.1" (IPv6Address 42541956123769884636017138956568135816 None));
    vm_compute; reflexivity.
Defined.

Lemma account_key_verified_witness :
  ∃ token, _credential_token (Some "Bearer k1") None = Some token ∧
    ∃ sub, "kc:u-1" = "user:" +:+ sub ∨ "kc:u-1" = "kc:" +:+ sub.
Proof.
  destruct (account_key_verified host_claims host_header ["k"] realm_claims true "session"
    (sample_request "" "Bearer k1") "kc:u-1") as (token & Ht & Hk); [vm_compute; reflexivity|].
  exists token. split; [exact Ht|].
  destruct Hk as [(claims & sub & _ & _ & _ & H)|(header & claims & sub & _ & _ & _ & _ & _ & H)];
    exists sub; [left|right]; exact H.
Defined.

Lemma account_key_survives_rotation_witness :
  _account_key host_claims host_header ["k"] realm_claims true "session" (sample_request "" "Bearer s1")
  = _account_key host_claims host_header ["k"] realm_claims true "session" (sample_request "" "bearer  s2 ").
Proof.
  apply (account_key_survives_rotation host_claims host_header ["k"] realm_claims true "session"
    (sample_request "" "Bearer s1") (sample_request "" "bearer  s2 ") "s1" "s2"
    [("sub", JInt 7); ("typ", JStr "session")] [("sub", JStr "7")] "7"); try (vm_compute; reflexivity); discriminate.
Defined.

(** * Counting *)

(** * The decision *)

Section decisions.
Context {B : Type} `{Backend B}.

(** The backend is asked about [rule] and [key], and counts more than the limit. *)
Definition over_limit (rule : RateLimitRule) (key : string) (now now' : pyfloat) (l : RateLimiter B) : Prop :=
  (is_open now (_breaker l)).1 = false ∧
  ∃ count reset b, incr (bucket rule key) (window_seconds rule) now' (backend l) = (Ok (count, reset), b)
                   ∧ limit rule < count.

Lemma check_refuses_iff rule key now now' l :
  allowed (check rule key now now' l).1 = false ↔ over_limit rule key now now' l.
Proof.
  unfold check, over_limit. destruct (is_open now (_breaker l)) as [[] br]; cbn.
  - split; [done|by intros [? _]].
  - destruct (incr _ _ _ _) as [[[c r]|e] b]; cbn.
    + rewrite Z.leb_gt. split; [intros; split; [done|]; by exists c, r, b|].
      by intros (_ & c' & r' & b' & [= <- <- <-] & Hl).
    + split; [done|]. by intros (_ & c' & r' & b' & ? & _).
Qed.

Lemma throttle_pass d : throttle d = Pass ↔ allowed d = true.
Proof. unfold throttle. by destruct (allowed d). Qed.

(** C29: a request is refused exactly when the limiter is on, its route has a
rule, a key could be derived, and the counter, asked, put that key over the
rule's limit; an exception can only come from deriving the key. *)
Theorem guard_refuses_iff enabled method template key_of now now' (l : RateLimiter B) :
  ((∃ status detail headers,
      (rate_limit_guard enabled method template key_of now now' l).1 = Ok (Reject status detail headers)) ↔
   enabled = true ∧ ∃ t rule key, template = Some t ∧ t ≠ "" ∧ rule_for method t = Some rule
     ∧ key_of rule = Ok (Some key) ∧ over_limit rule key now now' l)
  ∧ ∀ e, (rate_limit_guard enabled method template key_of now now' l).1 = Raise e →
         ∃ rule, key_of rule = Raise e.
Proof.
  unfold rate_limit_guard. destruct enabled; cbn [negb]; [|split; [split; [by intros (? & ? & ? & ?)|by intros [? _]]|done]].
  destruct template as [t|]; cbn; [|split; [split; [by intros (? & ? & ? & ?)|by intros (_ & ? & ? & ? & ? & _)]|done]].
  destruct (String.eqb_spec t "") as [->|Ht];
    [split; [split; [by intros (? & ? & ? & ?)|by intros (_ & t & ? & ? & [= <-] & ? & _)]|done]|].
  destruct (rule_for method t) as [rule|] eqn:Hr;
    [|split; [split; [by intros (? & ? & ? & ?)|by intros (_ & t' & ? & ? & [= <-] & _ & ? & _); congruence]|done]].
  destruct (key_of rule) as [[key|]|e] eqn:Hk.
  - pose proof (check_refuses_iff rule key now now' l) as Hc.
    destruct (check rule key now now' l) as [d l']. cbn in *. split; [|done]. unfold throttle. split.
    + intros (st & dt & hs & Hx). destruct (allowed d); [done|]. split; [done|]. exists t, rule, key. naive_solver.
    + intros (_ & t' & rule' & key' & [= <-] & _ & Hr' & Hk' & Ho). rewrite Hr in Hr'. injection Hr' as <-.
      rewrite Hk in Hk'. injection Hk' as <-. apply Hc in Ho as ->. eauto.
  - split; [split; [by intros (? & ? & ? & ?)|]|done].
    intros (_ & t' & rule' & key' & [= <-] & _ & Hr' & Hk' & _). congruence.
  - split; [split; [by intros (? & ? & ? & ?)|]|].
    + intros (_ & t' & rule' & key' & [= <-] & _ & Hr' & Hk' & _). congruence.
    + cbn. intros e' [= <-]. eauto.
Qed.

(** * The breaker *)

Fixpoint check_all (calls : list (RateLimitRule * string * pyfloat * pyfloat)) (l : RateLimiter B) : RateLimiter B :=
  match calls with
  | [] => l
  | (rule, key, now, now') :: rest => check_all rest (check rule key now now' l).2
  end.

Definition asked_down (l : RateLimiter B) (rule : RateLimitRule) (key : string) (now' : pyfloat) : Prop :=
  ∃ e, (incr (bucket rule key) (window_seconds rule) now' (backend l)).1 = Raise e.

Lemma check_down rule key now now' l :
  _opened_at (_breaker l) = None → asked_down l rule key now' →
  (check rule key now now' l).1 = fail_open rule ∧
  _breaker (check rule key now now' l).2 = record_failure now (_breaker l).
Proof.
  intros Hc [e He]. unfold check, is_open. rewrite Hc.
  destruct (incr _ _ _ _) as [[[c r]|e'] b]; cbn in *; [discriminate He|]. done.
Qed.

(** C33: when the counter fails the calls it is asked for, as many in a row as the threshold
(it may answer at any other time), a closed breaker with no failures counted opens: until the
cooldown has passed since the last of them the counter is not asked again, the request is
allowed and the limiter is unchanged. *)
Theorem breaker_spares_backend (calls : list (RateLimitRule * string * pyfloat * pyfloat)) last_call
    rule key now now' (l : RateLimiter B)
    (Hdown : ∀ before r k t t' after, calls ++ [last_call] = before ++ (r, k, t, t') :: after →
       asked_down (check_all before l) r k t')
    (Hclosed : _opened_at (_breaker l) = None) (Hfresh : _failures (_breaker l) = 0)
    (Hcount : Z.of_nat (length calls) + 1 = _threshold (_breaker l))
    (Hcool : fle (_cooldown (_breaker l)) (fsub now last_call.1.2) = false) :
  let l' := check_all (calls ++ [last_call]) l in
  check rule key now now' l' = (fail_open rule, l').
Proof.
  intros l'.
  assert (∀ cs l0, (∀ before r k t t' after, cs ++ [last_call] = before ++ (r, k, t, t') :: after →
      asked_down (check_all before l0) r k t') →
    _opened_at (_breaker l0) = None → _failures (_breaker l0) + Z.of_nat (length cs) + 1 = _threshold (_breaker l0) →
    let b := _breaker (check_all (cs ++ [last_call]) l0) in
    _opened_at b = Some last_call.1.2 ∧ _cooldown b = _cooldown (_breaker l0)) as Hrun.
  { clear. induction cs as [|[[[r k] t] t'] cs IH]; intros l0 Hdown Hc Hf; cbn [app check_all length] in *.
    - destruct last_call as [[[r k] t] t']. destruct (check_down r k t t' l0 Hc) as [_ ->]; [by apply (Hdown [] r k t t' [])|].
      unfold record_failure. cbn. destruct (Z.leb_spec (_threshold (_breaker l0)) (_failures (_breaker l0) + 1)); [done|lia].
    - destruct (check_down r k t t' l0 Hc) as [_ Hb]; [by apply (Hdown [] r k t t' (cs ++ [last_call]))|].
      assert (_breaker (check r k t t' l0).2 = mkBreaker (_threshold (_breaker l0)) (_cooldown (_breaker l0))
        (_failures (_breaker l0) + 1) None) as Hb'.
      { rewrite Hb. unfold record_failure. rewrite Hc.
        destruct (Z.leb_spec (_threshold (_breaker l0)) (_failures (_breaker l0) + 1)); [lia|done]. }
      specialize (IH (check r k t t' l0).2). rewrite Hb' in IH. cbn in IH. apply IH; [|done|lia].
      intros before r' k' u u' after E. apply (Hdown ((r, k, t, t') :: before) r' k' u u' after). cbn. by rewrite E. }
  destruct (Hrun calls l Hdown Hclosed) as [Ho Hcd]; [lia|]. fold l' in Ho, Hcd. unfold check, is_open.
  rewrite Ho, Hcd, Hcool. by destruct l'.
Qed.
End decisions.

(** A counter that is down for its first three calls. *)
Record Down : Type := mkDown { attempts : nat }.
#[export] Instance down_backend : Backend Down := λ _ window _ b,
  (if (attempts b <? 3)%nat then Raise TypeError else Ok (1, window), mkDown (S (attempts b))).

Lemma breaker_spares_backend_witness :
  let call t := (PUBLIC_READ, "ip:1.2.3.4", f_round t, f_round t) in
  check PUBLIC_READ "ip:5.6.7.8" (f_round 16) (f_round 16) (check_all [call 1; call 2; call 3] (new_limiter (mkDown 0)))
  = (fail_open PUBLIC_READ, mkLimiter (mkDown 3) (mkBreaker 3 (f_round 15) 3 (Some (f_round 3)))).
Proof.
  intros call. rewrite (breaker_spares_backend [call 1; call 2] (call 3) PUBLIC_READ "ip:5.6.7.8" (f_round 16) (f_round 16)
    (new_limiter (mkDown 0))); try (vm_compute; reflexivity).
  intros before r k t t' after E. destruct before as [|c1 [|c2 [|c3 before]]]; cbn in E; simplify_eq;
    [exists TypeError; vm_compute; reflexivity..|by destruct before].
Defined.

(** * The process-local window *)

Lemma dict_set_length {V} k (v : V) (d : dict V) : (length (<[k:=v]> d) ≤ S (length d))%nat.
Proof. dict_ops. induction d as [|[j w] d IH]; cbn; [lia|]. destruct (k =s? j); cbn; lia. Qed.

Lemma evict_below now hits : (length hits ≤ _MAX_KEYS)%nat → _evict now hits = hits.
Proof. intros H. unfold _evict. by apply Nat.leb_le in H as ->. Qed.

(** The clock reads before the reset, and the seconds left can be printed. *)
Definition live_at (reset now : pyfloat) : bool :=
  negb (fle reset now) && is_ok (round_half_even (fsub reset now)).

(** One call to the counter: key, window, clock. *)
Definition hit (m : InMemoryRateLimitBackend) (c : string * Z * pyfloat) : InMemoryRateLimitBackend :=
  (incr c.1.1 c.1.2 c.2 m).2.

Lemma hits_other k m c :
  c.1.1 ≠ k → (length (_hits m) < _MAX_KEYS)%nat →
  _hits (hit m c) !! k = _hits m !! k ∧ (length (_hits (hit m c)) ≤ S (length (_hits m)))%nat.
Proof.
  destruct c as [[j w] t]. cbn. intros Hne Hlen. unfold hit, incr, memory_backend, memory_incr. cbn.
  assert (∀ e, (length (<[j:=e]> (_hits m)) ≤ S (length (_hits m)))%nat) as Hs by (intros; apply dict_set_length).
  assert (_hits (mkMemory (open_window j w t (_hits m))) !! k = _hits m !! k ∧
    (length (open_window j w t (_hits m)) ≤ S (length (_hits m)))%nat) as Hopen.
  { unfold open_window. rewrite evict_below by (specialize (Hs (f_round 1, fadd t (f_round w))); lia).
    split; [by apply dict_lookup_insert_ne|apply Hs]. }
  destruct (_hits m !! j) as [[n reset]|] eqn:Hj; [|exact Hopen]. destruct (expired t (n, reset)); [exact Hopen|].
  cbn. split; [by apply dict_lookup_insert_ne|apply Hs].
Qed.

Lemma hit_open k w t m :
  match _hits m !! k with Some entry => expired t entry = true | None => True end →
  (length (_hits m) < _MAX_KEYS)%nat →
  let m' := hit m (k, w, t) in
  _hits m' !! k = Some (f_round 1, fadd t (f_round w)) ∧ (length (_hits m') ≤ S (length (_hits m)))%nat.
Proof.
  intros Hx Hlen. unfold hit, incr, memory_backend, memory_incr. cbn.
  pose proof (dict_set_length k (f_round 1, fadd t (f_round w)) (_hits m)) as Hs.
  destruct (_hits m !! k) as [[n reset]|]; [rewrite Hx|]; cbn; unfold open_window;
    rewrite evict_below by lia; split; [apply dict_lookup_insert|done|apply dict_lookup_insert|done].
Qed.

Lemma hit_again k w t m n reset :
  _hits m !! k = Some (f_round n, reset) → live_at reset t = true → 0 < n < 2 ^ 53 - 1 →
  (∃ left_, incr k w t m = (Ok (n + 1, Z.max 1 left_), hit m (k, w, t))) ∧
  _hits (hit m (k, w, t)) !! k = Some (f_round (n + 1), reset) ∧
  (length (_hits (hit m (k, w, t))) ≤ S (length (_hits m)))%nat.
Proof.
  intros Hk [Hl Hok]%andb_true_iff Hn. apply negb_true_iff in Hl.
  unfold hit, incr, memory_backend, memory_incr. cbn [fst snd]. rewrite Hk. unfold expired. cbn [snd]. rewrite Hl. cbv zeta.
  rewrite fadd_integers by lia. rewrite int_of_f_round by lia. cbn [mbind res_bind snd _hits].
  destruct (round_half_even _) as [left_|]; [|done]. cbn [mbind res_bind]. split; [by exists left_|].
  split; [apply dict_lookup_insert|apply dict_set_length].
Qed.

(** How many of the calls are for [k]. *)
Definition calls_for (k : string) (calls : list (string * Z * pyfloat)) : Z :=
  Z.of_nat (length (base.filter (λ c, c.1.1 = k) calls)).

Lemma window_counts k reset calls m n :
  _hits m !! k = Some (f_round n, reset) → 0 < n →
  (length (_hits m) + length calls < _MAX_KEYS)%nat → n + Z.of_nat (length calls) < 2 ^ 53 - 1 →
  (∀ c, c ∈ calls → c.1.1 = k → live_at reset c.2 = true) →
  _hits (foldl hit m calls) !! k = Some (f_round (n + calls_for k calls), reset).
Proof.
  revert m n. induction calls as [|[[j w] t] calls IH]; intros m n Hk Hn Hlen Hb Hlive; cbn [foldl].
  { unfold calls_for. cbn. by rewrite Z.add_0_r. }
  cbn [length] in *. assert (∀ c, c ∈ calls → c.1.1 = k → live_at reset c.2 = true) as Hlive'.
  { intros c Hc. apply Hlive, elem_of_cons. by right. }
  unfold calls_for. rewrite filter_cons. destruct (decide ((j, w, t).1.1 = k)) as [Hj|Hj].
  - cbn in Hj. subst j.
    destruct (hit_again k w t m n reset Hk) as (_ & Hk' & Hl'); [|lia|].
    + apply (Hlive (k, w, t)); [apply elem_of_cons; by left|done].
    + rewrite (IH _ (n + 1)) by (done || lia). f_equal. f_equal. f_equal. cbn [length]. unfold calls_for. lia.
  - destruct (hits_other k m (j, w, t) Hj) as [Hk' Hl']; [lia|]. rewrite Hk in Hk'. by apply IH; [| |lia|lia|].
Qed.

(** C30: in one window, a key's requests are counted exactly, whatever other keys do in
between, as long as there is room: the keys held when the window opens and the requests since
are together fewer than the limit of 20000 keys (past it, live counters are evicted).  After the
request that opens the window and the [calls] that follow, all before the window's end, the next
request is allowed exactly when no more than [limit] of this key's requests, itself included,
have come. *)
Theorem memory_window_exact rule key t0 calls now now' (m : InMemoryRateLimitBackend) (l : RateLimiter InMemoryRateLimitBackend)
    (Hfresh : match _hits m !! bucket rule key with Some entry => expired t0 entry = true | None => True end)
    (Hroom : (length (_hits m) + S (length calls) < _MAX_KEYS)%nat)
    (Hlive : ∀ c, c ∈ calls → c.1.1 = bucket rule key → live_at (fadd t0 (f_round (window_seconds rule))) c.2 = true)
    (Hnow : live_at (fadd t0 (f_round (window_seconds rule))) now' = true)
    (Hstate : backend l = foldl hit m ((bucket rule key, window_seconds rule, t0) :: calls))
    (Hclosed : _opened_at (_breaker l) = None) :
  allowed (check rule key now now' l).1 = (2 + calls_for (bucket rule key) calls <=? limit rule).
Proof.
  destruct (hit_open (bucket rule key) (window_seconds rule) t0 m Hfresh) as [Hk Hl]; [lia|].
  assert (Z.of_nat _MAX_KEYS = 20000) as Hmax by (unfold _MAX_KEYS; rewrite N_nat_Z; reflexivity).
  pose proof (window_counts _ _ calls _ 1 Hk ltac:(lia) ltac:(lia) ltac:(lia) Hlive) as Hc.
  change (foldl hit _ calls) with (foldl hit m ((bucket rule key, window_seconds rule, t0) :: calls)) in Hc.
  rewrite <-Hstate in Hc.
  assert (0 ≤ calls_for (bucket rule key) calls ≤ Z.of_nat (length calls)) as Hcf.
  { unfold calls_for. pose proof (length_filter (λ c : string * Z * pyfloat, c.1.1 = bucket rule key) calls) as Hle. lia. }
  destruct (hit_again (bucket rule key) (window_seconds rule) now' (backend l) _ _ Hc Hnow) as ((left_ & Hi) & _); [lia|].
  unfold check, is_open. rewrite Hclosed, Hi. cbn. f_equal. lia.
Qed.

Lemma memory_window_exact_witness :
  let r := mkLimit "r" 2 60 IP "sample" in
  let m := foldl hit (mkMemory []) [(bucket r "a", 60, f_round 10); (bucket r "b", 60, f_round 11); (bucket r "a", 60, f_round 12)] in
  allowed (check r "a" (f_round 13) (f_round 13) (mkLimiter m (_breaker (new_limiter m)))).1 = false.
Proof.
  intros r m.
  rewrite (memory_window_exact r "a" (f_round 10) [(bucket r "b", 60, f_round 11); (bucket r "a", 60, f_round 12)]
    (f_round 13) (f_round 13) (mkMemory [])); try (vm_compute; reflexivity).
  - apply Nat.ltb_lt. vm_compute. reflexivity.
  - intros c Hc _. revert c Hc. apply forallb_elem. vm_compute. reflexivity.
Defined.
