(* ===== verification/Safety.v ===== *)
(** The guards against active mutation in simulated payloads
    (graph_kernel/safety.py and the payload check of graph_kernel/simulation.py).

    Both walk a JSON value.  [contains_forbidden_active_apply] answers;
    [_reject_active_mutation_payload] raises on the first offence, and compares
    the keys in lower case. *)
From S2P Require Import Prelude PyStr PyDict PyJson.
Open Scope Z_scope.

Definition FORBIDDEN_ACTIVE_APPLY_FLAGS : list string :=
  ["active_apply_enabled"; "apply_rewrite"; "can_mutate"; "direct_apply"; "direct_apply_requested";
   "mutation_applied"; "policy_override"].

Definition FORBIDDEN_WRITE_INTENT_KEYS : list string :=
  ["budget_writes"; "credential_writes"; "direct_apply_surfaces"; "file_ops"; "manifest_writes";
   "marketplace_writes"; "memory_writes"; "policy_writes"; "route_writes"; "source_writes";
   "write_grants"].

(** [item not in (None, "", [], {}, ())]: the numbers and [False] are not among these. *)
Definition present (item : json) : bool :=
  match item with
  | JNull | JStr "" | JList [] | JObj [] => false
  | _ => true
  end.

Definition forbidden_entry (key : string) (item : json) : bool :=
  str_in key FORBIDDEN_ACTIVE_APPLY_FLAGS && truthy item
  || str_in key FORBIDDEN_WRITE_INTENT_KEYS && present item.

Fixpoint contains_forbidden_active_apply (value : json) : bool :=
  match value with
  | JObj d => existsb (λ p, forbidden_entry p.1 p.2 || contains_forbidden_active_apply p.2) d
  | JList l => existsb contains_forbidden_active_apply l
  | _ => false
  end.

Definition SAFETY_MARKERS : jobject :=
  [("simulation_only", JBool true); ("proposal_only", JBool true); ("active_apply_enabled", JBool false)].

(** * The check of simulation specs *)

Definition _FORBIDDEN_TRUTHY_KEYS : list string :=
  ["active_apply_enabled"; "apply_rewrite"; "can_mutate"; "direct_apply"; "direct_apply_requested";
   "mutation_applied"; "policy_override"].

Definition _FORBIDDEN_NONEMPTY_KEYS : list string :=
  ["budget_writes"; "credential_writes"; "direct_apply_surfaces"; "file_ops"; "manifest_writes";
   "marketplace_writes"; "memory_writes"; "policy_writes"; "route_writes"; "source_writes";
   "write_grants"].

(** The two checks of one entry. *)
Definition check_entry (key : string) (value : json) : res unit :=
  let normalized := lower key in
  if str_in normalized _FORBIDDEN_TRUTHY_KEYS && truthy value
  then Raise (CustomSimulationError ("custom simulations cannot apply mutations: " +:+ repr_str key))
  else if str_in normalized _FORBIDDEN_NONEMPTY_KEYS && truthy value
  then Raise (CustomSimulationError ("custom simulations cannot carry mutation grants: " +:+ repr_str key))
  else Ok ().

Fixpoint _reject_active_mutation_payload (payload : json) : res unit :=
  match payload with
  | JObj d =>
      (fix go d := match d with
       | [] => Ok ()
       | p :: d' => _ ← check_entry p.1 p.2; _ ← _reject_active_mutation_payload p.2; go d'
       end) d
  | JList l =>
      (fix go l := match l with
       | [] => Ok ()
       | x :: l' => _ ← _reject_active_mutation_payload x; go l'
       end) l
  | _ => Ok ()
  end.

Definition _contains_active_apply (payload : json) : bool :=
  negb (is_ok (_reject_active_mutation_payload payload)).

(** * What the guards look at *)

(** [within key item value]: an object at some depth of [value] maps [key] to [item]. *)
Inductive within (key : string) (item : json) : json → Prop :=
  | within_here d : (key, item) ∈ d → within key item (JObj d)
  | within_object d k x : (k, x) ∈ d → within key item x → within key item (JObj d)
  | within_list l x : x ∈ l → within key item x → within key item (JList l).

Lemma contains_forbidden_iff value :
  contains_forbidden_active_apply value = true ↔
    ∃ key item, within key item value ∧ forbidden_entry key item = true.
Proof.
  induction value as [|b|n|x|s|l IH|d IH] using json_nested_ind; cbn.
  1-5: split; [done|]; intros (k & i & H & _); inversion H.
  - rewrite existsb_elem. rewrite Forall_forall in IH. split.
    + intros (x & Hx & Hc). apply (IH x Hx) in Hc as (k & i & Hw & Hf).
      exists k, i. split; [by eapply within_list|done].
    + intros (k & i & Hw & Hf). inversion Hw as [| |l' x Hx Hin]; subst.
      exists x. split; [done|]. apply (IH x Hx). eauto.
  - rewrite existsb_elem. rewrite Forall_forall in IH. split.
    + intros ([k x] & Hx & Hc). cbn in Hc. apply orb_true_iff in Hc as [Hc|Hc].
      * exists k, x. split; [by apply within_here|done].
      * apply (IH (k, x) Hx) in Hc as (k' & i & Hw & Hf).
        exists k', i. split; [by eapply within_object|done].
    + intros (k & i & Hw & Hf). inversion Hw as [d' Hin|d' k' x Hx Hin|]; subst.
      * exists (k, i). split; [done|]. cbn. by rewrite Hf.
      * exists (k', x). split; [done|]. cbn.
        assert (contains_forbidden_active_apply x = true) as -> by (apply (IH (k', x) Hx); eauto).
        by rewrite orb_true_r.
Qed.

Lemma reject_accepts_iff value :
  _reject_active_mutation_payload value = Ok () ↔
    ∀ key item, within key item value → check_entry key item = Ok ().
Proof.
  induction value as [|b|n|x|s|l IH|d IH] using json_nested_ind; cbn.
  1-5: split; [|done]; intros _ k i H; inversion H.
  - induction IH as [|x l Hx _ IHl]; [split; [|done]; intros _ k i H; inversion H as [| |? ? Hin]; by apply not_elem_of_nil in Hin|].
    split.
    + intros H k i Hw. apply res_bind_ok in H as ([] & H1 & H2).
      inversion Hw as [| |l' y Hin Hy]; subst. apply elem_of_cons in Hin as [->|Hin].
      * by apply (proj1 Hx H1).
      * apply (proj1 IHl H2). by eapply within_list.
    + intros H. rewrite (proj2 Hx); [|intros k i Hw; apply H; eapply within_list; [by left|done]].
      cbn [mbind res_bind]. apply IHl. intros k i Hw. apply H. inversion Hw; subst.
      eapply within_list; [by right|done].
  - induction IH as [|[k0 x] d Hx _ IHd]; [split; [|done]; intros _ k i H; inversion H as [? Hin|? ? ? Hin|]; by apply not_elem_of_nil in Hin|].
    cbn [fst snd] in *. split.
    + intros H k i Hw. apply res_bind_ok in H as ([] & H0 & H). apply res_bind_ok in H as ([] & H1 & H2).
      inversion Hw as [d' Hin|d' k' y Hin Hy|]; subst; apply elem_of_cons in Hin as [Heq|Hin].
      * by injection Heq as -> ->.
      * apply (proj1 IHd H2). by apply within_here.
      * injection Heq as -> ->. by apply (proj1 Hx H1).
      * apply (proj1 IHd H2). by eapply within_object.
    + intros H. rewrite (H k0 x) by (apply within_here; left). cbn [mbind res_bind].
      rewrite (proj2 Hx); [|intros k i Hw; apply H; eapply within_object; [by left|done]].
      cbn [mbind res_bind]. apply IHd. intros k i Hw. apply H. inversion Hw; subst.
      * apply within_here. by right.
      * eapply within_object; [by right|done].
Qed.

Lemma check_entry_lower key item :
  check_entry key item = Ok () ↔
    (str_in (lower key) _FORBIDDEN_TRUTHY_KEYS || str_in (lower key) _FORBIDDEN_NONEMPTY_KEYS)
    && truthy item = false.
Proof.
  unfold check_entry. destruct (str_in (lower key) _FORBIDDEN_TRUTHY_KEYS),
    (str_in (lower key) _FORBIDDEN_NONEMPTY_KEYS), (truthy item); cbn; split; done.
Qed.

(** C19: a simulation spec is accepted exactly when no object at any depth of it maps a
forbidden name, in any letter case, to a true value. *)
Theorem spec_accepted_iff value :
  _contains_active_apply value = false ↔
    ∀ key item, within key item value →
      (str_in (lower key) _FORBIDDEN_TRUTHY_KEYS || str_in (lower key) _FORBIDDEN_NONEMPTY_KEYS)
      && truthy item = false.
Proof.
  unfold _contains_active_apply. setoid_rewrite <-check_entry_lower. rewrite <-reject_accepts_iff.
  by destruct (_reject_active_mutation_payload value) as [[]|].
Qed.

(** The two guards differ: the shared helper compares names exactly, and takes a zero
under a write key for a write. *)
Lemma guards_differ :
  contains_forbidden_active_apply (JObj [("Direct_Apply", JBool true)]) = false
  ∧ _contains_active_apply (JObj [("Direct_Apply", JBool true)]) = true
  ∧ contains_forbidden_active_apply (JObj [("file_ops", JInt 0)]) = true
  ∧ _contains_active_apply (JObj [("file_ops", JInt 0)]) = false.
Proof. vm_compute. done. Qed.
