(* ===== verification/SimSteps.v ===== *)
(** The steps of custom kernel simulations (graph_kernel/steps.py) and the
    payloads of their traces (graph_kernel/traces.py, and
    [summarize_scenario_trace_payload] of graph_kernel/protocols.py).

    One constructor of [KernelStepSpec] per step class, with the fields of the
    class; [step_valid] is what the classes declare of their fields.  The
    validation of untyped data against these classes is the library's and a
    parameter where it is called; [parse_kernel_steps] is what the code does
    around it. *)
From S2P Require Import Prelude PyStr PyDict PyFloat PyJson Policy KernelState KernelOps.
Open Scope Z_scope.

(** [x or y or ""] on optional texts: how a step finds its id. *)
Definition resolved (x y : option string) : string := if nonempty x then default "" x else default "" y.

Record EndpointSpec : Type := mkEndpoint {
  ep_node_id : string;
  ep_port_id : option string;
  ep_id : option string;
}.

Definition resolved_port_id (e : EndpointSpec) : string := resolved (ep_port_id e) (ep_id e).

Record CapabilitySpec : Type := mkCapabilitySpec {
  cs_actions : list string;
  cs_resources : list string;
  cs_deny : list string;
  cs_expires_at : option Z;
  cs_budget : Z;
  cs_delegation_depth : Z;
}.

(** The entry of a field, left out when it is [None]. *)
Definition some_entry {A} (k : string) (f : A → json) (o : option A) : jobject :=
  match o with Some x => [(k, f x)] | None => [] end.

(** [model_dump(exclude_none=True)]. *)
Definition capability_payload (c : CapabilitySpec) : jobject :=
  [("actions", jstrs (cs_actions c)); ("resources", jstrs (cs_resources c)); ("deny", jstrs (cs_deny c))]
  ++ some_entry "expires_at" JInt (cs_expires_at c)
  ++ [("budget", JInt (cs_budget c)); ("delegation_depth", JInt (cs_delegation_depth c))].

Record PolicyRuleSpec : Type := mkPolicyRuleSpec {
  ps_id : option string;
  ps_policy_id : option string;
  ps_level : level;
  ps_effect : effect;
  ps_actions : list string;
  ps_resources : list string;
  ps_precedence : Z;
}.

Definition policy_payload (p : PolicyRuleSpec) : jobject :=
  some_entry "id" JStr (ps_id p) ++ some_entry "policy_id" JStr (ps_policy_id p)
  ++ [("level", JStr (level_name (ps_level p))); ("effect", JStr (effect_name (ps_effect p)));
      ("actions", jstrs (ps_actions p)); ("resources", jstrs (ps_resources p));
      ("precedence", JInt (ps_precedence p))].

Record WinnerCandidateSpec : Type := mkWinnerCandidate {
  wc_score_id : option string;
  wc_outcome_id : option string;
  wc_process_id : option string;
  wc_edge_id : option string;
  wc_capability_id : option string;
}.

Definition some_ref (k : string) (o : option string) : dict string :=
  match o with Some x => [(k, x)] | None => [] end.

Definition refs (w : WinnerCandidateSpec) : dict string :=
  some_ref "score_id" (wc_score_id w) ++ some_ref "outcome_id" (wc_outcome_id w)
  ++ some_ref "process_id" (wc_process_id w) ++ some_ref "edge_id" (wc_edge_id w)
  ++ some_ref "capability_id" (wc_capability_id w).

Inductive KernelStepSpec : Type :=
  | CreateNodeStep (id : string)
  | MintCapabilityStep (capability : CapabilitySpec) (id capability_id : option string) (owner : string)
  | CreatePortStep (node_id : string) (id port_id : option string) (direction schema_ref : string)
      (port_type : option string)
  | ProposeEdgeStep (id edge_id : option string) (from_ to : EndpointSpec) (edge_type : string)
      (capability_id process_id provenance_ref : option string)
  | ActivateEdgeStep (id edge_id : option string) (policies : list PolicyRuleSpec) (decision_id : option string)
  | UseEdgeStep (id edge_id : option string) (cost : Z)
  | FreezeEdgeStep (id edge_id : option string) (reason : string)
  | AdvanceTimeStep (seconds : Z)
  | DelegateStep (parent_capability_id child_capability_id child_owner : string) (requested : CapabilitySpec)
  | UseCapabilityStep (capability_id action resource : string) (cost : Z)
  | EmitSignalStep (node_id signal_type : string) (payload : jobject)
  | SelectRouteStep (skill : string) (candidates : dict string)
  | RecordOutcomeStep (id outcome_id participant_id node_id process_id edge_id : option string)
      (metrics : jobject) (evidence_refs : list string) (status : string)
  | ScoreParticipantStep (id score_id participant_id node_id : option string) (outcome_id : string)
      (score : pyfloat) (explanation_refs : list string)
  | SelectWinnerStep (id arena_id : option string) (candidates : dict WinnerCandidateSpec)
  | CheckPolicyStep (id decision_id : option string) (action resource : string) (policies : list PolicyRuleSpec)
  | StartProtocolSimulationStep (id process_id : option string) (target protocol_id template_ref : string)
      (budget ttl max_episodes : Z)
  | StartProcessStep (id process_id : option string) (owner : string) (capability_id cap_id : option string)
      (ttl budget max_depth depth max_calls heartbeat_timeout : Z)
  | HeartbeatProcessStep (id process_id : option string)
  | StopProcessStep (id process_id : option string) (reason : string)
  | RecordProtocolEpisodeStep (process_id : string) (episode cost : Z)
  | StartReviewLoopStep (id process_id : option string) (reviewer target : string)
      (capability_id cap_id : option string) (ttl budget max_iterations : Z)
  | EmitReviewFindingStep (id finding_id : option string) (process_id reviewer target severity : string)
      (cost : Z)
  | ProposeFixStep (id proposal_id : option string) (process_id finding_id : string)
  | ProposeRewriteStep (id rewrite_id : option string) (target : string) (payload : jobject)
  | ApproveRewriteStep (id rewrite_id : option string) (review : string) (canary : bool)
  | ApplyRewriteStep (id rewrite_id : option string)
  | FreezeNodeStep (id node_id : option string) (reason : string)
  | PreviewDeleteStep (id node_id : option string)
  | RevokeCapabilityStep (id capability_id : option string).

(** The discriminator of the union. *)
Definition step_type (step : KernelStepSpec) : string :=
  match step with
  | CreateNodeStep _ => "create_node"
  | MintCapabilityStep _ _ _ _ => "mint_capability"
  | CreatePortStep _ _ _ _ _ _ => "create_port"
  | ProposeEdgeStep _ _ _ _ _ _ _ _ => "propose_edge"
  | ActivateEdgeStep _ _ _ _ => "activate_edge"
  | UseEdgeStep _ _ _ => "use_edge"
  | FreezeEdgeStep _ _ _ => "freeze_edge"
  | AdvanceTimeStep _ => "advance_time"
  | DelegateStep _ _ _ _ => "delegate"
  | UseCapabilityStep _ _ _ _ => "use_capability"
  | EmitSignalStep _ _ _ => "emit_signal"
  | SelectRouteStep _ _ => "select_route"
  | RecordOutcomeStep _ _ _ _ _ _ _ _ _ => "record_outcome"
  | ScoreParticipantStep _ _ _ _ _ _ _ => "score_participant"
  | SelectWinnerStep _ _ _ => "select_winner"
  | CheckPolicyStep _ _ _ _ _ => "check_policy"
  | StartProtocolSimulationStep _ _ _ _ _ _ _ _ => "start_protocol_simulation"
  | StartProcessStep _ _ _ _ _ _ _ _ _ _ _ => "start_process"
  | HeartbeatProcessStep _ _ => "heartbeat_process"
  | StopProcessStep _ _ _ => "stop_process"
  | RecordProtocolEpisodeStep _ _ _ => "record_protocol_episode"
  | StartReviewLoopStep _ _ _ _ _ _ _ _ _ => "start_review_loop"
  | EmitReviewFindingStep _ _ _ _ _ _ _ => "emit_review_finding"
  | ProposeFixStep _ _ _ _ => "propose_fix"
  | ProposeRewriteStep _ _ _ _ => "propose_rewrite"
  | ApproveRewriteStep _ _ _ _ => "approve_rewrite"
  | ApplyRewriteStep _ _ => "apply_rewrite"
  | FreezeNodeStep _ _ _ => "freeze_node"
  | PreviewDeleteStep _ _ => "preview_delete"
  | RevokeCapabilityStep _ _ => "revoke_capability"
  end.

(** * What the classes declare of their fields *)

Definition len_in (lo hi : Z) (s : string) : bool :=
  (lo <=? Z.of_nat (String.length s)) && (Z.of_nat (String.length s) <=? hi).

Definition opt_len (lo hi : Z) (o : option string) : bool :=
  match o with Some s => len_in lo hi s | None => true end.

Definition at_most {A} (n : Z) (l : list A) : bool := Z.of_nat (length l) <=? n.

Definition endpoint_valid (e : EndpointSpec) : bool :=
  len_in 1 80 (ep_node_id e) && opt_len 1 80 (ep_port_id e) && opt_len 1 80 (ep_id e)
  && negb (resolved_port_id e =s? "").

Definition capability_valid (c : CapabilitySpec) : bool :=
  at_most 20 (cs_actions c) && at_most 40 (cs_resources c) && at_most 40 (cs_deny c)
  && match cs_expires_at c with Some t => 0 <=? t | None => true end
  && (0 <=? cs_budget c) && (0 <=? cs_delegation_depth c).

Definition policy_valid (p : PolicyRuleSpec) : bool :=
  opt_len 1 80 (ps_id p) && opt_len 1 80 (ps_policy_id p) && at_most 20 (ps_actions p)
  && at_most 40 (ps_resources p) && (0 <=? ps_precedence p) && negb (resolved (ps_id p) (ps_policy_id p) =s? "").

Definition direction_valid (d : string) : bool := str_in d ["input"; "output"; "bidirectional"].

Definition step_valid (step : KernelStepSpec) : bool :=
  match step with
  | CreateNodeStep id => len_in 1 80 id
  | MintCapabilityStep c id cid owner =>
      capability_valid c && opt_len 1 80 id && opt_len 1 80 cid && len_in 1 80 owner
      && negb (resolved cid id =s? "")
  | CreatePortStep n id pid dir schema ty =>
      len_in 1 80 n && opt_len 1 80 id && opt_len 1 80 pid && direction_valid dir && len_in 1 160 schema
      && opt_len 0 80 ty && negb (resolved pid id =s? "")
  | ProposeEdgeStep id eid from to ty cap pid prov =>
      opt_len 1 80 id && opt_len 1 80 eid && endpoint_valid from && endpoint_valid to && len_in 1 80 ty
      && opt_len 0 80 cap && opt_len 0 80 pid && opt_len 0 160 prov && negb (resolved eid id =s? "")
  | ActivateEdgeStep _ _ ps _ | CheckPolicyStep _ _ _ _ ps => at_most 80 ps && forallb policy_valid ps
  | UseEdgeStep _ _ cost | UseCapabilityStep _ _ _ cost | EmitReviewFindingStep _ _ _ _ _ _ cost => 0 <=? cost
  | AdvanceTimeStep secs => 0 <=? secs
  | DelegateStep _ _ _ c => capability_valid c
  | StartProtocolSimulationStep _ _ _ _ _ budget ttl eps => (1 <=? budget) && (1 <=? ttl) && (1 <=? eps)
  | StartProcessStep _ _ _ _ _ ttl budget max_depth depth calls hb =>
      (1 <=? ttl) && (1 <=? budget) && (0 <=? max_depth) && (0 <=? depth) && (0 <=? calls) && (0 <=? hb)
  | RecordProtocolEpisodeStep _ episode cost => (1 <=? episode) && (0 <=? cost)
  | StartReviewLoopStep _ _ _ _ _ _ ttl budget iters => (1 <=? ttl) && (1 <=? budget) && (1 <=? iters)
  | _ => true
  end.

(** * Parsing *)

(** The rows with the old name of the discriminator. *)
Definition normalized_row (item : json) : json :=
  match item with
  | JObj d =>
      if negb (has_key "type" d) && has_key "kind" d
      then JObj (delete "kind" d ++ [("type", jget d "kind")]) else item
  | _ => item
  end.

(** One error of the validation library: where, and what. *)
Record validation_error : Type := mkValidationError { ve_loc : list string; ve_msg : string }.

Definition _validation_message (errors : list validation_error) : string :=
  let first := default (mkValidationError [] "") (head errors) in
  let location := String.concat "." (ve_loc first) in
  let message := if ve_msg first =s? "" then "invalid simulation step" else ve_msg first in
  if location =s? "" then message else "invalid simulation step " +:+ location +:+ ": " +:+ message.

Definition parse_kernel_steps (validate_python : list json → list KernelStepSpec + list validation_error)
    (value : json) : res (list KernelStepSpec) :=
  let rows := match value with JList l => l | _ => [] end in
  match validate_python (map normalized_row rows) with
  | inl steps => Ok steps
  | inr errors => Raise (ValueError (_validation_message errors))
  end.

(** * Traces *)

Record CustomStepResult : Type := mkStepResult { sr_index : Z; sr_type : string; sr_result : json }.

Definition step_result_payload (r : CustomStepResult) : jobject :=
  [("index", JInt (sr_index r)); ("type", JStr (sr_type r)); ("result", sr_result r)].

Record CustomInvariantResult : Type := mkInvariantResult {
  ir_invariant_id : string;
  ir_passed : bool;
  ir_details : jobject;
  ir_active_apply_enabled : bool;
}.

Definition invariant_from_payload (value : jobject) : res CustomInvariantResult :=
  details ← py_dict (py_or (jget value "details") (JObj []));
  Ok {| ir_invariant_id := py_str (py_or (jget value "invariant_id") (JStr ""));
        ir_passed := truthy (jget value "passed"); ir_details := details;
        ir_active_apply_enabled := truthy (jget_or value "active_apply_enabled" (JBool false)) |}.

Definition invariant_payload (r : CustomInvariantResult) : jobject :=
  [("invariant_id", JStr (ir_invariant_id r)); ("passed", JBool (ir_passed r));
   ("details", JObj (ir_details r)); ("active_apply_enabled", JBool (ir_active_apply_enabled r))].

Record CustomSimulationTrace : Type := mkTrace {
  tr_scenario_id : string;
  tr_title : string;
  tr_template_ref : json;
  tr_template_kind : json;
  tr_risk_class : json;
  tr_passed : bool;
  tr_events : list jobject;
  tr_policy_decisions : list jobject;
  tr_invariant_results : list CustomInvariantResult;
  tr_alerts : list string;
  tr_violations : list string;
  tr_replay_passed : bool;
}.

Definition trace_payload (t : CustomSimulationTrace) : jobject := [
  ("scenario_id", JStr (tr_scenario_id t)); ("title", JStr (tr_title t));
  ("template_ref", tr_template_ref t); ("template_kind", tr_template_kind t);
  ("risk_class", tr_risk_class t); ("passed", JBool (tr_passed t));
  ("events", JList (map JObj (tr_events t)));
  ("policy_decisions", JList (map JObj (tr_policy_decisions t)));
  ("policy_decision_count", JInt (Z.of_nat (length (tr_policy_decisions t))));
  ("invariant_results", JList (map (JObj ∘ invariant_payload) (tr_invariant_results t)));
  ("alerts", jstrs (tr_alerts t)); ("violations", jstrs (tr_violations t));
  ("replay_passed", JBool (tr_replay_passed t)); ("simulation_only", JBool true);
  ("proposal_only", JBool true); ("active_apply_enabled", JBool false)].

Record CustomSimulationResult : Type := mkResult {
  trace_contract : CustomSimulationTrace;
  trace_summary_payload : jobject;
  state_summary : jobject;
  step_results : list CustomStepResult;
}.

(** * The summary *)

(** [x if isinstance(x, list) else []]. *)
Definition as_list (j : json) : list json := match j with JList l => l | _ => [] end.

(** The dicts among the items. *)
Definition dicts (l : list json) : list jobject := omap (λ j, match j with JObj d => Some d | _ => None end) l.

(** The texts that are not blank, as a sorted set. *)
Definition text_set (l : list json) : list string :=
  sorted_set (list_to_set (List.filter (λ s, negb (strip s =s? "")) (map py_str l))).

Definition is_true (j : json) : bool := match j with JBool b => b | _ => false end.

Definition count_if {A} (p : A → bool) (l : list A) : json := JInt (Z.of_nat (length (List.filter p l))).

Definition summarize_scenario_trace_payload (payload : jobject) : jobject :=
  let traces := dicts (as_list (jget payload "traces")) in
  let scenario_ids := List.filter (λ s, negb (s =s? ""))
    (map (λ t, strip (py_str (py_or (jget t "scenario_id") (JStr "")))) traces) in
  let all k := concat (map (λ t, as_list (jget t k)) traces) in
  let results := dicts (all "invariant_results") in
  let ok (r : jobject) := is_true (jget r "passed") in
  let alerts := text_set (all "alerts") in
  let violations := text_set (all "violations") in
  [("scenario_count", JInt (Z.of_nat (length scenario_ids))); ("scenario_ids", jstrs scenario_ids);
   ("event_count", JInt (Z.of_nat (length (all "events"))));
   ("invariant_pass_count", count_if ok results);
   ("invariant_fail_count", count_if (λ r, negb (ok r)) results);
   ("replay_pass_count", count_if (λ r, ok r && is_text (jget r "invariant_id") "replay_deterministic") results);
   ("alert_count", JInt (Z.of_nat (length alerts))); ("alerts", jstrs alerts);
   ("violation_count", JInt (Z.of_nat (length violations))); ("violations", jstrs violations);
   ("passed", JBool (truthy (jget payload "passed") && forallb ok results));
   ("simulation_only", JBool true); ("proposal_only", JBool true); ("active_apply_enabled", JBool false)].

(** * What is recorded of a run *)

(** [x] as a value, [None] when it is missing. *)
Definition opt_entry (k : string) (o : option json) : jobject := match o with Some v => [(k, v)] | None => [] end.

Record KernelTraceRecordedPayload : Type := mkRecorded {
  kt_protocol_ref : jobject;
  kt_template_ref : string;
  kt_trace_summary : jobject;
  kt_runtime_readiness : jobject;
  kt_traces : list CustomSimulationTrace;
  kt_state_summary : jobject;
  kt_step_results : list CustomStepResult;
  kt_cost_cents : Z;
  kt_target_agent : option string;
  kt_target_user : option Z;
  kt_simulation_type : option string;
  kt_template_id : option string;
}.

Definition recorded_passed (p : KernelTraceRecordedPayload) : bool := forallb tr_passed (kt_traces p).

Definition recorded_payload (p : KernelTraceRecordedPayload) : jobject :=
  let scenario_ids := map (JStr ∘ tr_scenario_id) (kt_traces p) in
  let decisions := concat (map tr_policy_decisions (kt_traces p)) in
  [("protocol_ref", JObj (kt_protocol_ref p)); ("template_ref", JStr (kt_template_ref p));
   ("scenario_ids", JList scenario_ids); ("scenario_count", JInt (Z.of_nat (length scenario_ids)));
   ("passed", JBool (recorded_passed p)); ("trace_summary", JObj (kt_trace_summary p));
   ("runtime_readiness", JObj (kt_runtime_readiness p));
   ("traces", JList (map (JObj ∘ trace_payload) (kt_traces p)));
   ("state_summary", JObj (kt_state_summary p));
   ("step_results", JList (map (JObj ∘ step_result_payload) (kt_step_results p)));
   ("cost_cents", JInt (kt_cost_cents p)); ("simulation_only", JBool true); ("proposal_only", JBool true);
   ("active_apply_enabled", JBool false)]
  ++ opt_entry "target_agent" (JStr <$> kt_target_agent p) ++ opt_entry "target_user" (JInt <$> kt_target_user p)
  ++ opt_entry "simulation_type" (JStr <$> kt_simulation_type p)
  ++ [("policy_decisions", JList (map JObj decisions));
      ("policy_decision_count", JInt (Z.of_nat (length decisions)))]
  ++ (if bool_decide (is_Some (kt_template_id p)) || bool_decide (is_Some (kt_target_agent p))
      then [("template_id", jopt (kt_template_id p))] else []).

Record KernelReplayResult : Type := mkReplayResult {
  rr_replay_passed : bool;
  rr_original_summary : jobject;
  rr_replay_summary : jobject;
}.

Definition replay_result_payload (r : KernelReplayResult) : jobject :=
  [("replay_passed", JBool (rr_replay_passed r)); ("original_summary", JObj (rr_original_summary r));
   ("replay_summary", JObj (rr_replay_summary r)); ("simulation_only", JBool true);
   ("proposal_only", JBool true); ("active_apply_enabled", JBool false)].
