(* ===== verification/StepReader.v ===== *)
(** Reading steps that need no coercion.

    The validation library turns rows of untyped data into steps.  On rows whose
    fields have exactly the declared types it has no choice: it fills in the
    defaults that the classes of steps.py declare, checks their bounds and
    rejects other fields.  [strict_rows] is that reading, and [faithful] says of
    a validator that it agrees where [strict_rows] gives a result; what it does
    with other rows is left open. *)
From S2P Require Import Prelude PyStr PyDict PyFloat PyJson Policy KernelState SimSteps.
Open Scope Z_scope.

(** * Fields *)

Definition as_text (j : json) : option string := match j with JStr s => Some s | _ => None end.
Definition as_int (j : json) : option Z := match j with JInt n => Some n | _ => None end.
Definition as_bool (j : json) : option bool := match j with JBool b => Some b | _ => None end.
Definition as_object (j : json) : option jobject := match j with JObj d => Some d | _ => None end.

(** A float field takes integers too. *)
Definition as_number (j : json) : option pyfloat :=
  match j with
  | JFloat x => Some x
  | JInt n => match float_of_int n with Ok x => Some x | Raise _ => None end
  | _ => None
  end.

Definition as_list_of {A} (read : json → option A) (j : json) : option (list A) :=
  match j with JList l => mapM read l | _ => None end.

(** A dict whose values are read; its keys are distinct and texts. *)
Definition as_dict_of {A} (read : json → option A) (j : json) : option (dict A) :=
  match j with JObj d => mapM (λ p, x ← read p.2; Some (p.1, x)) d | _ => None end.

Section fields.
Context (d : jobject).

(** A required field, a field with a default, and [... | None = None]. *)
Definition req {A} (read : json → option A) (k : string) : option A := d !! k ≫= read.

Definition fld {A} (read : json → option A) (k : string) (dflt : A) : option A :=
  match d !! k with Some j => read j | None => Some dflt end.

Definition opt {A} (read : json → option A) (k : string) : option (option A) :=
  match d !! k with
  | None | Some JNull => Some None
  | Some j => Some <$> read j
  end.

(** [extra="forbid"]. *)
Definition only (allowed : list string) : option unit :=
  if forallb (λ k, str_in k allowed) (keys d) then Some () else None.
End fields.

(** [Literal["a", ...]]: the value with that name. *)
Definition named {A} (name : A → string) (xs : list A) (j : json) : option A :=
  match j with JStr s => List.find (λ x, name x =s? s) xs | _ => None end.

Definition guard_valid {A} (valid : A → bool) (x : A) : option A := if valid x then Some x else None.

(** * The models inside steps *)

Definition read_endpoint (j : json) : option EndpointSpec :=
  d ← as_object j;
  _ ← only d ["node_id"; "port_id"; "id"];
  node_id ← req d as_text "node_id"; port_id ← opt d as_text "port_id"; id ← opt d as_text "id";
  guard_valid endpoint_valid (mkEndpoint node_id port_id id).

Definition capability_keys : list string :=
  ["actions"; "resources"; "deny"; "expires_at"; "budget"; "delegation_depth"].

(** The fields of a capability, among those of a step that extends it. *)
Definition capability_fields (d : jobject) : option CapabilitySpec :=
  actions ← fld d (as_list_of as_text) "actions" []; resources ← fld d (as_list_of as_text) "resources" [];
  deny ← fld d (as_list_of as_text) "deny" []; expires_at ← opt d as_int "expires_at";
  budget ← fld d as_int "budget" 0; depth ← fld d as_int "delegation_depth" 0;
  guard_valid capability_valid (mkCapabilitySpec actions resources deny expires_at budget depth).

Definition read_capability (j : json) : option CapabilitySpec :=
  d ← as_object j; _ ← only d capability_keys; capability_fields d.

Definition all_levels : list level := [LPlatform; LOrg; LOwner; LProcess].
Definition all_effects : list effect := [EAllow; EDeny; EFreeze; ERevoke; EApproval; ENarrower].

Definition read_policy_rule (j : json) : option PolicyRuleSpec :=
  d ← as_object j;
  _ ← only d ["id"; "policy_id"; "level"; "effect"; "actions"; "resources"; "precedence"];
  id ← opt d as_text "id"; policy_id ← opt d as_text "policy_id";
  lvl ← fld d (named level_name all_levels) "level" LOwner;
  eff ← fld d (named effect_name all_effects) "effect" EAllow;
  actions ← fld d (as_list_of as_text) "actions" ["*"];
  resources ← fld d (as_list_of as_text) "resources" ["*"];
  precedence ← fld d as_int "precedence" 0;
  guard_valid policy_valid (mkPolicyRuleSpec id policy_id lvl eff actions resources precedence).

Definition read_winner_candidate (j : json) : option WinnerCandidateSpec :=
  d ← as_object j;
  _ ← only d ["score_id"; "outcome_id"; "process_id"; "edge_id"; "capability_id"];
  score_id ← opt d as_text "score_id"; outcome_id ← opt d as_text "outcome_id";
  process_id ← opt d as_text "process_id"; edge_id ← opt d as_text "edge_id";
  capability_id ← opt d as_text "capability_id";
  Some (mkWinnerCandidate score_id outcome_id process_id edge_id capability_id).

Definition read_direction (j : json) : option string :=
  s ← as_text j; if direction_valid s then Some s else None.

(** * Steps *)

Definition step_keys (ty : string) : list string :=
  if ty =s? "create_node" then ["id"]
  else if ty =s? "mint_capability" then capability_keys ++ ["id"; "capability_id"; "owner"]
  else if ty =s? "create_port" then ["node_id"; "id"; "port_id"; "direction"; "schema_ref"; "port_type"]
  else if ty =s? "propose_edge" then
    ["id"; "edge_id"; "from"; "to"; "edge_type"; "capability_id"; "process_id"; "provenance_ref"]
  else if ty =s? "activate_edge" then ["id"; "edge_id"; "policies"; "decision_id"]
  else if ty =s? "use_edge" then ["id"; "edge_id"; "cost"]
  else if ty =s? "freeze_edge" then ["id"; "edge_id"; "reason"]
  else if ty =s? "advance_time" then ["seconds"]
  else if ty =s? "delegate" then ["parent_capability_id"; "child_capability_id"; "child_owner"; "requested"]
  else if ty =s? "use_capability" then ["capability_id"; "action"; "resource"; "cost"]
  else if ty =s? "emit_signal" then ["node_id"; "signal_type"; "payload"]
  else if ty =s? "select_route" then ["skill"; "candidates"]
  else if ty =s? "record_outcome" then
    ["id"; "outcome_id"; "participant_id"; "node_id"; "process_id"; "edge_id"; "metrics"; "evidence_refs";
     "status"]
  else if ty =s? "score_participant" then
    ["id"; "score_id"; "participant_id"; "node_id"; "outcome_id"; "score"; "explanation_refs"]
  else if ty =s? "select_winner" then ["id"; "arena_id"; "candidates"]
  else if ty =s? "check_policy" then ["id"; "decision_id"; "action"; "resource"; "policies"]
  else if ty =s? "start_protocol_simulation" then
    ["id"; "process_id"; "target"; "protocol_id"; "template_ref"; "budget"; "ttl"; "max_episodes"]
  else if ty =s? "start_process" then
    ["id"; "process_id"; "owner"; "capability_id"; "cap_id"; "ttl"; "budget"; "max_depth"; "depth";
     "max_calls"; "heartbeat_timeout"]
  else if ty =s? "heartbeat_process" then ["id"; "process_id"]
  else if ty =s? "stop_process" then ["id"; "process_id"; "reason"]
  else if ty =s? "record_protocol_episode" then ["process_id"; "episode"; "cost"]
  else if ty =s? "start_review_loop" then
    ["id"; "process_id"; "reviewer"; "target"; "capability_id"; "cap_id"; "ttl"; "budget"; "max_iterations"]
  else if ty =s? "emit_review_finding" then
    ["id"; "finding_id"; "process_id"; "reviewer"; "target"; "severity"; "cost"]
  else if ty =s? "propose_fix" then ["id"; "proposal_id"; "process_id"; "finding_id"]
  else if ty =s? "propose_rewrite" then ["id"; "rewrite_id"; "target"; "payload"]
  else if ty =s? "approve_rewrite" then ["id"; "rewrite_id"; "review"; "canary"]
  else if ty =s? "apply_rewrite" then ["id"; "rewrite_id"]
  else if ty =s? "freeze_node" then ["id"; "node_id"; "reason"]
  else if ty =s? "preview_delete" then ["id"; "node_id"]
  else if ty =s? "revoke_capability" then ["id"; "capability_id"]
  else [].

Section step.
Context (d : jobject).
Let text := req d as_text.
Let text_or := fld d as_text.
Let id_field := opt d as_text "id".
Let opt_text := opt d as_text.
Let int_or := fld d as_int.
Let object_or k := fld d as_object k [].
Let texts k := fld d (as_list_of as_text) k [].
Let rules := fld d (as_list_of read_policy_rule) "policies" [].

(** The graph steps, the steps on authority, on arenas and processes, and on
loops and rewrites, by their type. *)
Definition read_graph_step (ty : string) : option KernelStepSpec :=
  if ty =s? "create_node" then id ← text "id"; Some (CreateNodeStep id)
  else if ty =s? "mint_capability" then
    c ← capability_fields d; id ← id_field; cid ← opt_text "capability_id"; owner ← text "owner";
    Some (MintCapabilityStep c id cid owner)
  else if ty =s? "create_port" then
    n ← text "node_id"; id ← id_field; pid ← opt_text "port_id";
    dir ← fld d read_direction "direction" "bidirectional"; schema ← text_or "schema_ref" "unknown";
    pt ← opt_text "port_type"; Some (CreatePortStep n id pid dir schema pt)
  else if ty =s? "propose_edge" then
    id ← id_field; eid ← opt_text "edge_id"; from ← req d read_endpoint "from"; to ← req d read_endpoint "to";
    et ← text_or "edge_type" "call"; cap ← opt_text "capability_id"; pid ← opt_text "process_id";
    prov ← opt_text "provenance_ref"; Some (ProposeEdgeStep id eid from to et cap pid prov)
  else if ty =s? "activate_edge" then
    id ← id_field; eid ← opt_text "edge_id"; ps ← rules; dec ← opt_text "decision_id";
    Some (ActivateEdgeStep id eid ps dec)
  else if ty =s? "use_edge" then
    id ← id_field; eid ← opt_text "edge_id"; cost ← int_or "cost" 1; Some (UseEdgeStep id eid cost)
  else if ty =s? "freeze_edge" then
    id ← id_field; eid ← opt_text "edge_id"; r ← text_or "reason" "custom simulation edge freeze";
    Some (FreezeEdgeStep id eid r)
  else if ty =s? "advance_time" then n ← int_or "seconds" 1; Some (AdvanceTimeStep n)
  else None.

Definition read_authority_step (ty : string) : option KernelStepSpec :=
  if ty =s? "delegate" then
    p ← text "parent_capability_id"; c ← text "child_capability_id"; o ← text "child_owner";
    r ← req d read_capability "requested"; Some (DelegateStep p c o r)
  else if ty =s? "use_capability" then
    c ← text "capability_id"; a ← text "action"; r ← text "resource"; cost ← int_or "cost" 0;
    Some (UseCapabilityStep c a r cost)
  else if ty =s? "emit_signal" then
    n ← text "node_id"; t ← text "signal_type"; b ← object_or "payload"; Some (EmitSignalStep n t b)
  else if ty =s? "select_route" then
    s ← text "skill"; cs ← req d (as_dict_of as_text) "candidates"; Some (SelectRouteStep s cs)
  else if ty =s? "check_policy" then
    id ← id_field; dec ← opt_text "decision_id"; a ← text "action"; r ← text "resource"; ps ← rules;
    Some (CheckPolicyStep id dec a r ps)
  else if ty =s? "revoke_capability" then
    id ← id_field; c ← opt_text "capability_id"; Some (RevokeCapabilityStep id c)
  else None.

Definition read_arena_step (ty : string) : option KernelStepSpec :=
  if ty =s? "record_outcome" then
    id ← id_field; o ← opt_text "outcome_id"; p ← opt_text "participant_id"; n ← opt_text "node_id";
    pr ← opt_text "process_id"; e ← opt_text "edge_id"; m ← object_or "metrics"; ev ← texts "evidence_refs";
    st ← text_or "status" "completed"; Some (RecordOutcomeStep id o p n pr e m ev st)
  else if ty =s? "score_participant" then
    id ← id_field; sc ← opt_text "score_id"; p ← opt_text "participant_id"; n ← opt_text "node_id";
    o ← text "outcome_id"; x ← fld d as_number "score" fzero; ex ← texts "explanation_refs";
    Some (ScoreParticipantStep id sc p n o x ex)
  else if ty =s? "select_winner" then
    id ← id_field; a ← opt_text "arena_id"; cs ← req d (as_dict_of read_winner_candidate) "candidates";
    Some (SelectWinnerStep id a cs)
  else None.

Definition read_process_step (ty : string) : option KernelStepSpec :=
  if ty =s? "start_protocol_simulation" then
    id ← id_field; p ← opt_text "process_id"; t ← text "target"; pr ← text_or "protocol_id" "custom_kernel";
    tr ← text_or "template_ref" "custom_kernel@v1"; b ← int_or "budget" 10; ttl ← int_or "ttl" 10;
    m ← int_or "max_episodes" 5; Some (StartProtocolSimulationStep id p t pr tr b ttl m)
  else if ty =s? "start_process" then
    id ← id_field; p ← opt_text "process_id"; o ← text "owner"; c ← opt_text "capability_id";
    c2 ← opt_text "cap_id"; ttl ← int_or "ttl" 10; b ← int_or "budget" 10; md ← int_or "max_depth" 3;
    dp ← int_or "depth" 0; mc ← int_or "max_calls" 10; hb ← int_or "heartbeat_timeout" 0;
    Some (StartProcessStep id p o c c2 ttl b md dp mc hb)
  else if ty =s? "heartbeat_process" then
    id ← id_field; p ← opt_text "process_id"; Some (HeartbeatProcessStep id p)
  else if ty =s? "stop_process" then
    id ← id_field; p ← opt_text "process_id"; r ← text_or "reason" "custom simulation stop";
    Some (StopProcessStep id p r)
  else if ty =s? "record_protocol_episode" then
    p ← text "process_id"; e ← int_or "episode" 1; c ← int_or "cost" 0; Some (RecordProtocolEpisodeStep p e c)
  else None.

Definition read_loop_step (ty : string) : option KernelStepSpec :=
  if ty =s? "start_review_loop" then
    id ← id_field; p ← opt_text "process_id"; rv ← text "reviewer"; t ← text "target";
    c ← opt_text "capability_id"; c2 ← opt_text "cap_id"; ttl ← int_or "ttl" 10; b ← int_or "budget" 10;
    m ← int_or "max_iterations" 3; Some (StartReviewLoopStep id p rv t c c2 ttl b m)
  else if ty =s? "emit_review_finding" then
    id ← id_field; f ← opt_text "finding_id"; p ← text "process_id"; rv ← text "reviewer"; t ← text "target";
    sv ← text_or "severity" "info"; c ← int_or "cost" 1; Some (EmitReviewFindingStep id f p rv t sv c)
  else if ty =s? "propose_fix" then
    id ← id_field; pr ← opt_text "proposal_id"; p ← text "process_id"; f ← text "finding_id";
    Some (ProposeFixStep id pr p f)
  else if ty =s? "propose_rewrite" then
    id ← id_field; r ← opt_text "rewrite_id"; t ← text "target"; b ← object_or "payload";
    Some (ProposeRewriteStep id r t b)
  else if ty =s? "approve_rewrite" then
    id ← id_field; r ← opt_text "rewrite_id"; rv ← text_or "review" "passed"; c ← fld d as_bool "canary" true;
    Some (ApproveRewriteStep id r rv c)
  else if ty =s? "apply_rewrite" then id ← id_field; r ← opt_text "rewrite_id"; Some (ApplyRewriteStep id r)
  else if ty =s? "freeze_node" then
    id ← id_field; n ← opt_text "node_id"; r ← text_or "reason" "custom simulation freeze";
    Some (FreezeNodeStep id n r)
  else if ty =s? "preview_delete" then id ← id_field; n ← opt_text "node_id"; Some (PreviewDeleteStep id n)
  else None.
End step.

(** The first reader that knows the type. *)
Definition read_step (d : jobject) (ty : string) : option KernelStepSpec :=
  match read_graph_step d ty with
  | Some step => Some step
  | None =>
      match read_authority_step d ty with
      | Some step => Some step
      | None =>
          match read_arena_step d ty with
          | Some step => Some step
          | None =>
              match read_process_step d ty with
              | Some step => Some step
              | None => read_loop_step d ty
              end
          end
      end
  end.

Definition strict_row (j : json) : option KernelStepSpec :=
  d ← as_object j; ty ← req d as_text "type"; _ ← only d ("type" :: step_keys ty);
  step ← read_step d ty; guard_valid step_valid step.

Definition strict_rows (rows : list json) : option (list KernelStepSpec) := mapM strict_row rows.

(** A validator that fills in and checks well-typed rows as the classes say. *)
Definition faithful (validate_python : list json → list KernelStepSpec + list validation_error) : Prop :=
  ∀ rows steps, strict_rows rows = Some steps → validate_python rows = inl steps.

(** The validator that accepts nothing else. *)
Definition strict_validate (rows : list json) : list KernelStepSpec + list validation_error :=
  match strict_rows rows with
  | Some steps => inl steps
  | None => inr [mkValidationError [] "invalid simulation step"]
  end.

Lemma strict_faithful : faithful strict_validate.
Proof. intros rows steps H. unfold strict_validate. by rewrite H. Qed.
