(* ===== verification/Simulation.v ===== *)
(** Custom simulations over the kernel (graph_kernel/simulation.py).

    [run_custom_kernel_simulation] checks a specification, builds the nodes,
    ports, capabilities and edges it lists in a new state, runs its steps,
    replays the ledger and evaluates the invariants.  It runs in the kernel's
    monad [KS], so that the state it reaches is part of the result.  The rows of
    the state are JSON here, so [_json_boundary], which turns them into JSON,
    has nothing to do.  Comparing two summaries with [==] is comparing JSON
    values that hold the same objects, and so an equality. *)
From Stdlib Require Import Ascii.
From S2P Require Import Prelude PyStr PyDict PyFloat PyJson FnMatch Capability Policy KernelState.
From S2P Require Import KernelOps KernelRouting KernelLoops Safety SimSteps.
Open Scope Z_scope.

Definition MAX_ACTORS : Z := 25.
Definition MAX_CAPABILITIES : Z := 60.
Definition MAX_PORTS : Z := 120.
Definition MAX_EDGES : Z := 120.
Definition MAX_POLICIES : Z := 80.
Definition MAX_STEPS : Z := 120.
Definition MAX_INVARIANTS : Z := 25.
Definition MAX_TEXT : Z := 256.

Definition refuse {A} (msg : string) : res A := Raise (CustomSimulationError msg).

(** * Reading a specification *)

Definition _text (field : string) (value : json) : res string :=
  match value with
  | JStr _ | JInt _ | JBool _ =>
      let text := strip (py_str value) in
      if text =s? "" then refuse (field +:+ " is required")
      else if MAX_TEXT <? Z.of_nat (String.length text)
      then refuse (field +:+ " exceeds " +:+ dec MAX_TEXT +:+ " characters")
      else Ok text
  | _ => refuse (field +:+ " must be text")
  end.

(** [_text(x) if x is not None else None]. *)
Definition text_or_none (field : string) (value : json) : res (option string) :=
  match value with JNull => Ok None | _ => Some <$> _text field value end.

Definition _list (value : json) : res (list json) :=
  match value with JNull => Ok [] | JList l => Ok l | _ => refuse "expected a list" end.

Definition _record (label : string) (value : json) : res jobject :=
  match value with JObj d => Ok d | _ => refuse (label +:+ " must be an object") end.

Fixpoint first_of (item : jobject) (ks : list string) : option json :=
  match ks with
  | [] => None
  | k :: ks' => match item !! k with Some v => Some v | None => first_of item ks' end
  end.

(** A dict as it is, anything else as an empty one. *)
Definition item_of (value : json) : jobject := match value with JObj d => d | _ => [] end.

Definition _id (label : string) (ks : list string) (value : json) : res string :=
  match first_of (item_of value) ks with
  | Some v => _text (label +:+ " id") v
  | None => refuse (label +:+ " id is required")
  end.

(** The exceptions of [int] and [float] that become a refusal. *)
Definition converted {A} (msg : string) (m : res A) : res A :=
  match m with Raise TypeError | Raise (ValueError _) => refuse msg | _ => m end.

Definition _int (dflt minimum : Z) (value : json) : res Z :=
  match value with
  | JNull => Ok dflt
  | _ =>
      parsed ← converted "expected integer" (py_int value);
      if parsed <? minimum then refuse ("integer must be >= " +:+ dec minimum) else Ok parsed
  end.

Definition _float (dflt : pyfloat) (value : json) : res pyfloat :=
  match value with JNull => Ok dflt | _ => converted "expected number" (py_float value) end.

Definition _optional_int (minimum : Z) (value : json) : res (option Z) :=
  match value with JNull => Ok None | _ => Some <$> _int minimum minimum value end.

Definition slug_char (c : ascii) : ascii :=
  if is_alnum c || Ascii.eqb c "." || Ascii.eqb c "_" || Ascii.eqb c "-" then c else "-"%char.

Definition _slug (value : json) : res string :=
  text ← _text "scenario_id" value;
  let out := strip_char "-"%char (of_chars (map slug_char (chars (lower text)))) in
  let short := str_take 80 out in
  Ok (if short =s? "" then "custom-kernel-simulation" else short).

Definition _check_limit {A} (label : string) (values : list A) (limit : Z) : res unit :=
  if limit <? Z.of_nat (length values) then refuse (label +:+ " exceeds limit " +:+ dec limit) else Ok ().

Fixpoint reject_seen (label : string) (seen : gset string) (values : list string) : res unit :=
  match values with
  | [] => Ok ()
  | v :: rest =>
      if bool_decide (v ∈ seen) then refuse ("duplicate " +:+ label +:+ " id: " +:+ v)
      else reject_seen label ({[ v ]} ∪ seen) rest
  end.

Definition _reject_duplicates (label : string) (values : list string) : res unit := reject_seen label ∅ values.

Definition _required_value (label value : string) : res string :=
  if value =s? "" then refuse (label +:+ " id is required") else Ok value.

(** The items of a list field as texts. *)
Definition texts (field : string) (value : json) : res (list string) :=
  items ← _list value; res_map (_text field) items.

Definition _capability (value : jobject) : res Capability :=
  acts ← texts "capability action" (py_or (jget value "actions") (JList []));
  ress ← texts "capability resource" (py_or (jget value "resources") (JList []));
  if bool_decide (acts = []) || bool_decide (ress = [])
  then refuse "capability requires at least one action and resource"
  else
    dens ← texts "capability deny" (py_or (jget value "deny") (JList []));
    exp ← _optional_int 0 (jget value "expires_at");
    b ← _int 0 0 (jget value "budget");
    depth ← _int 0 0 (jget value "delegation_depth");
    Ok {| actions := list_to_set acts; resources := ress; deny := dens; expires_at := exp;
          budget := b; delegation_depth := depth; revoked := false |}.

(** [_POLICY_LEVELS] and [_POLICY_EFFECTS]. *)
Definition level_of (name : string) : option level :=
  ([("platform", LPlatform); ("org", LOrg); ("owner", LOwner); ("process", LProcess)] : dict level) !! name.

Definition effect_of (name : string) : option effect :=
  ([("allow", EAllow); ("deny", EDeny); ("freeze", EFreeze); ("revoke", ERevoke);
    ("require_approval", EApproval); ("require_narrower_scope", ENarrower)]
   : dict effect) !! name.

Definition _policy_rule (value : json) : res PolicyRule :=
  item ← _record "policy" value;
  lvl ← _text "policy level" (py_or (jget item "level") (JStr "owner"));
  eff ← _text "policy effect" (py_or (jget item "effect") (JStr "allow"));
  match level_of lvl, effect_of eff with
  | None, _ => refuse ("unsupported policy level: " +:+ lvl)
  | _, None => refuse ("unsupported policy effect: " +:+ eff)
  | Some l, Some e =>
      pid ← _id "policy" ["id"; "policy_id"] value;
      acts ← texts "policy action" (py_or (jget item "actions") (jstrs ["*"]));
      ress ← texts "policy resource" (py_or (jget item "resources") (jstrs ["*"]));
      prec ← _int 0 0 (jget item "precedence");
      Ok (mkRule pid l e (list_to_set acts) ress prec)
  end.

Definition _direction (value : json) : res string :=
  direction ← _text "port direction" value;
  if direction_valid direction then Ok direction else refuse ("unsupported port direction: " +:+ direction).

(** The endpoint of an edge: node and port. *)
Definition _endpoint (label : string) (value : json) : res (string * string) :=
  _ ← _record label value;
  n ← _id (label +:+ " node") ["node_id"] value;
  p ← _id (label +:+ " port") ["port_id"; "id"] value;
  Ok (n, p).

Definition _port_key (value : json) : res string :=
  _ ← _record "port" value;
  n ← _id "port node" ["node_id"] value;
  p ← _id "port" ["id"; "port_id"] value;
  Ok (n +:+ ":" +:+ p).

(** * Guards on the state *)

Definition require (ok : GraphSimState → bool) (msg : string) : KS unit :=
  s ← get_st; if ok s then mret () else lift (refuse msg).

Definition _require_node (node_id : string) : KS unit :=
  require (λ s, bool_decide (node_id ∈ nodes s)) ("unknown node: " +:+ node_id).

Definition _require_capability (cap_id : string) : KS unit :=
  require (λ s, has_key cap_id (capabilities s)) ("unknown capability: " +:+ cap_id).

Definition _require_port (node_id port_id : string) : KS unit :=
  _ ← _require_node node_id;
  require (λ s, _port_exists s node_id port_id) ("unknown port: " +:+ node_id +:+ ":" +:+ port_id).

(** * Building the graph *)

Definition port_from_spec (value : json) : KS unit :=
  let item := item_of value in
  node_id ← lift (_id "port node" ["node_id"] value);
  _ ← _require_node node_id;
  port_id ← lift (_id "port" ["id"; "port_id"] value);
  direction ← lift (_direction (py_or (jget item "direction") (JStr "bidirectional")));
  schema_ref ← lift (_text "schema_ref" (py_or (jget item "schema_ref") (JStr "unknown")));
  port_type ← lift (_text "port_type" (py_or (jget item "port_type") (JStr (port_kind port_id))));
  create_port node_id port_id direction schema_ref (Some port_type).

Definition capability_from_spec (value : json) : KS unit :=
  cap_id ← lift (_id "capability" ["id"] value);
  owner ← lift (_id "capability owner" ["owner"] value);
  _ ← require (λ s, bool_decide (owner ∈ nodes s))
        ("capability " +:+ repr_str cap_id +:+ " references unknown owner " +:+ repr_str owner);
  c ← lift (_capability (item_of value));
  mint_capability cap_id owner c.

Definition _propose_edge_from_spec (value : json) : KS decision :=
  let item := item_of value in
  edge_id ← lift (_id "edge" ["edge_id"; "id"] value);
  from_ref ← lift (_endpoint "edge from" (jget item "from"));
  to_ref ← lift (_endpoint "edge to" (jget item "to"));
  _ ← _require_port from_ref.1 from_ref.2;
  _ ← _require_port to_ref.1 to_ref.2;
  cap_id ← lift (text_or_none "capability_id" (jget item "capability_id"));
  _ ← match cap_id with Some c => _require_capability c | None => mret () end;
  edge_type ← lift (_text "edge_type" (py_or (jget item "edge_type") (JStr "call")));
  process_id ← lift (text_or_none "process_id" (jget item "process_id"));
  provenance_ref ← lift (text_or_none "provenance_ref" (jget item "provenance_ref"));
  propose_edge edge_id from_ref.1 from_ref.2 to_ref.1 to_ref.2 edge_type cap_id process_id provenance_ref.

(** * One step *)

Definition unit_result (m : KS unit) : KS json := _ ← m; mret JNull.
Definition decision_result (m : KS decision) : KS json := d ← m; mret (JStr (decision_name d)).
Definition name_result (m : KS (option string)) : KS json := o ← m; mret (jopt o).

(** The rules of a step, or those of the specification when it has none. *)
Definition rules_of (specs : list PolicyRuleSpec) (policies : list PolicyRule) : res (list PolicyRule) :=
  own ← res_map (λ p, _policy_rule (JObj (policy_payload p))) specs;
  Ok (match own with [] => policies | _ => own end).

(** [require] for each candidate. *)
Definition require_candidate (c : string * string) : KS unit :=
  _ ← _require_node c.1; _require_capability c.2.

Section simulation.
(** The signing secret of the deployment, and the validation library. *)
Context (secret : string) (validate_python : list json → list KernelStepSpec + list validation_error).

Definition step_effect (policies : list PolicyRule) (step : KernelStepSpec) : KS json :=
  let need label x := lift (_required_value label x) in
  match step with
  | CreateNodeStep id => unit_result (create_node id)
  | MintCapabilityStep spec id cid owner =>
      cap_id ← need "capability" (resolved cid id);
      _ ← _require_node owner;
      c ← lift (_capability (capability_payload spec));
      unit_result (mint_capability cap_id owner c)
  | CreatePortStep node_id id pid direction schema_ref port_type =>
      port_id ← need "port" (resolved pid id);
      _ ← _require_node node_id;
      unit_result (create_port node_id port_id direction schema_ref
        (Some (if nonempty port_type then default "" port_type else port_kind port_id)))
  | ProposeEdgeStep id eid from to edge_type cap_id process_id provenance_ref =>
      edge_id ← need "edge" (resolved eid id);
      _ ← _require_port (ep_node_id from) (resolved_port_id from);
      _ ← _require_port (ep_node_id to) (resolved_port_id to);
      _ ← match cap_id with Some c => _require_capability c | None => mret () end;
      decision_result (propose_edge edge_id (ep_node_id from) (resolved_port_id from) (ep_node_id to)
        (resolved_port_id to) edge_type cap_id process_id provenance_ref)
  | ActivateEdgeStep id eid specs decision_id =>
      edge_id ← need "edge" (resolved eid id);
      rules ← lift (rules_of specs policies);
      decision_result (activate_edge secret edge_id rules
        (Some (if nonempty decision_id then default "" decision_id else "edge-" +:+ edge_id)))
  | UseEdgeStep id eid cost => edge_id ← need "edge" (resolved eid id); decision_result (use_edge edge_id cost)
  | FreezeEdgeStep id eid reason =>
      edge_id ← need "edge" (resolved eid id); unit_result (freeze_edge edge_id reason)
  | AdvanceTimeStep seconds => unit_result (advance_time seconds)
  | DelegateStep parent child owner requested =>
      _ ← _require_capability parent;
      _ ← _require_node owner;
      c ← lift (_capability (capability_payload requested));
      decision_result (delegate parent child owner c)
  | UseCapabilityStep cap_id action resource cost =>
      _ ← _require_capability cap_id; decision_result (use_capability cap_id action resource cost)
  | EmitSignalStep node_id signal_type body =>
      _ ← _require_node node_id; unit_result (emit_signal node_id signal_type body)
  | SelectRouteStep skill candidates =>
      _ ← for_each candidates require_candidate; name_result (select_route skill candidates)
  | RecordOutcomeStep id oid pid nid process_id edge_id metrics evidence_refs status =>
      outcome_id ← need "outcome" (resolved oid id);
      participant_id ← need "participant" (resolved pid nid);
      decision_result (record_outcome outcome_id participant_id process_id edge_id (Some metrics)
        evidence_refs status)
  | ScoreParticipantStep id sid pid nid outcome_id score explanation_refs =>
      score_id ← need "score" (resolved sid id);
      participant_id ← need "participant" (resolved pid nid);
      decision_result (score_participant score_id participant_id outcome_id (JFloat score) explanation_refs)
  | SelectWinnerStep id aid candidates =>
      _ ← for_each candidates (λ c, _require_node c.1);
      arena_id ← need "arena" (resolved aid id);
      name_result (select_winner arena_id (dict_map refs candidates))
  | CheckPolicyStep id did action resource specs =>
      decision_id ← need "policy decision" (resolved did id);
      rules ← lift (rules_of specs policies);
      d ← check_policy_stack secret decision_id action resource rules;
      mret (JObj (decision_dump d))
  | StartProtocolSimulationStep id pid target protocol_id template_ref budget ttl max_episodes =>
      process_id ← need "process" (resolved pid id);
      unit_result (_ ← start_protocol_simulation process_id target protocol_id template_ref budget ttl
                         max_episodes; mret ())
  | StartProcessStep id pid owner cid cap ttl budget max_depth depth max_calls heartbeat_timeout =>
      cap_id ← need "capability" (resolved cid cap);
      _ ← _require_capability cap_id;
      process_id ← need "process" (resolved pid id);
      decision_result (start_process process_id owner cap_id ttl budget max_depth depth max_calls
        heartbeat_timeout)
  | HeartbeatProcessStep id pid =>
      process_id ← need "process" (resolved pid id); decision_result (heartbeat_process process_id)
  | StopProcessStep id pid reason =>
      process_id ← need "process" (resolved pid id); decision_result (stop_process process_id reason)
  | RecordProtocolEpisodeStep process_id episode cost =>
      decision_result (record_protocol_episode process_id episode cost false)
  | StartReviewLoopStep id pid reviewer target cid cap ttl budget max_iterations =>
      process_id ← need "process" (resolved pid id);
      cap_id ← need "capability" (resolved cid cap);
      decision_result (start_review_loop process_id reviewer target cap_id ttl budget max_iterations)
  | EmitReviewFindingStep id fid process_id reviewer target severity cost =>
      finding_id ← need "finding" (resolved fid id);
      decision_result (emit_review_finding process_id reviewer target finding_id severity cost false)
  | ProposeFixStep id prid process_id finding_id =>
      proposal_id ← need "proposal" (resolved prid id);
      decision_result (propose_fix_from_finding process_id finding_id proposal_id false)
  | ProposeRewriteStep id rid target body =>
      rewrite_id ← need "rewrite" (resolved rid id); unit_result (propose_rewrite rewrite_id target body)
  | ApproveRewriteStep id rid review canary =>
      rewrite_id ← need "rewrite" (resolved rid id); unit_result (approve_rewrite rewrite_id review canary)
  | ApplyRewriteStep _ _ =>
      lift (refuse "custom simulations are proposal-only and cannot apply rewrites")
  | FreezeNodeStep id nid reason =>
      node_id ← need "node" (resolved nid id); unit_result (freeze_node node_id reason)
  | PreviewDeleteStep id nid =>
      node_id ← need "node" (resolved nid id); preview ← preview_delete node_id; mret (JObj preview)
  | RevokeCapabilityStep id cid =>
      cap_id ← need "capability" (resolved cid id);
      _ ← _require_capability cap_id; unit_result (revoke_capability cap_id)
  end.

Definition _run_step (policies : list PolicyRule) (index : Z) (step : KernelStepSpec) : KS CustomStepResult :=
  result ← step_effect policies step; mret (mkStepResult index (step_type step) result).

Fixpoint run_steps (policies : list PolicyRule) (index : Z) (steps : list KernelStepSpec) :
  KS (list CustomStepResult) :=
  match steps with
  | [] => mret []
  | step :: rest =>
    r ← _run_step policies index step; rs ← run_steps policies (index + 1) rest; mret (r :: rs)
  end.
End simulation.
