(* ===== verification/SimulationRun.v ===== *)
(** The invariants of a custom simulation, and the whole run ([_invariant_results]
    and [run_custom_kernel_simulation] of graph_kernel/simulation.py).

    [invariant_outcome] gives, for the id of an invariant, whether it passed and
    the details of its row. *)
From S2P Require Import Prelude PyStr PyDict PyFloat PyJson FnMatch Capability Policy KernelState.
From S2P Require Import KernelOps KernelRouting KernelLoops Safety SimSteps.
From S2P Require Import Simulation.
Open Scope Z_scope.

Definition same_summary (r s : GraphSimState) : bool := bool_decide (summary r = summary s).

(** [rows.get(k, {}).get(field)]. *)
Definition row_field (rows : dict jobject) (k field : string) : json := jget (default [] (rows !! k)) field.

Definition edge_state (s : GraphSimState) (edge_id : string) : json := row_field (edges s) edge_id "state".

(** [rows.get(k) or {}], as a value. *)
Definition row_json (rows : dict jobject) (k : string) : json := JObj (default [] (rows !! k)).

Definition edge_details (edge_id : string) (actual : json) : jobject :=
  [("edge_id", JStr edge_id); ("state", actual)].

(** A counter of a process against the expected number. *)
Definition counter_check (s : GraphSimState) (process_id field : string) (expected : Z) : res (bool * jobject) :=
  actual ← int_field (default [] (processes s !! process_id)) field;
  Ok (actual =? expected,
      [("process_id", JStr process_id); ("expected", JInt expected); ("actual", JInt actual)]).

Definition is_active_of (process_id : string) (edge : jobject) : bool :=
  is_text (jget edge "process_id") process_id && is_text (jget edge "state") "active".

Definition excluded_as (participant_id reason : string) (row : json) : bool :=
  match row with
  | JObj d => is_text (jget d "participant_id") participant_id && is_text (jget d "reason") reason
  | _ => false
  end.

(** The result of a numbered step, [None] past the last one; with no step at all
the index is -1 on an empty list. *)
Definition nth_result (results : list CustomStepResult) (step_index : Z) : res json :=
  if step_index <=? Z.of_nat (length results) then
    match results !! Z.to_nat (step_index - 1) with
    | Some r => Ok (sr_result r)
    | None => Raise IndexError
    end
  else Ok JNull.

Definition expected_decision (results : list CustomStepResult) (item : jobject) : res (bool * jobject) :=
  expected ← _text "expected decision" (jget item "decision");
  step_index ← _int (Z.of_nat (length results)) 1 (jget item "step");
  result ← nth_result results step_index;
  let actual := match result with JObj d => jget d "decision" | _ => result end in
  Ok (is_text actual expected,
      [("expected", JStr expected); ("actual", actual); ("step", JInt step_index)]).

Definition outcome_recorded (s : GraphSimState) (item : jobject) : res (bool * jobject) :=
  outcome_id ← _id "outcome" ["outcome_id"; "id"] (JObj item);
  passed ← match outcomes s !! outcome_id, jget item "participant_id" with
           | None, _ => Ok false
           | Some _, JNull => Ok true
           | Some outcome, p =>
               who ← _text "participant_id" p; Ok (is_text (jget outcome "participant_id") who)
           end;
  Ok (passed, [("outcome_id", JStr outcome_id); ("outcome", row_json (outcomes s) outcome_id)]).

Definition participant_score (s : GraphSimState) (item : jobject) : res (bool * jobject) :=
  score_id ← _id "score" ["score_id"; "id"] (JObj item);
  expected ← _float fzero (jget_or item "score" (jget item "expected"));
  actual ← match scores s !! score_id with
           | Some ((_ :: _) as row) => Some <$> py_float (py_or (jget row "score") (JFloat fzero))
           | _ => Ok None
           end;
  Ok (match actual with Some x => feq x expected | None => false end,
      [("score_id", JStr score_id); ("expected", JFloat expected);
       ("actual", match actual with Some x => JFloat x | None => JNull end)]).

Definition winner_selected (s : GraphSimState) (item : jobject) : res (bool * jobject) :=
  arena_id ← _id "arena" ["arena_id"; "id"] (JObj item);
  expected ← _id "winner" ["winner_id"; "participant_id"; "node_id"] (JObj item);
  let actual := row_field (winners s) arena_id "winner_id" in
  Ok (is_text actual expected,
      [("arena_id", JStr arena_id); ("expected", JStr expected); ("actual", actual)]).

Definition candidate_excluded (s : GraphSimState) (item : jobject) : res (bool * jobject) :=
  arena_id ← _id "arena" ["arena_id"; "id"] (JObj item);
  participant_id ← _id "participant" ["participant_id"; "node_id"] (JObj item);
  reason ← _text "exclusion reason" (jget item "reason");
  let excluded := py_or (row_field (winners s) arena_id "excluded_candidates") (JList []) in
  Ok (existsb (excluded_as participant_id reason) (as_list excluded),
      [("arena_id", JStr arena_id); ("participant_id", JStr participant_id); ("reason", JStr reason);
       ("excluded", excluded)]).

(** The three invariants on the state of an edge. *)
Definition edge_check (s : GraphSimState) (item : jobject) (ok : json → bool) : res (bool * jobject) :=
  edge_id ← _id "edge" ["edge_id"; "id"] (JObj item);
  Ok (ok (edge_state s edge_id), edge_details edge_id (edge_state s edge_id)).

Definition process_id_of (item : jobject) : res string := _id "process" ["process_id"; "id"] (JObj item).

Definition invariant_outcome (s replayed : GraphSimState) (results : list CustomStepResult)
    (invariant_id : string) (item : jobject) : res (bool * jobject) :=
  if invariant_id =s? "replay_deterministic" then
    Ok (same_summary replayed s, [("replay_event_count", JInt (Z.of_nat (length (ledger s))))])
  else if invariant_id =s? "no_active_apply" then
    Ok (negb (_contains_active_apply (JList (map (JObj ∘ event_dump) (ledger s)))),
        [("active_apply_enabled", JBool false)])
  else if invariant_id =s? "no_violations" then
    Ok (bool_decide (violations s = []), [("violations", jstrs (violations s))])
  else if invariant_id =s? "no_alerts" then
    Ok (bool_decide (alerts s = []), [("alerts", jstrs (alerts s))])
  else if invariant_id =s? "expected_decision" then expected_decision results item
  else if invariant_id =s? "node_frozen" then
    node_id ← _id "node" ["node_id"; "id"] (JObj item);
    Ok (bool_decide (node_id ∈ frozen_nodes s),
        [("node_id", JStr node_id); ("frozen_nodes", jstrs (sorted_set (frozen_nodes s)))])
  else if invariant_id =s? "port_exists" then
    node_id ← _id "port node" ["node_id"] (JObj item);
    port_id ← _id "port" ["port_id"; "id"] (JObj item);
    Ok (_port_exists s node_id port_id, [("node_id", JStr node_id); ("port_id", JStr port_id)])
  else if invariant_id =s? "edge_active" then edge_check s item (λ j, is_text j "active")
  else if invariant_id =s? "edge_not_active" then edge_check s item (λ j, negb (is_text j "active"))
  else if invariant_id =s? "edge_expired" then edge_check s item (λ j, is_text j "expired")
  else if invariant_id =s? "no_active_process_edges" then
    process_id ← process_id_of item;
    let active_edges := sort_strs (keys (base.filter (λ p, is_active_of process_id p.2 = true) (edges s))) in
    Ok (bool_decide (active_edges = []),
        [("process_id", JStr process_id); ("active_edges", jstrs active_edges)])
  else if invariant_id =s? "process_absent" then
    process_id ← process_id_of item;
    Ok (negb (has_key process_id (processes s)),
        [("process_id", JStr process_id); ("active_processes", jstrs (sort_strs (keys (processes s))))])
  else if invariant_id =s? "process_budget_remaining" then
    process_id ← process_id_of item;
    expected ← _int 0 0 (jget_or item "value" (jget item "expected"));
    counter_check s process_id "budget_remaining" expected
  else if invariant_id =s? "process_call_count" then
    process_id ← process_id_of item;
    expected ← _int 0 0 (jget_or item "count" (jget_or item "value" (jget item "expected")));
    counter_check s process_id "call_count" expected
  else if invariant_id =s? "outcome_recorded" then outcome_recorded s item
  else if invariant_id =s? "participant_score" then participant_score s item
  else if invariant_id =s? "winner_selected" then winner_selected s item
  else if invariant_id =s? "candidate_excluded" then candidate_excluded s item
  else if invariant_id =s? "no_winner_selected" then
    arena_id ← _id "arena" ["arena_id"; "id"] (JObj item);
    Ok (negb (has_key arena_id (winners s)),
        [("arena_id", JStr arena_id); ("winners", JObj (dict_map JObj (winners s)))])
  else refuse ("unsupported invariant: " +:+ invariant_id).

(** The row of one invariant of the specification. *)
Definition invariant_row (s replayed : GraphSimState) (results : list CustomStepResult) (raw : json) :
    res jobject :=
  let item := match raw with JObj d => d | _ => [("id", JStr (py_str raw))] end in
  invariant_id ← _text "invariant id" (py_or (jget item "id") (jget item "type"));
  outcome ← invariant_outcome s replayed results invariant_id item;
  Ok [("invariant_id", JStr invariant_id); ("passed", JBool outcome.1); ("details", JObj outcome.2);
      ("active_apply_enabled", JBool false)].

Definition _invariant_results (invariants : list json) (s replayed : GraphSimState)
    (results : list CustomStepResult) : res (list jobject) :=
  res_map (invariant_row s replayed results) invariants.

(** * The run *)

(** The parts of a specification after its checks. *)
Record checked_spec : Type := mkChecked {
  ck_title : string;
  ck_scenario_id : string;
  ck_actor_ids : list string;
  ck_ports : list json;
  ck_edges : list json;
  ck_capabilities : list json;
  ck_policies : list PolicyRule;
  ck_steps : list KernelStepSpec;
  ck_invariants : list json;
}.

Definition default_invariants : json := jstrs ["replay_deterministic"; "no_active_apply"; "no_violations"].

(** A list field, by its first name that has a true value. *)
Definition list_field (spec : jobject) (k : string) : res (list json) :=
  _list (py_or (jget spec k) (JList [])).

Section run.
Context (secret : string) (validate_python : list json → list KernelStepSpec + list validation_error).

Definition check_spec (spec : jobject) : res checked_spec :=
  _ ← _reject_active_mutation_payload (JObj spec);
  title ← _text "title" (py_or (jget spec "title") (JStr "Custom kernel simulation"));
  scenario_id ← _slug (py_or (jget spec "scenario_id") (JStr title));
  actors ← _list (py_or (jget spec "actors") (py_or (jget spec "agents") (JList [])));
  ports ← list_field spec "ports";
  edges ← list_field spec "edges";
  capabilities ← list_field spec "capabilities";
  policies ← list_field spec "policies";
  raw_steps ← list_field spec "steps";
  invariants ← _list (py_or (jget spec "invariants") default_invariants);
  _ ← _check_limit "actors" actors MAX_ACTORS;
  _ ← _check_limit "ports" ports MAX_PORTS;
  _ ← _check_limit "edges" edges MAX_EDGES;
  _ ← _check_limit "capabilities" capabilities MAX_CAPABILITIES;
  _ ← _check_limit "policies" policies MAX_POLICIES;
  _ ← _check_limit "steps" raw_steps MAX_STEPS;
  _ ← _check_limit "invariants" invariants MAX_INVARIANTS;
  actor_ids ← res_map (_id "actor" ["id"]) actors;
  _ ← _reject_duplicates "actor" actor_ids;
  port_ids ← res_map _port_key ports;
  _ ← _reject_duplicates "port" port_ids;
  edge_ids ← res_map (_id "edge" ["id"; "edge_id"]) edges;
  _ ← _reject_duplicates "edge" edge_ids;
  capability_ids ← res_map (_id "capability" ["id"]) capabilities;
  _ ← _reject_duplicates "capability" capability_ids;
  policy_rows ← res_map _policy_rule policies;
  _ ← _reject_duplicates "policy" (map policy_id policy_rows);
  steps ← match parse_kernel_steps validate_python (JList raw_steps) with
          | Raise (ValueError msg) => refuse msg
          | m => m
          end;
  Ok (mkChecked title scenario_id actor_ids ports edges capabilities policy_rows steps invariants).

Definition build_graph (ck : checked_spec) : KS unit :=
  _ ← for_each (ck_actor_ids ck) create_node;
  _ ← for_each (ck_ports ck) port_from_spec;
  _ ← for_each (ck_capabilities ck) capability_from_spec;
  for_each (ck_edges ck) (λ item, _ ← _propose_edge_from_spec item; mret ()).

(** The trace of a run, from its final state. *)
Definition trace_of (spec : jobject) (ck : checked_spec) (s replayed : GraphSimState)
    (invariants : list CustomInvariantResult) : CustomSimulationTrace := {|
  tr_scenario_id := ck_scenario_id ck; tr_title := ck_title ck;
  tr_template_ref := jget spec "template_ref"; tr_template_kind := jget spec "template_kind";
  tr_risk_class := jget spec "risk_class"; tr_passed := forallb ir_passed invariants;
  tr_events := map event_dump (ledger s); tr_policy_decisions := values (policy_decisions s);
  tr_invariant_results := invariants; tr_alerts := alerts s; tr_violations := violations s;
  tr_replay_passed := same_summary replayed s |}.

Definition conclude (spec : jobject) (ck : checked_spec) (results : list CustomStepResult)
    (s : GraphSimState) : res CustomSimulationResult :=
  replayed ← replay (map (inr ∘ event_dump) (ledger s));
  rows ← _invariant_results (ck_invariants ck) s replayed results;
  invariants ← res_map invariant_from_payload rows;
  let trace := trace_of spec ck s replayed invariants in
  Ok {| trace_contract := trace;
        trace_summary_payload := summarize_scenario_trace_payload
          [("passed", JBool (tr_passed trace)); ("traces", JList [JObj (trace_payload trace)])];
        state_summary := summary s; step_results := results |}.

Definition simulate (spec : jobject) : KS CustomSimulationResult :=
  ck ← lift (check_spec spec);
  _ ← build_graph ck;
  results ← run_steps secret (ck_policies ck) 1 (ck_steps ck);
  s ← get_st;
  lift (conclude spec ck results s).

(** The result, and the state it was reached in. *)
Definition run_custom_kernel_simulation (spec : json) : res CustomSimulationResult * GraphSimState :=
  match spec with
  | JObj d => simulate d (new_state 0)
  | _ => (refuse "simulation spec must be an object", new_state 0)
  end.
End run.
