(* ===== verification/SimulationFacts.v ===== *)
(** What a custom simulation does to the kernel.

    Everything it does goes through the operations of the kernel, so the state
    it reaches is one the step relation of [KernelSteps] reaches, and what holds
    of all reachable states holds of it.  Simulations propose, they never apply:
    [tidy] holds of a state whose events carry no flag of an active mutation and
    apply nothing, whose edge rows carry none either (they are copied into later
    events), and in which no rewrite is applied and no credential is held; every
    step keeps it, as long as the free objects of the steps carry no such flag. *)
From S2P Require Import Prelude PyStr PyDict PyFloat PyJson FnMatch Capability Policy KernelState.
From S2P Require Import KernelOps.
From S2P Require Import KernelRouting KernelLoops KernelSteps KernelLedger KernelReplay.
From S2P Require Import KernelBudget Safety SimSteps Simulation SimulationRun.
Open Scope Z_scope.

Ltac sim_leaf :=
  idtac; first
    [ kcall_leaf
    | lazymatch goal with
      | |- traced_at ksteps (unit_result _) _ => unfold unit_result
      | |- traced_at ksteps (decision_result _) _ => unfold decision_result
      | |- traced_at ksteps (name_result _) _ => unfold name_result
      | |- traced_at ksteps (propose_edge _ _ _ _ _ _ _ _ _) _ => apply propose_edge_traced
      | |- traced_at ksteps (activate_edge _ _ _ _) _ => apply activate_edge_traced
      | |- traced_at ksteps (use_edge _ _) _ => apply use_edge_traced
      | |- traced_at ksteps (heartbeat_process _) _ => apply heartbeat_process_traced
      | |- traced_at ksteps (advance_time _) _ => apply advance_time_traced
      | |- traced_at ksteps (delegate _ _ _ _) _ => apply delegate_traced
      | |- traced_at ksteps (select_route _ _) _ => apply select_route_traced
      | |- traced_at ksteps (record_outcome _ _ _ _ _ _ _) _ => apply record_outcome_traced
      | |- traced_at ksteps (score_participant _ _ _ _ _) _ => apply score_participant_traced
      | |- traced_at ksteps (select_winner _ _) _ => apply select_winner_traced
      | |- traced_at ksteps (start_protocol_simulation _ _ _ _ _ _ _) _ => apply start_protocol_simulation_traced
      | |- traced_at ksteps (start_review_loop _ _ _ _ _ _ _) _ => apply start_review_loop_traced
      | |- traced_at ksteps (emit_review_finding _ _ _ _ _ _ _) _ => apply emit_review_finding_traced
      | |- traced_at ksteps (propose_fix_from_finding _ _ _ _) _ => apply propose_fix_from_finding_traced
      | |- traced_at ksteps (record_protocol_episode _ _ _ _) _ => apply record_protocol_episode_traced
      | |- traced_at ksteps (preview_delete _) _ => apply preview_delete_traced
      end ].

Lemma require_traced ok msg : traced ksteps (require ok msg).
Proof. unfold require. solve_traced sim_leaf. Qed.

Lemma require_node_traced n : traced ksteps (_require_node n).
Proof. apply require_traced. Qed.

Lemma require_capability_traced c : traced ksteps (_require_capability c).
Proof. apply require_traced. Qed.

Lemma require_port_traced n p : traced ksteps (_require_port n p).
Proof.
  unfold _require_port. intros s. apply traced_bind; [apply _|apply require_node_traced|].
  intros _. apply require_traced.
Qed.

Ltac guard_leaf :=
  idtac; first
    [ sim_leaf
    | lazymatch goal with
      | |- traced_at ksteps (require _ _) _ => apply require_traced
      | |- traced_at ksteps (_require_node _) _ => apply require_node_traced
      | |- traced_at ksteps (_require_capability _) _ => apply require_capability_traced
      | |- traced_at ksteps (_require_port _ _) _ => apply require_port_traced
      | |- traced_at ksteps (_require_port _ _ ≫= _) _ => apply traced_bind; [apply _|apply require_port_traced|intros ?]
      | |- traced_at ksteps (require_candidate _) _ => unfold require_candidate
      | |- traced_at ksteps (create_node _) _ => unfold create_node
      | |- traced_at ksteps (create_port _ _ _ _ _) _ => unfold create_port
      | |- traced_at ksteps (freeze_edge _ _) _ => unfold freeze_edge
      | |- traced_at ksteps (mint_capability _ _ _) _ => unfold mint_capability
      | |- traced_at ksteps (emit_signal _ _ _) _ => unfold emit_signal
      | |- traced_at ksteps (propose_rewrite _ _ _) _ => unfold propose_rewrite
      | |- traced_at ksteps (approve_rewrite _ _ _) _ => unfold approve_rewrite
      | |- traced_at ksteps (freeze_node _ _) _ => unfold freeze_node
      | |- traced_at ksteps (revoke_capability _) _ => unfold revoke_capability
      end ].

Lemma step_effect_traced secret policies step : traced ksteps (step_effect secret policies step).
Proof. destruct step; cbn [step_effect]; solve_traced guard_leaf. Qed.

Lemma run_steps_traced secret policies i steps : traced ksteps (run_steps secret policies i steps).
Proof.
  revert i. induction steps as [|step rest IH]; intros i s; cbn [run_steps]; [apply traced_ret, _|].
  apply traced_bind; [apply _| |].
  - apply traced_bind; [apply _|apply step_effect_traced|]. intros r s'. apply traced_ret, _.
  - intros r s1. apply traced_bind; [apply _|apply IH|]. intros rs s2. apply traced_ret, _.
Qed.

Lemma build_graph_traced ck : traced ksteps (build_graph ck).
Proof.
  unfold build_graph, port_from_spec, capability_from_spec, _propose_edge_from_spec.
  solve_traced guard_leaf.
Qed.

(** A simulation with a result ran without an exception, and concluded from the state it reached. *)
Lemma simulate_parts secret validate spec s0 r s :
  simulate secret validate spec s0 = (Ok r, s) →
  ∃ ck s1, check_spec validate spec = Ok ck ∧ build_graph ck s0 = (Ok (), s1)
    ∧ run_steps secret (ck_policies ck) 1 (ck_steps ck) s1 = (Ok (step_results r), s)
    ∧ conclude spec ck (step_results r) s = Ok r.
Proof.
  unfold simulate. intros (ck & s1 & H1 & H)%ST_bind_ok. unfold lift in H1. injection H1 as H1 <-.
  apply ST_bind_ok in H as ([] & s2 & H2 & H). apply ST_bind_ok in H as (results & s3 & H3 & H).
  apply ST_bind_ok in H as (s4 & s5 & H4 & H). unfold get_st in H4. injection H4 as <- <-.
  unfold lift in H. injection H as H <-. exists ck, s2.
  assert (step_results r = results) as ->; [|done]. unfold conclude in H.
  repeat (apply res_bind_ok in H as (? & _ & H)). by injection H as <-.
Qed.

Lemma traced_run {R : bool → GraphSimState → GraphSimState → Prop} {A} (m : KS A) s a s' :
  traced R m → m s = (Ok a, s') → R true s s'.
Proof. intros H E. destruct (H s) as (b & Hb & Hok). rewrite E in Hb, Hok. by rewrite (Hok eq_refl) in Hb. Qed.

Lemma simulate_inv secret validate spec t r s :
  simulate secret validate spec (new_state t) = (Ok r, s) →
  ∃ ck, check_spec validate spec = Ok ck ∧ ksteps true (new_state t) s
    ∧ conclude spec ck (step_results r) s = Ok r.
Proof.
  intros (ck & s1 & H1 & H2 & H3 & H4)%simulate_parts. exists ck. split_and!; [done| |done].
  apply (trace_trans true true _ s1).
  - exact (traced_run _ _ _ _ (build_graph_traced ck) H2).
  - exact (traced_run _ _ _ _ (run_steps_traced secret _ _ _) H3).
Qed.

(** The parts of a result. *)
Lemma conclude_inv spec ck results s r :
  conclude spec ck results s = Ok r →
  ∃ replayed rows invariants, replay (map (inr ∘ event_dump) (ledger s)) = Ok replayed
    ∧ _invariant_results (ck_invariants ck) s replayed results = Ok rows
    ∧ res_map invariant_from_payload rows = Ok invariants
    ∧ trace_contract r = trace_of spec ck s replayed invariants.
Proof.
  unfold conclude. intros (re & H1 & H)%res_bind_ok. apply res_bind_ok in H as (rows & H2 & H).
  apply res_bind_ok in H as (inv & H3 & H). exists re, rows, inv. by injection H as <-.
Qed.

(** * Tidy states *)

(** * Values without mutation flags *)

Definition clean (j : json) : Prop := _reject_active_mutation_payload j = Ok ().

Lemma clean_nil : clean (JObj []).
Proof. done. Qed.

Lemma clean_cons k v d : clean (JObj ((k, v) :: d)) ↔ check_entry k v = Ok () ∧ clean v ∧ clean (JObj d).
Proof.
  unfold clean. cbn -[check_entry]. split.
  - intros ([] & H1 & H)%res_bind_ok. apply res_bind_ok in H as ([] & H2 & H3). done.
  - intros (-> & H2 & H3). cbn. rewrite H2. exact H3.
Qed.

Lemma clean_list l : clean (JList l) ↔ Forall clean l.
Proof.
  unfold clean. induction l as [|x l IH]; cbn; [done|]. rewrite Forall_cons, <-IH. split.
  - intros ([] & H1 & H2)%res_bind_ok. done.
  - intros [-> H2]. exact H2.
Qed.

Lemma clean_obj d : clean (JObj d) ↔ Forall (λ p, check_entry p.1 p.2 = Ok () ∧ clean p.2) d.
Proof. induction d as [|[k v] d IH]; [done|]. rewrite clean_cons, IH, Forall_cons. cbn. tauto. Qed.

Lemma clean_app d e : clean (JObj d) → clean (JObj e) → clean (JObj (d ++ e)).
Proof. rewrite !clean_obj, Forall_app. by split. Qed.

Lemma clean_get (d : jobject) k : clean (JObj d) → clean (jget d k).
Proof.
  intros H%clean_obj. unfold jget. destruct (d !! k) as [v|] eqn:E; [|reflexivity].
  apply dict_lookup_elem in E. rewrite Forall_forall in H. by apply (H (k, v)).
Qed.

Lemma clean_item (d : jobject) k v : clean (JObj d) → jitem d k = Ok v → clean v.
Proof. intros H E. replace v with (jget d k); [by apply clean_get|]. unfold jitem, jget in *. by destruct (d !! k); simplify_eq/=. Qed.

Lemma clean_insert k v (d : jobject) : check_entry k v = Ok () → clean v → clean (JObj d) → clean (JObj (<[k:=v]> d)).
Proof.
  intros H1 H2. unfold insert, dict_insert. induction d as [|[j w] d IH]; cbn -[check_entry]; rewrite ?clean_cons; [done|].
  intros (H3 & H4 & H5). destruct (String.eqb_spec k j) as [->|]; rewrite clean_cons; auto.
Qed.

Lemma clean_update (d e : jobject) : clean (JObj d) → clean (JObj e) → clean (JObj (dict_update d e)).
Proof.
  revert d. induction e as [|[k v] e IH]; intros d Hd; [done|]. rewrite clean_cons. intros (H1 & H2 & H3).
  apply (IH (<[k:=v]> d)); [by apply clean_insert|done].
Qed.

Lemma clean_jstrs l : clean (jstrs l).
Proof. apply clean_list. induction l; constructor; done. Qed.

Lemma clean_jopt o : clean (jopt o).
Proof. destruct o; reflexivity. Qed.

Lemma clean_or x y : clean x → clean y → clean (py_or x y).
Proof. unfold py_or. by case_match. Qed.

Lemma clean_texts l : clean (JObj (map (λ s, (s, JNull)) l)).
Proof.
  induction l as [|s l IH]; [done|]. apply clean_cons. split_and!; [|done|exact IH].
  unfold check_entry. cbn [truthy]. by rewrite !andb_false_r.
Qed.

(** What solves the cleanliness of a payload written out in the code. *)
Ltac solve_clean := repeat first
  [ assumption
  | lazymatch goal with
    | |- clean (JObj []) => exact clean_nil
    | |- clean (jstrs _) => apply clean_jstrs
    | |- clean (jopt _) => apply clean_jopt
    | |- clean (jget _ _) => apply clean_get
    | |- clean (py_or _ _) => apply clean_or
    | |- clean (JObj (dict_update _ _)) => apply clean_update
    | |- clean (JObj (_ ++ _)) => apply clean_app
    | |- clean (JObj (_ :: _)) => apply clean_cons; split_and!; [reflexivity| |]
    | |- clean (JObj (insert _ _ _)) => apply clean_insert; [reflexivity| |]
    | |- clean (JObj _) => fail
    | |- clean (JList _) => fail
    | |- clean (match _ with _ => _ end) => case_match
    | |- clean (if _ then _ else _) => case_match
    | |- clean _ => reflexivity
    end ].

(** No name of a mutation at all, with any value. *)
Definition flag (k : string) : bool :=
  str_in (lower k) _FORBIDDEN_TRUTHY_KEYS || str_in (lower k) _FORBIDDEN_NONEMPTY_KEYS.

Fixpoint flagless (j : json) : bool :=
  match j with
  | JObj d => forallb (λ p, negb (flag p.1) && flagless p.2) d
  | JList l => forallb flagless l
  | _ => true
  end.

Lemma flagless_clean j : flagless j = true → clean j.
Proof.
  induction j as [| | | | |l IH|d IH] using json_nested_ind; try done; cbn [flagless].
  - rewrite forallb_elem. intros H. apply clean_list. rewrite Forall_forall in *. auto.
  - rewrite forallb_elem. intros H. apply clean_obj. rewrite Forall_forall in *. intros p Hp.
    specialize (H p Hp). apply andb_true_iff in H as [H1%negb_true_iff H2]. split; [|by apply (IH p)].
    apply orb_false_iff in H1 as [H1 H1']. unfold check_entry. by rewrite H1, H1'.
Qed.

Lemma redact_flagless j : flagless j = true → flagless (Policy._redact j) = true.
Proof.
  induction j as [| | | |s|l IH|d IH] using json_nested_ind; try done; cbn [Policy._redact flagless].
  - by case_match.
  - intros H. rewrite forallb_elem in *. intros x (y & -> & Hy)%list_elem_of_fmap.
    rewrite Forall_forall in IH. auto.
  - intros H. rewrite forallb_elem in *. intros p ([k v] & -> & Hy)%list_elem_of_fmap.
    apply list_elem_of_In, filter_In in Hy as [Hy _]. apply list_elem_of_In, list_elem_of_fmap in Hy as ([k' w] & [= -> ->] & Hw).
    specialize (H _ Hw). rewrite Forall_forall in IH. cbn [fst snd] in *. apply andb_true_iff in H as [-> H2].
    cbn [andb]. case_match; [done|]. by apply (IH (k', w)).
Qed.

Lemma jstrs_flagless l : flagless (jstrs l) = true.
Proof. cbn. rewrite forallb_elem. intros x (y & -> & _)%list_elem_of_fmap. done. Qed.

Lemma to_payload_flagless env : flagless (JObj (to_payload env)) = true.
Proof.
  unfold to_payload, to_unsigned_payload.
  assert (flagless (JList (map (λ r, JObj (snapshot_payload r)) (ev_matched_rules env))) = true) as Hr.
  { cbn [flagless]. apply forallb_elem. intros x (r & -> & _)%list_elem_of_fmap. unfold snapshot_payload.
    cbn -[flag jstrs]. rewrite !jstrs_flagless. reflexivity. }
  cbn -[flag jstrs] in Hr |- *. rewrite Hr, !jstrs_flagless.
  by destruct (ev_effect env), (ev_signature env), (ev_issued_at env), (ev_expires_at env).
Qed.

Lemma redacted_decision_clean p : flagless (JObj p) = true → clean (JObj (redacted_policy_decision p)).
Proof.
  intros H%redact_flagless%flagless_clean. unfold redacted_policy_decision.
  destruct (Policy._redact (JObj p)) as [| | | | | |d] eqn:E; try by discriminate E.
  repeat case_match; solve_clean.
Qed.
