(* ===== verification/SimulationTidy.v ===== *)
(** The invariant of custom simulations, operation by operation.

    [tidy] is kept by every operation a step can call.  An operation copies
    values of edge rows and of the step's free objects into its events; both
    are free of mutation flags. *)
From S2P Require Import Prelude PyStr PyDict PyFloat PyJson FnMatch Capability Policy KernelState.
From S2P Require Import KernelOps KernelRouting KernelLoops KernelSteps KernelLedger.
From S2P Require Import Safety SimSteps Simulation SimulationRun SimulationFacts.
Open Scope Z_scope.

Definition edges_clean (s : GraphSimState) : Prop := Forall (λ p, clean (JObj p.2)) (edges s).

Definition unapplied (s : GraphSimState) : Prop :=
  Forall (λ p, truthy (jget p.2 "applied") = false) (rewrites s).

(** * The reducer *)

Definition is_obj (j : json) : bool := match j with JObj _ => true | _ => false end.

(** The events a simulation records: none applies, and endpoints are objects. *)
Definition plain (k : kind) (p : jobject) : bool :=
  match k with
  | KRewriteApplied | KDeleteApplied => false
  | KEdgeProposed => is_obj (jget p "from") && is_obj (jget p "to")
  | _ => true
  end.

Definition rows_keep (_ : bool) (s s' : GraphSimState) : Prop :=
  edges_clean s ∧ unapplied s → edges_clean s' ∧ unapplied s'.

#[export] Instance rows_keep_rel : TraceRel rows_keep.
Proof. split; unfold rows_keep; tauto. Qed.

Lemma update_edge_keep eid (u : jobject) s : clean (JObj u) →
  rows_keep true s (set_edges (<[eid := with_updates (edge_row s eid) u]> (edges s)) s).
Proof.
  intros Hu [He Hr]. split; [|done]. apply (Forall_insert (λ d, clean (JObj d))); [done|]. apply clean_update; [|done].
  unfold edge_row, row_or. destruct (edges s !! eid) as [[|x row]|] eqn:E; [reflexivity| |reflexivity].
  by apply (Forall_row (λ d, clean (JObj d)) _ _ _ He E).
Qed.

Lemma update_rewrite_keep k (u : jobject) s : jget u "applied" = JNull → dict_wf u →
  rows_keep true s (set_rewrites (<[k := with_updates (row_or (rewrites s) k []) u]> (rewrites s)) s).
Proof.
  intros Hu Hwf [He Hr]. split; [done|]. apply (Forall_insert (λ d, truthy (jget d "applied") = false)); [done|].
  assert (truthy (jget (row_or (rewrites s) k []) "applied") = false) as H.
  { unfold row_or. destruct (rewrites s !! k) as [[|x row]|] eqn:E; [done| |done].
    by apply (Forall_row (λ d, truthy (jget d "applied") = false) _ _ _ Hr E). }
  unfold with_updates. revert H. unfold jget at 1 2. destruct (u !! "applied") as [v|] eqn:E.
  - unfold jget in Hu. rewrite E in Hu. cbn in Hu. subst v. intros _.
    by rewrite (dict_update_lookup_in _ JNull) by (by apply dict_lookup_elem || done).
  - rewrite dict_update_lookup_notin; [done|]. intros Hin. apply dict_lookup_keys in Hin as [? ?]. congruence.
Qed.

Lemma stop_target_keep r s t : rows_keep true s (stop_target r s t).
Proof.
  intros [He Hr]. split; [|done]. unfold edges_clean, stop_target, dict_map. cbn [edges set_edges].
  apply Forall_map. eapply Forall_impl; [exact He|]. intros [k row] Hrow. cbn in *. unfold expire_edge.
  case_match; [|done]. apply clean_update; [done|]. solve_clean.
Qed.

Lemma stop_targets_keep r ts s : rows_keep true s (foldl (stop_target r) s ts).
Proof.
  revert s. induction ts as [|t ts IH]; intros s; [by apply trace_refl|]. cbn [foldl].
  apply (trace_trans true true s (stop_target r s t)); [apply stop_target_keep|apply IH].
Qed.

Ltac keep_leaf :=
  idtac; lazymatch goal with
  | |- traced_at rows_keep (modify _) _ =>
      apply traced_modify; first
        [ apply stop_targets_keep
        | apply update_edge_keep; solve_clean
        | apply update_rewrite_keep; [reflexivity|apply (bool_decide_unpack _); reflexivity]
        | exact id
        | intros [? ?]; split; [done|];
          apply (Forall_insert (λ d, truthy (jget d "applied") = false)); [done|reflexivity] ]
  end.

Lemma edge_proposed_keep e : clean (JObj (payload e)) → plain KEdgeProposed (payload e) = true →
  traced rows_keep (apply_edge_proposed e).
Proof.
  intros Hc [Hf Ht]%andb_true_iff. unfold apply_edge_proposed, text_of. solve_traced keep_leaf.
  apply traced_modify. intros [He Hr]. split; [|done].
  assert (∀ k d, is_obj (jget (payload e) k) = true → jitem (payload e) k ≫= py_dict = Ok d → clean (JObj d)) as Hd.
  { intros k d Hk (j & Hj & Hd)%res_bind_ok. pose proof (clean_item _ _ _ Hc Hj) as Hcj.
    unfold jget in Hk. unfold jitem in Hj. destruct (payload e !! k); [|done]. injection Hj as ->.
    cbn in Hk. destruct j; try done. by injection Hd as <-. }
  apply (Forall_insert (λ d, clean (JObj d))); [done|].
  pose proof (Hd "from" _ Hf ltac:(eassumption)). pose proof (Hd "to" _ Ht ltac:(eassumption)). solve_clean.
Qed.

Lemma handle_keep k e : plain k (payload e) = true → clean (JObj (payload e)) → traced rows_keep (handle k e).
Proof.
  intros Hp Hc. destruct k; try discriminate Hp; cbn [handle]; try (by apply edge_proposed_keep);
    unfold apply_node_created, apply_time_advanced, apply_port_created,
      apply_edge_created, apply_edge_frozen, apply_edge_used, apply_capability_granted,
      apply_capability_revoked, apply_signal_emitted, apply_route_selected, apply_outcome_recorded,
      apply_score_assigned, apply_winner_selected, apply_rewrite_proposed, apply_rewrite_approved,
      apply_policy_checked, apply_process_started, apply_process_heartbeat,
      apply_process_stopped, apply_review_rejected, apply_fix_rejected, apply_review_finding,
      apply_review_stopped, apply_protocol_episode, apply_episode_rejected, apply_protocol_stopped,
      apply_freeze_applied, apply_delete_previewed, violation_of, alert_of,
      charge, spend, pop_process, text_of, int_of, update_edge, update_process, update_rewrite,
      add_signal, add_alert, add_violation;
    solve_traced keep_leaf.
Qed.

(** * The invariant *)

Definition calm (e : SimEvent) : Prop :=
  clean (JObj (event_dump e)) ∧ event_type e ≠ "rewrite.applied" ∧ event_type e ≠ "delete.applied".

Record tidy (s : GraphSimState) : Prop := {
  td_ledger : ledger_ok s;
  td_events : Forall calm (ledger s);
  td_edges : edges_clean s;
  td_unapplied : unapplied s;
  td_credentials : credentials s = ∅;
}.

Lemma tidy_new t : tidy (new_state t).
Proof. split; [apply ledger_ok_new|constructor..|done]. Qed.

Definition tidies (_ : bool) (s s' : GraphSimState) : Prop := tidy s → tidy s'.

#[export] Instance tidies_rel : TraceRel tidies.
Proof. split; unfold tidies; tauto. Qed.

(** The start of a run may be taken to be tidy. *)
Lemma traced_assuming {A} (m : KS A) s : (tidy s → traced_at tidies m s) → traced_at tidies m s.
Proof. intros H. exists true. split; [|done]. intros Hs. by destruct (H Hs) as (b & Hb & _); apply Hb. Qed.

Lemma event_for_calm ety actor targets body auth pol red s :
  plain (kind_of ety) body = true → clean (JObj body) → clean auth → clean pol →
  calm (event_for ety actor targets body auth pol red s).
Proof.
  intros Hp Hb Ha Hpol. split; [unfold event_dump, event_for; cbn [event_id seq created_at event_type actor_node_id target_refs authority_ref policy_decision_ref payload redaction_class]; solve_clean|].
  cbn [event_type event_for]. split; intros ->; discriminate Hp.
Qed.

Lemma record_tidy ety actor targets body auth pol red :
  plain (kind_of ety) body = true → clean (JObj body) → clean auth → clean pol →
  traced tidies (record_as ety actor targets body auth pol red).
Proof.
  intros Hp Hb Ha Hpol s. exists (is_ok (record_as ety actor targets body auth pol red s).1). split; [|done].
  intros [H1 H2 H3 H4 H5]. destruct (record_ledger ety actor targets body auth pol red s H1) as [Hl Hok].
  pose proof (event_for_calm ety actor targets body auth pol red s Hp Hb Ha Hpol) as Hcalm.
  rewrite record_as_unfold in * by done. set (e := event_for _ _ _ _ _ _ _ s) in *.
  destruct (handle_keep (kind_of (event_type e)) e Hp Hb (log_event e s)) as (b & Hkeep & _).
  destruct Hkeep as [He Hr]; [done|].
  destruct (handle_frame (kind_of (event_type e)) e (log_event e s)) as (b' & (_ & _ & _ & Hcred) & _).
  split; [done| |done|done|].
  - rewrite Hl. apply Forall_app. split; [done|]. constructor; [exact Hcalm|constructor].
  - change (credentials (log_event e s)) with (credentials s) in Hcred. rewrite H5 in Hcred. set_solver.
Qed.

(** An update that leaves alone what the invariant looks at. *)
Lemma tidy_same s s' : ledger s' = ledger s → seen_event_ids s' = seen_event_ids s →
  edges s' = edges s → rewrites s' = rewrites s → credentials s' = credentials s → tidies true s s'.
Proof.
  intros El Es Ee Er Ec [[L1 L2 L3] H2 H3 H4 H5].
  split; [split|unfold edges_clean, unapplied in *..|]; congruence.
Qed.

(** * The operations *)

Lemma clean_reason r : clean (JObj (reason_payload r)).
Proof. reflexivity. Qed.

Lemma clean_markers : clean (JObj simulation_markers).
Proof. reflexivity. Qed.

Lemma clean_endpoint n p : clean (endpoint n p).
Proof. reflexivity. Qed.

Lemma clean_cap c : clean (JObj (cap_dump c)).
Proof. apply flagless_clean. cbn -[flag jstrs]. rewrite !jstrs_flagless. by destruct (expires_at c). Qed.

Lemma decision_dump_flagless d : flagless (JObj (decision_dump d)) = true.
Proof. cbn -[flag jstrs]. rewrite !jstrs_flagless. by destruct (pd_effect d). Qed.

Lemma edge_is_clean s eid row : tidy s → edges s !! eid = Some row → clean (JObj row).
Proof. intros Hs. exact (Forall_row (λ d, clean (JObj d)) _ _ _ (td_edges _ Hs)). Qed.

Ltac clean_payload :=
  repeat first
    [ match goal with
      | T : tidy ?s, H : edges ?s !! _ = Some ?row |- _ =>
          lazymatch goal with C : clean (JObj row) |- _ => fail | _ => pose proof (edge_is_clean _ _ _ T H) end
      end ];
  repeat first
    [ lazymatch goal with
      | |- clean (JObj (reason_payload _)) => apply clean_reason
      | |- clean (JObj simulation_markers) => apply clean_markers
      | |- clean (JObj (cap_dump _)) => apply clean_cap
      | |- clean (endpoint _ _) => apply clean_endpoint
      | |- clean (JObj (decision_dump _)) => apply flagless_clean, decision_dump_flagless
      | |- clean (JObj (to_payload _)) => apply flagless_clean, to_payload_flagless
      | |- clean (JObj (redacted_policy_decision _)) => apply redacted_decision_clean, to_payload_flagless
      end
    | progress solve_clean ].

Ltac tidy_leaf :=
  idtac; lazymatch goal with
  | |- traced_at tidies (record_as _ _ _ _ _ _ _) _ =>
      apply record_tidy; [reflexivity|clean_payload..]
  | |- traced_at tidies (KernelState._record _ _ _ _) _ => unfold KernelState._record
  | |- traced_at tidies (append_alert _ ≫= _) _ => unfold append_alert at 1
  | |- traced_at tidies (append_violation _ ≫= _) _ => unfold append_violation at 1
  | |- traced_at tidies (modify _) _ => apply traced_modify, tidy_same; reflexivity
  end.

Ltac tidy_start := intros ?; apply traced_assuming; intros ?.

Lemma use_capability_tidy cid a r n : traced tidies (use_capability cid a r n).
Proof. unfold use_capability. solve_traced tidy_leaf.
Qed.

Lemma stop_process_tidy p r : traced tidies (stop_process p r).
Proof. unfold stop_process. solve_traced tidy_leaf. Qed.

Lemma start_process_tidy p o c ttl b md d mc hb : traced tidies (start_process p o c ttl b md d mc hb).
Proof. unfold start_process. solve_traced tidy_leaf. Qed.

Lemma check_policy_tidy secret did a r ps : traced tidies (check_policy_stack secret did a r ps).
Proof.
  unfold check_policy_stack. solve_traced tidy_leaf.
Qed.

(** The calls an operation makes of another one. *)
Ltac tidy_call :=
  idtac; first
    [ tidy_leaf
    | lazymatch goal with
      | |- traced_at tidies (use_capability _ _ _ _) _ => apply use_capability_tidy
      | |- traced_at tidies (stop_process _ _) _ => apply stop_process_tidy
      | |- traced_at tidies (check_policy_stack _ _ _ _ _) _ => apply check_policy_tidy
      end ].

Lemma propose_edge_tidy eid fn fp tn tp ty c pid prov :
  traced tidies (propose_edge eid fn fp tn tp ty c pid prov).
Proof. unfold propose_edge. solve_traced tidy_call. Qed.

Lemma activate_edge_tidy secret eid ps did : traced tidies (activate_edge secret eid ps did).
Proof.
  unfold activate_edge, activate_with_capability, deny_edge. tidy_start. solve_traced tidy_call.
Qed.

Lemma use_edge_tidy eid c : traced tidies (use_edge eid c).
Proof. unfold use_edge, use_edge_checked, edge_authority, reject_use. tidy_start. solve_traced tidy_call. Qed.

Lemma heartbeat_process_tidy p : traced tidies (heartbeat_process p).
Proof. unfold heartbeat_process. solve_traced tidy_call. Qed.

Lemma advance_time_tidy n : traced tidies (advance_time n).
Proof. unfold advance_time. solve_traced tidy_call. Qed.

Lemma delegate_tidy p c o r : traced tidies (delegate p c o r).
Proof. unfold delegate. solve_traced tidy_call. Qed.

Lemma score_routes_tidy k acc cs : traced tidies (score_routes k acc cs).
Proof. revert acc. induction cs as [|[n c] cs IH]; intros acc; cbn [score_routes]; solve_traced tidy_call; apply IH. Qed.

Lemma select_route_tidy k cs : traced tidies (select_route k cs).
Proof.
  unfold select_route. intros s. apply traced_bind; [apply _|apply score_routes_tidy|].
  intros l. solve_traced tidy_call.
Qed.

Lemma record_outcome_tidy o p pid eid m ev st : clean (JObj (default [] m)) →
  traced tidies (record_outcome o p pid eid m ev st).
Proof. intros Hm. unfold record_outcome, reject_outcome. solve_traced tidy_call. Qed.

Lemma score_participant_tidy sc p o x ex : traced tidies (score_participant sc p o x ex).
Proof. unfold score_participant, reject_score. solve_traced tidy_call. Qed.

(** The exclusions of an arena are rows of texts. *)
Lemma classify_clean s el ex cs lists :
  Forall clean ex → classify s el ex cs = Ok lists → Forall clean lists.2.
Proof.
  revert el ex. induction cs as [|[p refs] cs IH]; intros el ex Hex; cbn [classify]; [by intros [= <-]|].
  cbv zeta. destruct (_winner_exclusion_reason s p refs) as [reason|].
  - apply IH. apply Forall_app. split; [done|]. constructor; [reflexivity|constructor].
  - destruct (scores s !! _); [|done]. intros (x & _ & H)%res_bind_ok. by eapply IH.
Qed.

Lemma select_winner_tidy a cs : traced tidies (select_winner a cs).
Proof.
  unfold select_winner. solve_traced tidy_call.
  all: apply clean_list; first
    [ eapply classify_clean; [constructor|eassumption]
    | apply Forall_map, Forall_true; reflexivity ].
Qed.

Lemma start_review_loop_tidy p rv t c ttl b it : traced tidies (start_review_loop p rv t c ttl b it).
Proof. unfold start_review_loop, record_review. solve_traced tidy_call. Qed.

Lemma review_limit_clean t row c a r more : review_limit t row c = Ok (Some (a, r, more)) → clean (JObj more).
Proof.
  unfold review_limit. intros H. inv_res. case_match; [by simplify_eq|]. inv_res.
  case_match; [by simplify_eq|]. inv_res. case_match; by simplify_eq.
Qed.

Lemma emit_review_finding_tidy p rv t f sv c m : traced tidies (emit_review_finding p rv t f sv c m).
Proof.
  unfold emit_review_finding, stop_review, record_review, freeze_node. solve_traced tidy_call.
  by eapply review_limit_clean.
Qed.

Lemma propose_rewrite_tidy r t body : clean (JObj body) → traced tidies (propose_rewrite r t body).
Proof. intros H. unfold propose_rewrite. solve_traced tidy_call. Qed.

Lemma propose_fix_tidy p f pr d : traced tidies (propose_fix_from_finding p f pr d).
Proof. unfold propose_fix_from_finding, record_review, propose_rewrite. solve_traced tidy_call. Qed.

Lemma start_protocol_simulation_tidy p t pr tm b ttl n :
  traced tidies (start_protocol_simulation p t pr tm b ttl n).
Proof. unfold start_protocol_simulation, record_protocol. solve_traced tidy_call. Qed.

Lemma record_protocol_episode_tidy p n c d : traced tidies (record_protocol_episode p n c d).
Proof. unfold record_protocol_episode, stop_protocol, record_protocol. solve_traced tidy_call. Qed.

Lemma preview_delete_tidy n : traced tidies (preview_delete n).
Proof. unfold preview_delete, deletion_dependents. solve_traced tidy_call. Qed.

Lemma emit_signal_tidy n ty body : clean (JObj body) → traced tidies (emit_signal n ty body).
Proof. intros H. unfold emit_signal. solve_traced tidy_call. Qed.
