(* ===== verification/SimulationProperties.v ===== *)
(** What the trace of a custom simulation is worth.

    A simulation only proposes, and its replay check fails exactly when the
    ledger does not determine the state.  The runs at the end show where the
    runner raises something else than its own refusal. *)
From S2P Require Import Prelude PyStr PyDict PyFloat PyJson FnMatch Capability Policy KernelState.
From S2P Require Import KernelOps KernelRouting KernelLoops KernelSteps KernelLedger.
From S2P Require Import KernelReplay KernelBudget.
From S2P Require Import Safety SimSteps Simulation SimulationRun SimulationFacts.
From S2P Require Import SimulationTidy.
Open Scope Z_scope.

(** * The replay check *)

(** C12: the replay check of a custom simulation with a result, every event of which names an
actor and a redaction class, passes exactly when every capability still has the budget it was
granted and no alert and no violation is listed twice: everything else the summary shows is rebuilt
from the ledger. *)
Theorem replay_passed_iff secret validate spec r s :
  run_custom_kernel_simulation secret validate spec = (Ok r, s) → Forall loadable (ledger s) →
  tr_replay_passed (trace_contract r) = true ↔ reproducible s.
Proof.
  destruct spec as [| | | | | |spec]; try done. intros Hrun Hload.
  destruct (simulate_inv _ _ _ _ _ _ Hrun) as (ck & _ & Hs & Hc).
  destruct (conclude_inv _ _ _ _ _ Hc) as (replayed & rows & invariants & Hr & _ & _ & ->).
  destruct (replay_ledger _ _ Hs (load_items_dump _ Hload)) as (r' & Hr' & Hrs).
  rewrite Hr in Hr'. injection Hr' as <-.
  cbn [tr_replay_passed trace_of]. unfold same_summary. rewrite bool_decide_eq_true.
  by eapply replay_exact.
Qed.

(** * Proposal only *)

(** The free object of a step, which is copied into an event. *)
Definition step_object (step : KernelStepSpec) : jobject :=
  match step with
  | EmitSignalStep _ _ body | ProposeRewriteStep _ _ _ body => body
  | RecordOutcomeStep _ _ _ _ _ _ metrics _ _ => metrics
  | _ => []
  end.

(** Validation takes free objects from the rows as they are, or leaves them empty. *)
Definition keeps_objects (validate : list json → list KernelStepSpec + list validation_error) : Prop :=
  ∀ rows steps step, validate rows = inl steps → step ∈ steps →
    step_object step = [] ∨ ∃ k row, row ∈ rows ∧ within k (JObj (step_object step)) row.

Lemma within_trans key item k v x : within key item v → within k v x → within key item x.
Proof.
  intros H. induction 1 as [d Hin|d j y Hin _ IH|l y Hin _ IH].
  - by eapply within_object.
  - by eapply within_object.
  - by eapply within_list.
Qed.

Lemma within_clean k v x : clean x → within k v x → clean v.
Proof.
  unfold clean. rewrite !reject_accepts_iff. intros H Hv key item Hw. eapply H, within_trans; eassumption.
Qed.

Lemma dict_pop_incl {V} k (d : dict V) : dict_pop k d ⊆ d.
Proof. induction d as [|[k' v] d IH]; cbn [dict_pop]; [done|]. case_match; set_solver. Qed.

Lemma normalized_row_clean item : clean item → clean (normalized_row item).
Proof.
  destruct item as [| | | | | |d]; try done. intros H. cbn [normalized_row]. case_match; [|done].
  apply clean_app; [|apply clean_cons; split_and!; [reflexivity|by apply clean_get|exact clean_nil]].
  revert H. rewrite !clean_obj, !Forall_forall. intros H p Hp. by apply H, (dict_pop_incl "kind").
Qed.

Section spec.
Context (validate : list json → list KernelStepSpec + list validation_error).

(** The steps of an accepted specification carry no mutation flag. *)
Lemma accepted_steps_clean spec ck : keeps_objects validate → check_spec validate spec = Ok ck →
  Forall (λ step, clean (JObj (step_object step))) (ck_steps ck).
Proof.
  intros Hk H. unfold check_spec in H. apply res_bind_ok in H as ([] & Hclean & H).
  repeat lazymatch type of H with
  | mbind _ (list_field spec "steps") = _ => fail
  | mbind _ _ = _ => apply res_bind_ok in H as (? & _ & H)
  end.
  apply res_bind_ok in H as (raw & Hraw & H).
  repeat lazymatch type of H with
  | mbind _ (match _ with _ => _ end) = _ => fail
  | mbind _ _ = _ => apply res_bind_ok in H as (? & _ & H)
  end.
  apply res_bind_ok in H as (steps & Hsteps & H). injection H as <-. cbn [ck_steps].
  assert (Forall clean raw) as Hrows.
  { apply clean_list. unfold list_field in Hraw.
  assert (clean (py_or (jget spec "steps") (JList []))) as Hc by (by apply clean_or; [apply clean_get|]).
  by destruct (py_or _ _); simplify_eq/=. }
  unfold parse_kernel_steps in Hsteps.
  destruct (validate (map normalized_row raw)) as [l|errors] eqn:Hv; [|done]. injection Hsteps as <-.
  apply Forall_forall. intros step Hin. destruct (Hk _ _ _ Hv Hin) as [->|(k & row & Hrow & Hw)]; [done|].
  apply list_elem_of_fmap in Hrow as (row' & -> & Hrow'). rewrite Forall_forall in Hrows.
  by eapply within_clean, Hw; apply normalized_row_clean, Hrows.
Qed.
End spec.

Ltac effect_leaf :=
  idtac; first
    [ tidy_call
    | lazymatch goal with
      | |- traced_at tidies (unit_result _) _ => unfold unit_result
      | |- traced_at tidies (decision_result _) _ => unfold decision_result
      | |- traced_at tidies (name_result _) _ => unfold name_result
      | |- traced_at tidies (require _ _) _ => unfold require
      | |- traced_at tidies (_require_node _) _ => unfold _require_node
      | |- traced_at tidies (_require_capability _) _ => unfold _require_capability
      | |- traced_at tidies (_require_port _ _ ≫= _) _ => unfold _require_port at 1
      | |- traced_at tidies (_require_port _ _) _ => unfold _require_port
      | |- traced_at tidies (require_candidate _) _ => unfold require_candidate
      | |- traced_at tidies (create_node _) _ => unfold create_node
      | |- traced_at tidies (create_port _ _ _ _ _) _ => unfold create_port
      | |- traced_at tidies (freeze_edge _ _) _ => unfold freeze_edge
      | |- traced_at tidies (mint_capability _ _ _) _ => unfold mint_capability
      | |- traced_at tidies (approve_rewrite _ _ _) _ => unfold approve_rewrite
      | |- traced_at tidies (freeze_node _ _) _ => unfold freeze_node
      | |- traced_at tidies (revoke_capability _) _ => unfold revoke_capability
      | |- traced_at tidies (propose_edge _ _ _ _ _ _ _ _ _) _ => apply propose_edge_tidy
      | |- traced_at tidies (activate_edge _ _ _ _) _ => apply activate_edge_tidy
      | |- traced_at tidies (use_edge _ _) _ => apply use_edge_tidy
      | |- traced_at tidies (heartbeat_process _) _ => apply heartbeat_process_tidy
      | |- traced_at tidies (start_process _ _ _ _ _ _ _ _ _) _ => apply start_process_tidy
      | |- traced_at tidies (advance_time _) _ => apply advance_time_tidy
      | |- traced_at tidies (delegate _ _ _ _) _ => apply delegate_tidy
      | |- traced_at tidies (select_route _ _) _ => apply select_route_tidy
      | |- traced_at tidies (record_outcome _ _ _ _ _ _ _) _ => by apply record_outcome_tidy
      | |- traced_at tidies (score_participant _ _ _ _ _) _ => apply score_participant_tidy
      | |- traced_at tidies (select_winner _ _) _ => apply select_winner_tidy
      | |- traced_at tidies (start_protocol_simulation _ _ _ _ _ _ _) _ => apply start_protocol_simulation_tidy
      | |- traced_at tidies (start_review_loop _ _ _ _ _ _ _) _ => apply start_review_loop_tidy
      | |- traced_at tidies (emit_review_finding _ _ _ _ _ _ _) _ => apply emit_review_finding_tidy
      | |- traced_at tidies (propose_fix_from_finding _ _ _ _) _ => apply propose_fix_tidy
      | |- traced_at tidies (record_protocol_episode _ _ _ _) _ => apply record_protocol_episode_tidy
      | |- traced_at tidies (preview_delete _) _ => apply preview_delete_tidy
      | |- traced_at tidies (emit_signal _ _ _) _ => by apply emit_signal_tidy
      | |- traced_at tidies (propose_rewrite _ _ _) _ => by apply propose_rewrite_tidy
      end ].

Lemma step_effect_tidy secret policies step : clean (JObj (step_object step)) →
  traced tidies (step_effect secret policies step).
Proof. intros H. destruct step; cbn [step_effect step_object] in *; solve_traced effect_leaf. Qed.

Lemma run_steps_tidy secret policies i steps : Forall (λ step, clean (JObj (step_object step))) steps →
  traced tidies (run_steps secret policies i steps).
Proof.
  intros H. revert i. induction H as [|step rest Hstep _ IH]; intros i s; cbn [run_steps]; [apply traced_ret, _|].
  apply traced_bind; [apply _| |].
  - apply traced_bind; [apply _|by apply step_effect_tidy|]. intros r s'. apply traced_ret, _.
  - intros r s1. apply traced_bind; [apply _|apply IH|]. intros rs s2. apply traced_ret, _.
Qed.

Lemma build_graph_tidy ck : traced tidies (build_graph ck).
Proof.
  unfold build_graph, port_from_spec, capability_from_spec, _propose_edge_from_spec.
  solve_traced effect_leaf.
Qed.

Lemma simulate_tidy secret validate spec t r s : keeps_objects validate →
  simulate secret validate spec (new_state t) = (Ok r, s) → tidy s.
Proof.
  intros Hk (ck & s1 & H1 & H2 & H3 & _)%simulate_parts.
  apply (traced_run (R := tidies) _ _ _ _ (run_steps_tidy _ _ _ _ (accepted_steps_clean _ _ _ Hk H1)) H3).
  apply (traced_run (R := tidies) _ _ _ _ (build_graph_tidy ck) H2), tidy_new.
Qed.

(** C39: a custom simulation with a result only proposes, whatever its specification: its trace
holds no event that applies a rewrite or a deletion and no flag or grant of an active mutation at
any depth, no rewrite of its graph is applied, and no credential is held. *)
Theorem simulation_proposal_only secret validate spec r s : keeps_objects validate →
  run_custom_kernel_simulation secret validate spec = (Ok r, s) →
  _contains_active_apply (JList (map JObj (tr_events (trace_contract r)))) = false
  ∧ Forall (λ e, event_type e ≠ "rewrite.applied" ∧ event_type e ≠ "delete.applied") (ledger s)
  ∧ Forall (λ row, truthy (jget row.2 "applied") = false) (rewrites s)
  ∧ credentials s = ∅.
Proof.
  destruct spec as [| | | | | |spec]; try done. intros Hk Hrun.
  destruct (simulate_tidy _ _ _ _ _ _ Hk Hrun) as [_ Hev _ Hrw Hcred].
  destruct (simulate_parts _ _ _ _ _ _ Hrun) as (ck & _ & _ & _ & _ & Hc).
  destruct (conclude_inv _ _ _ _ _ Hc) as (re & rows & inv & _ & _ & _ & ->). cbn [tr_events trace_of].
  split_and!; [|eapply Forall_impl; [exact Hev|]; by intros e (_ & ?)|done|done].
  unfold _contains_active_apply. assert (clean (JList (map JObj (map event_dump (ledger s))))) as ->; [|done].
  apply clean_list, Forall_map, Forall_map. eapply Forall_impl; [exact Hev|]. by intros e (? & _).
Qed.

(** * A concrete simulation *)

Definition sample_body (d : jobject) : jobject :=
  match jget d "payload" with JObj b => b | _ => [] end.

(** A validation that knows three kinds of steps. *)
Definition sample_step (row : json) : option KernelStepSpec :=
  match row with
  | JObj d =>
      let text k := py_str (jget d k) in
      if text "type" =s? "use_capability" then
        Some (UseCapabilityStep (text "capability_id") (text "action") (text "resource") 0)
      else if text "type" =s? "emit_signal" then
        Some (EmitSignalStep (text "node_id") (text "signal_type") (sample_body d))
      else if text "type" =s? "propose_rewrite" then
        Some (ProposeRewriteStep None (Some (text "rewrite_id")) (text "target") (sample_body d))
      else None
  | _ => None
  end.

Definition sample_validate (rows : list json) : list KernelStepSpec + list validation_error :=
  match mapM sample_step rows with
  | Some steps => inl steps
  | None => inr [mkValidationError ["type"] "unknown step"]
  end.

Lemma sample_body_within (d : jobject) :
  sample_body d = [] ∨ within "payload" (JObj (sample_body d)) (JObj d).
Proof.
  unfold sample_body, jget. destruct (d !! "payload") as [[| | | | | |b]|] eqn:Eb; cbn; auto.
  right. by apply within_here, dict_lookup_elem.
Qed.

Lemma sample_keeps_objects : keeps_objects sample_validate.
Proof.
  intros rows steps step H Hin. unfold sample_validate in H.
  destruct (mapM sample_step rows) as [l|] eqn:E; [|done]. injection H as ->.
  apply mapM_Some_1 in E. apply list_elem_of_lookup in Hin as [i Hi].
  destruct (Forall2_lookup_r _ _ _ _ _ E Hi) as (row & Hrow & Hs). destruct row as [| | | | | |d]; try done.
  assert (sample_body d = [] ∨ ∃ k row, row ∈ rows ∧ within k (JObj (sample_body d)) row) as Hbody.
  { destruct (sample_body_within d) as [?|?]; [by left|right]. exists "payload", (JObj d).
    split; [by eapply list_elem_of_lookup_2|done]. }
  unfold sample_step in Hs. repeat case_match; simplify_eq; cbn [step_object]; auto.
Qed.

Definition sample_parts : jobject :=
  [("title", JStr "Demo Run"); ("actors", JList [JObj [("id", JStr "a")]; JObj [("id", JStr "b")]]);
   ("ports", JList [JObj [("node_id", JStr "a"); ("id", JStr "out")];
                    JObj [("node_id", JStr "b"); ("id", JStr "in:x")]]);
   ("capabilities",
     JList [JObj [("id", JStr "c"); ("owner", JStr "a"); ("actions", JList [JStr "call"]);
                  ("resources", JList [JStr "b:in:x"; JStr "res"]); ("budget", JInt 5)]]);
   ("edges",
     JList [JObj [("id", JStr "e"); ("from", JObj [("node_id", JStr "a"); ("port_id", JStr "out")]);
                  ("to", JObj [("node_id", JStr "b"); ("port_id", JStr "in:x")]);
                  ("capability_id", JStr "c")]])].

Definition sample_spec : json :=
  JObj (sample_parts ++
    [("steps", JList [
       JObj [("type", JStr "use_capability"); ("capability_id", JStr "c"); ("action", JStr "call");
             ("resource", JStr "res")];
       JObj [("kind", JStr "emit_signal"); ("node_id", JStr "a"); ("signal_type", JStr "cost");
             ("payload", JObj [("usd", JInt 3)])];
       JObj [("type", JStr "propose_rewrite"); ("rewrite_id", JStr "rw"); ("target", JStr "b");
             ("payload", JObj [("note", JStr "smaller")])]])]).

(** What is shown of a run. *)
Definition shown (run : res CustomSimulationResult * GraphSimState) :
    exc + (bool * list (string * bool) * bool) :=
  match run.1 with
  | Ok r => let t := trace_contract r in
            inr (tr_passed t, map (λ i, (ir_invariant_id i, ir_passed i)) (tr_invariant_results t), tr_replay_passed t)
  | Raise e => inl e
  end.

Definition sample_run := run_custom_kernel_simulation "k" sample_validate sample_spec.

Lemma sample_shown :
  shown sample_run = inr (true,
    [("replay_deterministic", true); ("no_active_apply", true); ("no_violations", true)], true).
Proof. vm_compute. reflexivity. Qed.

Lemma sample_loadable : Forall loadable (ledger sample_run.2).
Proof. apply (bool_decide_unpack (Forall loadable (ledger sample_run.2))). vm_compute. exact I. Qed.

Lemma shown_ok run x : shown run = inr x →
  ∃ r, run = (Ok r, run.2) ∧ tr_replay_passed (trace_contract r) = x.2.
Proof. unfold shown. destruct run as [[r|e] s]; cbn; [|done]. intros [= <-]. by exists r. Qed.

Lemma replay_passed_iff_witness : ∃ r s, sample_run = (Ok r, s) ∧ reproducible s.
Proof.
  destruct (shown_ok _ _ sample_shown) as (r & Hrun & Hr). exists r, sample_run.2. split; [exact Hrun|].
  apply (replay_passed_iff _ _ _ _ _ Hrun sample_loadable), Hr.
Defined.

Lemma simulation_proposal_only_witness : ∃ r s, sample_run = (Ok r, s)
  ∧ _contains_active_apply (JList (map JObj (tr_events (trace_contract r)))) = false
  ∧ credentials s = ∅.
Proof.
  destruct (shown_ok _ _ sample_shown) as (r & Hrun & _). exists r, sample_run.2. split; [exact Hrun|].
  destruct (simulation_proposal_only _ _ _ _ _ sample_keeps_objects Hrun) as (H1 & _ & _ & H2).
  split; assumption.
Defined.

(** * Where a run surprises *)

(** The runs of the sample's graph with steps already validated. *)
Definition run_with (steps : list KernelStepSpec) (spec : jobject) :=
  run_custom_kernel_simulation "k" (λ _, inl steps) (JObj spec).

(** A use of a capability that costs something leaves the replay check failed, and so the
simulation: the spending is in no event. *)
Lemma paid_use_fails_replay :
  shown (run_with [UseCapabilityStep "c" "call" "res" 2] sample_parts) = inr (false,
    [("replay_deterministic", false); ("no_active_apply", true); ("no_violations", true)], false).
Proof. vm_compute. reflexivity. Qed.

(** Freezing an edge that does not exist makes a row without a type; using it raises. *)
Lemma frozen_ghost_edge_raises :
  shown (run_with [FreezeEdgeStep None (Some "zz") "x"; ActivateEdgeStep None (Some "zz") [] None] sample_parts)
  = inl (KeyError "edge_type").
Proof. vm_compute. reflexivity. Qed.

(** The invariant on the last decision raises when there is no step. *)
Lemma expected_decision_raises :
  shown (run_with [] (sample_parts ++
    [("invariants", JList [JObj [("id", JStr "expected_decision"); ("decision", JStr "allow")]])]))
  = inl IndexError.
Proof. vm_compute. reflexivity. Qed.

Definition sample_skill : jobject :=
  [("actors", JList [JObj [("id", JStr "a")]]);
   ("capabilities",
     JList [JObj [("id", JStr "c"); ("owner", JStr "a"); ("actions", JList [JStr "call"]);
                  ("resources", JList [JStr "skill:k"]); ("budget", JInt 5)]])].

(** A cost that is not a number raises when routes are compared. *)
Lemma text_cost_raises :
  shown (run_with [EmitSignalStep "a" "cost" [("usd", JStr "abc")]; SelectRouteStep "k" [("a", "c")]] sample_skill)
  = inl (ValueError "could not convert string to float").
Proof. vm_compute. reflexivity. Qed.

Definition sample_edge (id : string) : json :=
  JObj [("id", JStr id); ("edge_id", JStr "same");
        ("from", JObj [("node_id", JStr "a"); ("port_id", JStr "out")]);
        ("to", JObj [("node_id", JStr "b"); ("port_id", JStr "in:x")])].

(** Duplicate edges are looked for under [id], but edges are made under [edge_id]. *)
Lemma duplicate_edge_unnoticed :
  let run := run_with [] (delete "edges" sample_parts ++ [("edges", JList [sample_edge "e1"; sample_edge "e2"])]) in
  is_ok run.1 = true ∧ keys (edges run.2) = ["same"].
Proof. vm_compute. done. Qed.
