(* ===== verification/ProposalTypes.v ===== *)
(** The contract of self-improvement proposals: the models of
    graph_kernel/proposals.py, and the bounds of a manifest.

    One record per model, with the fields of the class; the values of a
    [Literal] are an inductive type, and [*_name] is the text of each.  [stable_id]
    is the id a proposal has when it brings none.  The last part is what a
    manifest lets an agent reach, and what another one adds to it
    ([_manifest_bounds], [_added_bounds] and their helpers). *)
From S2P Require Import Prelude PyStr PyDict PyFloat PyJson PyHash.
Open Scope Z_scope.

(** * The values of the literals *)

Inductive RiskClass : Set := RLow | RMedium | RHigh | RDangerous.
Inductive Substrate : Set := SyntheticManifest | DeployedCode | SPrompt | SMemory | SPolicy | SRoute.
Inductive ProposalStatus : Set :=
  | ShapeInvalid | PolicyDenied | KillSwitchBlocked | AwaitingApproval | AwaitingReview
  | AwaitingCanary | Approved.
Inductive ReviewStatus : Set := RvMissing | RvPassed | RvWarning | RvCritical | RvFailed.
Inductive ProofStatus : Set := PfMissing | PfPassed | PfFailed.

#[export] Instance risk_eq_dec : EqDecision RiskClass.
Proof. solve_decision. Defined.
#[export] Instance substrate_eq_dec : EqDecision Substrate.
Proof. solve_decision. Defined.
#[export] Instance status_eq_dec : EqDecision ProposalStatus.
Proof. solve_decision. Defined.
#[export] Instance review_eq_dec : EqDecision ReviewStatus.
Proof. solve_decision. Defined.
#[export] Instance proof_eq_dec : EqDecision ProofStatus.
Proof. solve_decision. Defined.

Definition risk_name (r : RiskClass) : string :=
  match r with RLow => "low" | RMedium => "medium" | RHigh => "high" | RDangerous => "dangerous" end.

Definition substrate_name (x : Substrate) : string :=
  match x with
  | SyntheticManifest => "synthetic_manifest" | DeployedCode => "deployed_code" | SPrompt => "prompt"
  | SMemory => "memory" | SPolicy => "policy" | SRoute => "route"
  end.

Definition status_name (x : ProposalStatus) : string :=
  match x with
  | ShapeInvalid => "shape_invalid" | PolicyDenied => "policy_denied"
  | KillSwitchBlocked => "kill_switch_blocked" | AwaitingApproval => "awaiting_approval"
  | AwaitingReview => "awaiting_review" | AwaitingCanary => "awaiting_canary" | Approved => "approved"
  end.

Definition review_name (x : ReviewStatus) : string :=
  match x with
  | RvMissing => "missing" | RvPassed => "passed" | RvWarning => "warning" | RvCritical => "critical"
  | RvFailed => "failed"
  end.

Definition proof_name (x : ProofStatus) : string :=
  match x with PfMissing => "missing" | PfPassed => "passed" | PfFailed => "failed" end.

(** * Proposals, policies, decisions *)

Record SelfImprovementProposal : Type := mkProposal {
  proposal_id : option string;
  proposal_type : string;
  substrate : Substrate;
  target_refs : list string;
  requested_capability : jobject;
  evidence_refs : list jobject;
  expected_effect : string;
  risk_class : RiskClass;
  budget_impact_cents : Z;
  rollback_plan : option string;
  autonomy_tier : Z;
  owner_approved : bool;
  review_status : ReviewStatus;
  proof_status : ProofStatus;
  canary_plan : option string;
  kill_switch_enabled : bool;
  scope_widening : bool;
  policy_loosen : bool;
  direct_apply_requested : bool;
}.

(** [model_dump(exclude={"proposal_id"}, mode="json")]. *)
Definition proposal_dump (p : SelfImprovementProposal) : jobject := [
  ("proposal_type", JStr (proposal_type p)); ("substrate", JStr (substrate_name (substrate p)));
  ("target_refs", jstrs (target_refs p)); ("requested_capability", JObj (requested_capability p));
  ("evidence_refs", JList (map JObj (evidence_refs p))); ("expected_effect", JStr (expected_effect p));
  ("risk_class", JStr (risk_name (risk_class p))); ("budget_impact_cents", JInt (budget_impact_cents p));
  ("rollback_plan", jopt (rollback_plan p)); ("autonomy_tier", JInt (autonomy_tier p));
  ("owner_approved", JBool (owner_approved p)); ("review_status", JStr (review_name (review_status p)));
  ("proof_status", JStr (proof_name (proof_status p))); ("canary_plan", jopt (canary_plan p));
  ("kill_switch_enabled", JBool (kill_switch_enabled p)); ("scope_widening", JBool (scope_widening p));
  ("policy_loosen", JBool (policy_loosen p)); ("direct_apply_requested", JBool (direct_apply_requested p))
].

(** [prefix-] and the first 16 digits of the digest of the canonical text. *)
Definition digest_id (prefix : string) (payload : json) : string :=
  prefix +:+ "-" +:+ str_take 16 (sha256_hex (canonical_json payload)).

(** The truth of an optional text. *)
Definition given (o : option string) : bool := match o with Some s => negb (s =s? "") | None => false end.

Definition stable_id (p : SelfImprovementProposal) : string :=
  if given (proposal_id p) then default "" (proposal_id p) else digest_id "sip" (JObj (proposal_dump p)).

Record ProposalPolicy : Type := mkProposalPolicy {
  kill_switch_active : bool;
  max_autonomy_tier : Z;
  max_budget_impact_cents : Z;
  require_owner_approval_for : list RiskClass;
  require_review_for : list RiskClass;
  require_proof_for : list RiskClass;
  require_canary_for : list RiskClass;
}.

(** [ProposalPolicy()]. *)
Definition default_policy : ProposalPolicy :=
  mkProposalPolicy false 1 1000 [RHigh; RDangerous] [RMedium; RHigh; RDangerous] [RHigh; RDangerous]
    [RHigh; RDangerous].

Record ProposalDecision : Type := mkProposalDecision {
  decided_id : string;
  status : ProposalStatus;
  reasons : list string;
  required_gates : list string;
  control_actions : list string;
  evidence_node : jobject;
  timeline_item : jobject;
}.

(** * The candidates of the emergent operations *)

(** The fields every candidate has. *)
Record Gates : Type := mkGates {
  g_proposal_id : option string;
  g_evidence_refs : list jobject;
  g_owner_approved : bool;
  g_review_status : ReviewStatus;
  g_proof_status : ProofStatus;
  g_canary_plan : option string;
  g_rollback_plan : option string;
  g_operator_disable_available : bool;
  g_budget_impact_cents : Z;
  g_direct_apply_requested : bool;
}.

Record CrystallizationCandidate : Type := mkCrystallization {
  cr_gates : Gates;
  source_manifest : jobject;
  proposed_manifest : jobject;
  source_process_refs : list string;
  observed_success_count : Z;
  min_success_count : Z;
  target_agent_name : option string;
}.

Record EvaporationCandidate : Type := mkEvaporation {
  ev_gates : Gates;
  ev_target_refs : list string;
  dependent_process_refs : list string;
  dependent_grant_refs : list string;
  dependent_memory_refs : list string;
  dependent_user_refs : list string;
}.

Inductive memory_operation : Set := MWrite | MSummarize | MRedact | MPurge | MPropagate.
#[export] Instance memory_operation_eq_dec : EqDecision memory_operation.
Proof. solve_decision. Defined.

Definition memory_operation_name (o : memory_operation) : string :=
  match o with
  | MWrite => "write" | MSummarize => "summarize" | MRedact => "redact" | MPurge => "purge"
  | MPropagate => "propagate"
  end.

Record CollectiveMemoryCandidate : Type := mkCollectiveMemory {
  cm_gates : Gates;
  cm_operation : memory_operation;
  cm_namespace : string;
  key_refs : list string;
  source_agent_ref : option string;
  target_agent_refs : list string;
  source_memory_refs : list string;
  namespace_authority_refs : list string;
  namespace_authority_granted : bool;
  retention_policy_ref : option string;
  retention_check_passed : bool;
  legal_hold : bool;
  redaction_proof_ref : option string;
  redaction_proof_passed : bool;
  stale_memory_review_status : ReviewStatus;
  unsafe_memory_review_status : ReviewStatus;
  summary_only_projection : bool;
  cm_dossier_visible : bool;
  cm_timeline_visible : bool;
}.

Inductive evolution_operation : Set := EvBreed | EvCompare | EvCull.
#[export] Instance evolution_operation_eq_dec : EqDecision evolution_operation.
Proof. solve_decision. Defined.

Definition evolution_operation_name (o : evolution_operation) : string :=
  match o with EvBreed => "breed" | EvCompare => "compare" | EvCull => "cull" end.

Record EvolutionVariantCandidate : Type := mkEvolutionVariant {
  vr_gates : Gates;
  vr_operation : evolution_operation;
  parent_agent_ref : string;
  variant_agent_refs : list string;
  fork_trust_reset : bool;
  inherited_trust_refs : list string;
  inherited_scope_refs : list string;
  inherited_route_refs : list string;
  inherited_marketplace_refs : list string;
  variant_budget_cents : Z;
  vr_budget_ceiling_cents : Z;
  variant_review_statuses : dict ReviewStatus;
  variant_proof_statuses : dict ProofStatus;
  variant_canary_refs : list string;
  simulation_scenario_ref : option string;
  simulation_passed : bool;
  deletion_preview_ref : option string;
  tombstone_plan : option string;
}.

Inductive surface : Set := SfSource | SfManifest | SfPolicy | SfBudget | SfRoute | SfMemory.

Definition surface_name (x : surface) : string :=
  match x with
  | SfSource => "source" | SfManifest => "manifest" | SfPolicy => "policy" | SfBudget => "budget"
  | SfRoute => "route" | SfMemory => "memory"
  end.

Record AdversarialReviewLoopCandidate : Type := mkAdversarialReview {
  ar_gates : Gates;
  reviewer_agent_refs : list string;
  ar_target_refs : list string;
  finding_refs : list string;
  critical_finding_refs : list string;
  proposed_fix_refs : list string;
  findings_only : bool;
  reviewer_can_mutate : bool;
  evaluator_can_apply_changes : bool;
  direct_apply_surfaces : list surface;
  code_editor_narrowed_authority : bool;
  promotion_freeze_available : bool;
  loop_budget_cents : Z;
  ar_budget_ceiling_cents : Z;
  ttl_seconds : Z;
  max_iterations : Z;
  all_proposed_fixes_enter_proposals : bool;
  kill_switch_available : bool;
  ar_dossier_visible : bool;
  ar_timeline_visible : bool;
}.

Inductive market_operation : Set := MkCreateSupply | MkPromote | MkRetire | MkPrice | MkRoute.

Definition market_operation_name (o : market_operation) : string :=
  match o with
  | MkCreateSupply => "create_supply" | MkPromote => "promote" | MkRetire => "retire"
  | MkPrice => "price" | MkRoute => "route"
  end.

Record AutopoieticMarketplaceCandidate : Type := mkMarketplace {
  mk_gates : Gates;
  mk_operation : market_operation;
  mk_target_refs : list string;
  demand_signal_refs : list string;
  revenue_signal_refs : list string;
  taste_signal_refs : list string;
  rank_signal_refs : list string;
  e1_gate_passed : bool;
  e2_gate_passed : bool;
  e3_gate_passed : bool;
  e4_gate_passed : bool;
  prerequisite_gate_refs : list string;
  market_signals_create_authority : bool;
  market_signals_mutate_policy : bool;
  market_signals_delete_agents : bool;
  market_signals_move_money : bool;
  proposed_authority_refs : list string;
  proposed_policy_mutation_refs : list string;
  proposed_deletion_refs : list string;
  proposed_money_movement_refs : list string;
  platform_approved : bool;
}.

(** * Bounds *)

(** * Reading a manifest *)

Definition _mapping_or_empty (value : json) : jobject := match value with JObj d => d | _ => [] end.
Definition _list_or_empty (value : json) : list json := match value with JList l => l | _ => [] end.

Definition _string_or_none (value : json) : option string :=
  let cleaned := strip (py_str (py_or value (JStr ""))) in
  if cleaned =s? "" then None else Some cleaned.

Definition _string_list (value : json) : list string :=
  match value with
  | JStr _ => omap _string_or_none [value]
  | JList raw => omap _string_or_none raw
  | _ => []
  end.

Definition _dependency_ref (item : jobject) : option string :=
  match _string_or_none (jget item "name") with
  | Some name => Some ("agent:" +:+ name)
  | None => match _string_or_none (jget item "tag") with
            | Some tag => Some ("tag:" +:+ tag)
            | None => None
            end
  end.

(** The parts of a manifest the bounds are read from. *)
Definition sub_agents (manifest : jobject) : list jobject :=
  let composition := _mapping_or_empty (jget manifest "composition") in
  omap (λ item, match item with JObj d => Some d | _ => None end)
    (_list_or_empty (py_or (py_or (jget composition "sub_agents") (jget composition "agents"))
                           (jget composition "children"))).

Definition dep_name (item : jobject) : string := default "dependency" (_dependency_ref item).

Definition item_skills (item : jobject) : list string :=
  map (λ skill, dep_name item +:+ ":skill:" +:+ skill) (_string_list (jget item "skills")).

Definition item_args (item : jobject) : list string :=
  map (λ key, dep_name item +:+ ":arg:" +:+ key) (keys (_mapping_or_empty (jget item "default_args"))).

Definition memory_bounds (manifest : jobject) : list string :=
  let memory := _mapping_or_empty (jget manifest "memory") in
  map (λ tier, "tier:" +:+ tier) (_string_list (jget memory "tiers"))
  ++ omap (λ key, (λ value, key +:+ ":" +:+ value) <$> _string_or_none (jget memory key))
       ["namespace"; "scope"; "retention"].

Definition tool_bounds (manifest : jobject) : list string :=
  let runtime := _mapping_or_empty (jget manifest "runtime") in
  map (λ tool, "tool:" +:+ tool)
    (_string_list (jget manifest "tools") ++ _string_list (jget runtime "tools_used")).

Definition grant_bounds (manifest : jobject) : list string :=
  let runtime := _mapping_or_empty (jget manifest "runtime") in
  let workspace := _mapping_or_empty (jget manifest "workspace_access") in
  (if bool_decide (jget runtime "wants_cp_jwt" = JBool true) then ["cp_jwt"] else [])
  ++ map (λ mode, "workspace_mode:" +:+ mode) (_string_list (jget workspace "allowed_modes"))
  ++ map (λ pattern, "allow:" +:+ pattern) (_string_list (jget workspace "grant_allow_patterns"))
  ++ map (λ pattern, "write:" +:+ pattern) (_string_list (jget workspace "grant_write_prefixes")).

(** [sorted(set(l))]. *)
Definition sorted_list (l : list string) : list string := sorted_set (list_to_set l).

Definition _manifest_bounds (manifest : jobject) : dict (list string) :=
  let items := sub_agents manifest in [
    ("dependencies", sorted_list (omap _dependency_ref items));
    ("skills", sorted_list (concat (map item_skills items)));
    ("default_args", sorted_list (concat (map item_args items)));
    ("memory", sorted_list (memory_bounds manifest));
    ("tools", sorted_list (tool_bounds manifest));
    ("grants", sorted_list (grant_bounds manifest))
  ].

Definition added_values (source : dict (list string)) (key : string) (proposed_values : list string) : list string :=
  sorted_set (list_to_set proposed_values ∖ list_to_set (default [] (source !! key))).

Definition _added_bounds (source proposed : dict (list string)) : dict (list string) :=
  omap (λ p, match added_values source p.1 p.2 with [] => None | added => Some (p.1, added) end) proposed.

Definition bounds_json (bounds : dict (list string)) : json := JObj (dict_map jstrs bounds).

Definition _manifest_version_id (manifest : jobject) : string := digest_id "mv" (JObj manifest).

(** * What the comparison says *)

Lemma elem_of_sorted_list x l : x ∈ sorted_list l ↔ x ∈ l.
Proof. unfold sorted_list. rewrite elem_of_sorted_set. set_solver. Qed.

Lemma added_values_nil source key values :
  added_values source key values = [] ↔ ∀ x, x ∈ values → x ∈ default [] (source !! key).
Proof.
  unfold added_values. split.
  - intros H x Hx. destruct (decide (x ∈ default [] (source !! key))) as [|Hn]; [done|].
    assert (x ∈ sorted_set (list_to_set values ∖ list_to_set (default [] (source !! key))) ) as Hin.
    { apply elem_of_sorted_set. set_solver. }
    rewrite H in Hin. by apply not_elem_of_nil in Hin.
  - intros H. destruct (sorted_set _) as [|x l] eqn:E; [done|].
    assert (x ∈ sorted_set (list_to_set values ∖ list_to_set (default [] (source !! key)))) as Hin
      by (rewrite E; by left).
    apply elem_of_sorted_set, elem_of_difference in Hin as [H1 H2]. set_solver.
Qed.

(** Nothing is added iff every bound is one of the source's. *)
Lemma added_bounds_nil source proposed :
  _added_bounds source proposed = [] ↔
  ∀ key values, (key, values) ∈ proposed → ∀ x, x ∈ values → x ∈ default [] (source !! key).
Proof.
  unfold _added_bounds. induction proposed as [|[k vs] l IH]; [split; [set_solver|done]|].
  cbn [omap list_omap fst snd]. destruct (added_values source k vs) as [|a as_] eqn:E.
  - pose proof (proj1 (added_values_nil _ _ _) E) as Hall. rewrite IH. split.
    + intros H key values [[= -> ->]|Hin]%elem_of_cons; [exact Hall|by apply H].
    + intros H key values Hin. apply H. by right.
  - split; [done|]. intros H. assert (added_values source k vs = []) as E'; [|congruence].
    apply added_values_nil, H. by left.
Qed.
