(* ===== verification/Proposals.v ===== *)
(** The gates of self-improvement proposals ([evaluate_*] of
    graph_kernel/proposals.py).

    [evaluate_self_improvement_proposal] walks through the gates of a proposal;
    each of the six emergent operations makes a proposal of its candidate, may
    refuse it for reasons of its own ([*_blocking_reasons]), and attaches a
    redacted preview to the evidence.  [candidate] is the sum of the models of
    the operations and [evaluate] their evaluation, so that a statement on all
    of them is one statement. *)
From S2P Require Import Prelude PyStr PyDict PyFloat PyJson ProposalTypes.
Open Scope Z_scope.

(** * Decisions *)

Definition secret_parts : list string := ["token"; "secret"; "jwt"; "credential"; "api_key"].
Definition secret_prefixes : list string := ["sk-"; "gitea_"; "eyj"].

Definition sensitive_key (key : string) : bool := existsb (λ part, contains part (lower key)) secret_parts.
Definition sensitive_text (s : string) : bool := existsb (startswith (lower s)) secret_prefixes.

Fixpoint _redact (value : json) : json :=
  match value with
  | JObj d => JObj (map (λ p, (p.1, if sensitive_key p.1 then JStr "[redacted]" else _redact p.2)) d)
  | JList l => JList (map _redact l)
  | JStr s => if sensitive_text s then JStr "[redacted]" else value
  | _ => value
  end.

(** The redaction of an object, which is one again. *)
Definition redact_object (d : jobject) : jobject := _mapping_or_empty (_redact (JObj d)).

Definition _proposal_evidence_node (p : SelfImprovementProposal) (id : string) (st : ProposalStatus)
    (why gates : list string) : jobject := [
  ("id", JStr ("self_improvement_proposal:" +:+ id)); ("type", JStr "self_improvement_proposal");
  ("label", JStr (proposal_type p)); ("status", JStr (status_name st));
  ("payload", JObj (redact_object [
     ("proposal_id", JStr id); ("substrate", JStr (substrate_name (substrate p)));
     ("target_refs", jstrs (target_refs p)); ("risk_class", JStr (risk_name (risk_class p)));
     ("expected_effect", JStr (expected_effect p));
     ("requested_capability", JObj (requested_capability p));
     ("evidence_refs", JList (map JObj (evidence_refs p)));
     ("budget_impact_cents", JInt (budget_impact_cents p));
     ("rollback_plan_present", JBool (given (rollback_plan p)));
     ("required_gates", jstrs gates); ("reasons", jstrs why);
     ("grants_authority", JBool false); ("active_apply_enabled", JBool false)]))
].

Definition _decision (p : SelfImprovementProposal) (id : string) (st : ProposalStatus)
    (why gates actions : list string) : ProposalDecision := {|
  decided_id := id; status := st; reasons := why; required_gates := gates; control_actions := actions;
  evidence_node := _proposal_evidence_node p id st why gates;
  timeline_item := [
    ("id", JStr ("timeline:self_improvement_proposal:" +:+ id)); ("lane", JStr "control");
    ("node_id", jget (_proposal_evidence_node p id st why gates) "id");
    ("type", JStr "self_improvement_proposal"); ("status", JStr (status_name st))] |}.

(** * The gates of a proposal *)

Definition risk_in (r : RiskClass) (l : list RiskClass) : bool := bool_decide (r ∈ l).

(** [if b: reasons.append(reason)]. *)
Definition when (b : bool) (reason : string) : list string := if b then [reason] else [].

(** What no approval can make up for. *)
Definition denial_reasons (p : SelfImprovementProposal) (policy : ProposalPolicy) : list string :=
  when (direct_apply_requested p) "direct_agent_apply_forbidden"
  ++ when (scope_widening p) "self_scope_widening_forbidden"
  ++ when (policy_loosen p) "self_policy_loosen_forbidden"
  ++ when (max_autonomy_tier policy <? autonomy_tier p) "autonomy_tier_exceeds_policy"
  ++ when (max_budget_impact_cents policy <? budget_impact_cents p) "budget_impact_exceeds_owner_ceiling".

Definition all_controls : list string := ["disable_mutation"; "freeze_node"; "stop_process"; "revoke_grant"].
Definition denial_controls : list string := ["disable_mutation"; "freeze_node"; "require_approval"].

Section gates.
Context (p : SelfImprovementProposal) (policy : ProposalPolicy).
Let decide_as := _decision p (stable_id p).

Definition canary_gate (gates : list string) : ProposalDecision :=
  if risk_in (risk_class p) (require_canary_for policy) then
    let gates := gates ++ ["canary"] in
    if negb (given (canary_plan p)) then
      decide_as AwaitingCanary ["canary_required"] gates ["require_approval"]
    else decide_as Approved ["all_required_gates_satisfied"] gates all_controls
  else decide_as Approved ["all_required_gates_satisfied"] gates all_controls.

Definition proof_gate (gates : list string) : ProposalDecision :=
  if risk_in (risk_class p) (require_proof_for policy) then
    let gates := gates ++ ["proof"] in
    if negb (bool_decide (proof_status p = PfPassed)) then
      decide_as AwaitingReview ["proof_required"] gates ["require_approval"]
    else canary_gate gates
  else canary_gate gates.

Definition review_gate (gates : list string) : ProposalDecision :=
  if risk_in (risk_class p) (require_review_for policy) then
    let gates := gates ++ ["review"] in
    if bool_decide (review_status p = RvCritical ∨ review_status p = RvFailed) then
      decide_as PolicyDenied ["review_blocks_proposal"] gates ["freeze_node"; "require_approval"]
    else if negb (bool_decide (review_status p = RvPassed)) then
      decide_as AwaitingReview ["review_required"] gates ["require_approval"]
    else proof_gate gates
  else proof_gate gates.

Definition owner_gate (gates : list string) : ProposalDecision :=
  if risk_in (risk_class p) (require_owner_approval_for policy) then
    let gates := gates ++ ["owner_approval"] in
    if negb (owner_approved p) then
      decide_as AwaitingApproval ["owner_approval_required"] gates ["require_approval"]
    else review_gate gates
  else review_gate gates.

Definition evaluate_self_improvement_proposal : ProposalDecision :=
  if bool_decide (target_refs p = []) || bool_decide (requested_capability p = []) then
    decide_as ShapeInvalid ["missing_target_or_capability"] [] ["require_approval"]
  else if kill_switch_active policy || negb (kill_switch_enabled p) then
    decide_as KillSwitchBlocked ["kill_switch_active_or_missing"] ["kill_switch_clearance"] all_controls
  else match denial_reasons p policy with
  | _ :: _ => decide_as PolicyDenied (denial_reasons p policy) [] denial_controls
  | [] =>
      if risk_in (risk_class p) [RHigh; RDangerous] && negb (given (rollback_plan p)) then
        decide_as ShapeInvalid ["missing_rollback_plan"] ["rollback_plan"] ["require_approval"]
      else owner_gate []
  end.
End gates.

(** * What the evaluations of candidates share *)

(** [for value in values: if value in seen: continue ...]. *)
Definition _dedupe (values : list string) : list string := foldl (flip add_once) [] values.

Definition _stable_operation_id (prefix : string) (payload : jobject) : string := digest_id prefix (JObj payload).

(** The proposal of a candidate: its gates, and the defaults of the class. *)
Definition proposal_of (g : Gates) (ty : string) (sub : Substrate) (targets : list string)
    (capability : jobject) (evidence : list jobject) (effect : string) : SelfImprovementProposal := {|
  proposal_id := g_proposal_id g; proposal_type := ty; substrate := sub; target_refs := targets;
  requested_capability := capability; evidence_refs := evidence; expected_effect := effect;
  risk_class := RHigh; budget_impact_cents := g_budget_impact_cents g; rollback_plan := g_rollback_plan g;
  autonomy_tier := 0; owner_approved := g_owner_approved g; review_status := g_review_status g;
  proof_status := g_proof_status g; canary_plan := g_canary_plan g; kill_switch_enabled := true;
  scope_widening := false; policy_loosen := false;
  direct_apply_requested := g_direct_apply_requested g |}.

(** [policy or ProposalPolicy()]. *)
Definition policy_or (policy : option ProposalPolicy) : ProposalPolicy := default default_policy policy.

Definition deny (p : SelfImprovementProposal) (blocking : list string) : ProposalDecision :=
  _decision p (stable_id p) PolicyDenied blocking [] denial_controls.

(** Blocked for its own reasons, or evaluated as a proposal. *)
Definition blocked_or (p : SelfImprovementProposal) (blocking : list string) (policy : option ProposalPolicy) :
    ProposalDecision :=
  match blocking with
  | [] => evaluate_self_improvement_proposal p (policy_or policy)
  | _ => deny p blocking
  end.

Definition _attach_emergent_payload (d : ProposalDecision) (key : string) (value : jobject) : ProposalDecision :=
  let node := evidence_node d in
  let payload := _mapping_or_empty (jget_or node "payload" (JObj [])) in
  let payload := <[key := _redact (JObj value)]> payload in
  let payload := <["active_apply_enabled" := JBool false]> (<["grants_authority" := JBool false]> payload) in
  {| decided_id := decided_id d; status := status d; reasons := reasons d; required_gates := required_gates d;
     control_actions := control_actions d; evidence_node := <["payload" := JObj payload]> node;
     timeline_item := <["lane" := JStr "control"]> (timeline_item d) |}.

Definition proposal_markers : jobject := [("proposal_only", JBool true); ("active_apply_enabled", JBool false)].

Definition sourced (source : string) (refs : list string) : list jobject :=
  map (λ ref, [("source", JStr source); ("ref", JStr ref)]) refs.

(** * Candidates *)

(** * Crystallization *)

Definition crystallization_proposal (c : CrystallizationCandidate) : SelfImprovementProposal :=
  let manifest_ref := "manifest:" +:+ _manifest_version_id (proposed_manifest c) in
  let agent := match target_agent_name c with
               | Some name => if name =s? "" then [] else ["agent:" +:+ name]
               | None => []
               end in
  proposal_of (cr_gates c) "crystallize_agent" SyntheticManifest
    (agent ++ manifest_ref :: source_process_refs c)
    [("actions", jstrs ["propose_crystallization"]); ("resources", jstrs [manifest_ref]);
     ("authority_bounds", bounds_json (_manifest_bounds (proposed_manifest c)))]
    (g_evidence_refs (cr_gates c) ++ sourced "source_process" (source_process_refs c))
    "convert repeated successful composition into reusable agent proposal".

Definition crystallization_added (c : CrystallizationCandidate) : dict (list string) :=
  _added_bounds (_manifest_bounds (source_manifest c)) (_manifest_bounds (proposed_manifest c)).

Definition crystallization_reasons (c : CrystallizationCandidate) : list string :=
  when (negb (bool_decide (crystallization_added c = []))) "crystallized_manifest_widens_authority"
  ++ when (negb (g_operator_disable_available (cr_gates c))) "operator_disable_missing"
  ++ when (g_direct_apply_requested (cr_gates c)) "direct_agent_apply_forbidden".

Definition evaluate_crystallization_candidate (c : CrystallizationCandidate) (policy : option ProposalPolicy) :
    ProposalDecision :=
  let p := crystallization_proposal c in
  let d := if observed_success_count c <? min_success_count c
           then _decision p (stable_id p) ShapeInvalid ["insufficient_success_evidence"]
                  ["success_repetition"] ["require_approval"]
           else blocked_or p (crystallization_reasons c) policy in
  _attach_emergent_payload d "crystallization" (proposal_markers ++ [
    ("manifest_version_id", JStr (_manifest_version_id (proposed_manifest c)));
    ("observed_success_count", JInt (observed_success_count c));
    ("min_success_count", JInt (min_success_count c));
    ("source_process_refs", jstrs (source_process_refs c));
    ("dependency_preview", JObj [
       ("source", bounds_json (_manifest_bounds (source_manifest c)));
       ("proposed", bounds_json (_manifest_bounds (proposed_manifest c)));
       ("added", bounds_json (crystallization_added c))]);
    ("stop_condition", JStr ("block if proposed manifest adds dependencies, memory, tools, " +:+
                             "or grants outside the originating process"))]).

(** * Evaporation *)

Definition evaporation_proposal (c : EvaporationCandidate) : SelfImprovementProposal :=
  proposal_of (ev_gates c) "evaporate_agent" SyntheticManifest (ev_target_refs c)
    [("actions", jstrs ["propose_evaporation"]); ("resources", jstrs (ev_target_refs c));
     ("dependent_preview_required", JBool true)]
    (g_evidence_refs (ev_gates c)) "retire low-value transient composition only after dependency preview".

Definition evaporation_reasons (c : EvaporationCandidate) : list string :=
  when (negb (g_operator_disable_available (ev_gates c))) "operator_disable_missing".

Definition evaluate_evaporation_candidate (c : EvaporationCandidate) (policy : option ProposalPolicy) :
    ProposalDecision :=
  _attach_emergent_payload (blocked_or (evaporation_proposal c) (evaporation_reasons c) policy) "evaporation"
    (proposal_markers ++ [
       ("dependent_preview", JObj [
          ("processes", jstrs (dependent_process_refs c)); ("grants", jstrs (dependent_grant_refs c));
          ("memories", jstrs (dependent_memory_refs c)); ("users", jstrs (dependent_user_refs c))]);
       ("stop_condition", JStr "block if dependents cannot be reviewed before retirement")]).

(** * Collective memory *)

Definition _memory_propagation_requested (c : CollectiveMemoryCandidate) : bool :=
  bool_decide (cm_operation c ∈ [MWrite; MPropagate]) || negb (bool_decide (target_agent_refs c = [])).

Definition _memory_operation_id (c : CollectiveMemoryCandidate) : string :=
  _stable_operation_id "mo" [
    ("operation", JStr (memory_operation_name (cm_operation c))); ("namespace", JStr (cm_namespace c));
    ("key_refs", jstrs (key_refs c)); ("source_agent_ref", jopt (source_agent_ref c));
    ("target_agent_refs", jstrs (target_agent_refs c));
    ("source_memory_refs", jstrs (source_memory_refs c))].

Definition namespace_ref (c : CollectiveMemoryCandidate) : string := "memory:" +:+ cm_namespace c.

Definition memory_refs (c : CollectiveMemoryCandidate) : list string :=
  map (λ ref, if startswith ref "memory:" then ref else namespace_ref c +:+ ":" +:+ ref) (key_refs c).

Definition _collective_memory_blocking_reasons (c : CollectiveMemoryCandidate) : list string :=
  when (negb (namespace_authority_granted c)) "memory_namespace_authority_missing"
  ++ when (negb (retention_check_passed c)) "retention_check_missing"
  ++ when (legal_hold c && bool_decide (cm_operation c = MPurge)) "legal_hold_blocks_memory_purge"
  ++ when (negb (redaction_proof_passed c)) "redaction_proof_missing"
  ++ when (negb (summary_only_projection c)) "raw_memory_payload_projection_forbidden"
  ++ (if _memory_propagation_requested c then
        when (negb (bool_decide (stale_memory_review_status c = RvPassed))) "stale_memory_review_required"
        ++ when (negb (bool_decide (unsafe_memory_review_status c = RvPassed))) "unsafe_memory_review_required"
        ++ when (bool_decide (target_agent_refs c = [])) "target_agent_required_for_memory_propagation"
      else [])
  ++ when (negb (cm_dossier_visible c) || negb (cm_timeline_visible c)) "dossier_timeline_visibility_missing"
  ++ when (negb (g_operator_disable_available (cm_gates c))) "operator_disable_missing"
  ++ when (g_direct_apply_requested (cm_gates c)) "direct_memory_apply_forbidden".

Definition memory_proposal (c : CollectiveMemoryCandidate) : SelfImprovementProposal :=
  let operation := memory_operation_name (cm_operation c) in
  let source := match source_agent_ref c with
                | Some ref => if ref =s? "" then [] else [ref]
                | None => []
                end in
  proposal_of (cm_gates c) ("collective_memory_" +:+ operation) SMemory
    (_dedupe (source ++ namespace_ref c :: ("memory_operation:" +:+ _memory_operation_id c) :: memory_refs c
              ++ source_memory_refs c ++ target_agent_refs c))
    [("actions", jstrs ["propose_memory_" +:+ operation]);
     ("resources", jstrs (_dedupe (namespace_ref c :: memory_refs c ++ source_memory_refs c)));
     ("target_agent_refs", jstrs (target_agent_refs c)); ("namespace_authority_required", JBool true);
     ("retention_check_required", JBool true); ("redaction_proof_required", JBool true);
     ("stale_unsafe_review_required", JBool (_memory_propagation_requested c));
     ("summary_only_projection_required", JBool true)]
    (g_evidence_refs (cm_gates c) ++ sourced "namespace_authority" (namespace_authority_refs c))
    "propose scoped collective memory propagation with redacted evidence".

Definition evaluate_collective_memory_candidate (c : CollectiveMemoryCandidate) (policy : option ProposalPolicy) :
    ProposalDecision :=
  _attach_emergent_payload (blocked_or (memory_proposal c) (_collective_memory_blocking_reasons c) policy)
    "collective_memory" (proposal_markers ++ [
      ("memory_operation_id", JStr (_memory_operation_id c));
      ("operation", JStr (memory_operation_name (cm_operation c))); ("namespace_ref", JStr (namespace_ref c));
      ("source_agent_ref", jopt (source_agent_ref c)); ("target_agent_refs", jstrs (target_agent_refs c));
      ("memory_refs", jstrs (memory_refs c)); ("source_memory_refs", jstrs (source_memory_refs c));
      ("authority_preview", JObj [
         ("namespace_authority_granted", JBool (namespace_authority_granted c));
         ("namespace_authority_refs", jstrs (namespace_authority_refs c))]);
      ("retention_preview", JObj [
         ("retention_policy_ref", jopt (retention_policy_ref c));
         ("retention_check_passed", JBool (retention_check_passed c)); ("legal_hold", JBool (legal_hold c))]);
      ("redaction_preview", JObj [
         ("redaction_proof_ref", jopt (redaction_proof_ref c));
         ("redaction_proof_passed", JBool (redaction_proof_passed c));
         ("summary_only_projection", JBool (summary_only_projection c))]);
      ("review_preview", JObj [
         ("stale_memory_review_status", JStr (review_name (stale_memory_review_status c)));
         ("unsafe_memory_review_status", JStr (review_name (unsafe_memory_review_status c)))]);
      ("dossier_visible", JBool (cm_dossier_visible c)); ("timeline_visible", JBool (cm_timeline_visible c));
      ("stop_condition", JStr ("block if memory can propagate without namespace authority, " +:+
                               "retention check, redaction proof, and stale/unsafe review"))]).

(** * Evolution variants *)

Definition _missing_variant_status {A} `{EqDecision A} (variants : list string) (statuses : dict A)
    (passed_value : A) : bool :=
  existsb (λ variant, negb (bool_decide (statuses !! variant = Some passed_value))) variants.

Definition _evolution_blocking_reasons (c : EvolutionVariantCandidate) : list string :=
  let inherits (refs : list string) := negb (bool_decide (refs = [])) in
  when (negb (fork_trust_reset c)) "fork_trust_reset_missing"
  ++ when (inherits (inherited_trust_refs c)) "child_inherits_parent_trust"
  ++ when (inherits (inherited_scope_refs c)) "child_inherits_parent_scope"
  ++ when (inherits (inherited_route_refs c)) "child_inherits_parent_route"
  ++ when (inherits (inherited_marketplace_refs c)) "child_inherits_marketplace_placement"
  ++ (if vr_budget_ceiling_cents c <=? 0 then ["variant_budget_ceiling_missing"]
      else when (vr_budget_ceiling_cents c <? variant_budget_cents c) "variant_budget_exceeds_ceiling")
  ++ when (_missing_variant_status (variant_agent_refs c) (variant_review_statuses c) RvPassed)
       "variant_review_missing"
  ++ when (_missing_variant_status (variant_agent_refs c) (variant_proof_statuses c) PfPassed)
       "variant_proof_missing"
  ++ when (existsb (λ variant, negb (str_in variant (variant_canary_refs c))) (variant_agent_refs c))
       "variant_canary_missing"
  ++ when (negb (simulation_passed c)) "simulation_coverage_missing"
  ++ (if bool_decide (vr_operation c = EvCull) then
        when (negb (given (deletion_preview_ref c))) "deletion_preview_missing"
        ++ when (negb (given (tombstone_plan c))) "tombstone_plan_missing"
      else [])
  ++ when (negb (g_operator_disable_available (vr_gates c))) "operator_disable_missing"
  ++ when (g_direct_apply_requested (vr_gates c)) "direct_variant_apply_forbidden".

Definition evolution_operation_id (c : EvolutionVariantCandidate) : string :=
  _stable_operation_id "eo" [
    ("operation", JStr (evolution_operation_name (vr_operation c)));
    ("parent_agent_ref", JStr (parent_agent_ref c)); ("variant_agent_refs", jstrs (variant_agent_refs c))].

Definition evolution_proposal (c : EvolutionVariantCandidate) : SelfImprovementProposal :=
  let operation := evolution_operation_name (vr_operation c) in
  let culls := JBool (bool_decide (vr_operation c = EvCull)) in
  proposal_of (vr_gates c) ("evolution_" +:+ operation) DeployedCode
    (_dedupe (parent_agent_ref c :: ("evolution_operation:" +:+ evolution_operation_id c)
              :: variant_agent_refs c))
    [("actions", jstrs ["propose_evolution_" +:+ operation]);
     ("resources", jstrs (_dedupe (parent_agent_ref c :: variant_agent_refs c)));
     ("fork_trust_reset_required", JBool true); ("budget_ceiling_required", JBool true);
     ("per_variant_review_proof_canary_required", JBool true); ("deletion_preview_required", culls);
     ("tombstone_required", culls)]
    (g_evidence_refs (vr_gates c)) "propose bounded variant generation, comparison, or culling".

Definition evaluate_evolution_variant_candidate (c : EvolutionVariantCandidate) (policy : option ProposalPolicy) :
    ProposalDecision :=
  _attach_emergent_payload (blocked_or (evolution_proposal c) (_evolution_blocking_reasons c) policy)
    "evolution" (proposal_markers ++ [
      ("evolution_operation_id", JStr (evolution_operation_id c));
      ("operation", JStr (evolution_operation_name (vr_operation c)));
      ("parent_agent_ref", JStr (parent_agent_ref c)); ("variant_agent_refs", jstrs (variant_agent_refs c));
      ("inheritance_preview", JObj [
         ("fork_trust_reset", JBool (fork_trust_reset c));
         ("inherited_trust_refs", jstrs (inherited_trust_refs c));
         ("inherited_scope_refs", jstrs (inherited_scope_refs c));
         ("inherited_route_refs", jstrs (inherited_route_refs c));
         ("inherited_marketplace_refs", jstrs (inherited_marketplace_refs c))]);
      ("budget_preview", JObj [
         ("variant_budget_cents", JInt (variant_budget_cents c));
         ("budget_ceiling_cents", JInt (vr_budget_ceiling_cents c))]);
      ("variant_gate_preview", JObj [
         ("review_statuses", JObj (dict_map (JStr ∘ review_name) (variant_review_statuses c)));
         ("proof_statuses", JObj (dict_map (JStr ∘ proof_name) (variant_proof_statuses c)));
         ("canary_refs", jstrs (variant_canary_refs c));
         ("simulation_scenario_ref", jopt (simulation_scenario_ref c));
         ("simulation_passed", JBool (simulation_passed c))]);
      ("culling_preview", JObj [
         ("deletion_preview_ref", jopt (deletion_preview_ref c));
         ("tombstone_plan_present", JBool (given (tombstone_plan c)))]);
      ("stop_condition", JStr ("block if child variant inherits trust, scope, route, or " +:+
                               "marketplace placement without fresh proof and owner canary"))]).

(** * Adversarial review loops *)

Definition _adversarial_review_blocking_reasons (c : AdversarialReviewLoopCandidate) : list string :=
  when (negb (findings_only c)) "reviewer_findings_only_missing"
  ++ when (reviewer_can_mutate c) "reviewer_mutation_authority_forbidden"
  ++ when (evaluator_can_apply_changes c || negb (Nat.eqb (length (direct_apply_surfaces c)) 0))
       "evaluator_direct_apply_forbidden"
  ++ when (negb (code_editor_narrowed_authority c)) "code_editor_narrowed_authority_missing"
  ++ when (negb (bool_decide (critical_finding_refs c = [])) && negb (promotion_freeze_available c))
       "critical_finding_freeze_missing"
  ++ (if ar_budget_ceiling_cents c <=? 0 then ["review_loop_budget_ceiling_missing"]
      else when (ar_budget_ceiling_cents c <? loop_budget_cents c) "review_loop_budget_exceeds_ceiling")
  ++ when (ttl_seconds c <=? 0) "review_loop_ttl_missing"
  ++ when (max_iterations c <=? 0) "review_loop_max_iterations_missing"
  ++ when (negb (all_proposed_fixes_enter_proposals c)) "proposed_fixes_must_enter_self_improvement"
  ++ when (negb (kill_switch_available c)) "kill_switch_missing"
  ++ when (negb (ar_dossier_visible c) || negb (ar_timeline_visible c)) "dossier_timeline_visibility_missing"
  ++ when (negb (g_operator_disable_available (ar_gates c))) "operator_disable_missing"
  ++ when (g_direct_apply_requested (ar_gates c)) "direct_review_apply_forbidden".

Definition review_loop_id (c : AdversarialReviewLoopCandidate) : string :=
  _stable_operation_id "arl" [
    ("reviewer_agent_refs", jstrs (reviewer_agent_refs c)); ("target_refs", jstrs (ar_target_refs c));
    ("finding_refs", jstrs (finding_refs c)); ("proposed_fix_refs", jstrs (proposed_fix_refs c))].

Definition review_proposal (c : AdversarialReviewLoopCandidate) : SelfImprovementProposal :=
  proposal_of (ar_gates c) "adversarial_review_loop" SPolicy
    (_dedupe (("review_loop:" +:+ review_loop_id c) :: reviewer_agent_refs c ++ ar_target_refs c
              ++ finding_refs c ++ proposed_fix_refs c))
    [("actions", jstrs ["propose_adversarial_review_loop"]); ("resources", jstrs (_dedupe (ar_target_refs c)));
     ("findings_only_required", JBool true); ("process_local_code_editor_authority_required", JBool true);
     ("direct_apply_forbidden", JBool true); ("budget_ttl_iteration_limits_required", JBool true);
     ("fixes_enter_self_improvement_required", JBool true)]
    (g_evidence_refs (ar_gates c)) "propose bounded adversarial review findings and gated fixes".

(** [decision.control_actions.append("freeze_node")], once. *)
Definition freeze_on_critical (critical : list string) (d : ProposalDecision) : ProposalDecision :=
  if negb (bool_decide (critical = [])) && negb (str_in "freeze_node" (control_actions d)) then
    {| decided_id := decided_id d; status := status d; reasons := reasons d;
       required_gates := required_gates d; control_actions := control_actions d ++ ["freeze_node"];
       evidence_node := evidence_node d; timeline_item := timeline_item d |}
  else d.

Definition evaluate_adversarial_review_loop_candidate (c : AdversarialReviewLoopCandidate)
    (policy : option ProposalPolicy) : ProposalDecision :=
  _attach_emergent_payload
    (freeze_on_critical (critical_finding_refs c)
       (blocked_or (review_proposal c) (_adversarial_review_blocking_reasons c) policy))
    "adversarial_review" (proposal_markers ++ [
      ("review_loop_id", JStr (review_loop_id c)); ("reviewer_agent_refs", jstrs (reviewer_agent_refs c));
      ("target_refs", jstrs (ar_target_refs c)); ("finding_refs", jstrs (finding_refs c));
      ("critical_finding_refs", jstrs (critical_finding_refs c));
      ("proposed_fix_refs", jstrs (proposed_fix_refs c));
      ("authority_preview", JObj [
         ("findings_only", JBool (findings_only c)); ("reviewer_can_mutate", JBool (reviewer_can_mutate c));
         ("evaluator_can_apply_changes", JBool (evaluator_can_apply_changes c));
         ("direct_apply_surfaces", jstrs (map surface_name (direct_apply_surfaces c)));
         ("code_editor_narrowed_authority", JBool (code_editor_narrowed_authority c))]);
      ("loop_limits", JObj [
         ("loop_budget_cents", JInt (loop_budget_cents c));
         ("budget_ceiling_cents", JInt (ar_budget_ceiling_cents c));
         ("ttl_seconds", JInt (ttl_seconds c)); ("max_iterations", JInt (max_iterations c))]);
      ("dossier_visible", JBool (ar_dossier_visible c)); ("timeline_visible", JBool (ar_timeline_visible c));
      ("stop_condition", JStr ("block if reviewer or evaluator can directly apply source, " +:+
                               "manifest, policy, budget, route, or memory changes"))]).

(** * The marketplace *)

Definition _marketplace_blocking_reasons (c : AutopoieticMarketplaceCandidate) : list string :=
  let proposes (refs : list string) := negb (bool_decide (refs = [])) in
  when (negb (e1_gate_passed c && e2_gate_passed c && e3_gate_passed c && e4_gate_passed c))
    "e1_e4_prerequisites_missing"
  ++ when (market_signals_create_authority c || proposes (proposed_authority_refs c))
       "market_signal_authority_grant_forbidden"
  ++ when (market_signals_mutate_policy c || proposes (proposed_policy_mutation_refs c))
       "market_signal_policy_mutation_forbidden"
  ++ when (market_signals_delete_agents c || proposes (proposed_deletion_refs c))
       "market_signal_agent_deletion_forbidden"
  ++ when (market_signals_move_money c || proposes (proposed_money_movement_refs c))
       "market_signal_money_movement_forbidden"
  ++ when (negb (g_operator_disable_available (mk_gates c))) "operator_disable_missing"
  ++ when (g_direct_apply_requested (mk_gates c)) "direct_marketplace_apply_forbidden".

Definition marketplace_loop_id (c : AutopoieticMarketplaceCandidate) : string :=
  _stable_operation_id "am" [
    ("operation", JStr (market_operation_name (mk_operation c))); ("target_refs", jstrs (mk_target_refs c));
    ("demand_signal_refs", jstrs (demand_signal_refs c)); ("revenue_signal_refs", jstrs (revenue_signal_refs c));
    ("taste_signal_refs", jstrs (taste_signal_refs c)); ("rank_signal_refs", jstrs (rank_signal_refs c))].

Definition marketplace_proposal (c : AutopoieticMarketplaceCandidate) : SelfImprovementProposal :=
  let operation := market_operation_name (mk_operation c) in
  proposal_of (mk_gates c) ("autopoietic_marketplace_" +:+ operation) SRoute
    (_dedupe (("marketplace_loop:" +:+ marketplace_loop_id c) :: mk_target_refs c))
    [("actions", jstrs ["propose_marketplace_" +:+ operation]); ("resources", jstrs (mk_target_refs c));
     ("e1_e4_prerequisites_required", JBool true); ("market_signals_cannot_grant_authority", JBool true);
     ("owner_platform_approval_required", JBool true); ("canary_rollback_required", JBool true);
     ("operator_disable_required", JBool true)]
    (g_evidence_refs (mk_gates c) ++ sourced "prerequisite_gate" (prerequisite_gate_refs c))
    "propose marketplace creation, promotion, retirement, pricing, or routing under policy".

Definition evaluate_autopoietic_marketplace_candidate (c : AutopoieticMarketplaceCandidate)
    (policy : option ProposalPolicy) : ProposalDecision :=
  let p := marketplace_proposal c in
  let blocking := _marketplace_blocking_reasons c in
  let d := if negb (platform_approved c) && bool_decide (blocking = [])
           then _decision p (stable_id p) AwaitingApproval ["platform_approval_required"] ["platform_approval"]
                  ["require_approval"]
           else blocked_or p blocking policy in
  _attach_emergent_payload d "autopoietic_marketplace" (proposal_markers ++ [
    ("marketplace_loop_id", JStr (marketplace_loop_id c));
    ("operation", JStr (market_operation_name (mk_operation c))); ("target_refs", jstrs (mk_target_refs c));
    ("signal_preview", JObj [
       ("demand_signal_refs", jstrs (demand_signal_refs c));
       ("revenue_signal_refs", jstrs (revenue_signal_refs c));
       ("taste_signal_refs", jstrs (taste_signal_refs c)); ("rank_signal_refs", jstrs (rank_signal_refs c))]);
    ("prerequisite_preview", JObj [
       ("e1_gate_passed", JBool (e1_gate_passed c)); ("e2_gate_passed", JBool (e2_gate_passed c));
       ("e3_gate_passed", JBool (e3_gate_passed c)); ("e4_gate_passed", JBool (e4_gate_passed c));
       ("prerequisite_gate_refs", jstrs (prerequisite_gate_refs c))]);
    ("authority_preview", JObj [
       ("market_signals_create_authority", JBool (market_signals_create_authority c));
       ("market_signals_mutate_policy", JBool (market_signals_mutate_policy c));
       ("market_signals_delete_agents", JBool (market_signals_delete_agents c));
       ("market_signals_move_money", JBool (market_signals_move_money c));
       ("proposed_authority_refs", jstrs (proposed_authority_refs c));
       ("proposed_policy_mutation_refs", jstrs (proposed_policy_mutation_refs c));
       ("proposed_deletion_refs", jstrs (proposed_deletion_refs c));
       ("proposed_money_movement_refs", jstrs (proposed_money_movement_refs c))]);
    ("platform_approved", JBool (platform_approved c));
    ("stop_condition", JStr ("block if market rank, taste, revenue, or demand can create " +:+
                             "authority, mutate policy, delete agents, or move money"))]).

(** * All of them *)

Inductive candidate : Type :=
  | CCrystallization (c : CrystallizationCandidate)
  | CEvaporation (c : EvaporationCandidate)
  | CCollectiveMemory (c : CollectiveMemoryCandidate)
  | CEvolution (c : EvolutionVariantCandidate)
  | CAdversarialReview (c : AdversarialReviewLoopCandidate)
  | CMarketplace (c : AutopoieticMarketplaceCandidate).

Definition evaluate (c : candidate) (policy : option ProposalPolicy) : ProposalDecision :=
  match c with
  | CCrystallization c => evaluate_crystallization_candidate c policy
  | CEvaporation c => evaluate_evaporation_candidate c policy
  | CCollectiveMemory c => evaluate_collective_memory_candidate c policy
  | CEvolution c => evaluate_evolution_variant_candidate c policy
  | CAdversarialReview c => evaluate_adversarial_review_loop_candidate c policy
  | CMarketplace c => evaluate_autopoietic_marketplace_candidate c policy
  end.

Definition gates_of (c : candidate) : Gates :=
  match c with
  | CCrystallization c => cr_gates c
  | CEvaporation c => ev_gates c
  | CCollectiveMemory c => cm_gates c
  | CEvolution c => vr_gates c
  | CAdversarialReview c => ar_gates c
  | CMarketplace c => mk_gates c
  end.
