(* ===== verification/ProposalProperties.v ===== *)
(** What an approval of a proposal means.

    [approvable] is what the gates ask for together, and an approval is exactly
    that; the emergent operations ask for more, and what they leave as evidence
    grants nothing and shows no secret. *)
From S2P Require Import Prelude PyStr PyDict PyFloat PyJson ProposalTypes Proposals.
Open Scope Z_scope.

(** * The gates together *)

Record approvable (p : SelfImprovementProposal) (policy : ProposalPolicy) : Prop := {
  ap_targets : target_refs p ≠ [];
  ap_capability : requested_capability p ≠ [];
  ap_no_kill : kill_switch_active policy = false;
  ap_killable : kill_switch_enabled p = true;
  ap_no_apply : direct_apply_requested p = false;
  ap_no_widening : scope_widening p = false;
  ap_no_loosening : policy_loosen p = false;
  ap_autonomy : autonomy_tier p ≤ max_autonomy_tier policy;
  ap_budget : budget_impact_cents p ≤ max_budget_impact_cents policy;
  ap_rollback : risk_class p = RHigh ∨ risk_class p = RDangerous → given (rollback_plan p) = true;
  ap_owner : risk_class p ∈ require_owner_approval_for policy → owner_approved p = true;
  ap_review : risk_class p ∈ require_review_for policy → review_status p = RvPassed;
  ap_proof : risk_class p ∈ require_proof_for policy → proof_status p = PfPassed;
  ap_canary : risk_class p ∈ require_canary_for policy → given (canary_plan p) = true;
}.

Lemma when_nil b r : when b r = [] ↔ b = false.
Proof. by destruct b. Qed.

Lemma denial_nil p policy : denial_reasons p policy = [] ↔
  direct_apply_requested p = false ∧ scope_widening p = false ∧ policy_loosen p = false
  ∧ autonomy_tier p ≤ max_autonomy_tier policy ∧ budget_impact_cents p ≤ max_budget_impact_cents policy.
Proof. unfold denial_reasons. rewrite !app_nil, !when_nil, !Z.ltb_ge. tauto. Qed.

Lemma risk_in_true r l : risk_in r l = true ↔ r ∈ l.
Proof. apply bool_decide_eq_true. Qed.

Lemma risk_in_cases r l : r ∈ l ∧ risk_in r l = true ∨ r ∉ l ∧ risk_in r l = false.
Proof. unfold risk_in. destruct (decide (r ∈ l)); [left|right]; split; auto using bool_decide_eq_true_2, bool_decide_eq_false_2. Qed.

Ltac gate_cases := match goal with
  | |- context [risk_in ?r ?l] => destruct (risk_in_cases r l) as [[? ->]|[? ->]]
  end.

Section gates.
Context (p : SelfImprovementProposal) (policy : ProposalPolicy).

Lemma canary_gate_approved gates : status (canary_gate p policy gates) = Approved ↔
  (risk_class p ∈ require_canary_for policy → given (canary_plan p) = true).
Proof. unfold canary_gate. gate_cases; destruct (given (canary_plan p)); cbn; naive_solver. Qed.

Lemma proof_gate_approved gates : status (proof_gate p policy gates) = Approved ↔
  (risk_class p ∈ require_proof_for policy → proof_status p = PfPassed)
  ∧ (risk_class p ∈ require_canary_for policy → given (canary_plan p) = true).
Proof.
  unfold proof_gate. gate_cases; [case_bool_decide; cbn [negb]|]; rewrite ?canary_gate_approved; cbn; naive_solver.
Qed.

Lemma review_gate_approved gates : status (review_gate p policy gates) = Approved ↔
  (risk_class p ∈ require_review_for policy → review_status p = RvPassed)
  ∧ (risk_class p ∈ require_proof_for policy → proof_status p = PfPassed)
  ∧ (risk_class p ∈ require_canary_for policy → given (canary_plan p) = true).
Proof.
  unfold review_gate. gate_cases; [repeat (case_bool_decide; cbn [negb])|]; rewrite ?proof_gate_approved; cbn;
    naive_solver congruence.
Qed.

Lemma owner_gate_approved gates : status (owner_gate p policy gates) = Approved ↔
  (risk_class p ∈ require_owner_approval_for policy → owner_approved p = true)
  ∧ (risk_class p ∈ require_review_for policy → review_status p = RvPassed)
  ∧ (risk_class p ∈ require_proof_for policy → proof_status p = PfPassed)
  ∧ (risk_class p ∈ require_canary_for policy → given (canary_plan p) = true).
Proof.
  unfold owner_gate. gate_cases; [destruct (owner_approved p); cbn [negb]|]; rewrite ?review_gate_approved; cbn;
    naive_solver.
Qed.

(** C18: a proposal is approved exactly when every gate its policy asks for is satisfied: it names
a target and a capability, no kill switch holds it, it asks for no direct application, no wider
scope and no looser policy, it stays within the autonomy and the budget, and it has the rollback
plan, the approval, the review, the proof and the canary that its risk requires. *)
Theorem proposal_approved_iff :
  status (evaluate_self_improvement_proposal p policy) = Approved ↔ approvable p policy.
Proof.
  unfold evaluate_self_improvement_proposal. split.
  - case_bool_decide; [done|]. case_bool_decide; [done|]. cbn [orb].
    destruct (kill_switch_active policy) eqn:?; [done|]. destruct (kill_switch_enabled p) eqn:?; [|done].
    cbn [orb negb]. destruct (denial_reasons p policy) eqn:Hd; [|done]. apply denial_nil in Hd.
    destruct (risk_in_cases (risk_class p) [RHigh; RDangerous]) as [[Hr ->]|[Hr ->]].
    + destruct (given (rollback_plan p)) eqn:?; [|done]. cbn [andb negb]. rewrite owner_gate_approved.
      intros (? & ? & ? & ?). by split; try tauto.
    + cbn [andb]. rewrite owner_gate_approved. intros (? & ? & ? & ?). split; try tauto.
      intros [E|E]; rewrite E in Hr; set_solver.
  - intros [? ? Hk He ? ? ? ? ? Hroll ? ? ? ?]. rewrite !bool_decide_eq_false_2, Hk, He by done. cbn [orb negb].
    assert (denial_reasons p policy = []) as -> by (by apply denial_nil).
    destruct (risk_in_cases (risk_class p) [RHigh; RDangerous]) as [[Hr ->]|[Hr ->]].
    + rewrite Hroll by (rewrite !elem_of_cons in Hr; set_solver). cbn [andb negb]. by apply owner_gate_approved.
    + cbn [andb]. by apply owner_gate_approved.
Qed.
End gates.

(** * The emergent operations *)

(** A manifest reaches its direct sub-agents, their skills and default arguments,
its memory, its tools and its grants. *)
Definition direct_agent (m item : jobject) : Prop :=
  ∃ composition l, jget m "composition" = JObj composition
    ∧ py_or (py_or (jget composition "sub_agents") (jget composition "agents")) (jget composition "children") = JList l
    ∧ JObj item ∈ l.

(** The reference to a sub-agent: by its name, or else by its tag. *)
Inductive agent_ref (item : jobject) : string → Prop :=
  | ref_name n : _string_or_none (jget item "name") = Some n → agent_ref item ("agent:" +:+ n)
  | ref_tag t : _string_or_none (jget item "name") = None → _string_or_none (jget item "tag") = Some t →
      agent_ref item ("tag:" +:+ t).

Definition agent_label (item : jobject) (label : string) : Prop :=
  agent_ref item label ∨ (∀ r, ¬ agent_ref item r) ∧ label = "dependency".

Inductive reaches (m : jobject) : string → string → Prop :=
  | reach_agent item r : direct_agent m item → agent_ref item r → reaches m "dependencies" r
  | reach_skill item l skill : direct_agent m item → agent_label item l → skill ∈ _string_list (jget item "skills") →
      reaches m "skills" (l +:+ ":skill:" +:+ skill)
  | reach_arg item l args key v : direct_agent m item → agent_label item l → jget item "default_args" = JObj args →
      (key, v) ∈ args → reaches m "default_args" (l +:+ ":arg:" +:+ key)
  | reach_tier memory tier : jget m "memory" = JObj memory → tier ∈ _string_list (jget memory "tiers") →
      reaches m "memory" ("tier:" +:+ tier)
  | reach_memory memory key v : jget m "memory" = JObj memory → key ∈ ["namespace"; "scope"; "retention"] →
      _string_or_none (jget memory key) = Some v → reaches m "memory" (key +:+ ":" +:+ v)
  | reach_tool tool : tool ∈ _string_list (jget m "tools") → reaches m "tools" ("tool:" +:+ tool)
  | reach_runtime_tool runtime tool : jget m "runtime" = JObj runtime →
      tool ∈ _string_list (jget runtime "tools_used") → reaches m "tools" ("tool:" +:+ tool)
  | reach_cp_jwt runtime : jget m "runtime" = JObj runtime → jget runtime "wants_cp_jwt" = JBool true →
      reaches m "grants" "cp_jwt"
  | reach_grant workspace field prefix x : jget m "workspace_access" = JObj workspace →
      (field, prefix) ∈ [("allowed_modes", "workspace_mode:"); ("grant_allow_patterns", "allow:");
                         ("grant_write_prefixes", "write:")] →
      x ∈ _string_list (jget workspace field) → reaches m "grants" (prefix +:+ x).

Lemma mapping_get j k x : jget (_mapping_or_empty j) k = x → x ≠ JNull → ∃ d, j = JObj d ∧ jget d k = x.
Proof. intros <-. destruct j as [| | | | | |d]; try done. intros _. by exists d. Qed.

Lemma direct_agent_listed m item : item ∈ sub_agents m ↔ direct_agent m item.
Proof.
  unfold sub_agents, direct_agent. cbv zeta. rewrite list_elem_of_omap. split.
  - intros (j & Hj & Hi). destruct (jget m "composition") as [| | | | | |composition] eqn:Hc;
      try (by cbn in Hj; apply not_elem_of_nil in Hj). cbn [_mapping_or_empty] in Hj.
    exists composition. destruct (py_or _ _) as [| | | | |l|] eqn:Hl; try (by cbn in Hj; apply not_elem_of_nil in Hj).
    exists l. destruct j; simplify_eq. by split_and!.
  - intros (composition & l & -> & Hl & Hi). cbn [_mapping_or_empty]. rewrite Hl. by exists (JObj item).
Qed.

Lemma dependency_ref_iff item r : _dependency_ref item = Some r ↔ agent_ref item r.
Proof.
  unfold _dependency_ref. split.
  - destruct (_string_or_none (jget item "name")) eqn:E; [intros [= <-]; by constructor|].
    destruct (_string_or_none (jget item "tag")) eqn:E'; [intros [= <-]; by constructor|done].
  - intros [n H|t H1 H2]; [by rewrite H|by rewrite H1, H2].
Qed.

Lemma dep_name_iff item l : dep_name item = l ↔ agent_label item l.
Proof.
  unfold dep_name, agent_label. setoid_rewrite <-dependency_ref_iff.
  destruct (_dependency_ref item); cbn; naive_solver.
Qed.

Lemma string_list_null : _string_list JNull = [].
Proof. done. Qed.

Lemma elem_string_list j k x : x ∈ _string_list (jget (_mapping_or_empty j) k) ↔
  ∃ d, j = JObj d ∧ x ∈ _string_list (jget d k).
Proof.
  destruct j as [| | | | | |d]; cbn [_mapping_or_empty];
    try (split; [by intros H%not_elem_of_nil|by intros (? & ? & _)]).
  split; [by exists d|by intros (? & [= <-] & ?)].
Qed.

Lemma elem_memory m x : x ∈ memory_bounds m ↔ reaches m "memory" x.
Proof.
  unfold memory_bounds. cbv zeta. rewrite elem_of_app, list_elem_of_fmap, list_elem_of_omap. split.
  - intros [(tier & -> & (d & Hd & Ht)%elem_string_list)|(key & Hk & Hv)]; [by eapply reach_tier|].
    destruct (_string_or_none _) as [v|] eqn:E; [|done]. injection Hv as <-.
    destruct (jget m "memory") as [| | | | | |d] eqn:Hd; try done. by eapply reach_memory.
  - intros H. inversion H as [| | |memory tier Hm Ht|memory key v Hm Hk Hv| | | |]; subst.
    + left. exists tier. split; [done|]. apply elem_string_list. by exists memory.
    + right. exists key. split; [done|]. rewrite Hm. cbn [_mapping_or_empty]. by rewrite Hv.
Qed.

Lemma elem_tools m x : x ∈ tool_bounds m ↔ reaches m "tools" x.
Proof.
  unfold tool_bounds. cbv zeta. rewrite list_elem_of_fmap. setoid_rewrite elem_of_app. split.
  - intros (tool & -> & [Ht|(d & Hd & Ht)%elem_string_list]); [by apply reach_tool|by eapply reach_runtime_tool].
  - intros H. inversion H as [| | | | |tool Ht|runtime tool Hr Ht| |]; subst; exists tool; (split; [done|]); [by left|].
    right. apply elem_string_list. by exists runtime.
Qed.

Lemma elem_grants m x : x ∈ grant_bounds m ↔ reaches m "grants" x.
Proof.
  unfold grant_bounds. cbv zeta. rewrite !elem_of_app, !list_elem_of_fmap. split.
  - intros [Hj|[H|[H|H]]]; [|destruct H as (y & -> & (d & Hd & Hy)%elem_string_list);
      eapply reach_grant; [done| |done]; set_solver..].
    case_bool_decide as Hw; [|by apply not_elem_of_nil in Hj]. apply list_elem_of_singleton in Hj as ->.
    apply mapping_get in Hw as (d & Hd & Hw); [|done]. by eapply reach_cp_jwt.
  - intros H. inversion H as [| | | | | | |runtime Hr Hw|workspace field prefix y Hd Hp Hy]; subst.
    + left. rewrite Hr. cbn [_mapping_or_empty]. rewrite bool_decide_eq_true_2 by done. by left.
    + right. rewrite !elem_of_cons in Hp. destruct Hp as [E|[E|[E|E]]]; [| | |by apply not_elem_of_nil in E]; injection E as -> ->;
        [left|right; left|right; right]; (exists y; split; [done|]; apply elem_string_list; by exists workspace).
Qed.

Lemma elem_agents m x : x ∈ omap _dependency_ref (sub_agents m) ↔ reaches m "dependencies" x.
Proof.
  rewrite list_elem_of_omap. setoid_rewrite direct_agent_listed. setoid_rewrite dependency_ref_iff. split.
  - intros (item & ? & ?). by eapply reach_agent.
  - intros H. inversion H; subst. eauto.
Qed.

Lemma elem_skills m x : x ∈ concat (map item_skills (sub_agents m)) ↔ reaches m "skills" x.
Proof.
  rewrite list_elem_of_In, in_concat. setoid_rewrite in_map_iff. setoid_rewrite <-list_elem_of_In. split.
  - intros (l & (item & <- & Hi) & Hx). apply list_elem_of_fmap in Hx as (skill & -> & Hs).
    eapply reach_skill; [by apply direct_agent_listed|by apply dep_name_iff|done].
  - intros H. inversion H as [|item l skill Hi Hl Hs| | | | | | |]; subst. exists (item_skills item).
    split; [exists item; split; [done|by apply direct_agent_listed]|]. apply list_elem_of_fmap. exists skill.
    split; [|done]. apply dep_name_iff in Hl. by rewrite Hl.
Qed.

Lemma elem_args m x : x ∈ concat (map item_args (sub_agents m)) ↔ reaches m "default_args" x.
Proof.
  rewrite list_elem_of_In, in_concat. setoid_rewrite in_map_iff. setoid_rewrite <-list_elem_of_In. split.
  - intros (l & (item & <- & Hi) & Hx). apply list_elem_of_fmap in Hx as (key & -> & Hs).
    destruct (jget item "default_args") as [| | | | | |args] eqn:Ha; try (by apply not_elem_of_nil in Hs).
    apply list_elem_of_fmap in Hs as ([k v] & -> & Hkv).
    eapply reach_arg; [by apply direct_agent_listed|by apply dep_name_iff|done|done].
  - intros H. inversion H as [| |item l args key v Hi Hl Ha Hk| | | | | |]; subst. exists (item_args item).
    split; [exists item; split; [done|by apply direct_agent_listed]|]. apply list_elem_of_fmap. exists key.
    apply dep_name_iff in Hl. rewrite Hl. split; [done|]. rewrite Ha. cbn [_mapping_or_empty].
    by apply (list_elem_of_fmap_2 fst args (key, v)).
Qed.

Lemma elem_bounds m key x : x ∈ default [] (_manifest_bounds m !! key) ↔ reaches m key x.
Proof.
  pose proof (elem_agents m x) as H1. pose proof (elem_skills m x) as H2. pose proof (elem_args m x) as H3.
  pose proof (elem_memory m x) as H4. pose proof (elem_tools m x) as H5. pose proof (elem_grants m x) as H6.
  unfold _manifest_bounds, lookup, dict_lookup. cbv zeta. cbn [dict_get].
  repeat match goal with |- context [?k =? key] => idtac end.
  destruct (String.eqb_spec key "dependencies") as [->|N1]; [by cbn; rewrite elem_of_sorted_list|].
  destruct (String.eqb_spec key "skills") as [->|N2]; [by cbn; rewrite elem_of_sorted_list|].
  destruct (String.eqb_spec key "default_args") as [->|N3]; [by cbn; rewrite elem_of_sorted_list|].
  destruct (String.eqb_spec key "memory") as [->|N4]; [by cbn; rewrite elem_of_sorted_list|].
  destruct (String.eqb_spec key "tools") as [->|N5]; [by cbn; rewrite elem_of_sorted_list|].
  destruct (String.eqb_spec key "grants") as [->|N6]; [by cbn; rewrite elem_of_sorted_list|].
  split; [by intros ?%not_elem_of_nil|]. intros H. by inversion H.
Qed.

Lemma bounds_wf m : dict_wf (_manifest_bounds m).
Proof. apply (bool_decide_unpack (NoDup _)). reflexivity. Qed.

(** A manifest adds nothing to the bounds of another iff it reaches nothing more. *)
Lemma bounds_reach source proposed :
  _added_bounds (_manifest_bounds source) (_manifest_bounds proposed) = [] ↔
  ∀ kind x, reaches proposed kind x → reaches source kind x.
Proof.
  rewrite added_bounds_nil. setoid_rewrite <-elem_bounds. split.
  - intros H kind x Hx. destruct (_manifest_bounds proposed !! kind) as [values|] eqn:E;
      [|by apply not_elem_of_nil in Hx]. by apply (H kind values); [apply dict_lookup_elem|].
  - intros H kind values Hv x Hx. apply H. by rewrite (dict_elem_lookup _ _ _ (bounds_wf _) Hv).
Qed.

(** What an operation asks of its candidate before the gates of the proposal. *)
Definition own_terms (c : candidate) : Prop :=
  match c with
  | CCrystallization c =>
      min_success_count c ≤ observed_success_count c
      ∧ ∀ kind x, reaches (proposed_manifest c) kind x → reaches (source_manifest c) kind x
  | CEvaporation c => True
  | CCollectiveMemory c =>
      namespace_authority_granted c = true ∧ retention_check_passed c = true
      ∧ redaction_proof_passed c = true ∧ summary_only_projection c = true
      ∧ (legal_hold c = true → cm_operation c ≠ MPurge)
      ∧ (cm_operation c = MWrite ∨ cm_operation c = MPropagate ∨ target_agent_refs c ≠ [] →
         stale_memory_review_status c = RvPassed ∧ unsafe_memory_review_status c = RvPassed
         ∧ target_agent_refs c ≠ [])
      ∧ cm_dossier_visible c = true ∧ cm_timeline_visible c = true
  | CEvolution c =>
      fork_trust_reset c = true ∧ inherited_trust_refs c = [] ∧ inherited_scope_refs c = []
      ∧ inherited_route_refs c = [] ∧ inherited_marketplace_refs c = []
      ∧ 0 < vr_budget_ceiling_cents c ∧ variant_budget_cents c ≤ vr_budget_ceiling_cents c
      ∧ simulation_passed c = true
      ∧ (∀ v, v ∈ variant_agent_refs c → variant_review_statuses c !! v = Some RvPassed
           ∧ variant_proof_statuses c !! v = Some PfPassed ∧ v ∈ variant_canary_refs c)
      ∧ (vr_operation c = EvCull → given (deletion_preview_ref c) = true ∧ given (tombstone_plan c) = true)
  | CAdversarialReview c =>
      findings_only c = true ∧ reviewer_can_mutate c = false ∧ evaluator_can_apply_changes c = false
      ∧ direct_apply_surfaces c = [] ∧ code_editor_narrowed_authority c = true
      ∧ (critical_finding_refs c ≠ [] → promotion_freeze_available c = true)
      ∧ 0 < ar_budget_ceiling_cents c ∧ loop_budget_cents c ≤ ar_budget_ceiling_cents c
      ∧ 0 < ttl_seconds c ∧ 0 < max_iterations c ∧ all_proposed_fixes_enter_proposals c = true
      ∧ kill_switch_available c = true ∧ ar_dossier_visible c = true ∧ ar_timeline_visible c = true
  | CMarketplace c =>
      platform_approved c = true
      ∧ e1_gate_passed c = true ∧ e2_gate_passed c = true ∧ e3_gate_passed c = true ∧ e4_gate_passed c = true
      ∧ market_signals_create_authority c = false ∧ market_signals_mutate_policy c = false
      ∧ market_signals_delete_agents c = false ∧ market_signals_move_money c = false
      ∧ proposed_authority_refs c = [] ∧ proposed_policy_mutation_refs c = [] ∧ proposed_deletion_refs c = []
      ∧ proposed_money_movement_refs c = []
  end.

Definition proposal_for (c : candidate) : SelfImprovementProposal :=
  match c with
  | CCrystallization c => crystallization_proposal c
  | CEvaporation c => evaporation_proposal c
  | CCollectiveMemory c => memory_proposal c
  | CEvolution c => evolution_proposal c
  | CAdversarialReview c => review_proposal c
  | CMarketplace c => marketplace_proposal c
  end.

Definition reasons_for (c : candidate) : list string :=
  match c with
  | CCrystallization c => crystallization_reasons c
  | CEvaporation c => evaporation_reasons c
  | CCollectiveMemory c => _collective_memory_blocking_reasons c
  | CEvolution c => _evolution_blocking_reasons c
  | CAdversarialReview c => _adversarial_review_blocking_reasons c
  | CMarketplace c => _marketplace_blocking_reasons c
  end.

(** The operations that hold a candidate back for another reason. *)
Definition held_back (c : candidate) : bool :=
  match c with
  | CCrystallization c => observed_success_count c <? min_success_count c
  | CMarketplace c => negb (platform_approved c)
  | _ => false
  end.

Lemma attach_status d key value : status (_attach_emergent_payload d key value) = status d.
Proof. done. Qed.

Lemma blocked_or_approved p blocking policy : status (blocked_or p blocking policy) = Approved ↔
  blocking = [] ∧ approvable p (policy_or policy).
Proof. destruct blocking; cbn [blocked_or]; rewrite <-?proposal_approved_iff; naive_solver. Qed.

Lemma freeze_status critical d : status (freeze_on_critical critical d) = status d.
Proof. unfold freeze_on_critical. by case_match. Qed.

Lemma evaluate_approved c policy : status (evaluate c policy) = Approved ↔
  held_back c = false ∧ reasons_for c = [] ∧ approvable (proposal_for c) (policy_or policy).
Proof.
  destruct c as [c|c|c|c|c|c]; cbn [evaluate held_back reasons_for proposal_for].
  - unfold evaluate_crystallization_candidate. rewrite attach_status.
    destruct (observed_success_count c <? min_success_count c); [naive_solver|].
    rewrite blocked_or_approved. tauto.
  - unfold evaluate_evaporation_candidate. rewrite attach_status, blocked_or_approved. tauto.
  - unfold evaluate_collective_memory_candidate. rewrite attach_status, blocked_or_approved. tauto.
  - unfold evaluate_evolution_variant_candidate. rewrite attach_status, blocked_or_approved. tauto.
  - unfold evaluate_adversarial_review_loop_candidate. rewrite attach_status, freeze_status, blocked_or_approved. tauto.
  - unfold evaluate_autopoietic_marketplace_candidate. rewrite attach_status.
    destruct (platform_approved c); cbn [negb andb]; [rewrite blocked_or_approved; tauto|].
    case_bool_decide; [naive_solver|]. rewrite blocked_or_approved. naive_solver.
Qed.

(** The reasons of an operation, one gate at a time. *)
Lemma missing_status_false {A} `{EqDecision A} variants (statuses : dict A) (passed : A) :
  _missing_variant_status variants statuses passed = false ↔ ∀ v, v ∈ variants → statuses !! v = Some passed.
Proof.
  unfold _missing_variant_status. rewrite <-not_true_iff_false, existsb_elem. split.
  - intros H v Hv. destruct (decide (statuses !! v = Some passed)) as [|Hn]; [done|]. destruct H.
    exists v. by rewrite bool_decide_eq_false_2.
  - intros H (v & Hv & Hn). rewrite bool_decide_eq_true_2 in Hn by auto. done.
Qed.

Lemma missing_canary_false variants canaries :
  existsb (λ v, negb (str_in v canaries)) variants = false ↔ ∀ v, v ∈ variants → v ∈ canaries.
Proof.
  rewrite <-not_true_iff_false, existsb_elem. split.
  - intros H v Hv. apply str_in_elem. destruct (str_in v canaries) eqn:E; [done|]. destruct H. exists v. by rewrite E.
  - intros H (v & Hv & Hn). apply H, str_in_elem in Hv. by rewrite Hv in Hn.
Qed.

Lemma budget_reason_nil ceiling spent (missing over : string) :
  (if ceiling <=? 0 then [missing] else when (ceiling <? spent) over) = [] ↔ 0 < ceiling ∧ spent ≤ ceiling.
Proof.
  destruct (Z.leb_spec ceiling 0); [split; [done|lia]|]. rewrite when_nil, Z.ltb_ge. lia.
Qed.

Lemma bounds_reason_nil source proposed :
  negb (bool_decide (_added_bounds (_manifest_bounds source) (_manifest_bounds proposed) = [])) = false ↔
  ∀ kind x, reaches proposed kind x → reaches source kind x.
Proof. rewrite negb_false_iff, bool_decide_eq_true. apply bounds_reach. Qed.

Create HintDb reasons discriminated.
#[export] Hint Rewrite @app_nil when_nil negb_false_iff orb_false_iff andb_false_iff @bool_decide_eq_true
  @bool_decide_eq_false budget_reason_nil bounds_reason_nil @missing_status_false missing_canary_false
  Z.ltb_ge Z.leb_gt : reasons.

Lemma propagation_iff c : _memory_propagation_requested c = true ↔
  cm_operation c = MWrite ∨ cm_operation c = MPropagate ∨ target_agent_refs c ≠ [].
Proof.
  unfold _memory_propagation_requested.
  rewrite orb_true_iff, bool_decide_eq_true, negb_true_iff, bool_decide_eq_false. set_solver.
Qed.

Lemma memory_reasons_nil c : _collective_memory_blocking_reasons c = [] ↔
  own_terms (CCollectiveMemory c) ∧ g_operator_disable_available (cm_gates c) = true
  ∧ g_direct_apply_requested (cm_gates c) = false.
Proof.
  unfold _collective_memory_blocking_reasons. cbn [own_terms]. rewrite <-propagation_iff.
  destruct (_memory_propagation_requested c), (legal_hold c); cbn [andb]; autorewrite with reasons; naive_solver.
Qed.

Lemma review_reasons_nil c : _adversarial_review_blocking_reasons c = [] ↔
  own_terms (CAdversarialReview c) ∧ g_operator_disable_available (ar_gates c) = true
  ∧ g_direct_apply_requested (ar_gates c) = false.
Proof.
  unfold _adversarial_review_blocking_reasons. cbn [own_terms]. autorewrite with reasons.
  rewrite Nat.eqb_eq, length_zero_iff_nil. 
  destruct (decide (critical_finding_refs c = [])); naive_solver.
Qed.

Lemma crystallization_reasons_nil c : crystallization_reasons c = [] ↔
  (∀ kind x, reaches (proposed_manifest c) kind x → reaches (source_manifest c) kind x)
  ∧ g_operator_disable_available (cr_gates c) = true ∧ g_direct_apply_requested (cr_gates c) = false.
Proof.
  unfold crystallization_reasons, crystallization_added. rewrite !app_nil, !when_nil, bounds_reason_nil.
  by rewrite negb_false_iff.
Qed.

Lemma evolution_reasons_nil c : _evolution_blocking_reasons c = [] ↔
  own_terms (CEvolution c) ∧ g_operator_disable_available (vr_gates c) = true
  ∧ g_direct_apply_requested (vr_gates c) = false.
Proof.
  unfold _evolution_blocking_reasons. cbn [own_terms]. cbv zeta.
  destruct (bool_decide (vr_operation c = EvCull)) eqn:Hc;
    [apply bool_decide_eq_true in Hc|apply bool_decide_eq_false in Hc]; autorewrite with reasons; naive_solver.
Qed.

Lemma marketplace_reasons_nil c : platform_approved c = true ∧ _marketplace_blocking_reasons c = [] ↔
  own_terms (CMarketplace c) ∧ g_operator_disable_available (mk_gates c) = true
  ∧ g_direct_apply_requested (mk_gates c) = false.
Proof.
  unfold _marketplace_blocking_reasons. cbn [own_terms]. cbv zeta. autorewrite with reasons.
  rewrite !andb_true_iff. tauto.
Qed.

Lemma own_reasons_nil c : held_back c = false ∧ reasons_for c = [] ∧ g_direct_apply_requested (gates_of c) = false ↔
  own_terms c ∧ g_operator_disable_available (gates_of c) = true ∧ g_direct_apply_requested (gates_of c) = false.
Proof.
  destruct c as [c|c|c|c|c|c]; cbn [held_back reasons_for gates_of].
  - rewrite crystallization_reasons_nil, Z.ltb_ge. cbn [own_terms]. tauto.
  - unfold evaporation_reasons. rewrite when_nil, negb_false_iff. cbn [own_terms]. tauto.
  - rewrite memory_reasons_nil. tauto.
  - rewrite evolution_reasons_nil. tauto.
  - rewrite review_reasons_nil. tauto.
  - rewrite negb_false_iff. pose proof (marketplace_reasons_nil c). tauto.
Qed.

Lemma proposal_for_direct c : direct_apply_requested (proposal_for c) = g_direct_apply_requested (gates_of c).
Proof. by destruct c. Qed.

(** C21: an emergent operation is approved exactly when its own terms hold, the operator can disable
it, and its proposal passes every gate.  The terms of a crystallization say that it was observed
often enough and that the proposed manifest names nothing the source does not among its direct
sub-agents with their skills and default arguments (not those nested below them), its memory, its
tools and its grants; those of a variant that it inherits nothing and that
every variant is reviewed, proved and has a canary; those of a review loop that nobody in it applies
anything; those of the marketplace that its signals grant, delete and pay nothing. *)
Theorem candidate_approved_iff c policy :
  status (evaluate c policy) = Approved ↔
  own_terms c ∧ g_operator_disable_available (gates_of c) = true
  ∧ approvable (proposal_for c) (policy_or policy).
Proof.
  rewrite evaluate_approved. pose proof (own_reasons_nil c) as H. rewrite <-proposal_for_direct in H.
  split.
  - intros (? & ? & Ha). pose proof (ap_no_apply _ _ Ha). tauto.
  - intros (? & ? & Ha). pose proof (ap_no_apply _ _ Ha). tauto.
Qed.

(** * The evidence *)

(** The keys and the texts that the evidence hides. *)
Definition secret_name (k : string) : Prop :=
  ∃ part, part ∈ ["token"; "secret"; "jwt"; "credential"; "api_key"] ∧ contains part (lower k) = true.

Definition secret_value (s : string) : Prop :=
  ∃ prefix, prefix ∈ ["sk-"; "gitea_"; "eyj"] ∧ startswith (lower s) prefix = true.

Lemma sensitive_key_name k : sensitive_key k = true ↔ secret_name k.
Proof. apply existsb_elem. Qed.

Lemma sensitive_text_value s : sensitive_text s = true ↔ secret_value s.
Proof. apply existsb_elem. Qed.

Lemma redact_secretless value : concealed secret_name secret_value (_redact value).
Proof.
  rewrite (redact_with_unique sensitive_key sensitive_text) by by intros [].
  by apply redact_conceals; [apply sensitive_key_name|apply sensitive_text_value|].
Qed.

Lemma concealed_insert d k v : concealed secret_name secret_value (JObj d) → sensitive_key k = false →
  concealed secret_name secret_value v → concealed secret_name secret_value (JObj (<[k:=v]> d)).
Proof.
  rewrite !concealed_object. intros Hd Hk Hv.
  assert (¬ secret_name k) as Hn by by rewrite <-sensitive_key_name, Hk.
  dict_ops. induction Hd as [|[j w] d Hw Hd IH]; cbn [dict_set].
  - by constructor.
  - destruct (String.eqb_spec k j) as [->|]; by constructor.
Qed.

Lemma redact_object_json d : JObj (redact_object d) = _redact (JObj d).
Proof. done. Qed.

Definition payload_of (d : ProposalDecision) : json := jget (evidence_node d) "payload".

(** A decision whose evidence shows no secret. *)
Definition discreet (d : ProposalDecision) : Prop :=
  ∃ pl, payload_of d = JObj pl ∧ concealed secret_name secret_value (JObj pl).

Lemma decision_discreet p id st why gates actions : discreet (_decision p id st why gates actions).
Proof. eexists. split; [reflexivity|]. rewrite redact_object_json. apply redact_secretless. Qed.

Lemma evaluate_discreet p policy : discreet (evaluate_self_improvement_proposal p policy).
Proof.
  unfold evaluate_self_improvement_proposal, owner_gate, review_gate, proof_gate, canary_gate.
  cbv zeta. repeat case_match; apply decision_discreet.
Qed.

Lemma blocked_or_discreet p blocking policy : discreet (blocked_or p blocking policy).
Proof. destruct blocking; [apply evaluate_discreet|apply decision_discreet]. Qed.

(** Evidence that grants nothing. *)
Definition grants_nothing (d : ProposalDecision) : Prop :=
  ∃ pl, payload_of d = JObj pl ∧ concealed secret_name secret_value (JObj pl)
    ∧ jget pl "grants_authority" = JBool false ∧ jget pl "active_apply_enabled" = JBool false.

Lemma attach_grants_nothing d key value : discreet d → sensitive_key key = false →
  grants_nothing (_attach_emergent_payload d key value).
Proof.
  intros (pl & Hpl & Hu) Hk. unfold grants_nothing, payload_of, _attach_emergent_payload. cbn [evidence_node].
  rewrite jget_insert. eexists. split; [reflexivity|]. split_and!.
  - assert (_mapping_or_empty (jget_or (evidence_node d) "payload" (JObj [])) = pl) as ->.
    { unfold payload_of, jget in Hpl. unfold jget_or. by destruct (evidence_node d !! "payload"); simplify_eq/=. }
    do 2 (apply concealed_insert; [|done|by apply concealed_plain]).
    apply concealed_insert; [done..|]. apply redact_secretless.
  - rewrite jget_insert_ne by done. apply jget_insert.
  - apply jget_insert.
Qed.

Lemma evaluate_grants_nothing c policy : grants_nothing (evaluate c policy).
Proof.
  destruct c as [c|c|c|c|c|c]; cbn [evaluate]; apply attach_grants_nothing; try reflexivity;
    try apply blocked_or_discreet.
  - case_match; [apply decision_discreet|apply blocked_or_discreet].
  - unfold freeze_on_critical. case_match; [|apply blocked_or_discreet].
    destruct (blocked_or_discreet (review_proposal c) (_adversarial_review_blocking_reasons c) policy) as (pl & ? & ?).
    by exists pl.
  - case_match; [apply decision_discreet|apply blocked_or_discreet].
Qed.

(** C34: the payload of the evidence node an emergent operation leaves, approved or not,
says that it grants no authority and applies nothing; in it, at any depth, every value under a
key whose name contains token, secret, jwt, credential or api_key is replaced by a mark, and no
string value begins with sk-, gitea_ or eyj.  The names of keys and the other fields of the node
are shown as they are. *)
Theorem evidence_grants_nothing c policy :
  ∃ pl, jget (evidence_node (evaluate c policy)) "payload" = JObj pl
    ∧ jget pl "grants_authority" = JBool false ∧ jget pl "active_apply_enabled" = JBool false
    ∧ (∀ d k x part, inside (JObj d) (JObj pl) → (k, x) ∈ d →
         part ∈ ["token"; "secret"; "jwt"; "credential"; "api_key"] → contains part (lower k) = true →
         x = JStr "[redacted]")
    ∧ (∀ s prefix, inside (JStr s) (JObj pl) → prefix ∈ ["sk-"; "gitea_"; "eyj"] →
         startswith (lower s) prefix = false).
Proof.
  destruct (evaluate_grants_nothing c policy) as (pl & Hpl & [Hk Ht] & Hg & Ha). exists pl. repeat split; try done.
  - intros d k x part Hi Hx Hp Hc. apply (Hk d k x Hi Hx). by exists part.
  - intros s prefix Hi Hp. apply not_true_iff_false. intros Hs. apply (Ht s Hi). by exists prefix.
Qed.

(** * Concrete candidates *)

Definition full_gates : Gates :=
  mkGates None [] true RvPassed PfPassed (Some "5% for a day") (Some "redeploy the parent") true 100 false.

Definition sample_variant : EvolutionVariantCandidate :=
  mkEvolutionVariant full_gates EvBreed "agent:a" ["agent:b"] true [] [] [] [] 50 100
    [("agent:b", RvPassed)] [("agent:b", PfPassed)] ["agent:b"] None true None None.

Lemma gated_approvable ty sub targets capability evidence effect : targets ≠ [] → capability ≠ [] →
  approvable (proposal_of full_gates ty sub targets capability evidence effect) default_policy.
Proof. intros. split; cbn; done || lia || set_solver. Qed.

Example sample_variant_approved : status (evaluate (CEvolution sample_variant) None) = Approved.
Proof.
  apply candidate_approved_iff. split; [|split; [reflexivity|by apply gated_approvable]].
  cbn. repeat split; try done; set_solver.
Qed.

Definition sub_agent (name : string) (more : jobject) : json := JObj (("name", JStr name) :: more).
Definition composed (agents : list json) : jobject :=
  [("composition", JObj [("sub_agents", JList agents)])].

Definition crystal (source proposed : jobject) : CrystallizationCandidate :=
  mkCrystallization full_gates source proposed ["process:1"] 3 3 (Some "a").

Example wider_manifest_denied :
  crystallization_reasons (crystal (composed []) (composed [sub_agent "b" []]))
  = ["crystallized_manifest_widens_authority"].
Proof. vm_compute. reflexivity. Qed.

(** A dependency below a dependency is not among the bounds, so a manifest may add one and be
approved. *)
Lemma nested_dependency_unseen :
  let source := composed [sub_agent "b" []] in
  let proposed := composed [sub_agent "b" (composed [sub_agent "c" [("skills", JList [JStr "pay"])]])] in
  status (evaluate (CCrystallization (crystal source proposed)) None) = Approved.
Proof.
  cbv zeta. apply candidate_approved_iff. split; [|split; [reflexivity|by apply gated_approvable]].
  split; [reflexivity|]. apply bounds_reach. vm_compute. reflexivity.
Qed.

(** The evidence redacts values only: a key, or the label of the node, that looks like a secret is shown. *)
Lemma evidence_names_shown :
  let p := mkProposal None "sk-live-2" SyntheticManifest ["agent:a"] [("actions", jstrs ["propose"])]
             [[("sk-live-1", JInt 1)]] "effect" RLow 0 None 2 true RvPassed PfPassed None true false false false in
  let node := evidence_node (evaluate_self_improvement_proposal p default_policy) in
  jget node "label" = JStr "sk-live-2"
  ∧ jget (_mapping_or_empty (jget node "payload")) "evidence_refs" = JList [JObj [("sk-live-1", JInt 1)]].
Proof. vm_compute. split; reflexivity. Qed.
