(* ===== verification/Protocols.v ===== *)
(** The contracts of protocol packs (graph_kernel/protocols.py).

    A pack is read from untrusted JSON by [*_from_payload]; every model checks
    itself when it is built ([new_*], the [__post_init__] of the class) and is
    printed by [*_payload].  The summary of recorded traces, the last function
    of the file but one, is in [SimSteps]. *)
From Stdlib Require Import Ascii.
From S2P Require Import Prelude PyStr PyDict PyFloat PyJson.
Open Scope Z_scope.

Definition PROTOCOL_SIMULATION_KIND : string := "protocol_simulation".
Definition PROTOCOL_SIMULATION_TEMPLATE_REF : string := "protocol_simulation@v1".
Definition PROTOCOL_SIMULATION_SOURCE_DOCUMENT : string := "docs/design/capability-graph/protocol-packs.md".

(** * Identifiers and texts *)

(** [[a-z0-9]]. *)
Definition id_head (c : ascii) : bool := ((97 <=? code c) && (code c <=? 122))%N || is_digit c.

Definition char_in (l : list ascii) (c : ascii) : bool := existsb (Ascii.eqb c) l.

(** [[a-z0-9_.-]] and [[a-z0-9_.:@/-]]. *)
Definition protocol_char (c : ascii) : bool := id_head c || char_in ["_"; "."; "-"]%char c.
Definition safe_char (c : ascii) : bool := id_head c || char_in ["_"; "."; ":"; "@"; "/"; "-"]%char c.

(** A full match of one character of [id_head] and any number of [tail]. *)
Definition id_match (tail : ascii → bool) (s : string) : bool :=
  match chars s with
  | c :: l => id_head c && forallb tail l
  | [] => false
  end.

Definition _REDACTION_CLASSES : list string :=
  ["public"; "owner"; "internal"; "security"; "secret_ref"; "authority"; "signal"].
Definition _SEVERITIES : list string := ["info"; "warning"; "critical"; "blocker"].
Definition risk_classes : list string := ["low"; "medium"; "high"; "dangerous"].

(** [str(value or dflt)]. *)
Definition text_or (dflt : string) (value : json) : string := py_str (py_or value (JStr dflt)).

Definition _safe_id (field : string) (value : json) : res string :=
  let out := strip (text_or "" value) in
  if id_match safe_char out then Ok out
  else Raise (ValueError (field +:+ " must be a safe lowercase identifier")).

Definition _nonempty (field : string) (max_length : Z) (value : json) : res string :=
  let out := strip (text_or "" value) in
  if out =s? "" then Raise (ValueError (field +:+ " must be non-empty"))
  else if Z.of_nat (String.length out) >? max_length then
    Raise (ValueError (field +:+ " exceeds " +:+ dec max_length +:+ " characters"))
  else Ok out.

(** The stripped values without blanks and repetitions, in their order. *)
Definition add_item (out : list string) (value : string) : list string :=
  let item := strip value in if item =s? "" then out else add_once item out.

Definition normalized (values : list string) : list string := foldl add_item [] values.

Definition required_values (message : string) (out : list string) : res (list string) :=
  match out with [] => Raise (ValueError message) | _ => Ok out end.

Definition _normalize_tuple (field : string) (required : bool) (values : list string) : res (list string) :=
  let out := normalized values in
  if required then required_values (field +:+ " must include at least one value") out else Ok out.

Definition _normalize_template_refs (values : list string) : res (list string) :=
  required_values "protocol ref must include at least one template ref" (normalized values).

Definition member (message : string) (l : list string) (s : string) : res string :=
  if str_in s l then Ok s else Raise (ValueError message).

(** The items of [for item in value]. *)
Definition py_items (value : json) : res (list json) :=
  match value with
  | JList l => Ok l
  | JObj d => Ok (map JStr (keys d))
  | JStr s => Ok (map (λ c, JStr (String c "")) (chars s))
  | _ => Raise TypeError
  end.

(** [tuple(str(item) for item in value.get(k, []))]. *)
Definition text_items (value : jobject) (k : string) : res (list string) :=
  py_str_list (jget_or value k (JList [])).

(** [tuple(cls.from_payload(dict(item)) for item in value.get(k, []))]. *)
Definition model_items {A} (from_payload : jobject → res A) (value : jobject) (k : string) : res (list A) :=
  items ← py_items (jget_or value k (JList []));
  res_map (λ item, d ← py_dict item; from_payload d) items.

Definition safety_marks : jobject :=
  [("simulation_only", JBool true); ("proposal_only", JBool true); ("active_apply_enabled", JBool false)].

(** * References *)

Record ProtocolRef : Type := mkProtocolRef {
  pr_id : string;
  pr_version : Z;
  pr_display_name : string;
  pr_template_refs : list string;
}.

(** [x or y] on texts. *)
Definition or_text (x y : string) : string := if x =s? "" then y else x.

Definition new_protocol_ref (id : string) (version : Z) (display_name : option string)
    (template_refs : list string) : res ProtocolRef :=
  let protocol_id := strip id in
  if negb (id_match protocol_char protocol_id) then
    Raise (ValueError "protocol id must be a safe lowercase identifier")
  else if version <? 1 then Raise (ValueError "protocol version must be positive")
  else
    refs ← _normalize_template_refs template_refs;
    let shown := or_text (strip (or_text (default "" display_name) protocol_id)) protocol_id in
    Ok (mkProtocolRef protocol_id version shown refs).

Definition ref_payload (r : ProtocolRef) : jobject := [
  ("id", JStr (pr_id r)); ("version", JInt (pr_version r));
  ("display_name", JStr (or_text (pr_display_name r) (pr_id r)));
  ("template_refs", jstrs (pr_template_refs r))].

Definition ref_from_payload (value : jobject) : res ProtocolRef :=
  let template_refs := match jget value "template_refs" with
    | JList l => map py_str l
    | _ => [PROTOCOL_SIMULATION_TEMPLATE_REF]
    end in
  version ← py_int (py_or (jget value "version") (JInt 1));
  new_protocol_ref (text_or "" (jget value "id")) version
    (Some (text_or "" (py_or (jget value "display_name") (jget value "id")))) template_refs.

Definition protocol_ref_payload (protocol_id : string) (version : Z) (display_name : option string)
    (template_refs : option (list string)) : res jobject :=
  let refs := match template_refs with
    | None | Some [] => [PROTOCOL_SIMULATION_TEMPLATE_REF]
    | Some l => l
    end in
  ref_payload <$> new_protocol_ref protocol_id version display_name refs.

Definition protocol_simulation_metadata (protocol_ref : jobject) (template_ref : string)
    (budget_ceiling_cents run_budget_cents ttl_seconds max_episodes : Z) : res jobject :=
  ref ← ref_from_payload protocol_ref;
  Ok [("protocol_ref", JObj (ref_payload ref)); ("template_ref", JStr template_ref);
      ("source_document", JStr PROTOCOL_SIMULATION_SOURCE_DOCUMENT);
      ("source_section", JStr "V0 Build Guidance");
      ("budget_ceiling_cents", JInt budget_ceiling_cents); ("run_budget_cents", JInt run_budget_cents);
      ("ttl_seconds", JInt ttl_seconds); ("max_episodes", JInt max_episodes);
      ("simulation_only", JBool true); ("proposal_only", JBool true);
      ("active_apply_enabled", JBool false); ("kill_switch_available", JBool true)].

(** * Roles, signals, invariants *)

Record ProtocolRole : Type := mkProtocolRole {
  ro_name : string;
  ro_node_kind : string;
  ro_required_capabilities : list string;
  ro_description : option string;
}.

(** A check that is skipped on [None]. *)
Definition optional (check : json → res string) (value : json) : res (option string) :=
  match value with JNull => Ok None | _ => Some <$> check value end.

Definition new_protocol_role (name node_kind : string) (required_capabilities : list string)
    (description : json) : res ProtocolRole :=
  name ← _safe_id "role name" (JStr name);
  node_kind ← _safe_id "role node_kind" (JStr node_kind);
  caps ← _normalize_tuple "required_capabilities" false required_capabilities;
  description ← optional (_nonempty "role description" 500) description;
  Ok (mkProtocolRole name node_kind caps description).

Definition role_payload (r : ProtocolRole) : jobject :=
  let payload := [("name", JStr (ro_name r)); ("node_kind", JStr (ro_node_kind r));
                  ("required_capabilities", jstrs (ro_required_capabilities r))] in
  match ro_description r with
  | Some text => if text =s? "" then payload else payload ++ [("description", JStr text)]
  | None => payload
  end.

Definition role_from_payload (value : jobject) : res ProtocolRole :=
  caps ← text_items value "required_capabilities";
  new_protocol_role (text_or "" (jget value "name")) (text_or "agent" (jget value "node_kind")) caps
    (jget value "description").

Record ProtocolSignal : Type := mkProtocolSignal {
  sg_signal_type : string;
  sg_subject_role : option string;
  sg_emitter_role : option string;
  sg_severity : string;
  sg_redaction_class : string;
}.

Definition new_protocol_signal (signal_type : string) (subject_role emitter_role : json)
    (severity redaction_class : string) : res ProtocolSignal :=
  signal_type ← _safe_id "signal_type" (JStr signal_type);
  subject_role ← optional (_safe_id "signal subject_role") subject_role;
  emitter_role ← optional (_safe_id "signal emitter_role") emitter_role;
  severity ← member "signal severity is invalid" _SEVERITIES severity;
  redaction_class ← member "signal redaction_class is invalid" _REDACTION_CLASSES redaction_class;
  Ok (mkProtocolSignal signal_type subject_role emitter_role severity redaction_class).

Definition signal_payload (s : ProtocolSignal) : jobject := [
  ("signal_type", JStr (sg_signal_type s)); ("subject_role", jopt (sg_subject_role s));
  ("emitter_role", jopt (sg_emitter_role s)); ("severity", JStr (sg_severity s));
  ("redaction_class", JStr (sg_redaction_class s))].

Definition signal_from_payload (value : jobject) : res ProtocolSignal :=
  new_protocol_signal (text_or "" (jget value "signal_type")) (jget value "subject_role")
    (jget value "emitter_role") (text_or "info" (jget value "severity"))
    (text_or "signal" (jget value "redaction_class")).

Record ProtocolInvariant : Type := mkProtocolInvariant {
  iv_invariant_id : string;
  iv_statement : string;
  iv_severity : string;
}.

Definition new_protocol_invariant (invariant_id statement severity : string) : res ProtocolInvariant :=
  invariant_id ← _safe_id "invariant_id" (JStr invariant_id);
  statement ← _nonempty "invariant statement" 1000 (JStr statement);
  severity ← member "invariant severity is invalid" _SEVERITIES severity;
  Ok (mkProtocolInvariant invariant_id statement severity).

Definition protocol_invariant_payload (i : ProtocolInvariant) : jobject := [
  ("invariant_id", JStr (iv_invariant_id i)); ("statement", JStr (iv_statement i));
  ("severity", JStr (iv_severity i))].

Definition protocol_invariant_from_payload (value : jobject) : res ProtocolInvariant :=
  new_protocol_invariant (text_or "" (py_or (jget value "invariant_id") (jget value "id")))
    (text_or "" (jget value "statement")) (text_or "blocker" (jget value "severity")).

Record InvariantResult : Type := mkInvariantOutcome {
  re_invariant_id : string;
  re_passed : bool;
  re_message : string;
  re_evidence_refs : list string;
}.

Definition new_invariant_result (invariant_id : string) (passed : bool) (message : string)
    (evidence_refs : list string) : res InvariantResult :=
  invariant_id ← _safe_id "invariant_id" (JStr invariant_id);
  message ← _nonempty "invariant result message" 500 (JStr message);
  refs ← _normalize_tuple "evidence_refs" false evidence_refs;
  Ok (mkInvariantOutcome invariant_id passed message refs).

Definition invariant_result_payload (r : InvariantResult) : jobject := [
  ("invariant_id", JStr (re_invariant_id r)); ("passed", JBool (re_passed r));
  ("message", JStr (re_message r)); ("evidence_refs", jstrs (re_evidence_refs r))].

Definition invariant_result_from_payload (value : jobject) : res InvariantResult :=
  refs ← text_items value "evidence_refs";
  new_invariant_result (text_or "" (jget value "invariant_id")) (truthy (jget value "passed"))
    (text_or "" (jget value "message")) refs.

(** * Scenarios and traces *)

Record ProtocolScenario : Type := mkProtocolScenario {
  sc_scenario_id : string;
  sc_protocol_ref : ProtocolRef;
  sc_title : string;
  sc_invariant_ids : list string;
  sc_tags : list string;
  sc_max_events : Z;
}.

Definition new_protocol_scenario (scenario_id : string) (protocol_ref : ProtocolRef) (title : string)
    (invariant_ids tags : list string) (max_events : Z) : res ProtocolScenario :=
  scenario_id ← _safe_id "scenario_id" (JStr scenario_id);
  title ← _nonempty "scenario title" 500 (JStr title);
  invariant_ids ← _normalize_tuple "invariant_ids" true invariant_ids;
  tags ← _normalize_tuple "scenario tags" false tags;
  if (max_events <? 1) || (max_events >? 10000) then
    Raise (ValueError "scenario max_events must be between 1 and 10000")
  else Ok (mkProtocolScenario scenario_id protocol_ref title invariant_ids tags max_events).

Definition scenario_payload (s : ProtocolScenario) : jobject :=
  [("scenario_id", JStr (sc_scenario_id s)); ("protocol_ref", JObj (ref_payload (sc_protocol_ref s)));
   ("title", JStr (sc_title s)); ("invariant_ids", jstrs (sc_invariant_ids s));
   ("tags", jstrs (sc_tags s)); ("max_events", JInt (sc_max_events s))] ++ safety_marks.

(** [ProtocolRef.from_payload(dict(value.get("protocol_ref") or {}))]. *)
Definition ref_field (value : jobject) : res ProtocolRef :=
  d ← py_dict (py_or (jget value "protocol_ref") (JObj []));
  ref_from_payload d.

Definition scenario_from_payload (value : jobject) : res ProtocolScenario :=
  protocol_ref ← ref_field value;
  invariant_ids ← text_items value "invariant_ids";
  tags ← text_items value "tags";
  max_events ← py_int (py_or (jget value "max_events") (JInt 500));
  new_protocol_scenario (text_or "" (py_or (jget value "scenario_id") (jget value "id"))) protocol_ref
    (text_or "" (jget value "title")) invariant_ids tags max_events.

Record SimulationTrace : Type := mkSimulationTrace {
  st_scenario_id : string;
  st_protocol_ref : ProtocolRef;
  st_events : list jobject;
  st_invariant_results : list InvariantResult;
  st_final_state : jobject;
  st_alerts : list string;
  st_violations : list string;
  st_redacted_views : option jobject;
}.

Definition new_simulation_trace (scenario_id : string) (protocol_ref : ProtocolRef) (events : list jobject)
    (invariant_results : list InvariantResult) (final_state : jobject) (alerts violations : list string)
    (redacted_views : option jobject) : res SimulationTrace :=
  scenario_id ← _safe_id "scenario_id" (JStr scenario_id);
  alerts ← _normalize_tuple "alerts" false alerts;
  violations ← _normalize_tuple "violations" false violations;
  Ok (mkSimulationTrace scenario_id protocol_ref events invariant_results final_state alerts violations
        redacted_views).

Definition trace_passed (t : SimulationTrace) : bool := forallb re_passed (st_invariant_results t).

Definition simulation_trace_payload (t : SimulationTrace) : jobject :=
  [("scenario_id", JStr (st_scenario_id t)); ("protocol_ref", JObj (ref_payload (st_protocol_ref t)));
   ("passed", JBool (trace_passed t)); ("events", JList (map JObj (st_events t)));
   ("invariant_results", JList (map (JObj ∘ invariant_result_payload) (st_invariant_results t)));
   ("final_state", JObj (st_final_state t)); ("alerts", jstrs (st_alerts t));
   ("violations", jstrs (st_violations t)); ("redacted_views", JObj (default [] (st_redacted_views t)))]
  ++ safety_marks.

(** * Protocol classes *)

Record ProtocolClass : Type := mkProtocolClass {
  pc_protocol_ref : ProtocolRef;
  pc_roles : list ProtocolRole;
  pc_invariants : list ProtocolInvariant;
  pc_signals_consumed : list ProtocolSignal;
  pc_signals_emitted : list ProtocolSignal;
  pc_scenarios : list ProtocolScenario;
  pc_risk_class : string;
}.

(** The first value that is in [seen], or later twice. *)
Fixpoint first_repeated (seen values : list string) : option string :=
  match values with
  | [] => None
  | value :: rest => if str_in value seen then Some value else first_repeated (value :: seen) rest
  end.

Definition _ensure_unique (label : string) (values : list string) : res unit :=
  match first_repeated [] values with
  | Some value => Raise (ValueError ("duplicate " +:+ label +:+ ": " +:+ value))
  | None => Ok ()
  end.

(** [sorted(set(scenario.invariant_ids) - invariant_ids)]. *)
Definition unknown_invariants (invariant_ids : list string) (s : ProtocolScenario) : list string :=
  sorted_set (list_to_set (sc_invariant_ids s) ∖ list_to_set invariant_ids).

Definition check_scenario (invariant_ids : list string) (s : ProtocolScenario) : res unit :=
  match unknown_invariants invariant_ids s with
  | [] => Ok ()
  | unknown => Raise (ValueError ("scenario " +:+ repr_str (sc_scenario_id s)
                        +:+ " references unknown invariants: " +:+ py_str (jstrs unknown)))
  end.

Definition some_item {A} (message : string) (l : list A) : res unit :=
  match l with [] => Raise (ValueError message) | _ => Ok () end.

Definition new_protocol_class (protocol_ref : ProtocolRef) (roles : list ProtocolRole)
    (invariants : list ProtocolInvariant) (consumed emitted : list ProtocolSignal)
    (scenarios : list ProtocolScenario) (risk_class : string) : res ProtocolClass :=
  _ ← some_item "protocol class must include at least one role" roles;
  _ ← some_item "protocol class must include at least one invariant" invariants;
  _ ← member "protocol risk_class is invalid" risk_classes risk_class;
  _ ← _ensure_unique "role" (map ro_name roles);
  _ ← _ensure_unique "invariant" (map iv_invariant_id invariants);
  _ ← _ensure_unique "scenario" (map sc_scenario_id scenarios);
  _ ← res_map (check_scenario (map iv_invariant_id invariants)) scenarios;
  Ok (mkProtocolClass protocol_ref roles invariants consumed emitted scenarios risk_class).

Definition class_payload (c : ProtocolClass) : jobject :=
  [("protocol_ref", JObj (ref_payload (pc_protocol_ref c)));
   ("roles", JList (map (JObj ∘ role_payload) (pc_roles c)));
   ("signals_consumed", JList (map (JObj ∘ signal_payload) (pc_signals_consumed c)));
   ("signals_emitted", JList (map (JObj ∘ signal_payload) (pc_signals_emitted c)));
   ("invariants", JList (map (JObj ∘ protocol_invariant_payload) (pc_invariants c)));
   ("scenarios", JList (map (JObj ∘ scenario_payload) (pc_scenarios c)));
   ("risk_class", JStr (pc_risk_class c))] ++ safety_marks.

Definition class_from_payload (value : jobject) : res ProtocolClass :=
  protocol_ref ← ref_field value;
  roles ← model_items role_from_payload value "roles";
  invariants ← model_items protocol_invariant_from_payload value "invariants";
  consumed ← model_items signal_from_payload value "signals_consumed";
  emitted ← model_items signal_from_payload value "signals_emitted";
  scenarios ← model_items scenario_from_payload value "scenarios";
  new_protocol_class protocol_ref roles invariants consumed emitted scenarios
    (text_or "medium" (jget value "risk_class")).

(** * Readiness for live apply *)

Record ActiveRuntimeReadiness : Type := mkReadiness {
  rd_requested : bool;
  rd_allowed : bool;
  rd_missing_gates : list string;
  rd_satisfied_gates : list string;
  rd_active_apply_enabled : bool;
  rd_reason : string;
}.

Definition readiness_payload (r : ActiveRuntimeReadiness) : jobject := [
  ("requested", JBool (rd_requested r)); ("allowed", JBool (rd_allowed r));
  ("missing_gates", jstrs (rd_missing_gates r)); ("satisfied_gates", jstrs (rd_satisfied_gates r));
  ("active_apply_enabled", JBool (rd_active_apply_enabled r)); ("reason", JStr (rd_reason r))].

Definition evaluate_active_runtime_readiness (requested simulation_passed policy_reviewed owner_approved
    operator_enabled registry_enabled no_critical_findings redaction_reviewed : bool) :
    ActiveRuntimeReadiness :=
  let gates := [("simulation_passed", simulation_passed); ("policy_reviewed", policy_reviewed);
    ("owner_approved", owner_approved); ("operator_enabled", operator_enabled);
    ("registry_enabled", registry_enabled); ("no_critical_findings", no_critical_findings);
    ("redaction_reviewed", redaction_reviewed)] in
  let satisfied := map fst (List.filter snd gates) in
  let missing := map fst (List.filter (negb ∘ snd) gates) in
  let allowed := requested && bool_decide (missing = []) in
  mkReadiness requested allowed missing satisfied allowed
    (if allowed then "active runtime allowed by all gates" else "active runtime blocked by safety gates").
