(* ===== verification/ProtocolFacts.v ===== *)
(** Reading back what a protocol pack prints.

    Every model of [Protocols] is [stable]: what its constructor accepts, its
    payload gives again.  The constructors normalise (they strip, drop blanks and
    repetitions), so this holds of the values they build, and of any payload
    after it was read once. *)
From Stdlib Require Import Ascii.
From S2P Require Import Prelude PyStr PyDict PyFloat PyJson Protocols.
Open Scope Z_scope.

(** A model with its payload and its reader. *)
Class Payload (A : Type) : Type := {
  to_payload : A → jobject;
  from_payload : jobject → res A;
}.

Definition stable {A} `{Payload A} (x : A) : Prop := from_payload (to_payload x) = Ok x.

#[export] Instance ref_model : Payload ProtocolRef := {| to_payload := ref_payload; from_payload := ref_from_payload |}.
#[export] Instance role_model : Payload ProtocolRole :=
  {| to_payload := role_payload; from_payload := role_from_payload |}.
#[export] Instance signal_model : Payload ProtocolSignal :=
  {| to_payload := signal_payload; from_payload := signal_from_payload |}.
#[export] Instance invariant_model : Payload ProtocolInvariant :=
  {| to_payload := protocol_invariant_payload; from_payload := protocol_invariant_from_payload |}.
#[export] Instance result_model : Payload InvariantResult :=
  {| to_payload := invariant_result_payload; from_payload := invariant_result_from_payload |}.
#[export] Instance scenario_model : Payload ProtocolScenario :=
  {| to_payload := scenario_payload; from_payload := scenario_from_payload |}.
#[export] Instance class_model : Payload ProtocolClass :=
  {| to_payload := class_payload; from_payload := class_from_payload |}.

(** * Texts and lists of texts *)

Lemma text_or_full dflt s : s ≠ "" → text_or dflt (JStr s) = s.
Proof. intros H. unfold text_or, py_or. cbn. by rewrite (proj2 (String.eqb_neq s "") H). Qed.

Lemma text_or_empty s : text_or "" (JStr s) = s.
Proof. unfold text_or, py_or. cbn. by destruct (String.eqb_spec s "") as [->|]. Qed.

Lemma strings_back l : py_str_list (jstrs l) = Ok l.
Proof. unfold jstrs. cbn. rewrite map_map. cbn. by rewrite map_id. Qed.

Definition tidy_list (l : list string) : Prop := NoDup l ∧ Forall (λ s, clean s = true) l.

Lemma add_item_tidy out s : tidy_list out → tidy_list (add_item out s).
Proof.
  intros [Hn Hc]. unfold add_item, add_once. cbn zeta.
  destruct (String.eqb_spec (strip s) ""); [by split|].
  destruct (str_in (strip s) out) eqn:E; [by split|]. apply str_in_false in E. split.
  - apply NoDup_app. split; [done|]. split; [|apply NoDup_singleton]. set_solver.
  - apply Forall_app. split; [done|]. constructor; [by apply strip_clean|constructor].
Qed.

Lemma normalized_tidy l : tidy_list (normalized l).
Proof.
  unfold normalized. assert (tidy_list []) as H by by split; constructor.
  revert H. generalize (@nil string) as acc.
  induction l as [|s l IH]; intros acc H; [done|]. by apply IH, add_item_tidy.
Qed.

Lemma add_item_new out s : clean s = true → s ∉ out → add_item out s = out ++ [s].
Proof.
  intros [Hs Hne]%clean_spec Hin. unfold add_item, add_once. cbn zeta.
  by rewrite Hs, (proj2 (String.eqb_neq s "") Hne), (proj2 (str_in_false s out) Hin).
Qed.

Lemma foldl_tidy l acc : NoDup (acc ++ l) → Forall (λ s, clean s = true) l → foldl add_item acc l = acc ++ l.
Proof.
  intros Hn Hc. revert acc Hn. induction Hc as [|s l Hs Hl IH]; intros acc Hn; [by rewrite app_nil_r|].
  assert (s ∉ acc) as Hin by (apply NoDup_app in Hn as (_ & Hn & _); intros Hx; apply (Hn s Hx); by left).
  cbn [foldl]. rewrite add_item_new, IH by (done || by rewrite <-app_assoc). by rewrite <-app_assoc.
Qed.

Lemma normalized_id l : tidy_list l → normalized l = l.
Proof. intros [Hn Hc]. by apply (foldl_tidy l []). Qed.

Lemma normalized_idem l : normalized (normalized l) = normalized l.
Proof. apply normalized_id, normalized_tidy. Qed.

Lemma normalize_back field required l out :
  _normalize_tuple field required l = Ok out → _normalize_tuple field required out = Ok out.
Proof.
  unfold _normalize_tuple, required_values. destruct required.
  - destruct (normalized l) as [|s r] eqn:E; [done|]. intros [= <-]. by rewrite <-E, normalized_idem, E.
  - intros [= <-]. by rewrite normalized_idem.
Qed.

(** * Checked texts *)

Lemma safe_id_back field v s : _safe_id field v = Ok s → _safe_id field (JStr s) = Ok s ∧ s ≠ "".
Proof.
  unfold _safe_id. destruct (id_match _ _) eqn:E; [|done]. intros [= <-].
  rewrite text_or_empty, strip_idem, E. split; [done|]. intros H. by rewrite H in E.
Qed.

Lemma nonempty_back field n v s : _nonempty field n v = Ok s → _nonempty field n (JStr s) = Ok s ∧ s ≠ "".
Proof.
  unfold _nonempty. destruct (String.eqb_spec (strip (text_or "" v)) "") as [|Hne]; [done|].
  destruct (Z.of_nat _ >? n) eqn:E; [done|]. intros [= <-].
  by rewrite text_or_empty, strip_idem, (proj2 (String.eqb_neq _ "") Hne), E.
Qed.

Lemma optional_back check v o : (∀ w s, check w = Ok s → check (JStr s) = Ok s ∧ s ≠ "") →
  optional check v = Ok o → optional check (jopt o) = Ok o ∧ o ≠ Some "".
Proof.
  intros Hc H. assert (o = None ∨ ∃ s, o = Some s ∧ check v = Ok s) as [->|(s & -> & Hv)]; [|done|].
  - destruct v; cbn in H; [by injection H as <-; left|..];
      (destruct (check _) as [t|] eqn:E; [|done]; injection H as <-; right; by exists t).
  - destruct (Hc v s Hv) as [Hs Hne]. cbn. rewrite Hs. split; [done|congruence].
Qed.

Lemma member_back m l s r : member m l s = Ok r → r = s ∧ member m l r = Ok r.
Proof. unfold member. destruct (str_in s l) eqn:E; [|done]. intros [= <-]. by rewrite E. Qed.

(** * The models *)

(** Reads the fields of a payload. *)
Ltac fields := unfold jget, jget_or;
  cbn [lookup dict_lookup dict_get String.eqb Ascii.eqb Bool.eqb default app from_option id].

(** Opens the checks of a constructor. *)
Ltac checks := repeat match goal with
  | H : (_ ≫= _) = Ok _ |- _ =>
      let a := fresh "a" in let Ha := fresh "Ha" in apply res_bind_ok in H as (a & Ha & H)
  | H : Ok _ = Ok ?x |- _ => injection H as H; try subst x
  end.

Lemma id_match_full tail s : id_match tail s = true → s ≠ "".
Proof. by intros H ->. Qed.

Lemma or_text_full x y : y ≠ "" → or_text x y ≠ "".
Proof. unfold or_text. by destruct (String.eqb_spec x ""). Qed.

Lemma or_text_l x y : x ≠ "" → or_text x y = x.
Proof. intros H. unfold or_text. by rewrite (proj2 (String.eqb_neq x "") H). Qed.

Lemma shown_clean name id : strip id = id → id ≠ "" → clean (or_text (strip (or_text name id)) id) = true.
Proof.
  intros Hs Hne. unfold or_text at 1. destruct (String.eqb_spec (strip (or_text name id)) "").
  - by apply clean_spec.
  - by apply strip_clean.
Qed.

Lemma required_back m l r : required_values m l = Ok r → r = l ∧ l ≠ [].
Proof. destruct l; cbn; [done|]. by intros [= <-]. Qed.

Lemma refs_back l r : _normalize_template_refs l = Ok r → _normalize_template_refs r = Ok r.
Proof.
  unfold _normalize_template_refs. intros H. pose proof H as [-> Hne]%required_back.
  by rewrite normalized_idem.
Qed.

Lemma new_ref_back id version shown refs r : new_protocol_ref id version shown refs = Ok r →
  (new_protocol_ref (pr_id r) (pr_version r) (Some (pr_display_name r)) (pr_template_refs r) = Ok r)
  ∧ pr_id r ≠ "" ∧ pr_display_name r ≠ "" ∧ pr_version r ≠ 0.
Proof.
  unfold new_protocol_ref. destruct (id_match protocol_char (strip id)) eqn:Hid; [|done]. cbn [negb].
  destruct (version <? 1) eqn:Hv; [done|]. intros H. checks. cbn [pr_id pr_version pr_display_name pr_template_refs].
  pose proof (shown_clean (default "" shown) (strip id) (strip_idem id) (id_match_full _ _ Hid)) as Hc.
  revert Hc. generalize (or_text (strip (or_text (default "" shown) (strip id))) (strip id)). intros d [Hd Hn]%clean_spec.
  rewrite strip_idem, Hid, Hv, (refs_back _ _ Ha). cbn [negb mbind res_bind default from_option].
  rewrite (or_text_l d), Hd, or_text_l by done.
  split; [done|]. split; [by eapply id_match_full|]. split; [done|lia].
Qed.

Lemma py_or_int n y : n ≠ 0 → py_or (JInt n) y = JInt n.
Proof. intros H. unfold py_or. cbn. by rewrite (proj2 (Z.eqb_neq n 0) H). Qed.

Lemma ref_stable id version shown refs r : new_protocol_ref id version shown refs = Ok r → stable r.
Proof.
  intros (H & Hid & Hd & Hv)%new_ref_back. unfold stable. cbn [to_payload from_payload ref_model].
  unfold ref_from_payload, ref_payload. fields.
  rewrite (or_text_l _ _ Hd), (py_or_text _ _ Hd), !text_or_empty, (py_or_int _ _ Hv).
  cbn [jstrs py_int mbind res_bind]. rewrite map_map. cbn [py_str]. by rewrite map_id.
Qed.

(** Reads a payload back with the checks at hand. *)
Ltac read_back :=
  unfold text_items; fields; rewrite ?strings_back;
  cbn [mbind res_bind]; rewrite ?text_or_empty, ?text_or_full by done.

Lemma role_stable name kind caps d r : new_protocol_role name kind caps d = Ok r → stable r.
Proof.
  unfold new_protocol_role. intros H. checks.
  apply safe_id_back in Ha as [Ha Hn], Ha0 as [Ha0 Hk]. apply normalize_back in Ha1.
  apply (optional_back _ _ _ (nonempty_back _ _)) in Ha2 as [Ha2 Hd].
  unfold stable. cbn [to_payload from_payload role_model]. unfold role_from_payload, role_payload.
  cbn [ro_name ro_node_kind ro_required_capabilities ro_description].
  destruct a2 as [t|].
  - rewrite (proj2 (String.eqb_neq t "")) by congruence. read_back.
    unfold new_protocol_role. rewrite Ha, Ha0. cbn [mbind res_bind]. rewrite Ha1. cbn [mbind res_bind].
    cbn [jopt] in Ha2. by rewrite Ha2.
  - read_back. unfold new_protocol_role. rewrite Ha, Ha0. cbn [mbind res_bind]. by rewrite Ha1.
Qed.

Lemma severity_full m l s r : str_in "" l = false → member m l s = Ok r → r ≠ "".
Proof. unfold member. intros H. destruct (str_in s l) eqn:E; [|done]. intros [= <-] ->. congruence. Qed.

Lemma signal_stable ty sub em sev red s : new_protocol_signal ty sub em sev red = Ok s → stable s.
Proof.
  unfold new_protocol_signal. intros H. checks. apply safe_id_back in Ha as [Ha Hn].
  apply (optional_back _ _ _ (safe_id_back _)) in Ha0 as [Ha0 _], Ha1 as [Ha1 _].
  assert (a2 ≠ "" ∧ a3 ≠ "") as [Hs Hr] by (split; (eapply severity_full; [|eassumption]; done)).
  apply member_back in Ha2 as [_ Ha2], Ha3 as [_ Ha3].
  unfold stable. cbn [to_payload from_payload signal_model]. unfold signal_from_payload, signal_payload.
  cbn [sg_signal_type sg_subject_role sg_emitter_role sg_severity sg_redaction_class]. read_back.
  unfold new_protocol_signal. rewrite Ha. cbn [mbind res_bind]. rewrite Ha0. cbn [mbind res_bind].
  rewrite Ha1. cbn [mbind res_bind]. rewrite Ha2. cbn [mbind res_bind]. by rewrite Ha3.
Qed.

Lemma invariant_stable id st sev i : new_protocol_invariant id st sev = Ok i → stable i.
Proof.
  unfold new_protocol_invariant. intros H. checks. apply safe_id_back in Ha as [Ha Hn].
  apply nonempty_back in Ha0 as [Ha0 Hs]. assert (a1 ≠ "") by (eapply severity_full; [|eassumption]; done).
  apply member_back in Ha1 as [_ Ha1].
  unfold stable. cbn [to_payload from_payload invariant_model].
  unfold protocol_invariant_from_payload, protocol_invariant_payload.
  cbn [iv_invariant_id iv_statement iv_severity]. read_back. rewrite py_or_text, text_or_empty by done.
  unfold new_protocol_invariant. rewrite Ha. cbn [mbind res_bind]. rewrite Ha0. cbn [mbind res_bind].
  by rewrite Ha1.
Qed.

Lemma result_stable id ok msg refs r : new_invariant_result id ok msg refs = Ok r → stable r.
Proof.
  unfold new_invariant_result. intros H. checks. apply safe_id_back in Ha as [Ha Hn].
  apply nonempty_back in Ha0 as [Ha0 Hs]. apply normalize_back in Ha1.
  unfold stable. cbn [to_payload from_payload result_model].
  unfold invariant_result_from_payload, invariant_result_payload.
  cbn [re_invariant_id re_passed re_message re_evidence_refs]. read_back.
  unfold new_invariant_result. rewrite Ha. cbn [mbind res_bind]. rewrite Ha0. cbn [mbind res_bind].
  by rewrite Ha1.
Qed.

Lemma ref_field_back (d : jobject) (r : ProtocolRef) : stable r →
  jget d "protocol_ref" = JObj (ref_payload r) → ref_field d = Ok r.
Proof. intros H E. unfold ref_field. rewrite E. cbn. exact H. Qed.

Lemma scenario_stable id ref title ids tags n s : stable ref →
  new_protocol_scenario id ref title ids tags n = Ok s → stable s.
Proof.
  unfold new_protocol_scenario. intros Href H. checks.
  destruct ((n <? 1) || (n >? 10000)) eqn:E; [done|]. checks.
  apply safe_id_back in Ha as [Ha Hn]. apply nonempty_back in Ha0 as [Ha0 Ht].
  apply normalize_back in Ha1, Ha2.
  unfold stable. cbn [to_payload from_payload scenario_model].
  unfold scenario_from_payload. rewrite (ref_field_back _ ref) by done. cbn [mbind res_bind].
  unfold scenario_payload, safety_marks.
  cbn [sc_scenario_id sc_protocol_ref sc_title sc_invariant_ids sc_tags sc_max_events]. read_back.
  rewrite py_or_int, py_or_text by (done || lia). cbn [py_int mbind res_bind]. rewrite text_or_empty.
  unfold new_protocol_scenario. rewrite Ha. cbn [mbind res_bind]. rewrite Ha0. cbn [mbind res_bind].
  rewrite Ha1. cbn [mbind res_bind]. rewrite Ha2. cbn [mbind res_bind]. by rewrite E.
Qed.

(** * What a reader accepts is stable *)

Lemma read_ref d r : ref_from_payload d = Ok r → stable r.
Proof. unfold ref_from_payload. intros H. checks. by eapply ref_stable. Qed.

Lemma read_role d r : role_from_payload d = Ok r → stable r.
Proof. unfold role_from_payload. intros H. checks. by eapply role_stable. Qed.

Lemma read_signal d s : signal_from_payload d = Ok s → stable s.
Proof. apply signal_stable. Qed.

Lemma read_invariant d i : protocol_invariant_from_payload d = Ok i → stable i.
Proof. apply invariant_stable. Qed.

Lemma read_ref_field d r : ref_field d = Ok r → stable r.
Proof. unfold ref_field. intros H. checks. by eapply read_ref. Qed.

Lemma read_scenario d s : scenario_from_payload d = Ok s → stable s.
Proof. unfold scenario_from_payload. intros H. checks. eapply scenario_stable; [|exact H]. by eapply read_ref_field. Qed.

Lemma read_items {A} (read : jobject → res A) (P : A → Prop) (d : jobject) k (l : list A) :
  (∀ e x, read e = Ok x → P x) → model_items read d k = Ok l → Forall P l.
Proof.
  intros Hs Hl. unfold model_items in Hl. checks. apply res_map_ok in Hl.
  clear Ha. induction Hl as [|j x items l Hx _ IH]; [constructor|].
  apply res_bind_ok in Hx as (e & _ & Hx). constructor; [by eapply Hs|done].
Qed.

Lemma items_back {A} (print : A → jobject) (read : jobject → res A) (d : jobject) k (l : list A) :
  Forall (λ x, read (print x) = Ok x) l →
  jget_or d k (JList []) = JList (map (JObj ∘ print) l) → model_items read d k = Ok l.
Proof.
  intros Hl E. unfold model_items. rewrite E. cbn [py_items mbind res_bind]. clear E.
  induction Hl as [|x l Hx _ IH]; [done|]. cbn [map compose py_dict res_map mbind res_bind].
  rewrite Hx. cbn [mbind res_bind]. by rewrite IH.
Qed.

(** * Protocol classes *)

Lemma first_repeated_none seen l : first_repeated seen l = None ↔ NoDup l ∧ ∀ x, x ∈ l → x ∉ seen.
Proof.
  revert seen. induction l as [|y l IH]; intros seen; cbn; [split; [|done]; split; [constructor|by intros x Hx%elem_of_nil]|].
  destruct (str_in y seen) eqn:E.
  - apply str_in_elem in E. split; [done|]. intros [_ H]. exfalso. apply (H y); [left|done].
  - apply str_in_false in E. rewrite IH, NoDup_cons. set_solver.
Qed.

Lemma ensure_unique_ok label l : _ensure_unique label l = Ok () ↔ NoDup l.
Proof.
  unfold _ensure_unique. pose proof (first_repeated_none [] l) as H.
  destruct (first_repeated [] l) as [x|]; split; intros Hx; try done.
  - exfalso. destruct H as [_ H]. by discriminate H; split; [|intros y _ Hy%elem_of_nil].
  - by apply H.
Qed.

Lemma check_scenario_ok ids s : check_scenario ids s = Ok () ↔ sc_invariant_ids s ⊆ ids.
Proof.
  unfold check_scenario, unknown_invariants.
  assert (sorted_set (list_to_set (sc_invariant_ids s) ∖ list_to_set ids) = [] ↔ sc_invariant_ids s ⊆ ids) as H.
  { unfold sorted_set, sort_strs. split.
    - intros E x Hx. destruct (decide (x ∈ ids)); [done|]. exfalso.
      assert (x ∈ merge_sort str_le (elements (list_to_set (sc_invariant_ids s) ∖ list_to_set ids : gset string)))
        as Hin by (rewrite merge_sort_Permutation; set_solver).
      rewrite E in Hin. set_solver.
    - intros Hs. assert (list_to_set (sc_invariant_ids s) ∖ list_to_set ids = (∅ : gset string)) as -> by set_solver.
      done. }
  destruct (sorted_set _) as [|u us]; [|split; [done|]]; rewrite <-H; [done|]. done.
Qed.

(** The conditions on the parts of a class. *)
Record class_valid (c : ProtocolClass) : Prop := {
  class_roles : pc_roles c ≠ [];
  class_invariants : pc_invariants c ≠ [];
  class_risk : pc_risk_class c ∈ risk_classes;
  class_role_names : NoDup (map ro_name (pc_roles c));
  class_invariant_ids : NoDup (map iv_invariant_id (pc_invariants c));
  class_scenario_ids : NoDup (map sc_scenario_id (pc_scenarios c));
  class_scenarios : Forall (λ s, sc_invariant_ids s ⊆ map iv_invariant_id (pc_invariants c)) (pc_scenarios c);
}.

Lemma member_ok m l s r : member m l s = Ok r ↔ r = s ∧ s ∈ l.
Proof.
  unfold member. destruct (str_in s l) eqn:E.
  - apply str_in_elem in E. naive_solver.
  - apply str_in_false in E. naive_solver.
Qed.

Lemma some_item_ok {A} m (l : list A) : some_item m l = Ok () ↔ l ≠ [].
Proof. by destruct l. Qed.

Lemma unit_checks {A} (check : A → res unit) (P : A → Prop) l : (∀ x, check x = Ok () ↔ P x) →
  (∃ us, res_map check l = Ok us) ↔ Forall P l.
Proof.
  intros Hc. induction l as [|x l IH]; cbn; [split; [constructor|by exists []]|]. rewrite Forall_cons, <-Hc, <-IH.
  destruct (check x) as [[]|e]; cbn; [|naive_solver].
  destruct (res_map check l) as [us|e]; cbn; naive_solver.
Qed.

Lemma new_class_ok ref roles invs cons emit scens risk c :
  new_protocol_class ref roles invs cons emit scens risk = Ok c
  ↔ c = mkProtocolClass ref roles invs cons emit scens risk ∧ class_valid c.
Proof.
  unfold new_protocol_class. split.
  - intros H. checks. destruct a, a0, a2, a3, a4. split; [done|].
    apply some_item_ok in Ha, Ha0. apply member_ok in Ha1 as [-> Hr]. apply ensure_unique_ok in Ha2, Ha3, Ha4.
    split; try done. apply (unit_checks _ _ _ (check_scenario_ok _)). by eexists.
  - intros [-> [H1 H2 H3 H4 H5 H6 H7]]. cbn in H1, H2, H3, H4, H5, H6, H7.
    rewrite !(proj2 (some_item_ok _ _)), (proj2 (member_ok _ _ _ _) (conj eq_refl H3)) by done.
    cbn [mbind res_bind]. rewrite !(proj2 (ensure_unique_ok _ _)) by done. cbn [mbind res_bind].
    by apply (unit_checks _ _ _ (check_scenario_ok _)) in H7 as [us ->].
Qed.

(** Reading a payload once normalises it: what was read is printed to a payload
that reads as the same class, and every class that is read is valid. *)
Lemma class_read_stable v c : class_from_payload v = Ok c → stable c ∧ class_valid c.
Proof.
  unfold class_from_payload. intros H. checks. apply read_ref_field in Ha.
  apply (read_items _ stable _ _ _ read_role) in Ha0. apply (read_items _ stable _ _ _ read_invariant) in Ha1.
  apply (read_items _ stable _ _ _ read_signal) in Ha2, Ha3.
  apply (read_items _ stable _ _ _ read_scenario) in Ha4.
  pose proof H as Hv. apply new_class_ok in Hv as [-> Hv]. split; [|done].
  unfold stable. cbn [to_payload from_payload class_model]. unfold class_from_payload.
  rewrite (ref_field_back _ a) by done. cbn [mbind res_bind].
  rewrite (items_back role_payload _ _ _ _ Ha0) by reflexivity. cbn [mbind res_bind].
  rewrite (items_back protocol_invariant_payload _ _ _ _ Ha1) by reflexivity. cbn [mbind res_bind].
  rewrite (items_back signal_payload _ _ "signals_consumed" _ Ha2) by reflexivity. cbn [mbind res_bind].
  rewrite (items_back signal_payload _ _ _ _ Ha3) by reflexivity. cbn [mbind res_bind].
  rewrite (items_back scenario_payload _ _ _ _ Ha4) by reflexivity. cbn [mbind res_bind].
  unfold class_payload. fields. cbn [pc_risk_class].
  rewrite (text_or_full _ (text_or "medium" _)); [exact H|].
  destruct Hv as [_ _ Hr _ _ _ _]. cbn [pc_risk_class] in Hr. intros E.
  change (text_or "medium" (jget v "risk_class") = "") in E. rewrite E in Hr.
  by apply str_in_elem in Hr.
Qed.
