(* ===== verification/Scenarios.v ===== *)
(** The scenario catalog of the graph kernel (graph_kernel/scenarios.py).

    A scenario is a script over the kernel with the invariant it should prove.
    A script is a run from a fresh state that returns the results it computed;
    [_trace] adds the replay check and the exported views. *)
From Stdlib Require Import Ascii.
From S2P Require Import Prelude PyStr PyDict PyFloat PyJson Capability Policy KernelState KernelOps.
From S2P Require Import KernelRouting KernelLoops SimulationRun Protocols.
Open Scope Z_scope.

Record ScenarioDefinition : Type := mkScenario {
  scenario : ProtocolScenario;
  runner : KS (list InvariantResult);
}.

(** * Helpers of the scripts *)

(** [cap] with its default bounds; the scripts pass actions and resources only. *)
Definition cap (actions resources : list string) : Capability :=
  mkCap (list_to_set actions) resources [] (Some 100) 10 2 false.

(** The ids of the last three events. *)
Definition last_refs (s : GraphSimState) : list string :=
  let ids := map event_id (ledger s) in drop (length ids - 3) ids.

Definition _result (invariant_id : string) (passed : bool) (message : string) : KS InvariantResult :=
  s ← get_st; lift (new_invariant_result invariant_id passed message (last_refs s)).

(** The results of a script with one invariant. *)
Definition proves (invariant_id : string) (passed : bool) (message : string) : KS (list InvariantResult) :=
  r ← _result invariant_id passed message; mret [r].

Definition is_deny (d : decision) : bool := bool_decide (d = DDeny).
Definition is_allow (d : decision) : bool := bool_decide (d = DAllow).

(** [a and b], where reading [b] may raise. *)
Definition and_then (a : bool) (b : res bool) : KS bool := if a then lift b else mret false.

(** [rows[k]]. *)
Definition row_of {V} (rows : dict V) (k : string) : res V :=
  match rows !! k with Some row => Ok row | None => Raise (KeyError k) end.

(** [text in x] for a list of texts. *)
Definition listed (x : string) (j : json) : bool :=
  match j with JList l => existsb (λ y, is_text y x) l | _ => false end.

(** A script run on a state of its own; [s] is left alone. *)
Definition on_fresh {A} (m : KS A) : KS (A * GraphSimState) := λ s,
  match m (new_state 0) with
  | (Ok a, other) => (Ok (a, other), s)
  | (Raise e, _) => (Raise e, s)
  end.

(** * The scripts *)

Definition usd (text : string) : json := match float_of_text text with Ok x => JFloat x | Raise _ => JNull end.

Definition _s1_route_weight : KS (list InvariantResult) :=
  _ ← mint_capability "cheap-call" "cheap-agent" (cap ["call"] ["skill:run"]);
  _ ← mint_capability "expensive-call" "expensive-agent" (cap ["call"] ["skill:run"]);
  _ ← emit_signal "cheap-agent" "success" [("skill", JStr "run")];
  _ ← emit_signal "cheap-agent" "cost" [("usd", usd "0.01")];
  _ ← emit_signal "expensive-agent" "success" [("skill", JStr "run")];
  _ ← emit_signal "expensive-agent" "cost" [("usd", usd "1.0")];
  selected ← select_route "run" [("cheap-agent", "cheap-call"); ("expensive-agent", "expensive-call")];
  s ← get_st;
  explained ← and_then (bool_decide (selected = Some "cheap-agent"))
    (row ← row_of (routes s) "run"; Ok (truthy (jget row "explanation_refs")));
  proves "routing_explained_without_authority_gain" explained
    "cheaper successful agent selected with signal explanation".

Definition _s2_dependency_rewrite : KS (list InvariantResult) :=
  _ ← propose_rewrite "rewrite-cheaper-child" "agent:subject"
        [("rollback_plan", JStr "restore expensive child")];
  before ← apply_rewrite "rewrite-cheaper-child";
  _ ← approve_rewrite "rewrite-cheaper-child" "passed" true;
  after ← apply_rewrite "rewrite-cheaper-child";
  proves "rewrite_requires_approval_review_canary" (is_deny before && is_allow after)
    "dependency replacement was staged, reviewed, canaried, then applied".

Definition _s3_repeated_failure_review : KS (list InvariantResult) :=
  _ ← mint_capability "review-cap" "agent-reviewer" (cap ["review"] ["agent:*"]);
  _ ← emit_signal "agent-a" "failure" [("shape", JStr "same_task")];
  _ ← start_review_loop "review-loop" "agent-reviewer" "agent-a" "review-cap" 10 10 3;
  finding ← emit_review_finding "review-loop" "agent-reviewer" "agent-a" "finding-1" "warning" 1 false;
  direct ← propose_fix_from_finding "review-loop" "finding-1" "sip-fix" true;
  proposal ← propose_fix_from_finding "review-loop" "finding-1" "sip-fix" false;
  s ← get_st;
  ok ← and_then (is_allow finding && is_deny direct && is_allow proposal)
    (row ← row_of (rewrites s) "sip-fix"; applied ← jitem row "applied"; Ok (negb (truthy applied)));
  proves "evaluator_findings_only" ok "reviewer emitted finding and proposal without direct mutation".

Definition _s4_critical_blocks_promotion : KS (list InvariantResult) :=
  _ ← propose_rewrite "promote-version" "version:sha:bad" [("rollback_plan", JStr "keep old version")];
  _ ← approve_rewrite "promote-version" "critical" true;
  blocked ← apply_rewrite "promote-version";
  s ← get_st;
  ok ← and_then (is_deny blocked)
    (row ← row_of (rewrites s) "promote-version"; Ok (negb (truthy (jget row "applied"))));
  proves "critical_review_blocks_promotion" ok "critical review blocked promotion rewrite".

Definition _s5_unsafe_freeze : KS (list InvariantResult) :=
  _ ← mint_capability "call-cap" "agent-a" (cap ["call"] ["skill:run"]);
  _ ← emit_signal "policy" "unsafe_behavior" [("target", JStr "agent-a"); ("severity", JStr "critical")];
  _ ← freeze_node "agent-a" "unsafe signal";
  denied ← use_capability "call-cap" "call" "skill:run" 0;
  s ← get_st;
  proves "unsafe_signal_freezes_edges" (is_deny denied && bool_decide ("agent-a" ∈ frozen_nodes s))
    "unsafe signal froze use".

Definition _s6_memory_review_before_purge : KS (list InvariantResult) :=
  _ ← create_node "memory:agent-a:notes";
  _ ← add_credential "retention-hold-ref";
  _ ← emit_signal "memory:agent-a:notes" "stale_memory" [("namespace", JStr "notes")];
  denied ← apply_delete "memory:agent-a:notes";
  preview ← preview_delete "memory:agent-a:notes";
  applied ← apply_delete "memory:agent-a:notes";
  ok ← and_then (is_deny denied && is_allow applied)
    (held ← jitem preview "credentials"; Ok (listed "retention-hold-ref" held));
  proves "memory_purge_requires_retention_preview" ok
    "memory purge required preview/retention evidence before apply".

Definition _s7_fork_trust_reset : KS (list InvariantResult) :=
  _ ← create_node "agent:parent";
  _ ← create_node "agent:fork";
  _ ← mint_capability "parent-trust" "agent:parent" (cap ["certify"] ["version:parent"]);
  _ ← emit_signal "agent:fork" "fork_created" [("parent", JStr "agent:parent")];
  denied ← use_capability "parent-trust" "certify" "version:fork" 0;
  s ← get_st;
  proves "fork_trust_not_inherited_by_default"
    (is_deny denied && negb (str_in "agent:fork" (values (capability_owner s))))
    "fork received lineage signal but no parent trust capability".

Definition _s8_child_scope : KS (list InvariantResult) :=
  _ ← mint_capability "parent-read" "parent" (cap ["read"] ["repo/*"]);
  denied ← delegate "parent-read" "child-write" "child" (cap ["write"] ["repo/private.py"]);
  narrowed ← delegate "parent-read" "child-read" "child" (cap ["read"] ["repo/private.py"]);
  s ← get_st;
  child ← lift (row_of (capabilities s) "child-read");
  parent ← lift (row_of (capabilities s) "parent-read");
  proves "child_capability_lte_parent"
    (is_deny denied && bool_decide (narrowed = DAllow ∨ narrowed = DNarrow) && is_subset_of child parent)
    "child write denied and child read remained beneath parent ceiling".

Definition _s9_scope_union : KS (list InvariantResult) :=
  denied ← request_union ["read-repo"; "write-output"] "unsafe-union";
  proves "implicit_union_forbidden" (is_deny denied) "implicit grant union was denied".

Definition _s10_delete_cascade : KS (list InvariantResult) :=
  _ ← create_node "agent-a";
  _ ← mint_capability "root" "agent-a" (cap ["call"; "read"] ["skill:*"; "repo/*"]);
  _ ← delegate "root" "child" "agent-a" (cap ["call"] ["skill:run"]);
  _ ← start_process "proc-1" "agent-a" "child" 10 10 3 0 10 0;
  _ ← add_credential "cred-1";
  preview ← preview_delete "agent-a";
  applied ← apply_delete "agent-a";
  ok ← and_then (is_allow applied)
    (grants ← jitem preview "child_grants"; active ← jitem preview "active_processes";
     Ok (listed "child" grants && listed "proc-1" active));
  proves "delete_preview_before_apply" ok
    "delete preview listed grants and processes before revoke cascade".

(** The same use in the two orders; the events of the second run are known to
the first state, so applying them there changes nothing. *)
Definition _s11_revocation_race : KS (list InvariantResult) :=
  _ ← mint_capability "cap" "agent" (cap ["call"] ["skill:run"]);
  before ← use_capability "cap" "call" "skill:run" 0;
  _ ← revoke_capability "cap";
  after ← use_capability "cap" "call" "skill:run" 0;
  second ← on_fresh
    (_ ← mint_capability "cap" "agent" (cap ["call"] ["skill:run"]);
     _ ← revoke_capability "cap";
     use_capability "cap" "call" "skill:run" 0);
  _ ← for_each (ledger second.2) apply_event;
  proves "revocation_stops_later_use" (is_allow before && is_deny after && is_deny second.1)
    "capability use after revocation was denied in both orderings".

Definition last_event_type (s : GraphSimState) : res string :=
  match last (ledger s) with Some e => Ok (event_type e) | None => Raise IndexError end.

Definition _s12_rank_no_authority : KS (list InvariantResult) :=
  _ ← emit_signal "popular-agent" "taste" [("rank", JInt 1)];
  selected ← select_route "run" [("popular-agent", "missing-cap")];
  s ← get_st;
  ok ← and_then (bool_decide (selected = None))
    (last ← last_event_type s; Ok (last =s? "route.rejected"));
  proves "status_taste_rank_never_grants_authority" ok
    "taste/rank signal could not authorize a missing call capability".

Definition _s13_recursive_stop : KS (list InvariantResult) :=
  _ ← mint_capability "process-cap" "agent-a" (cap ["call"] ["skill:run"]);
  _ ← recurse_process "recursive" "agent-a" "process-cap" 3;
  s ← get_st;
  proves "recursive_activation_bounded" (str_in "max_depth_exceeded" (alerts s))
    "recursive activation stopped at max depth".

(** The replay of a state, with its last event applied once more. *)
Definition replay_and_repeat (s : GraphSimState) : res GraphSimState :=
  replayed ← replay (map (inr ∘ event_dump) (ledger s));
  match last (ledger s) with
  | None => Raise IndexError
  | Some e => match apply_event e replayed with
              | (Ok _, r) => Ok r
              | (Raise x, _) => Raise x
              end
  end.

Definition _s14_replay_projection : KS (list InvariantResult) :=
  _ ← create_node "agent-a";
  _ ← mint_capability "cap" "agent-a" (cap ["call"] ["skill:run"]);
  _ ← emit_signal "agent-a" "success" [("summary", JStr "ok")];
  s ← get_st;
  replayed ← lift (replay_and_repeat s);
  proves "replay_deterministic"
    (same_summary replayed s && Nat.eqb (length (ledger replayed)) (length (ledger s)))
    "projection rebuild matched direct state and duplicate event was idempotent".

(** [text in str(view)]. *)
Definition shown (v : view) (text : string) (s : GraphSimState) : bool :=
  contains text (py_str (JObj (export_view v s))).

Definition _s15_redaction : KS (list InvariantResult) :=
  _ ← create_node "agent-a";
  _ ← emit_signal "agent-a" "success"
        [("summary", JStr "ok"); ("signed_token", JStr "gitea_super_secret");
         ("private_file", JStr "agents/agent-a/secret.py"); ("object_key", JStr "private/object")];
  s ← get_st;
  let leaked_token := existsb (λ v, shown v "gitea_super_secret" s) [VPublic; VOwner; VOperator] in
  let leaked_public_object := existsb (λ v, shown v "private/object" s) [VPublic; VOperator] in
  let public_file_hidden := negb (shown VPublic "agents/agent-a/secret.py" s) in
  proves "redaction_excludes_secret_material"
    (negb leaked_token && negb leaked_public_object && public_file_hidden)
    "public/operator/owner exports did not include secret material".

(** * The catalog *)

Definition _INVARIANT_STATEMENTS : dict string := [
  ("child_capability_lte_parent", "child capabilities must be less than or equal to parent capabilities");
  ("critical_review_blocks_promotion", "critical review findings block promotion by default");
  ("delete_preview_before_apply", "deletion requires dependency preview before apply");
  ("evaluator_findings_only", "evaluators may emit findings and proposals but may not mutate directly");
  ("fork_trust_not_inherited_by_default",
   "forks inherit lineage refs but not trust/certification by default");
  ("implicit_union_forbidden", "implicit grant union is forbidden");
  ("memory_purge_requires_retention_preview", "memory purge requires retention/dependency preview");
  ("recursive_activation_bounded", "recursive activation must stop on configured bounds");
  ("redaction_excludes_secret_material",
   "exports must not include tokens, keys, credentials, or private refs");
  ("replay_deterministic", "ledger replay must match direct state and duplicate events must be idempotent");
  ("revocation_stops_later_use", "revoked capabilities cannot be used after revocation");
  ("rewrite_requires_approval_review_canary",
   "rewrites require approval, review, and canary gates before apply");
  ("routing_explained_without_authority_gain",
   "routing weights must cite signals and never grant authority");
  ("status_taste_rank_never_grants_authority",
   "status, taste, rank, and marketplace signals cannot authorize actions");
  ("unsafe_signal_freezes_edges", "unsafe signals freeze mutation/call surfaces according to policy")
].

(** [text.title()] on ASCII text: a letter is upper case iff no letter precedes it. *)
Fixpoint title_chars (after_letter : bool) (l : list ascii) : list ascii :=
  match l with
  | [] => []
  | c :: l' =>
      let letter := is_alnum c && negb (is_digit c) in
      (if after_letter then [lower_char c] else upper_char c) ++ title_chars letter l'
  end.

Definition title (s : string) : string := of_chars (title_chars false (chars s)).

Definition _scenario (scenario_id title_text protocol_id : string) (invariant_ids tags : list string) :
    res ProtocolScenario :=
  ref ← new_protocol_ref protocol_id 1 (Some (title (replace_char "_" " " protocol_id)))
          ["graph_kernel_scenarios@v1"];
  new_protocol_scenario scenario_id ref title_text (invariant_ids ++ ["replay_deterministic"]) tags 500.

(** A row of the catalog: id, title, protocol, invariant, tags and script. *)
Record catalog_row : Type := mkRow {
  cr_id : string;
  cr_title : string;
  cr_protocol : string;
  cr_invariants : list string;
  cr_tags : list string;
  cr_runner : KS (list InvariantResult);
}.

Definition catalog_rows : list catalog_row := [
  mkRow "s1_route_weight" "Cheap successful agent gains routing weight" "market"
    ["routing_explained_without_authority_gain"] ["routing"; "signals"; "market"] _s1_route_weight;
  mkRow "s2_dependency_rewrite" "Expensive dependency is replaced only through rewrite gates" "rewrite"
    ["rewrite_requires_approval_review_canary"] ["rewrite"; "canary"] _s2_dependency_rewrite;
  mkRow "s3_repeated_failure_review" "Repeated failure activates evaluator and proposal-only mutator path"
    "adversarial_evaluation" ["evaluator_findings_only"] ["review"; "self-improvement"]
    _s3_repeated_failure_review;
  mkRow "s4_critical_blocks_promotion" "Critical reviewer finding blocks promotion" "certification"
    ["critical_review_blocks_promotion"] ["review"; "promotion"] _s4_critical_blocks_promotion;
  mkRow "s5_unsafe_freeze" "Unsafe signal freezes mutation and call edges" "safety"
    ["unsafe_signal_freezes_edges"] ["policy"; "freeze"] _s5_unsafe_freeze;
  mkRow "s6_memory_review" "Stale memory triggers preview before purge" "collective_memory"
    ["memory_purge_requires_retention_preview"] ["memory"; "deletion"] _s6_memory_review_before_purge;
  mkRow "s7_fork_trust_reset" "Fork tries to inherit trust it should not receive" "evolution"
    ["fork_trust_not_inherited_by_default"] ["evolution"; "trust"] _s7_fork_trust_reset;
  mkRow "s8_child_scope" "Child process attempts scope expansion" "authority"
    ["child_capability_lte_parent"] ["authority"; "delegation"] _s8_child_scope;
  mkRow "s9_scope_union" "Scope union attempts privilege escalation" "authority"
    ["implicit_union_forbidden"] ["authority"; "delegation"] _s9_scope_union;
  mkRow "s10_delete_cascade" "Delete/revoke cascades through dependents" "retirement"
    ["delete_preview_before_apply"] ["deletion"; "revocation"] _s10_delete_cascade;
  mkRow "s11_revocation_race" "Active process races with revocation" "revocation"
    ["revocation_stops_later_use"] ["revocation"; "race"] _s11_revocation_race;
  mkRow "s12_rank_no_authority" "Marketplace or taste signal cannot affect authority" "market"
    ["status_taste_rank_never_grants_authority"] ["market"; "authority"] _s12_rank_no_authority;
  mkRow "s13_recursive_stop" "Runaway recursive activation stops" "process"
    ["recursive_activation_bounded"] ["process"; "budget"] _s13_recursive_stop;
  mkRow "s14_replay_projection" "Projection rebuild is deterministic" "ledger"
    ["replay_deterministic"] ["ledger"; "replay"] _s14_replay_projection;
  mkRow "s15_redaction" "Redaction prevents secret exposure" "redaction"
    ["redaction_excludes_secret_material"] ["redaction"; "security"] _s15_redaction
].

Definition catalog_entry (r : catalog_row) : res (string * ScenarioDefinition) :=
  s ← _scenario (cr_id r) (cr_title r) (cr_protocol r) (cr_invariants r) (cr_tags r);
  Ok (cr_id r, mkScenario s (cr_runner r)).

Definition SCENARIO_CATALOG : res (dict ScenarioDefinition) := res_map catalog_entry catalog_rows.

(** * Running a scenario *)

Definition replay_result (s : GraphSimState) : res InvariantResult :=
  replayed ← replay (map (inr ∘ event_dump) (ledger s));
  let replay_ok := same_summary replayed s in
  new_invariant_result "replay_deterministic" replay_ok
    (if replay_ok then "replay matched direct state" else "replay diverged from direct state") (last_refs s).

Definition _trace (sc : ProtocolScenario) (s : GraphSimState) (results : list InvariantResult) :
    res SimulationTrace :=
  r ← replay_result s;
  new_simulation_trace (sc_scenario_id sc) (sc_protocol_ref sc) (map event_dump (ledger s)) (results ++ [r])
    (summary s) (alerts s) (violations s)
    (Some [("public", JObj (export_view VPublic s)); ("owner", JObj (export_view VOwner s));
           ("operator", JObj (export_view VOperator s))]).

Definition run_definition (scenario_id : string) (d : ScenarioDefinition) : res SimulationTrace :=
  match runner d (new_state 0) with
  | (Raise e, _) => Raise e
  | (Ok results, s) =>
      if Z.of_nat (length (ledger s)) >? sc_max_events (scenario d) then
        Raise (ScenarioRunError ("scenario " +:+ scenario_id +:+ " exceeded max_events"))
      else _trace (scenario d) s results
  end.

Definition run_graph_kernel_scenario (scenario_id : string) : res SimulationTrace :=
  catalog ← SCENARIO_CATALOG;
  match catalog !! scenario_id with
  | None => Raise (ScenarioRunError ("unknown graph-kernel scenario: " +:+ scenario_id))
  | Some d => run_definition scenario_id d
  end.

Definition run_graph_kernel_scenarios (scenario_ids : list string) : res (list SimulationTrace) :=
  catalog ← SCENARIO_CATALOG;
  let ids := match scenario_ids with [] => sort_strs (keys catalog) | _ => scenario_ids end in
  if negb (bool_decide (NoDup ids)) then
    Raise (ScenarioRunError "duplicate scenario ids are not allowed")
  else res_map run_graph_kernel_scenario ids.

(** The scenarios of the catalog, in the order of their ids. *)
Definition sorted_scenarios (catalog : dict ScenarioDefinition) : list ProtocolScenario :=
  map (scenario ∘ snd) (sorted_items catalog).

Definition list_graph_kernel_scenarios : res (list jobject) :=
  catalog ← SCENARIO_CATALOG; Ok (map scenario_payload (sorted_scenarios catalog)).

Definition statement_of (invariant_id : string) : res ProtocolInvariant :=
  statement ← row_of _INVARIANT_STATEMENTS invariant_id;
  new_protocol_invariant invariant_id statement "blocker".

(** [ProtocolRole(name, node_kind, required_capabilities)] and
[ProtocolSignal(signal_type, severity)]. *)
Definition role (name node_kind : string) (caps : list string) : res ProtocolRole :=
  new_protocol_role name node_kind caps JNull.
Definition signal (signal_type severity : string) : res ProtocolSignal :=
  new_protocol_signal signal_type JNull JNull severity "signal".

Definition graph_kernel_protocol_class : res ProtocolClass :=
  protocol_ref ← new_protocol_ref "graph_kernel" 1 (Some "Graph Kernel Scenario Runtime")
                   ["graph_kernel_scenarios@v1"];
  catalog ← SCENARIO_CATALOG;
  let scenarios := sorted_scenarios catalog in
  invariants ← res_map statement_of (sorted_set (list_to_set (concat (map sc_invariant_ids scenarios))));
  subject ← role "subject" "agent" ["invoke"];
  evaluator ← role "evaluator" "evaluator" ["review"];
  router ← role "router" "router" ["route"];
  policy ← role "policy" "policy" ["approve"; "revoke"];
  consumed ← res_map (λ p, signal p.1 p.2)
    [("success", "info"); ("failure", "info"); ("cost", "info"); ("unsafe_behavior", "critical");
     ("taste", "info")];
  emitted ← res_map (λ p, signal p.1 p.2)
    [("invariant_checked", "info"); ("route_selected", "info"); ("rewrite_rejected", "warning")];
  new_protocol_class protocol_ref [subject; evaluator; router; policy] invariants consumed emitted scenarios
    "high".
