(* ===== verification/Registry.v ===== *)
(** The protocol registry (graph_kernel/registry.py).

    A pack is stored with the digest of its canonical JSON and a signature of
    the digest; a row is shown as enabled only when both hold and its contract
    is simulation-only.  The database is an interface ([RegistryTable]): the
    queries the code makes, with what it relies on as laws.  The lemmas are on
    what the registry shows of a row, and what seeding leaves in the table. *)
From S2P Require Import Prelude PyStr PyDict PyFloat PyJson PyHash Policy PolicyFacts Protocols.
From S2P Require Import ProtocolFacts.
From S2P Require Import Scenarios.
Open Scope Z_scope.

Definition SIGNATURE_ALGORITHM : string := "hmac-sha256".
Definition REGISTRY_SIGNER : string := "control-plane:protocol-registry".

(** * Entries *)

Record ProtocolRegistryEntry : Type := mkEntry {
  en_protocol_class : ProtocolClass;
  en_enabled_for : list string;
  en_policy_refs : list string;
  en_simulation_refs : list string;
  en_deprecated_at : option string;
  en_retired_at : option string;
}.

Definition protocol_id (e : ProtocolRegistryEntry) : string := pr_id (pc_protocol_ref (en_protocol_class e)).
Definition entry_enabled (e : ProtocolRegistryEntry) : bool := bool_decide (en_retired_at e = None).

Definition canonical_digest (value : jobject) : string := sha256_hex (canonical_json (JObj value)).

Definition count_of {A} (l : list A) : json := JInt (Z.of_nat (length l)).

Definition _seed_payload (e : ProtocolRegistryEntry) : jobject :=
  let c := en_protocol_class e in
  [("protocol_id", JStr (protocol_id e)); ("protocol_ref", jget (class_payload c) "protocol_ref");
   ("display_name", JStr (pr_display_name (pc_protocol_ref c))); ("risk_class", JStr (pc_risk_class c));
   ("enabled", JBool (entry_enabled e)); ("enabled_for", jstrs (en_enabled_for e));
   ("policy_refs", jstrs (en_policy_refs e)); ("simulation_refs", jstrs (en_simulation_refs e));
   ("deprecated_at", jopt (en_deprecated_at e)); ("retired_at", jopt (en_retired_at e));
   ("scenario_count", count_of (pc_scenarios c)); ("invariant_count", count_of (pc_invariants c));
   ("simulation_only", JBool true); ("proposal_only", JBool true); ("active_apply_enabled", JBool false);
   ("protocol_class", JObj (class_payload c))].

Definition _REGISTRY : res (dict ProtocolRegistryEntry) :=
  c ← graph_kernel_protocol_class;
  Ok [("graph_kernel", mkEntry c ["platform_private"] ["policy:simulation-only"] ["graph_kernel_scenarios@v1"]
                         None None)].

Definition get_protocol_registry_entry (protocol_id : string) : res ProtocolRegistryEntry :=
  registry ← _REGISTRY;
  match registry !! strip protocol_id with
  | Some e => Ok e
  | None => Raise (KeyError ("unknown protocol: " +:+ protocol_id))
  end.

Section registry.
(** The two settings, and the database's times with [_iso]. *)
Context (registry_secret : option string) (jwt_secret : string) {D : Type} (iso : D → string).

Definition sign_digest (digest : string) : string :=
  let secret := match registry_secret with
    | Some s => if s =s? "" then jwt_secret else s
    | None => jwt_secret
    end in
  hmac_sha256_hex secret digest.

Definition verify_signature (digest signature : string) : res bool :=
  if signature =s? "" then Ok false else compare_digest (sign_digest digest) signature.

Definition entry_payload (e : ProtocolRegistryEntry) : jobject :=
  let out := _seed_payload e in
  let digest := canonical_digest out in
  <["registry_integrity" := JObj [
      ("storage", JStr "static"); ("canonical_digest", JStr digest);
      ("signature_algorithm", JStr SIGNATURE_ALGORITHM); ("signature", JStr (sign_digest digest));
      ("signed_by", JStr REGISTRY_SIGNER); ("digest_valid", JBool true); ("signature_valid", JBool true);
      ("integrity_status", JStr "valid")]]> out.

Definition list_protocol_registry : res (list jobject) :=
  registry ← _REGISTRY; Ok (map (entry_payload ∘ snd) (sorted_items registry)).

(** * Rows *)

(** A row of the table; the JSON columns hold any value. *)
Record ProtocolRegistryPack : Type := mkPack {
  pk_protocol_id : string;
  pk_protocol_version : Z;
  pk_display_name : option string;
  pk_risk_class : string;
  pk_enabled : bool;
  pk_simulation_only : bool;
  pk_proposal_only : bool;
  pk_active_apply_enabled : bool;
  pk_enabled_for : json;
  pk_policy_refs : json;
  pk_simulation_refs : json;
  pk_protocol_class : json;
  pk_metadata_json : json;
  pk_canonical_digest : string;
  pk_signature : string;
  pk_signature_algorithm : string;
  pk_signed_by : string;
  pk_deprecated_at : option D;
  pk_retired_at : option D;
  pk_created_at : option D;
  pk_updated_at : option D;
}.

Definition _iso (value : option D) : json := jopt (iso <$> value).

(** [list(x or [])]. *)
Definition list_or_empty (x : json) : res json := JList <$> py_items (py_or x (JList [])).

(** [len(x) if isinstance(x, list) else 0]. *)
Definition list_count (x : json) : json := match x with JList l => count_of l | _ => JInt 0 end.

Definition dict_or_empty (x : json) : jobject := match x with JObj d => d | _ => [] end.

Definition _row_payload (row : ProtocolRegistryPack) : res jobject :=
  protocol_class ← py_dict (py_or (pk_protocol_class row) (JObj []));
  enabled_for ← list_or_empty (pk_enabled_for row);
  policy_refs ← list_or_empty (pk_policy_refs row);
  simulation_refs ← list_or_empty (pk_simulation_refs row);
  Ok [("protocol_id", JStr (pk_protocol_id row));
      ("protocol_ref", JObj (dict_or_empty (jget protocol_class "protocol_ref")));
      ("display_name", jopt (pk_display_name row)); ("risk_class", JStr (pk_risk_class row));
      ("enabled", JBool (pk_enabled row)); ("enabled_for", enabled_for); ("policy_refs", policy_refs);
      ("simulation_refs", simulation_refs); ("deprecated_at", _iso (pk_deprecated_at row));
      ("retired_at", _iso (pk_retired_at row)); ("scenario_count", list_count (jget protocol_class "scenarios"));
      ("invariant_count", list_count (jget protocol_class "invariants"));
      ("simulation_only", JBool (pk_simulation_only row)); ("proposal_only", JBool (pk_proposal_only row));
      ("active_apply_enabled", JBool (pk_active_apply_enabled row)); ("protocol_class", JObj protocol_class)].

(** The stored pack names the protocol of its row. *)
Definition metadata_valid (row : ProtocolRegistryPack) : bool :=
  match jget (dict_or_empty (pk_protocol_class row)) "protocol_ref" with
  | JObj ref => text_or "" (jget ref "id") =s? pk_protocol_id row
  | _ => false
  end.

Definition safe_contract (row : ProtocolRegistryPack) : bool :=
  metadata_valid row && pk_simulation_only row && pk_proposal_only row && negb (pk_active_apply_enabled row).

Definition in_service (row : ProtocolRegistryPack) : bool :=
  pk_enabled row && bool_decide (pk_retired_at row = None).

Definition integrity_status (row : ProtocolRegistryPack) (digest_valid signature_valid : bool) : string :=
  if negb (metadata_valid row) then "malformed_metadata"
  else if negb (safe_contract row) then "unsafe_active_apply_requested"
  else if negb digest_valid then "digest_mismatch"
  else if negb signature_valid then "signature_mismatch"
  else if negb (in_service row) then "disabled"
  else "valid".

Definition protocol_registry_row_payload (row : ProtocolRegistryPack) : res jobject :=
  payload ← _row_payload row;
  let computed_digest := canonical_digest payload in
  digest_valid ← compare_digest computed_digest (pk_canonical_digest row);
  signature_valid ← verify_signature (pk_canonical_digest row) (pk_signature row);
  let integrity_valid := digest_valid && signature_valid && safe_contract row in
  let enabled := in_service row && integrity_valid in
  Ok (<["registry_integrity" := JObj [
          ("storage", JStr "persistent"); ("canonical_digest", JStr (pk_canonical_digest row));
          ("computed_digest", JStr computed_digest);
          ("signature_algorithm", JStr (pk_signature_algorithm row));
          ("signature", JStr (pk_signature row)); ("signed_by", JStr (pk_signed_by row));
          ("digest_valid", JBool digest_valid); ("signature_valid", JBool signature_valid);
          ("metadata_valid", JBool (metadata_valid row)); ("safe_contract", JBool (safe_contract row));
          ("integrity_status", JStr (integrity_status row digest_valid signature_valid));
          ("created_at", _iso (pk_created_at row)); ("updated_at", _iso (pk_updated_at row))]]>
      (<["active_apply_enabled" := JBool false]> (<["proposal_only" := JBool true]>
      (<["simulation_only" := JBool true]> (<["enabled" := JBool enabled]> payload))))).

Definition protocol_registry_pack_from_entry (e : ProtocolRegistryEntry) : ProtocolRegistryPack :=
  let c := en_protocol_class e in
  let digest := canonical_digest (_seed_payload e) in
  {| pk_protocol_id := protocol_id e; pk_protocol_version := pr_version (pc_protocol_ref c);
     pk_display_name := Some (pr_display_name (pc_protocol_ref c)); pk_risk_class := pc_risk_class c;
     pk_enabled := entry_enabled e; pk_simulation_only := true; pk_proposal_only := true;
     pk_active_apply_enabled := false; pk_enabled_for := jstrs (en_enabled_for e);
     pk_policy_refs := jstrs (en_policy_refs e); pk_simulation_refs := jstrs (en_simulation_refs e);
     pk_protocol_class := JObj (class_payload c); pk_metadata_json := JObj [("source", JStr "platform_seed")];
     pk_canonical_digest := digest; pk_signature := sign_digest digest;
     pk_signature_algorithm := SIGNATURE_ALGORITHM; pk_signed_by := REGISTRY_SIGNER;
     pk_deprecated_at := None; pk_retired_at := None; pk_created_at := None; pk_updated_at := None |}.

(** * The table *)

(** The queries of the module: the row of a protocol and a version, all rows by
protocol and version, and the newest row of a protocol (of one version, if one
is given). *)
Class RegistryTable (T : Type) : Type := {
  find_version : T → string → Z → option ProtocolRegistryPack;
  all_rows : T → list ProtocolRegistryPack;
  newest : T → string → option Z → option ProtocolRegistryPack;
  add_row : T → ProtocolRegistryPack → T;
}.

(** What the code relies on: a row that is added is found, and others are as before. *)
Class RegistryTableLaws (T : Type) `{RegistryTable T} : Prop := {
  find_added : ∀ t row id version, find_version (add_row t row) id version =
    if bool_decide (id = pk_protocol_id row ∧ version = pk_protocol_version row ∧
                    find_version t id version = None)
    then Some row else find_version t id version;
}.

Context {T : Type} `{RegistryTable T}.

(** One entry of the loop: the table, and whether anything was inserted. *)
Definition seed_entry (acc : T * bool) (e : ProtocolRegistryEntry) : T * bool :=
  match find_version acc.1 (protocol_id e) (pr_version (pc_protocol_ref (en_protocol_class e))) with
  | None => (add_row acc.1 (protocol_registry_pack_from_entry e), true)
  | Some _ => acc
  end.

Definition ensure_seed_protocol_registry (t : T) : res (T * bool) :=
  registry ← _REGISTRY; Ok (foldl seed_entry (t, false) (values registry)).

Definition list_persistent_protocol_registry (t : T) : res (list jobject * T) :=
  seeded ← ensure_seed_protocol_registry t;
  payloads ← res_map protocol_registry_row_payload (all_rows seeded.1);
  Ok (payloads, seeded.1).

Definition get_persistent_protocol_registry_payload (t : T) (protocol_id : string) (version : option Z) :
    res (jobject * T) :=
  seeded ← ensure_seed_protocol_registry t;
  match newest seeded.1 (strip protocol_id) version with
  | None => Raise (KeyError ("unknown protocol: " +:+ protocol_id))
  | Some row => payload ← protocol_registry_row_payload row; Ok (payload, seeded.1)
  end.

End registry.

(** * What the registry shows *)

Section facts.
Context (registry_secret : option string) (jwt_secret : string) {D : Type} (iso : D → string).
Abbreviation sign := (sign_digest registry_secret jwt_secret).
Abbreviation row_payload := (protocol_registry_row_payload registry_secret jwt_secret iso).
Abbreviation pack_of := (protocol_registry_pack_from_entry registry_secret jwt_secret (D := D)).

Lemma compare_digest_ok a b r : compare_digest a b = Ok r → r = (a =s? b).
Proof. unfold compare_digest. destruct (forallb _ _); [|done]. by intros [= <-]. Qed.

Lemma sign_hex digest : forallb is_hex (chars (sign digest)) = true.
Proof. unfold sign_digest. apply hmac_hex_is_hex. Qed.

Lemma sign_nonempty digest : sign digest ≠ "".
Proof. unfold sign_digest. apply hmac_hex_nonempty. Qed.

Lemma verify_signed digest : verify_signature registry_secret jwt_secret digest (sign digest) = Ok true.
Proof.
  unfold verify_signature. rewrite (proj2 (String.eqb_neq _ "") (sign_nonempty digest)).
  apply compare_digest_same, sign_hex.
Qed.

Lemma verify_signature_ok digest signature r :
  verify_signature registry_secret jwt_secret digest signature = Ok r → r = (sign digest =s? signature).
Proof.
  unfold verify_signature. destruct (String.eqb_spec signature "") as [->|Hne].
  - intros [= <-]. symmetry. apply String.eqb_neq, sign_nonempty.
  - apply compare_digest_ok.
Qed.

(** The rows that are shown as enabled. *)
Definition trusted (row : ProtocolRegistryPack (D := D)) : Prop :=
  pk_enabled row = true ∧ pk_retired_at row = None ∧ metadata_valid row = true
  ∧ pk_simulation_only row = true ∧ pk_proposal_only row = true ∧ pk_active_apply_enabled row = false
  ∧ (canonical_digest <$> _row_payload iso row) = Ok (pk_canonical_digest row)
  ∧ pk_signature row = sign (pk_canonical_digest row).

Definition integrity (p : jobject) (k : string) : json :=
  match jget p "registry_integrity" with JObj d => jget d k | _ => JNull end.

Lemma row_payload_spec row p : row_payload row = Ok p →
  ∃ payload, _row_payload iso row = Ok payload ∧
  let dv := canonical_digest payload =s? pk_canonical_digest row in
  let sv := sign (pk_canonical_digest row) =s? pk_signature row in
  jget p "enabled" = JBool (in_service row && (dv && sv && safe_contract row))
  ∧ jget p "active_apply_enabled" = JBool false ∧ jget p "simulation_only" = JBool true
  ∧ jget p "proposal_only" = JBool true
  ∧ integrity p "integrity_status" = JStr (integrity_status row dv sv).
Proof.
  unfold protocol_registry_row_payload. intros H. checks. exists a. split; [done|].
  apply compare_digest_ok in Ha0 as ->. apply verify_signature_ok in Ha1 as ->. cbn zeta.
  generalize (canonical_digest a =s? pk_canonical_digest row), (sign (pk_canonical_digest row) =s? pk_signature row).
  intros dv sv. unfold integrity.
  split_and!; rewrite ?jget_insert, ?jget_insert_ne, ?jget_insert by done; done.
Qed.

Lemma integrity_status_valid (row : ProtocolRegistryPack (D := D)) dv sv :
  integrity_status row dv sv = "valid" ↔ in_service row = true ∧ dv = true ∧ sv = true ∧ safe_contract row = true.
Proof.
  unfold integrity_status. pose proof (eq_refl (safe_contract row)) as Hs. unfold safe_contract in Hs at 2.
  destruct (metadata_valid row), (safe_contract row), dv, sv, (in_service row); naive_solver.
Qed.

(** What is shown as enabled is exactly what can be trusted. *)
Lemma trusted_spec row payload : _row_payload iso row = Ok payload →
  trusted row ↔ in_service row = true ∧ canonical_digest payload = pk_canonical_digest row
                ∧ sign (pk_canonical_digest row) = pk_signature row ∧ safe_contract row = true.
Proof.
  intros E. unfold trusted, in_service, safe_contract. rewrite E, !andb_true_iff, negb_true_iff, bool_decide_eq_true.
  cbn. split; [intros (? & ? & ? & ? & ? & ? & [= ?] & ?)|]; naive_solver congruence.
Qed.

Lemma row_shown_enabled row p : row_payload row = Ok p →
  (jget p "enabled" = JBool true ↔ trusted row)
  ∧ (integrity p "integrity_status" = JStr "valid" ↔ trusted row)
  ∧ jget p "active_apply_enabled" = JBool false ∧ jget p "simulation_only" = JBool true
  ∧ jget p "proposal_only" = JBool true.
Proof.
  intros (payload & E & He & Ha & Hs & Hp & Hi)%row_payload_spec.
  rewrite (trusted_spec _ _ E), He, Hi.
  assert (∀ b, JBool b = JBool true ↔ b = true) as -> by (intros b; split; [by intros [= ->]|by intros ->]).
  assert (∀ t, JStr t = JStr "valid" ↔ t = "valid") as -> by (intros t; split; [by intros [= ->]|by intros ->]).
  rewrite integrity_status_valid, !andb_true_iff, !String.eqb_eq. split_and!; [tauto|tauto|done..].
Qed.

(** * Seeding *)

(** An entry without dates is stored under the digest of what it reads as. *)
Lemma seed_payload_back e : en_deprecated_at e = None → en_retired_at e = None →
  _row_payload iso (pack_of e) = Ok (_seed_payload e).
Proof.
  intros Hd Hr. unfold _row_payload, pack_of, _seed_payload.
  cbn [pk_protocol_class pk_enabled_for pk_policy_refs pk_simulation_refs pk_protocol_id pk_display_name
       pk_risk_class pk_enabled pk_deprecated_at pk_retired_at pk_simulation_only pk_proposal_only
       pk_active_apply_enabled].
  assert (∀ l, list_or_empty (jstrs l) = Ok (jstrs l)) as Hl by by intros [|x l].
  cbn [py_or truthy class_payload app py_dict mbind res_bind]. rewrite !Hl. cbn [mbind res_bind].
  rewrite Hd, Hr. unfold list_count, count_of, class_payload. fields. cbn [dict_or_empty].
  by rewrite !length_map.
Qed.
(** A seed without dates is shown as enabled. *)
Lemma seed_trusted e : en_deprecated_at e = None → en_retired_at e = None →
  ∃ p, row_payload (pack_of e) = Ok p ∧ trusted (pack_of e).
Proof.
  intros Hd Hr. pose proof (seed_payload_back e Hd Hr) as E.
  assert (trusted (pack_of e)) as Ht.
  { apply (trusted_spec _ _ E). unfold in_service, safe_contract, metadata_valid, entry_enabled. cbn.
    rewrite text_or_empty. unfold protocol_id. rewrite String.eqb_refl. unfold entry_enabled. by rewrite Hr. }
  unfold protocol_registry_row_payload. rewrite E. cbn [mbind res_bind].
  cbn [pk_canonical_digest pk_signature protocol_registry_pack_from_entry].
  rewrite compare_digest_same by apply hexdigest_is_hex, sha256_bytes. cbn [mbind res_bind].
  rewrite verify_signed. cbn [mbind res_bind]. by eexists.
Qed.

Context {T : Type} `{!RegistryTable (D := D) T} `{!RegistryTableLaws (D := D) T}.
Abbreviation seed := (seed_entry registry_secret jwt_secret (D := D)).

Definition entry_key (e : ProtocolRegistryEntry) : string * Z :=
  (protocol_id e, pr_version (pc_protocol_ref (en_protocol_class e))).

(** A row that is there stays. *)
Lemma seed_keeps acc e id v row : find_version acc.1 id v = Some row → find_version (seed acc e).1 id v = Some row.
Proof.
  intros Hf. unfold seed_entry. destruct (find_version acc.1 (protocol_id e) _) eqn:E; [done|]. cbn.
  rewrite find_added, bool_decide_eq_false_2; [done|]. intros (_ & _ & Hn). congruence.
Qed.

Lemma seed_adds acc e : is_Some (find_version (seed acc e).1 (entry_key e).1 (entry_key e).2).
Proof.
  unfold seed_entry, entry_key. cbn [fst snd].
  destruct (find_version acc.1 (protocol_id e) _) eqn:E; [by rewrite E|]. cbn.
  rewrite find_added, bool_decide_eq_true_2 by done. by eexists.
Qed.

Lemma foldl_seed_keeps es acc id v row :
  find_version acc.1 id v = Some row → find_version (foldl seed acc es).1 id v = Some row.
Proof. revert acc. induction es as [|e es IH]; intros acc Hf; [done|]. by apply IH, seed_keeps. Qed.

Lemma foldl_seed_adds es acc e : e ∈ es → is_Some (find_version (foldl seed acc es).1 (entry_key e).1 (entry_key e).2).
Proof.
  revert acc. induction es as [|d es IH]; intros acc; [by intros He%elem_of_nil|].
  intros [->|He]%elem_of_cons; [|by apply IH]. cbn [foldl].
  destruct (seed_adds acc d) as [row Hrow]. exists row. by apply foldl_seed_keeps.
Qed.

Lemma foldl_seed_stable es t : (∀ e, e ∈ es → is_Some (find_version t (entry_key e).1 (entry_key e).2)) →
  foldl seed (t, false) es = (t, false).
Proof.
  induction es as [|e es IH]; intros Hf; [done|]. cbn [foldl].
  assert (seed (t, false) e = (t, false)) as ->; [|apply IH; intros; apply Hf; by right].
  unfold seed_entry. cbn [fst]. destruct (Hf e) as [row Hrow]; [by left|].
  unfold entry_key in Hrow. cbn [fst snd] in Hrow. by rewrite Hrow.
Qed.
End facts.
