(* ===== verification/ProtocolProperties.v ===== *)
(** Properties of protocol packs, of the scenario catalog and of the registry. *)
From S2P Require Import Prelude PyStr PyDict PyFloat PyJson PyHash KernelState KernelLoops.
From S2P Require Import SimulationRun.
From S2P Require Import Protocols ProtocolFacts Scenarios Registry.
Open Scope Z_scope.

(** * Packs *)

(** C6: a protocol class read from any payload satisfies the conditions of the
class (roles and invariants present, names distinct, scenarios only about known
invariants, a known risk), and printing it gives a payload that reads as the
very same class: reading normalises once and for all. *)
Theorem protocol_class_roundtrip (v : jobject) (c : ProtocolClass) :
  class_from_payload v = Ok c → class_valid c ∧ class_from_payload (class_payload c) = Ok c.
Proof. intros [H Hv]%class_read_stable. by split. Qed.

Definition small_pack : jobject := [
  ("protocol_ref", JObj [("id", JStr " review "); ("version", JStr "2")]);
  ("roles", JList [JObj [("name", JStr "reviewer ");
                         ("required_capabilities", jstrs ["review"; " review"; ""])]]);
  ("invariants", JList [JObj [("id", JStr "findings_only"); ("statement", JStr "findings do not mutate")]]);
  ("scenarios", JList [JObj [("scenario_id", JStr "s1"); ("protocol_ref", JObj [("id", JStr "review")]);
                             ("title", JStr "one"); ("invariant_ids", jstrs ["findings_only"])]])].

Definition small_class : ProtocolClass :=
  let ref := mkProtocolRef "review" 2 "review" [PROTOCOL_SIMULATION_TEMPLATE_REF] in
  let ref1 := mkProtocolRef "review" 1 "review" [PROTOCOL_SIMULATION_TEMPLATE_REF] in
  mkProtocolClass ref [mkProtocolRole "reviewer" "agent" ["review"] None]
    [mkProtocolInvariant "findings_only" "findings do not mutate" "blocker"] [] []
    [mkProtocolScenario "s1" ref1 "one" ["findings_only"] [] 500] "medium".

Lemma small_pack_reads : class_from_payload small_pack = Ok small_class.
Proof. vm_compute. reflexivity. Qed.

Lemma protocol_class_roundtrip_witness : class_from_payload (class_payload small_class) = Ok small_class.
Proof. exact (proj2 (protocol_class_roundtrip small_pack small_class small_pack_reads)). Defined.

(** Live apply is allowed exactly when it is requested and no gate is missing. *)
Theorem readiness_iff requested g1 g2 g3 g4 g5 g6 g7 :
  let r := evaluate_active_runtime_readiness requested g1 g2 g3 g4 g5 g6 g7 in
  (rd_allowed r = true ↔ requested = true ∧ Forall (λ g, g = true) [g1; g2; g3; g4; g5; g6; g7])
  ∧ rd_active_apply_enabled r = rd_allowed r.
Proof.
  cbn zeta. split; [|done]. rewrite !Forall_cons.
  destruct requested, g1, g2, g3, g4, g5, g6, g7; cbn; split; try done; naive_solver.
Qed.

(** * The catalog *)

Lemma replay_result_ok s r : replay_result s = Ok r →
  ∃ replayed, replay (map (inr ∘ event_dump) (ledger s)) = Ok replayed ∧ re_passed r = same_summary replayed s.
Proof.
  unfold replay_result. intros H. checks. exists a. split; [done|].
  unfold new_invariant_result in H. by checks.
Qed.

(** Whatever the script, its trace passes exactly when every result of the script
passed and the replay of its events has the summary of the state they led to;
it then has at most the events the scenario allows. *)
Theorem trace_passed_iff id d t : run_definition id d = Ok t →
  ∃ s results replayed, runner d (new_state 0) = (Ok results, s)
  ∧ replay (map (inr ∘ event_dump) (ledger s)) = Ok replayed
  ∧ st_events t = map event_dump (ledger s) ∧ Z.of_nat (length (st_events t)) ≤ sc_max_events (scenario d)
  ∧ (trace_passed t = true ↔ Forall (λ r, re_passed r = true) results ∧ summary replayed = summary s).
Proof.
  unfold run_definition. destruct (runner d (new_state 0)) as [[results|e] s]; [|done].
  destruct (Z.gtb_spec (Z.of_nat (length (ledger s))) (sc_max_events (scenario d))) as [|Hle]; [done|].
  unfold _trace. intros H. checks. apply replay_result_ok in Ha as (replayed & Hr & Hp).
  unfold new_simulation_trace in H. checks. exists s, results, replayed. split_and!; try done.
  - cbn. by rewrite length_map.
  - unfold trace_passed. cbn. rewrite forallb_app, andb_true_iff, forallb_elem. cbn.
    rewrite andb_true_r, Hp, Forall_forall. unfold same_summary. by rewrite bool_decide_eq_true.
Qed.

(** A scenario of the catalog runs, passes, and has a result for each invariant
it declares. *)
Definition scenario_holds (p : string * ScenarioDefinition) : bool :=
  match run_graph_kernel_scenario p.1 with
  | Ok t => trace_passed t
      && forallb (λ i, str_in i (map re_invariant_id (st_invariant_results t))) (sc_invariant_ids (scenario p.2))
  | Raise _ => false
  end.

Lemma catalog_holds : match SCENARIO_CATALOG with Ok c => forallb scenario_holds c | Raise _ => false end = true.
Proof. vm_compute. reflexivity. Qed.

(** The catalog builds, and each of its scenarios runs to a trace that passes,
with a result for every invariant the scenario declares: the kernel shows in
each what the catalog claims of it. *)
Theorem scenario_catalog_proves :
  ∃ catalog, SCENARIO_CATALOG = Ok catalog
  ∧ (∀ id d, catalog !! id = Some d → ∃ t, run_graph_kernel_scenario id = Ok t
       ∧ trace_passed t = true
       ∧ sc_invariant_ids (scenario d) ⊆ map re_invariant_id (st_invariant_results t)).
Proof.
  pose proof catalog_holds as H. destruct SCENARIO_CATALOG as [catalog|]; [|done]. exists catalog. split; [done|].
  intros id d Hd%dict_lookup_elem. rewrite forallb_elem in H. specialize (H _ Hd). unfold scenario_holds in H.
  cbn [fst snd] in H. destruct (run_graph_kernel_scenario id) as [t|]; [|done]. exists t. split; [done|].
  apply andb_true_iff in H as [Ht Hi]. split; [done|]. intros i Hin.
  rewrite forallb_elem in Hi. by apply str_in_elem, Hi.
Qed.

(** The class the registry is seeded with reads back. *)
Lemma kernel_class_computed : match graph_kernel_protocol_class with
  | Ok c => class_from_payload (class_payload c) = Ok c
  | Raise _ => False
  end.
Proof. vm_compute. reflexivity. Qed.

Lemma kernel_class_built : ∃ c, graph_kernel_protocol_class = Ok c ∧ class_from_payload (class_payload c) = Ok c.
Proof. pose proof kernel_class_computed as H. destruct graph_kernel_protocol_class as [c|]; [by exists c|done]. Qed.

(** * The registry *)

Section registry.
Context (registry_secret : option string) (jwt_secret : string) {D : Type} (iso : D → string).

(** C15: a row is shown as enabled exactly when it is enabled and not retired, it
names its protocol and asks for simulation and proposals only, its digest is
that of its content and its signature is that of the digest under the
deployment's secret; its status is "valid" in exactly the same case, and
whatever is stored, it is never shown with live apply enabled. *)
Theorem registry_row_enabled_iff (row : ProtocolRegistryPack (D := D)) p :
  protocol_registry_row_payload registry_secret jwt_secret iso row = Ok p →
  (jget p "enabled" = JBool true ↔ trusted registry_secret jwt_secret iso row)
  ∧ (integrity p "integrity_status" = JStr "valid" ↔ trusted registry_secret jwt_secret iso row)
  ∧ jget p "active_apply_enabled" = JBool false ∧ jget p "simulation_only" = JBool true
  ∧ jget p "proposal_only" = JBool true.
Proof. apply row_shown_enabled. Qed.

Context {T : Type} `{!RegistryTable (D := D) T} `{!RegistryTableLaws (D := D) T}.

(** C24: seeding the table always succeeds; it leaves every row that was there, a
seeded entry is then found under its protocol and version, a row it would write
is trusted by the reader, and seeding again changes nothing. *)
Theorem seeding_is_idempotent (t : T) :
  ∃ registry t' inserted, _REGISTRY = Ok registry
  ∧ ensure_seed_protocol_registry registry_secret jwt_secret t = Ok (t', inserted)
  ∧ (∀ id v row, find_version t id v = Some row → find_version t' id v = Some row)
  ∧ (∀ e, e ∈ values registry → is_Some (find_version t' (entry_key e).1 (entry_key e).2)
       ∧ trusted registry_secret jwt_secret iso (protocol_registry_pack_from_entry registry_secret jwt_secret e))
  ∧ ensure_seed_protocol_registry registry_secret jwt_secret t' = Ok (t', false).
Proof.
  destruct kernel_class_built as (c & Hc & _). unfold ensure_seed_protocol_registry, _REGISTRY. rewrite Hc.
  cbn [mbind res_bind]. set (registry := [("graph_kernel", _)]). set (t' := foldl _ (t, false) (values registry)).
  exists registry, t'.1, t'.2. rewrite <-surjective_pairing. split_and!; [done|done|..].
  - intros id v row. apply (foldl_seed_keeps registry_secret jwt_secret (values registry) (t, false)).
  - intros e He. split; [by apply foldl_seed_adds|]. apply list_elem_of_singleton in He as ->.
    by destruct (seed_trusted registry_secret jwt_secret iso (mkEntry c ["platform_private"]
      ["policy:simulation-only"] ["graph_kernel_scenarios@v1"] None None)) as (p & _ & Hp).
  - f_equal. apply foldl_seed_stable. intros e He. by apply foldl_seed_adds.
Qed.
End registry.

(** The table as a list, newest row last. *)
Definition is_version {D} (id : string) (v : Z) (row : ProtocolRegistryPack (D := D)) : bool :=
  (pk_protocol_id row =s? id) && (pk_protocol_version row =? v).

#[export] Instance list_table {D} : RegistryTable (D := D) (list ProtocolRegistryPack) := {|
  find_version t id v := head (List.filter (is_version id v) t);
  all_rows t := t;
  newest t id v := last (List.filter (λ row, (pk_protocol_id row =s? id)
    && match v with Some n => pk_protocol_version row =? n | None => true end) t);
  add_row t row := t ++ [row];
|}.

#[export] Instance list_table_laws {D} : RegistryTableLaws (D := D) (list ProtocolRegistryPack).
Proof.
  constructor. intros t row id v. cbn. rewrite List.filter_app.
  destruct (List.filter (is_version id v) t) as [|r rs] eqn:E; cbn.
  - unfold is_version. destruct (String.eqb_spec (pk_protocol_id row) id), (Z.eqb_spec (pk_protocol_version row) v);
      cbn; case_bool_decide; naive_solver.
  - rewrite bool_decide_eq_false_2; [done|naive_solver].
Qed.

Lemma seeding_is_idempotent_witness : ∃ registry t' inserted, _REGISTRY = Ok registry
  ∧ ensure_seed_protocol_registry (D := unit) None "secret" [] = Ok (t', inserted).
Proof.
  destruct (seeding_is_idempotent None "secret" (λ _ : unit, "now") []) as (r & t' & b & H1 & H2 & _).
  exists r, t', b. split; [exact H1|exact H2].
Defined.

(** A seeded row is read back as enabled. *)
Lemma registry_row_enabled_iff_witness : ∃ p,
  protocol_registry_row_payload None "secret" (λ _ : unit, "now")
    (protocol_registry_pack_from_entry None "secret" (mkEntry small_class [] [] [] None None)) = Ok p
  ∧ jget p "enabled" = JBool true.
Proof.
  destruct (seed_trusted None "secret" (λ _ : unit, "now") (mkEntry small_class [] [] [] None None)
              eq_refl eq_refl) as (p & Hp & Ht).
  exists p. split; [exact Hp|]. exact (proj2 (proj1 (registry_row_enabled_iff _ _ _ _ _ Hp)) Ht).
Defined.

(** The dates of an entry are in its digest and not in its row: an entry that is
deprecated, and still enabled, is stored as a row whose digest does not match. *)
Definition deprecated_entry : ProtocolRegistryEntry :=
  mkEntry small_class ["platform_private"] [] [] (Some "2026-01-01T00:00:00+00:00") None.

Definition deprecated_row : ProtocolRegistryPack (D := unit) :=
  protocol_registry_pack_from_entry None "secret" deprecated_entry.

Lemma deprecated_seed_mismatch : entry_enabled deprecated_entry = true
  ∧ (canonical_digest <$> _row_payload (λ _ : unit, "now") deprecated_row) ≠ Ok (pk_canonical_digest deprecated_row).
Proof. split; [done|]. vm_compute. discriminate. Qed.
