(* ===== verification/Templates.v ===== *)
(** The templates of custom simulations (graph_kernel/templates.py).

    A template is a specification with a description; it is rendered by running
    it and checking that it has the invariants it declares. *)
From S2P Require Import Prelude PyStr PyDict PyFloat PyJson KernelState SimSteps.
From S2P Require Import Simulation.
From S2P Require Import SimulationRun Protocols.
Open Scope Z_scope.

Record CustomKernelSimulationTemplate : Type := mkTemplate {
  tp_template_id : string;
  tp_name : string;
  tp_kind : string;
  tp_risk_class : string;
  tp_description : string;
  tp_required_node_types : list string;
  tp_required_port_types : list string;
  tp_edge_types : list string;
  tp_required_capabilities : list string;
  tp_minted_capabilities : list string;
  tp_consumed_signals : list string;
  tp_emitted_signals : list string;
  tp_proposed_rewrites : list string;
  tp_required_policies : list string;
  tp_budgets : dict Z;
  tp_child_templates : list string;
  tp_exit_conditions : list string;
  tp_ledger_requirements : list string;
  tp_invariants : list string;
  tp_gates : list string;
  tp_spec : jobject;
}.

Definition template_payload (include_spec : bool) (t : CustomKernelSimulationTemplate) : jobject :=
  [("template_id", JStr (tp_template_id t)); ("name", JStr (tp_name t)); ("kind", JStr (tp_kind t));
   ("risk_class", JStr (tp_risk_class t)); ("description", JStr (tp_description t));
   ("required_node_types", jstrs (tp_required_node_types t));
   ("required_port_types", jstrs (tp_required_port_types t)); ("edge_types", jstrs (tp_edge_types t));
   ("required_capabilities", jstrs (tp_required_capabilities t));
   ("minted_capabilities", jstrs (tp_minted_capabilities t));
   ("consumed_signals", jstrs (tp_consumed_signals t)); ("emitted_signals", jstrs (tp_emitted_signals t));
   ("proposed_rewrites", jstrs (tp_proposed_rewrites t));
   ("required_policies", jstrs (tp_required_policies t)); ("budgets", JObj (dict_map JInt (tp_budgets t)));
   ("child_templates", jstrs (tp_child_templates t)); ("exit_conditions", jstrs (tp_exit_conditions t));
   ("ledger_requirements", jstrs (tp_ledger_requirements t)); ("invariants", jstrs (tp_invariants t));
   ("gates", jstrs (tp_gates t))] ++ safety_marks
  ++ (if include_spec then [("spec", JObj (tp_spec t))] else []).

(** * The catalog *)

Definition _COMPETITIVE_ALLOCATION_SPEC : jobject := [
  ("title", JStr "Competitive allocation drill");
  ("actors", JList [
      JObj [("id", JStr "market")]; JObj [("id", JStr "bidder-a")]; JObj [("id", JStr "bidder-b")]]);
  ("ports", JList [
      JObj [
        ("node_id", JStr "market"); ("id", JStr "route:bid"); ("direction", JStr "output");
        ("schema_ref", JStr "route.v1")];
      JObj [
        ("node_id", JStr "bidder-a"); ("id", JStr "invoke:bid"); ("direction", JStr "input");
        ("schema_ref", JStr "skill.v1")];
      JObj [
        ("node_id", JStr "bidder-b"); ("id", JStr "invoke:bid"); ("direction", JStr "input");
        ("schema_ref", JStr "skill.v1")]]);
  ("capabilities", JList [
      JObj [
        ("id", JStr "cap-market"); ("owner", JStr "market"); ("actions", jstrs ["call"; "review"]);
        ("resources", jstrs ["skill:*"; "agent:*"; "bidder-a:invoke:*"; "bidder-b:invoke:*"]);
        ("budget", JInt 12); ("delegation_depth", JInt 2)]]);
  ("policies", JList [
      JObj [
        ("id", JStr "owner-allow-call"); ("level", JStr "owner"); ("effect", JStr "allow");
        ("actions", jstrs ["call"]); ("resources", jstrs ["skill:*"; "bidder-*:invoke:*"])]]);
  ("steps", JList [
      JObj [
        ("type", JStr "delegate"); ("parent_capability_id", JStr "cap-market");
        ("child_capability_id", JStr "cap-bidder-a"); ("child_owner", JStr "bidder-a");
        ("requested", JObj [
            ("actions", jstrs ["call"]); ("resources", jstrs ["skill:bid"; "bidder-a:invoke:*"]);
            ("budget", JInt 5); ("delegation_depth", JInt 1)])];
      JObj [
        ("type", JStr "delegate"); ("parent_capability_id", JStr "cap-market");
        ("child_capability_id", JStr "cap-bidder-b"); ("child_owner", JStr "bidder-b");
        ("requested", JObj [
            ("actions", jstrs ["call"]); ("resources", jstrs ["skill:bid"; "bidder-b:invoke:*"]);
            ("budget", JInt 5); ("delegation_depth", JInt 1)])];
      JObj [
        ("type", JStr "start_process"); ("process_id", JStr "allocation-process-1");
        ("owner", JStr "market"); ("capability_id", JStr "cap-market"); ("ttl", JInt 10);
        ("budget", JInt 10)];
      JObj [
        ("type", JStr "propose_edge"); ("edge_id", JStr "edge-market-bidder-a");
        ("from", JObj [("node_id", JStr "market"); ("port_id", JStr "route:bid")]);
        ("to", JObj [("node_id", JStr "bidder-a"); ("port_id", JStr "invoke:bid")]);
        ("edge_type", JStr "call"); ("capability_id", JStr "cap-bidder-a");
        ("process_id", JStr "allocation-process-1");
        ("provenance_ref", JStr "template:competitive_allocation@v1")];
      JObj [
        ("type", JStr "activate_edge"); ("edge_id", JStr "edge-market-bidder-a");
        ("decision_id", JStr "pd-edge-bidder-a")];
      JObj [("type", JStr "use_edge"); ("edge_id", JStr "edge-market-bidder-a"); ("cost", JInt 1)];
      JObj [
        ("type", JStr "propose_edge"); ("edge_id", JStr "edge-market-bidder-b");
        ("from", JObj [("node_id", JStr "market"); ("port_id", JStr "route:bid")]);
        ("to", JObj [("node_id", JStr "bidder-b"); ("port_id", JStr "invoke:bid")]);
        ("edge_type", JStr "call"); ("capability_id", JStr "cap-bidder-b");
        ("process_id", JStr "allocation-process-1");
        ("provenance_ref", JStr "template:competitive_allocation@v1")];
      JObj [
        ("type", JStr "activate_edge"); ("edge_id", JStr "edge-market-bidder-b");
        ("decision_id", JStr "pd-edge-bidder-b")];
      JObj [("type", JStr "use_edge"); ("edge_id", JStr "edge-market-bidder-b"); ("cost", JInt 1)];
      JObj [
        ("type", JStr "emit_signal"); ("node_id", JStr "bidder-a"); ("signal_type", JStr "success");
        ("payload", JObj [("score", JInt 1)])];
      JObj [
        ("type", JStr "emit_signal"); ("node_id", JStr "bidder-b"); ("signal_type", JStr "failure");
        ("payload", JObj [("score", JInt 0)])];
      JObj [
        ("type", JStr "select_route"); ("skill", JStr "bid");
        ("candidates", JObj [("bidder-a", JStr "cap-bidder-a"); ("bidder-b", JStr "cap-bidder-b")])];
      JObj [
        ("type", JStr "check_policy"); ("decision_id", JStr "pd-bid"); ("action", JStr "call");
        ("resource", JStr "skill:bid")];
      JObj [
        ("type", JStr "stop_process"); ("process_id", JStr "allocation-process-1");
        ("reason", JStr "simulation_completed")]]);
  ("invariants", JList [
      JStr "replay_deterministic"; JStr "no_active_apply"; JStr "no_violations";
      JObj [("id", JStr "edge_expired"); ("edge_id", JStr "edge-market-bidder-a")];
      JObj [("id", JStr "edge_expired"); ("edge_id", JStr "edge-market-bidder-b")];
      JObj [("id", JStr "no_active_process_edges"); ("process_id", JStr "allocation-process-1")];
      JObj [("id", JStr "expected_decision"); ("step", JInt 13); ("decision", JStr "allow")]])].

Definition _REVIEWER_LOOP_SPEC : jobject := [
  ("title", JStr "Adversarial reviewer proposal drill");
  ("actors", JList [JObj [("id", JStr "subject")]; JObj [("id", JStr "reviewer")]]);
  ("capabilities", JList [
      JObj [
        ("id", JStr "cap-review"); ("owner", JStr "reviewer"); ("actions", jstrs ["review"]);
        ("resources", jstrs ["agent:subject"]); ("budget", JInt 4); ("delegation_depth", JInt 0)]]);
  ("policies", JList [
      JObj [
        ("id", JStr "owner-allows-review"); ("level", JStr "owner"); ("effect", JStr "allow");
        ("actions", jstrs ["review"]); ("resources", jstrs ["agent:*"])]]);
  ("steps", JList [
      JObj [
        ("type", JStr "start_review_loop"); ("process_id", JStr "review-loop-1");
        ("reviewer", JStr "reviewer"); ("target", JStr "subject"); ("capability_id", JStr "cap-review");
        ("ttl", JInt 5); ("budget", JInt 4); ("max_iterations", JInt 2)];
      JObj [
        ("type", JStr "emit_review_finding"); ("process_id", JStr "review-loop-1");
        ("reviewer", JStr "reviewer"); ("target", JStr "subject"); ("finding_id", JStr "finding-1");
        ("severity", JStr "critical"); ("cost", JInt 1)];
      JObj [
        ("type", JStr "propose_fix"); ("process_id", JStr "review-loop-1");
        ("finding_id", JStr "finding-1"); ("proposal_id", JStr "proposal-1")]]);
  ("invariants", jstrs ["replay_deterministic"; "no_active_apply"; "no_violations"])].

Definition _DELETION_PREVIEW_SPEC : jobject := [
  ("title", JStr "Deletion preview and revocation drill");
  ("actors", JList [JObj [("id", JStr "owner")]; JObj [("id", JStr "worker")]]);
  ("capabilities", JList [
      JObj [
        ("id", JStr "cap-worker"); ("owner", JStr "worker"); ("actions", jstrs ["call"]);
        ("resources", jstrs ["skill:work"]); ("budget", JInt 2); ("delegation_depth", JInt 0)]]);
  ("steps", JList [
      JObj [("type", JStr "preview_delete"); ("node_id", JStr "worker")];
      JObj [("type", JStr "revoke_capability"); ("capability_id", JStr "cap-worker")];
      JObj [
        ("type", JStr "use_capability"); ("capability_id", JStr "cap-worker"); ("action", JStr "call");
        ("resource", JStr "skill:work")];
      JObj [
        ("type", JStr "freeze_node"); ("node_id", JStr "worker");
        ("reason", JStr "deletion preview blocked use")]]);
  ("invariants", JList [
      JStr "replay_deterministic"; JStr "no_active_apply"; JStr "no_violations";
      JObj [("id", JStr "expected_decision"); ("step", JInt 3); ("decision", JStr "deny")];
      JObj [("id", JStr "node_frozen"); ("node_id", JStr "worker")]])].

Definition _ARENA_OUTCOME_SPEC : jobject := [
  ("title", JStr "Arena outcome scoring drill");
  ("actors", JList [JObj [("id", JStr "arena")]; JObj [("id", JStr "alpha")]; JObj [("id", JStr "beta")]]);
  ("steps", JList [
      JObj [
        ("type", JStr "record_outcome"); ("outcome_id", JStr "outcome-alpha");
        ("participant_id", JStr "alpha"); ("metrics", JObj [("success", JBool true); ("cost", JInt 1)])];
      JObj [
        ("type", JStr "record_outcome"); ("outcome_id", JStr "outcome-beta");
        ("participant_id", JStr "beta"); ("metrics", JObj [("success", JBool true); ("cost", JInt 2)])];
      JObj [
        ("type", JStr "score_participant"); ("score_id", JStr "score-alpha");
        ("participant_id", JStr "alpha"); ("outcome_id", JStr "outcome-alpha"); ("score", JInt 10)];
      JObj [
        ("type", JStr "score_participant"); ("score_id", JStr "score-beta");
        ("participant_id", JStr "beta"); ("outcome_id", JStr "outcome-beta"); ("score", JInt 20)];
      JObj [("type", JStr "freeze_node"); ("node_id", JStr "beta"); ("reason", JStr "unsafe finalist")];
      JObj [
        ("type", JStr "select_winner"); ("arena_id", JStr "arena-1");
        ("candidates", JObj [
            ("alpha", JObj [("score_id", JStr "score-alpha")]);
            ("beta", JObj [("score_id", JStr "score-beta")])])]]);
  ("invariants", JList [
      JStr "replay_deterministic"; JStr "no_active_apply"; JStr "no_violations";
      JObj [
        ("id", JStr "outcome_recorded"); ("outcome_id", JStr "outcome-alpha");
        ("participant_id", JStr "alpha")];
      JObj [("id", JStr "participant_score"); ("score_id", JStr "score-alpha"); ("score", JInt 10)];
      JObj [("id", JStr "winner_selected"); ("arena_id", JStr "arena-1"); ("winner_id", JStr "alpha")];
      JObj [
        ("id", JStr "candidate_excluded"); ("arena_id", JStr "arena-1");
        ("participant_id", JStr "beta"); ("reason", JStr "participant_frozen")]])].

Definition _TEMPLATES : list CustomKernelSimulationTemplate := [
  mkTemplate
      "arena_outcome@v1" "Arena outcome scoring" "arena_scoring" "simulation"
      "Participants produce replayable outcomes, receive evidence-only scores, and select an eligible winner without granting authority."
      ["arena"; "participant"] [] ["outcome.recorded"; "score.assigned"; "winner.selected"] [] []
      ["success"; "cost"; "unsafe_behavior"] ["outcome.recorded"; "score.assigned"; "winner.selected"] []
      ["eligibility before winner selection"] [("max_steps", 6); ("max_agents", 3); ("max_budget", 0)] []
      ["eligible winner selected"]
      ["outcome.recorded"; "score.assigned"; "freeze.applied"; "winner.selected"]
      ["replay_deterministic"; "no_active_apply"; "no_violations"; "outcome_recorded";
       "participant_score"; "winner_selected"; "candidate_excluded"]
      ["scores cannot grant authority"; "frozen candidates cannot win"; "deterministic replay"]
      _ARENA_OUTCOME_SPEC;
  mkTemplate
      "competitive_allocation@v1" "Competitive allocation" "routing_experiment" "simulation"
      "Two bounded agents compete on evidence signals while policy and replay invariants stay explicit."
      ["market"; "candidate"] ["router.route"; "candidate.invoke"; "candidate.signal"]
      ["call"; "route.selected"] ["owner call/review ceiling"] ["process-local candidate call grants"]
      ["success"; "failure"] ["route.selected"; "policy.checked"] [] ["owner allow call"]
      [("max_steps", 14); ("max_agents", 3); ("max_budget", 12)] [] ["route selected"; "policy checked"]
      ["port.created"; "process.started"; "edge.proposed"; "edge.created"; "edge.used"; "process.stopped";
       "capability.delegated"; "signal.emitted"; "route.selected"; "policy.checked"]
      ["replay_deterministic"; "no_active_apply"; "no_violations"; "edge_expired";
       "no_active_process_edges"; "expected_decision"]
      ["owner grant ceiling"; "deterministic replay"; "no active mutation"] _COMPETITIVE_ALLOCATION_SPEC;
  mkTemplate
      "adversarial_reviewer@v1" "Adversarial reviewer" "evaluator_loop" "proposal_only"
      "Reviewer emits findings and proposals without source, manifest, policy, route, or memory mutation authority."
      ["subject"; "reviewer"] ["subject.version"; "reviewer.finding"; "proposal.output"]
      ["process.started"; "review.finding"; "fix.proposed"] ["reviewer read/review grant"]
      ["process-local review budget"] ["user_requested_review"; "task_failed"]
      ["review.finding"; "fix.proposed"] ["mutate_source"; "mutate_manifest"] ["owner allows review"]
      [("ttl", 5); ("max_iterations", 2); ("budget", 4)] [] ["finding emitted"; "proposal emitted"]
      ["process.started"; "review.finding"; "fix.proposed"]
      ["replay_deterministic"; "no_active_apply"; "no_violations"]
      ["reviewer cannot mutate"; "proposal-only fixes"; "budget/ttl/max-iteration limits"]
      _REVIEWER_LOOP_SPEC;
  mkTemplate
      "deletion_preview@v1" "Deletion preview" "deletion_process" "operator_guarded"
      "Preview dependency impact, revoke a capability, and prove later use is denied before node freeze."
      ["owner"; "worker"] ["worker.capability"; "operator.preview"]
      ["delete.previewed"; "capability.revoked"; "node.frozen"] ["worker call grant"] []
      ["operator_delete_requested"] ["delete.previewed"; "capability.revoked"; "node.frozen"]
      ["soft_delete"; "revoke_capability"] ["operator deletion preview"]
      [("max_steps", 4); ("max_budget", 2)] [] ["capability revoked"; "node frozen"]
      ["delete.previewed"; "capability.revoked"; "capability.used"; "node.frozen"]
      ["replay_deterministic"; "no_active_apply"; "no_violations"; "expected_decision"; "node_frozen"]
      ["deletion preview before culling"; "revocation before stop"; "deterministic replay"]
      _DELETION_PREVIEW_SPEC].

Definition list_custom_kernel_templates : list jobject := map (template_payload true) _TEMPLATES.

(** * Rendering *)

Definition _template_by_id (template_id : string) : res CustomKernelSimulationTemplate :=
  match List.find (λ t, tp_template_id t =s? strip template_id) _TEMPLATES with
  | Some t => Ok t
  | None => refuse ("unknown custom kernel simulation template: " +:+ repr_str template_id)
  end.

(** The name of an invariant of a specification. *)
Definition invariant_name (item : json) : string :=
  match item with
  | JObj d => py_str (py_or (jget d "id") (jget d "type"))
  | _ => py_str item
  end.

Section render.
Context (secret : string) (validate_python : list json → list KernelStepSpec + list validation_error).

Definition _validate_template_spec (t : CustomKernelSimulationTemplate) (spec : jobject) : res unit :=
  _ ← (run_custom_kernel_simulation secret validate_python (JObj spec)).1;
  items ← py_items (jget_or spec "invariants" (JList []));
  match sorted_set (list_to_set (tp_invariants t) ∖ list_to_set (map invariant_name items)) with
  | [] => Ok ()
  | missing => refuse ("template " +:+ repr_str (tp_template_id t)
                 +:+ " is missing declared invariants: " +:+ py_str (jstrs missing))
  end.

Definition render_custom_kernel_template (template_id : string) : res jobject :=
  t ← _template_by_id template_id;
  let spec := tp_spec t in
  _ ← _validate_template_spec t spec;
  Ok (<["risk_class" := JStr (tp_risk_class t)]> (<["template_kind" := JStr (tp_kind t)]>
      (<["template_ref" := JStr (tp_template_id t)]> spec))).
End render.
