(* ===== verification/Suites.v ===== *)
(** Arena suites (graph_kernel/suites.py).

    A suite runs a list of episodes, each a custom simulation, and derives a
    scoreboard from the outcome, score and winner events of their traces.  The
    participants are mutable rows of a table, so the scoreboard is a run over
    the table in the exception monad: a trace that cannot be read stops it. *)
From Stdlib Require Import Ascii.
From S2P Require Import Prelude PyStr PyDict PyFloat PyJson KernelState KernelRouting SimSteps.
From S2P Require Import Simulation SimulationRun Protocols Templates.
Open Scope Z_scope.

Definition MAX_SUITE_EPISODES : Z := 25.
Definition MAX_SUITE_PARTICIPANTS : Z := 50.

(** * Episodes *)

Record CustomSuiteEpisodeSpec : Type := mkEpisodeSpec {
  es_episode_id : string;
  es_title : string;
  es_template_id : option string;
  es_spec : jobject;
}.

Record CustomSuiteEpisodeResult : Type := mkEpisode {
  ep_episode_id : string;
  ep_title : string;
  ep_passed : bool;
  ep_trace : jobject;
  ep_trace_summary : jobject;
  ep_state_summary : jobject;
  ep_step_results : list jobject;
  ep_template_id : option string;
}.

Definition episode_payload (e : CustomSuiteEpisodeResult) : jobject :=
  [("episode_id", JStr (ep_episode_id e)); ("title", JStr (ep_title e));
   ("template_id", jopt (ep_template_id e)); ("passed", JBool (ep_passed e)); ("trace", JObj (ep_trace e));
   ("trace_summary", JObj (ep_trace_summary e)); ("state_summary", JObj (ep_state_summary e));
   ("step_results", JList (map JObj (ep_step_results e)))] ++ safety_marks.

(** * Participants *)

Record ArenaScoreboardParticipant : Type := mkParticipant {
  participant_id : string;
  episodes : gset string;
  outcome_count : Z;
  score_count : Z;
  total_score : pyfloat;
  max_score : pyfloat;
  wins : Z;
  losses : Z;
  exclusions : Z;
  exclusion_reasons : dict Z;
  total_cost : pyfloat;
  outcome_refs : gset string;
  score_refs : gset string;
  winner_refs : gset string;
  exclusion_refs : gset string;
  evidence_refs : gset string;
}.

Definition new_participant (id : string) : ArenaScoreboardParticipant :=
  mkParticipant id ∅ 0 0 fzero fzero 0 0 0 [] fzero ∅ ∅ ∅ ∅ ∅.

Section record.
Context (episode_id event_id : string) (p : ArenaScoreboardParticipant).
Let episodes' : gset string := {[ episode_id ]} ∪ episodes p.
Let evidence' : gset string := {[ event_id ]} ∪ evidence_refs p.

Definition outcome_of (cost : pyfloat) : ArenaScoreboardParticipant :=
  mkParticipant (participant_id p) episodes' (outcome_count p + 1) (score_count p) (total_score p) (max_score p)
    (wins p) (losses p) (exclusions p) (exclusion_reasons p) (fadd (total_cost p) cost)
    ({[ event_id ]} ∪ outcome_refs p) (score_refs p) (winner_refs p) (exclusion_refs p) evidence'.

(** [max(self.max_score, score)]: the second only when it is greater. *)
Definition score_given (score : pyfloat) : ArenaScoreboardParticipant :=
  mkParticipant (participant_id p) episodes' (outcome_count p) (score_count p + 1)
    (fadd (total_score p) score) (if flt (max_score p) score then score else max_score p)
    (wins p) (losses p) (exclusions p) (exclusion_reasons p) (total_cost p)
    (outcome_refs p) ({[ event_id ]} ∪ score_refs p) (winner_refs p) (exclusion_refs p) evidence'.

Definition win_of : ArenaScoreboardParticipant :=
  mkParticipant (participant_id p) episodes' (outcome_count p) (score_count p) (total_score p) (max_score p)
    (wins p + 1) (losses p) (exclusions p) (exclusion_reasons p) (total_cost p)
    (outcome_refs p) (score_refs p) ({[ event_id ]} ∪ winner_refs p) (exclusion_refs p) evidence'.

Definition loss_of : ArenaScoreboardParticipant :=
  mkParticipant (participant_id p) episodes' (outcome_count p) (score_count p) (total_score p) (max_score p)
    (wins p) (losses p + 1) (exclusions p) (exclusion_reasons p) (total_cost p)
    (outcome_refs p) (score_refs p) (winner_refs p) (exclusion_refs p) evidence'.

Definition exclusion_of (reason : string) : ArenaScoreboardParticipant :=
  mkParticipant (participant_id p) episodes' (outcome_count p) (score_count p) (total_score p) (max_score p)
    (wins p) (losses p) (exclusions p + 1)
    (<[reason := default 0 (exclusion_reasons p !! reason) + 1]> (exclusion_reasons p)) (total_cost p)
    (outcome_refs p) (score_refs p) (winner_refs p) ({[ event_id ]} ∪ exclusion_refs p) evidence'.
End record.

(** [x / n] of a float and an integer, and of an integer and a float. *)
Definition average_score (p : ArenaScoreboardParticipant) : res pyfloat :=
  if score_count p =? 0 then Ok fzero else n ← float_of_int (score_count p); Ok (fdiv (total_score p) n).

Definition budget_efficiency (p : ArenaScoreboardParticipant) : res pyfloat :=
  n ← float_of_int (wins p); Ok (if float_truthy (total_cost p) then fdiv n (total_cost p) else n).

Definition refs_json (l : gset string) : json := jstrs (sorted_set l).

Definition participant_payload (p : ArenaScoreboardParticipant) : res jobject :=
  average ← average_score p;
  efficiency ← budget_efficiency p;
  Ok [("participant_id", JStr (participant_id p)); ("episodes", refs_json (episodes p));
      ("outcome_count", JInt (outcome_count p)); ("score_count", JInt (score_count p));
      ("total_score", JFloat (total_score p)); ("average_score", JFloat average);
      ("max_score", JFloat (max_score p)); ("wins", JInt (wins p)); ("losses", JInt (losses p));
      ("exclusions", JInt (exclusions p));
      ("exclusion_reasons", JObj (dict_map JInt (sorted_items (exclusion_reasons p))));
      ("total_cost", JFloat (total_cost p)); ("budget_efficiency", JFloat efficiency);
      ("outcome_refs", refs_json (outcome_refs p)); ("score_refs", refs_json (score_refs p));
      ("winner_refs", refs_json (winner_refs p)); ("exclusion_refs", refs_json (exclusion_refs p));
      ("evidence_refs", refs_json (evidence_refs p))].

(** * The scoreboard *)

Record ArenaWinnerEvent : Type := mkWinnerEvent {
  we_episode_id : string;
  we_event_id : string;
  we_payload : jobject;
}.

(** [{"episode_id": ..., "event_id": ..., **payload}]. *)
Definition winner_event_payload (e : ArenaWinnerEvent) : jobject :=
  dict_update [("episode_id", JStr (we_episode_id e)); ("event_id", JStr (we_event_id e))] (we_payload e).

Record ArenaInvariantFailure : Type := mkFailure { fl_episode_id : string; fl_payload : jobject }.

Definition failure_payload (f : ArenaInvariantFailure) : jobject :=
  dict_update [("episode_id", JStr (fl_episode_id f))] (fl_payload f).

(** The local tables of [_scoreboard]. *)
Record board : Type := mkBoard {
  participants : dict ArenaScoreboardParticipant;
  winner_events : list ArenaWinnerEvent;
  rejected_winner_events : list ArenaWinnerEvent;
  invariant_failures : list ArenaInvariantFailure;
}.

Definition empty_board : board := mkBoard [] [] [] [].

Definition set_participants (rows : dict ArenaScoreboardParticipant) (b : board) : board :=
  mkBoard rows (winner_events b) (rejected_winner_events b) (invariant_failures b).
Definition add_winner_event (e : ArenaWinnerEvent) (b : board) : board :=
  mkBoard (participants b) (winner_events b ++ [e]) (rejected_winner_events b) (invariant_failures b).
Definition add_rejected_event (e : ArenaWinnerEvent) (b : board) : board :=
  mkBoard (participants b) (winner_events b) (rejected_winner_events b ++ [e]) (invariant_failures b).
Definition add_failure (f : ArenaInvariantFailure) (b : board) : board :=
  mkBoard (participants b) (winner_events b) (rejected_winner_events b) (invariant_failures b ++ [f]).

Abbreviation BoardM := (ST board).

(** [_participant(rows, id).record_*(...)]: the row, made when it is new, is updated in place. *)
Definition update_participant (id : string)
    (f : ArenaScoreboardParticipant → ArenaScoreboardParticipant) : BoardM unit :=
  if id =s? "" then lift (refuse "participant id is required")
  else modify (λ b, set_participants
         (<[id := f (default (new_participant id) (participants b !! id))]> (participants b)) b).

(** [str(payload.get(k) or dflt)]. *)
Definition text_field (payload : json) (k dflt : string) : res string :=
  v ← obj_get payload k; Ok (text_or dflt v).

Section event.
Context (episode_id event_id : string).

Definition _record_exclusion (candidate : json) : BoardM unit :=
  match candidate with
  | JObj d =>
      update_participant (text_or "" (jget d "participant_id"))
        (λ p, exclusion_of episode_id event_id p (text_or "unknown" (jget d "reason")))
  | _ => mret ()
  end.

(** [for candidate in payload.get("excluded_candidates") or []]. *)
Definition exclude_all (payload : json) : BoardM unit :=
  excluded ← lift (obj_get payload "excluded_candidates");
  items ← lift (py_items (py_or excluded (JList [])));
  for_each items _record_exclusion.

Definition record_loser (winner_id : string) (candidate : json) : BoardM unit :=
  match candidate with
  | JObj d =>
      let id := text_or "" (jget d "participant_id") in
      if negb (id =s? "") && negb (id =s? winner_id)
      then update_participant id (loss_of episode_id event_id) else mret ()
  | _ => mret ()
  end.

(** The cost a metric object states; other metrics cost nothing. *)
Definition cost_of (metrics : json) : res pyfloat :=
  match metrics with
  | JObj m => py_float (py_or (py_or (jget m "cost") (jget m "budget")) (JInt 0))
  | _ => Ok fzero
  end.

Definition on_outcome (payload : json) : BoardM unit :=
  id ← lift (text_field payload "participant_id" "");
  _ ← update_participant id (λ p, p);
  metrics ← lift (obj_get payload "metrics");
  cost ← lift (cost_of (py_or metrics (JObj [])));
  update_participant id (λ p, outcome_of episode_id event_id p cost).

Definition on_score (payload : json) : BoardM unit :=
  id ← lift (text_field payload "participant_id" "");
  _ ← update_participant id (λ p, p);
  raw ← lift (obj_get payload "score");
  score ← lift (py_float (py_or raw (JInt 0)));
  update_participant id (λ p, score_given episode_id event_id p score).

Definition on_winner (payload : json) : BoardM unit :=
  body ← lift (py_dict payload);
  _ ← modify (add_winner_event (mkWinnerEvent episode_id event_id body));
  winner_id ← lift (text_field payload "winner_id" "");
  _ ← update_participant winner_id (win_of episode_id event_id);
  eligible ← lift (obj_get payload "eligible_candidates");
  items ← lift (py_items (py_or eligible (JList [])));
  _ ← for_each items (record_loser winner_id);
  exclude_all payload.

Definition on_rejected (payload : json) : BoardM unit :=
  body ← lift (py_dict payload);
  _ ← modify (add_rejected_event (mkWinnerEvent episode_id event_id body));
  exclude_all payload.
End event.

(** One event of a trace, by its type. *)
Definition board_event (episode_id : string) (event : json) : BoardM unit :=
  event_type ← lift (text_field event "event_type" "");
  payload ← lift (obj_get event "payload");
  event_id ← lift (text_field event "event_id" "");
  let payload := py_or payload (JObj []) in
  if event_type =s? "outcome.recorded" then on_outcome episode_id event_id payload
  else if event_type =s? "score.assigned" then on_score episode_id event_id payload
  else if event_type =s? "winner.selected" then on_winner episode_id event_id payload
  else if event_type =s? "winner.rejected" then on_rejected episode_id event_id payload
  else mret ().

Definition board_invariant (episode_id : string) (row : json) : BoardM unit :=
  passed ← lift (obj_get row "passed");
  if truthy passed then mret ()
  else d ← lift (py_dict row); modify (add_failure (mkFailure episode_id d)).

(** [trace.get(k, [])], as what a [for] goes through. *)
Definition trace_items (trace : jobject) (k : string) : res (list json) := py_items (jget_or trace k (JList [])).

Definition board_episode (e : CustomSuiteEpisodeResult) : BoardM unit :=
  rows ← lift (trace_items (ep_trace e) "invariant_results");
  _ ← for_each rows (board_invariant (ep_episode_id e));
  events ← lift (trace_items (ep_trace e) "events");
  for_each events (board_event (ep_episode_id e)).

Record ArenaScoreboard : Type := mkScoreboard {
  sb_participants : list ArenaScoreboardParticipant;
  sb_winner_events : list ArenaWinnerEvent;
  sb_rejected_winner_events : list ArenaWinnerEvent;
  sb_episode_count : Z;
  sb_passed_episode_count : Z;
  sb_failed_episode_count : Z;
  sb_invariant_failures : list ArenaInvariantFailure;
}.

Definition count_episodes (passed : bool) (l : list CustomSuiteEpisodeResult) : Z :=
  Z.of_nat (length (List.filter (λ e, Bool.eqb (ep_passed e) passed) l)).

Definition _scoreboard (l : list CustomSuiteEpisodeResult) : res ArenaScoreboard :=
  match for_each l board_episode empty_board with
  | (Raise e, _) => Raise e
  | (Ok _, b) =>
      if Z.of_nat (length (participants b)) >? MAX_SUITE_PARTICIPANTS
      then refuse ("suite participants exceeds limit " +:+ dec MAX_SUITE_PARTICIPANTS)
      else Ok (mkScoreboard (values (participants b)) (winner_events b) (rejected_winner_events b)
                 (Z.of_nat (length l)) (count_episodes true l) (count_episodes false l) (invariant_failures b))
  end.

(** A participant with its payload and the key it is sorted by. *)
Definition ranked : Type := Z * scored * jobject.

(** [sorted(rows, key=..., reverse=True)]: by wins, average score and id, from
the greatest; equal keys keep their order. *)
Definition ranked_lt (r q : ranked) : bool :=
  if r.1.1 =? q.1.1 then triple_lt r.1.2 q.1.2 else r.1.1 <? q.1.1.

Definition ranked_le (r q : ranked) : Prop := ranked_lt q r = false.
#[export] Instance ranked_le_dec r q : Decision (ranked_le r q).
Proof. unfold ranked_le. apply _. Defined.

Definition ranked_row (p : ArenaScoreboardParticipant) : res ranked :=
  payload ← participant_payload p; average ← average_score p;
  Ok (wins p, (average, participant_id p, ""), payload).

Definition scoreboard_payload (s : ArenaScoreboard) : res jobject :=
  rows ← res_map ranked_row (sb_participants s);
  Ok ([("participants", JList (map (JObj ∘ snd) (rev (merge_sort ranked_le (rev rows)))));
       ("winner_events", JList (map (JObj ∘ winner_event_payload) (sb_winner_events s)));
       ("rejected_winner_events", JList (map (JObj ∘ winner_event_payload) (sb_rejected_winner_events s)));
       ("episode_count", JInt (sb_episode_count s)); ("passed_episode_count", JInt (sb_passed_episode_count s));
       ("failed_episode_count", JInt (sb_failed_episode_count s));
       ("invariant_failures", JList (map (JObj ∘ failure_payload) (sb_invariant_failures s)))] ++ safety_marks).

(** * The suite template *)

(** The suite of [_ARENA_SUITE_TEMPLATE], and its other entries. *)
Definition arena_suite : jobject := [
  ("title", JStr "Arena suite scoreboard drill"); ("suite_id", JStr "arena-suite-drill");
  ("episodes", JList [
      JObj [("episode_id", JStr "round-1"); ("template_id", JStr "arena_outcome@v1")];
      JObj [
        ("episode_id", JStr "round-2");
        ("spec", JObj [
            ("title", JStr "Arena outcome round 2");
            ("actors", JList [
                JObj [("id", JStr "arena")]; JObj [("id", JStr "alpha")]; JObj [("id", JStr "beta")]]);
            ("steps", JList [
                JObj [
                  ("type", JStr "record_outcome"); ("outcome_id", JStr "outcome-alpha-r2");
                  ("participant_id", JStr "alpha");
                  ("metrics", JObj [("success", JBool true); ("cost", JInt 2)])];
                JObj [
                  ("type", JStr "record_outcome"); ("outcome_id", JStr "outcome-beta-r2");
                  ("participant_id", JStr "beta");
                  ("metrics", JObj [("success", JBool true); ("cost", JInt 1)])];
                JObj [
                  ("type", JStr "score_participant"); ("score_id", JStr "score-alpha-r2");
                  ("participant_id", JStr "alpha"); ("outcome_id", JStr "outcome-alpha-r2");
                  ("score", JInt 18)];
                JObj [
                  ("type", JStr "score_participant"); ("score_id", JStr "score-beta-r2");
                  ("participant_id", JStr "beta"); ("outcome_id", JStr "outcome-beta-r2");
                  ("score", JInt 12)];
                JObj [
                  ("type", JStr "select_winner"); ("arena_id", JStr "arena-2");
                  ("candidates", JObj [
                      ("alpha", JObj [("score_id", JStr "score-alpha-r2")]);
                      ("beta", JObj [("score_id", JStr "score-beta-r2")])])]]);
            ("invariants", JList [
                JStr "replay_deterministic"; JStr "no_active_apply"; JStr "no_violations";
                JObj [
                  ("id", JStr "winner_selected"); ("arena_id", JStr "arena-2");
                  ("winner_id", JStr "alpha")]])])]])].

Definition arena_suite_card : jobject := [
  ("template_id", JStr "arena_suite@v1"); ("name", JStr "Arena suite scoreboard");
  ("kind", JStr "arena_suite"); ("risk_class", JStr "simulation");
  ("description", JStr "Runs multiple arena outcome episodes and aggregates an evidence-backed scoreboard.");
  ("ledger_requirements", jstrs ["outcome.recorded"; "score.assigned"; "winner.selected"]);
  ("invariants", jstrs ["replay_deterministic"; "winner_selected"; "candidate_excluded"]);
  ("gates", jstrs ["scores cannot grant authority"; "excluded participants remain excluded per episode"])].

Definition _ARENA_SUITE_TEMPLATE : jobject := arena_suite_card ++ [("suite", JObj arena_suite)].

Definition _suite_template_payload (template : jobject) : jobject :=
  let payload := base.filter (λ p, p.1 ≠ "suite") template in
  dict_update payload ([("suite", jget template "suite")] ++ safety_marks).

Definition list_custom_kernel_suite_templates : list jobject := [_suite_template_payload _ARENA_SUITE_TEMPLATE].

(** * Running a suite *)

Record CustomSuiteResult : Type := mkSuite {
  su_suite_id : string;
  su_title : string;
  su_passed : bool;
  su_episodes : list CustomSuiteEpisodeResult;
  su_scoreboard : ArenaScoreboard;
  su_trace_summary : jobject;
  su_alerts : list string;
  su_violations : list string;
}.

Definition suite_slug (value : json) : res string :=
  text ← _text "id" value;
  let out := strip_char "-"%char (of_chars (map slug_char (chars (lower text)))) in
  let short := str_take 80 out in
  Ok (if short =s? "" then "suite" else short).

(** [d.setdefault(k, v)]. *)
Definition set_default (k : string) (v : json) (d : jobject) : jobject := if has_key k d then d else <[k := v]> d.

(** The texts of a set of alerts; a trace lists texts only. *)
Definition text_of (j : json) : res string := match j with JStr s => Ok s | _ => Raise TypeError end.

Definition all_texts (traces : list jobject) (k : string) : res (list string) :=
  lists ← res_map (λ t, items ← trace_items t k; res_map text_of items) traces;
  Ok (sorted_set (list_to_set (concat lists))).

Definition _episode_payload (episode : CustomSuiteEpisodeSpec) (r : CustomSimulationResult) :
    CustomSuiteEpisodeResult :=
  let t := trace_contract r in
  mkEpisode (es_episode_id episode) (es_title episode) (tr_passed t) (trace_payload t)
    (trace_summary_payload r) (state_summary r) (map step_result_payload (step_results r)) (es_template_id episode).

Section run.
Context (secret : string) (validate_python : list json → list KernelStepSpec + list validation_error).

Definition episode_base (raw : jobject) : res jobject :=
  if truthy (jget raw "template_id") then
    if truthy (jget raw "spec") then
      refuse "suite episode must provide either template_id or spec, not both"
    else id ← _text "template_id" (jget raw "template_id"); render_custom_kernel_template secret validate_python id
  else match jget raw "spec" with
       | JObj spec => Ok spec
       | _ => refuse "suite episode requires a spec object"
       end.

Definition _episode_spec (index : Z) (raw_episode : json) : res CustomSuiteEpisodeSpec :=
  match raw_episode with
  | JObj raw =>
      episode_id ← suite_slug (py_or (py_or (jget raw "episode_id") (jget raw "id"))
                                 (JStr ("episode-" +:+ dec index)));
      base ← episode_base raw;
      let spec := set_default "scenario_id" (JStr episode_id) base in
      title ← _text "episode title" (py_or (py_or (jget raw "title") (jget spec "title")) (JStr episode_id));
      let template_id := match jget raw "template_id" with JNull => None | v => Some (py_str v) end in
      Ok (mkEpisodeSpec episode_id title template_id spec)
  | _ => refuse "suite episode must be an object"
  end.

Fixpoint run_episodes (index : Z) (raw : list json) : res (list CustomSuiteEpisodeResult) :=
  match raw with
  | [] => Ok []
  | raw_episode :: rest =>
      episode ← _episode_spec index raw_episode;
      result ← (run_custom_kernel_simulation secret validate_python (JObj (es_spec episode))).1;
      results ← run_episodes (index + 1) rest;
      Ok (_episode_payload episode result :: results)
  end.

Definition run_custom_kernel_suite (suite : json) : res CustomSuiteResult :=
  match suite with
  | JObj d =>
      title ← _text "title" (py_or (jget d "title") (JStr "Arena suite"));
      suite_id ← suite_slug (py_or (jget d "suite_id") (JStr title));
      match py_or (jget d "episodes") (JList []) with
      | JList [] => refuse "suite requires at least one episode"
      | JList raw_episodes =>
          if Z.of_nat (length raw_episodes) >? MAX_SUITE_EPISODES
          then refuse ("suite episodes exceeds limit " +:+ dec MAX_SUITE_EPISODES)
          else
            episodes ← run_episodes 1 raw_episodes;
            scoreboard ← _scoreboard episodes;
            let traces := map ep_trace episodes in
            let all_passed := forallb ep_passed episodes in
            alerts ← all_texts traces "alerts";
            violations ← all_texts traces "violations";
            Ok (mkSuite suite_id title (all_passed && bool_decide (length (sb_invariant_failures scoreboard) = 0%nat))
                  episodes scoreboard
                  (summarize_scenario_trace_payload
                     [("passed", JBool all_passed); ("traces", JList (map JObj traces))])
                  alerts violations)
      | _ => refuse "suite episodes must be a list"
      end
  | _ => refuse "suite spec must be an object"
  end.
Definition render_custom_kernel_suite_template (template_id : string) : res jobject :=
  let normalized := strip template_id in
  if negb (is_text (jget _ARENA_SUITE_TEMPLATE "template_id") normalized) then
    refuse ("unknown custom kernel suite template: " +:+ repr_str template_id)
  else
    _ ← run_custom_kernel_suite (JObj arena_suite);
    Ok (<["template_kind" := jget _ARENA_SUITE_TEMPLATE "kind"]>
        (<["template_ref" := JStr normalized]> arena_suite)).
End run.
