(* ===== verification/SuiteFacts.v ===== *)
(** What the scoreboard of a suite counts.

    A measure [mu] of the board is a number; [adds mu m n] says that [m], when
    it returns, adds [n] to it.  The rules follow the text of the handlers, so
    one leaf per update is enough for every counter. *)
From S2P Require Import Prelude PyStr PyDict PyFloat PyJson KernelState SimSteps Simulation.
From S2P Require Import SimulationRun.
From S2P Require Import Protocols Templates Suites.
Open Scope Z_scope.

Definition adds (mu : board → Z) (m : BoardM unit) (n : Z) : Prop :=
  ∀ b b', m b = (Ok (), b') → mu b' = mu b + n.

Section rules.
Context (mu : board → Z).

Lemma adds_ret : adds mu (mret ()) 0.
Proof. intros b b' [= <-]. lia. Qed.

Lemma adds_raise e n : adds mu (lift (Raise e)) n.
Proof. intros b b' H. done. Qed.

Lemma adds_bind m k n1 n2 : adds mu m n1 → adds mu k n2 → adds mu (_ ← m; k) (n1 + n2).
Proof.
  intros Hm Hk b b' H. apply ST_bind_ok in H as ([] & b1 & H1 & H2).
  rewrite (Hk _ _ H2), (Hm _ _ H1). lia.
Qed.

Lemma adds_lift {A} (r : res A) (k : A → BoardM unit) n :
  (∀ a, r = Ok a → adds mu (k a) n) → adds mu (a ← lift r; k a) n.
Proof.
  intros Hk b b' H. apply ST_bind_ok in H as (a & b1 & H1 & H2). unfold lift in H1.
  injection H1 as Hr <-. by eapply Hk.
Qed.

Definition sum (l : list Z) : Z := foldr Z.add 0 l.

Lemma adds_for_each {A} (l : list A) body (n : A → Z) :
  (∀ x, adds mu (body x) (n x)) → adds mu (for_each l body) (sum (map n l)).
Proof.
  intros Hb. induction l as [|x l IH]; cbn; [apply adds_ret|]. by apply adds_bind.
Qed.

Lemma adds_none {A} (l : list A) body : (∀ x, adds mu (body x) 0) → adds mu (for_each l body) 0.
Proof.
  intros Hb. assert (sum (map (λ _, 0) l) = 0) as <- by (induction l as [|x l IH]; unfold sum in *; cbn; lia).
  by apply adds_for_each.
Qed.
End rules.

(** * The measures *)

(** A counter of the row of [id], zero when there is none, and its sum over all rows. *)
Definition at_row (c : ArenaScoreboardParticipant → Z) (id : string) (b : board) : Z :=
  c (default (new_participant id) (participants b !! id)).

Definition all_rows (c : ArenaScoreboardParticipant → Z) (b : board) : Z := sum (map c (values (participants b))).

Definition selected_events (b : board) : Z := Z.of_nat (length (winner_events b)).

Lemma sum_insert (c : ArenaScoreboardParticipant → Z) id p (d : dict ArenaScoreboardParticipant) :
  c (new_participant id) = 0 →
  sum (map c (values (<[id := p]> d))) = sum (map c (values d)) + c p - c (default (new_participant id) (d !! id)).
Proof.
  intros H0. unfold insert, dict_insert, lookup, dict_lookup, values, sum.
  induction d as [|[k q] d IH]; cbn [dict_set dict_get map foldr snd default from_option]; [cbn; lia|].
  destruct (String.eqb_spec id k) as [->|Hne]; cbn [map foldr snd default from_option Datatypes.id]; lia.
Qed.

Section update.
Context (c : ArenaScoreboardParticipant → Z) (id : string)
  (f : ArenaScoreboardParticipant → ArenaScoreboardParticipant) (n : Z).

Lemma update_row j : (∀ p, c (f p) = c p + n) →
  adds (at_row c j) (update_participant id f) (if id =s? j then n else 0).
Proof.
  intros Hf b b' H. unfold update_participant in H. destruct (id =s? ""); [done|].
  injection H as <-. unfold at_row. cbn [participants set_participants].
  destruct (String.eqb_spec id j) as [->|Hne].
  - rewrite dict_lookup_insert. cbn [default from_option Datatypes.id]. by rewrite Hf.
  - rewrite dict_lookup_insert_ne by done. lia.
Qed.

Lemma update_all : c (new_participant id) = 0 → (∀ p, c (f p) = c p + n) →
  adds (all_rows c) (update_participant id f) n.
Proof.
  intros H0 Hf b b' H. unfold update_participant in H. destruct (id =s? ""); [done|].
  injection H as <-. unfold all_rows. cbn [participants set_participants].
  rewrite sum_insert, Hf by done. lia.
Qed.
End update.

Lemma update_events id f : adds selected_events (update_participant id f) 0.
Proof.
  intros b b' H. unfold update_participant in H. destruct (id =s? ""); [done|].
  injection H as <-. unfold selected_events. cbn. lia.
Qed.

(** * What an event says *)

Definition event_field (event : json) (k : string) : json := match event with JObj d => jget d k | _ => JNull end.

Definition event_payload (event : json) : json := py_or (event_field event "payload") (JObj []).

Definition type_of (event : json) : string := text_or "" (event_field event "event_type").

(** The participant the payload names under a key. *)
Definition named_by (k : string) (event : json) : string := text_or "" (event_field (event_payload event) k).

Lemma text_field_ok x k dflt s : text_field x k dflt = Ok s → s = text_or dflt (event_field x k).
Proof. unfold text_field, obj_get. destruct x; cbn; try done. by intros [= <-]. Qed.

Lemma obj_get_ok x k v : obj_get x k = Ok v → v = event_field x k.
Proof. unfold obj_get. destruct x; try done. by intros [= <-]. Qed.

(** * What a handler adds *)

Section handlers.
Context (mu : board → Z) (w_outcome w_score w_win : string → Z) (w_event : Z).
Hypothesis mu_row : ∀ id, adds mu (update_participant id (λ p, p)) 0.
Hypothesis mu_outcome : ∀ ep ev cost id, adds mu (update_participant id (λ p, outcome_of ep ev p cost)) (w_outcome id).
Hypothesis mu_score : ∀ ep ev x id, adds mu (update_participant id (λ p, score_given ep ev p x)) (w_score id).
Hypothesis mu_win : ∀ ep ev id, adds mu (update_participant id (win_of ep ev)) (w_win id).
Hypothesis mu_loss : ∀ ep ev id, adds mu (update_participant id (loss_of ep ev)) 0.
Hypothesis mu_exclusion : ∀ ep ev r id, adds mu (update_participant id (λ p, exclusion_of ep ev p r)) 0.
Hypothesis mu_selected : ∀ e b, mu (add_winner_event e b) = mu b + w_event.
Hypothesis mu_rejected : ∀ e b, mu (add_rejected_event e b) = mu b.
Hypothesis mu_failure : ∀ e b, mu (add_failure e b) = mu b.

Definition weight (event : json) : Z :=
  if type_of event =s? "outcome.recorded" then w_outcome (named_by "participant_id" event)
  else if type_of event =s? "score.assigned" then w_score (named_by "participant_id" event)
  else if type_of event =s? "winner.selected" then w_event + w_win (named_by "winner_id" event)
  else 0.

Lemma adds_modify f n : (∀ b, mu (f b) = mu b + n) → adds mu (modify f) n.
Proof. intros H b b' [= <-]. apply H. Qed.

Lemma exclude_all_adds ep ev payload : adds mu (exclude_all ep ev payload) 0.
Proof.
  unfold exclude_all. do 2 (apply adds_lift; intros ? _). apply adds_none. intros j.
  unfold _record_exclusion. destruct j; try apply adds_ret. apply mu_exclusion.
Qed.

Lemma losers_add ep ev w items : adds mu (for_each items (record_loser ep ev w)) 0.
Proof.
  apply adds_none. intros j. unfold record_loser. destruct j; try apply adds_ret.
  cbv zeta. destruct (negb _ && negb _); [apply mu_loss|apply adds_ret].
Qed.

Lemma adds_eq m n n' : n = n' → adds mu m n → adds mu m n'.
Proof. by intros ->. Qed.

Lemma board_event_adds ep event : adds mu (board_event ep event) (weight event).
Proof.
  unfold board_event. apply adds_lift. intros ty ->%text_field_ok. apply adds_lift. intros payload ->%obj_get_ok.
  apply adds_lift. intros ev _. cbv zeta. unfold weight, type_of.
  destruct (_ =s? "outcome.recorded"); [|destruct (_ =s? "score.assigned"); [|destruct (_ =s? "winner.selected");
    [|destruct (_ =s? "winner.rejected")]]].
  - unfold on_outcome. apply adds_lift. intros id ->%text_field_ok.
    apply (adds_eq _ (0 + w_outcome (named_by "participant_id" event))); [lia|].
    apply adds_bind; [apply mu_row|]. do 2 (apply adds_lift; intros ? _). apply mu_outcome.
  - unfold on_score. apply adds_lift. intros id ->%text_field_ok.
    apply (adds_eq _ (0 + w_score (named_by "participant_id" event))); [lia|].
    apply adds_bind; [apply mu_row|]. do 2 (apply adds_lift; intros ? _). apply mu_score.
  - unfold on_winner. apply adds_lift. intros body _. apply adds_bind; [by apply adds_modify|].
    apply adds_lift. intros id ->%text_field_ok.
    apply (adds_eq _ (w_win (named_by "winner_id" event) + 0)); [lia|].
    apply adds_bind; [apply mu_win|]. do 2 (apply adds_lift; intros ? _).
    apply (adds_bind _ _ _ 0 0); [apply losers_add|apply exclude_all_adds].
  - unfold on_rejected. apply adds_lift. intros body _.
    apply (adds_bind _ _ _ 0 0); [apply adds_modify; intros b; rewrite mu_rejected; lia|apply exclude_all_adds].
  - apply adds_ret.
Qed.

Lemma board_invariant_adds ep row : adds mu (board_invariant ep row) 0.
Proof.
  unfold board_invariant. apply adds_lift. intros passed _. destruct (truthy passed); [apply adds_ret|].
  apply adds_lift. intros d _. apply adds_modify. intros b. rewrite mu_failure. lia.
Qed.

(** The events of an episode. *)
Definition events_of (e : CustomSuiteEpisodeResult) : list json :=
  match trace_items (ep_trace e) "events" with Ok l => l | Raise _ => [] end.

Lemma board_episode_adds e : adds mu (board_episode e) (sum (map weight (events_of e))).
Proof.
  unfold board_episode, events_of. apply adds_lift. intros rows _.
  apply (adds_eq _ (0 + sum (map weight (events_of e)))); [unfold events_of; lia|]. unfold events_of.
  apply adds_bind; [apply adds_none; intros; apply board_invariant_adds|].
  apply adds_lift. intros events ->. apply adds_for_each. intros x. apply board_event_adds.
Qed.

Lemma board_adds l : adds mu (for_each l board_episode) (sum (map weight (concat (map events_of l)))).
Proof.
  apply (adds_eq _ (sum (map (λ e, sum (map weight (events_of e))) l))).
  - induction l as [|e l IH]; [done|]. cbn [map concat]. rewrite map_app. unfold sum in *. cbn [foldr].
    rewrite foldr_app, IH. generalize (foldr Z.add 0 (map weight (concat (map events_of l)))). intros z.
    clear. induction (map weight (events_of e)) as [|y ys IHy]; cbn [foldr]; lia.
  - apply adds_for_each, board_episode_adds.
Qed.
End handlers.

(** * Counting events *)

(** The events of a type that name a participant under a key, and all of a type. *)
Definition says (ty k id : string) (event : json) : bool := (type_of event =s? ty) && (named_by k event =s? id).
Definition has_type (ty : string) (event : json) : bool := type_of event =s? ty.

Definition how_many (q : json → bool) (events : list json) : Z := Z.of_nat (length (List.filter q events)).

Lemma sum_weights (w : json → Z) (q : json → bool) l : (∀ e, w e = if q e then 1 else 0) → sum (map w l) = how_many q l.
Proof.
  intros H. unfold how_many, sum. induction l as [|e l IH]; [done|]. cbn [map foldr List.filter]. rewrite H, IH.
  destruct (q e); cbn [length]; lia.
Qed.

Section counts.
Context (l : list CustomSuiteEpisodeResult) (b : board).
Hypothesis run : for_each l board_episode empty_board = (Ok (), b).
Abbreviation evs := (concat (map events_of l)).

Lemma keep_row c j id f : (∀ p, c (f p) = c p) → adds (at_row c j) (update_participant id f) 0.
Proof.
  intros Hf. eapply adds_eq; [|apply (update_row c id f 0)]; [by destruct (id =s? j)|].
  intros p. rewrite Hf. lia.
Qed.

Lemma keep_all c id f : (∀ k, c (new_participant k) = 0) → (∀ p, c (f p) = c p) →
  adds (all_rows c) (update_participant id f) 0.
Proof. intros H0 Hf. apply update_all; [apply H0|]. intros p. rewrite Hf. lia. Qed.

Lemma at_row_empty c j : c (new_participant j) = 0 → at_row c j empty_board = 0.
Proof. intros H. exact H. Qed.

Lemma wins_counted j : at_row wins j b = how_many (says "winner.selected" "winner_id" j) evs.
Proof.
  assert (adds (at_row wins j) (for_each l board_episode)
    (sum (map (weight (λ _, 0) (λ _, 0) (λ id, if id =s? j then 1 else 0) 0) evs))) as H.
  { apply board_adds; intros; try (apply keep_row; done); try done; [|unfold at_row; cbn; lia].
    by apply (update_row wins). }
  rewrite (H _ _ run). rewrite (sum_weights _ (says "winner.selected" "winner_id" j)); [by rewrite at_row_empty|].
  intros e. unfold weight, says. destruct (String.eqb_spec (type_of e) "outcome.recorded") as [->|]; [done|].
  destruct (String.eqb_spec (type_of e) "score.assigned") as [->|]; [done|].
  by destruct (type_of e =s? "winner.selected"), (_ =s? j).
Qed.

Lemma outcomes_counted j : at_row outcome_count j b = how_many (says "outcome.recorded" "participant_id" j) evs.
Proof.
  assert (adds (at_row outcome_count j) (for_each l board_episode)
    (sum (map (weight (λ id, if id =s? j then 1 else 0) (λ _, 0) (λ _, 0) 0) evs))) as H.
  { apply board_adds; intros; try (apply keep_row; done); try done; [|unfold at_row; cbn; lia].
    by apply (update_row outcome_count). }
  rewrite (H _ _ run). rewrite (sum_weights _ (says "outcome.recorded" "participant_id" j)); [by rewrite at_row_empty|].
  intros e. unfold weight, says. destruct (type_of e =s? "outcome.recorded"); [by destruct (_ =s? j)|].
  by repeat destruct (type_of e =s? _).
Qed.

Lemma scores_counted j : at_row score_count j b = how_many (says "score.assigned" "participant_id" j) evs.
Proof.
  assert (adds (at_row score_count j) (for_each l board_episode)
    (sum (map (weight (λ _, 0) (λ id, if id =s? j then 1 else 0) (λ _, 0) 0) evs))) as H.
  { apply board_adds; intros; try (apply keep_row; done); try done; [|unfold at_row; cbn; lia].
    by apply (update_row score_count). }
  rewrite (H _ _ run). rewrite (sum_weights _ (says "score.assigned" "participant_id" j)); [by rewrite at_row_empty|].
  intros e. unfold weight, says. destruct (String.eqb_spec (type_of e) "outcome.recorded") as [->|]; [done|].
  destruct (type_of e =s? "score.assigned"); [by destruct (_ =s? j)|]. by destruct (type_of e =s? _).
Qed.

Lemma winners_counted : selected_events b = how_many (has_type "winner.selected") evs
  ∧ all_rows wins b = how_many (has_type "winner.selected") evs.
Proof.
  assert (∀ e, weight (λ _, 0) (λ _, 0) (λ _, 0) 1 e = (if has_type "winner.selected" e then 1 else 0)
             ∧ weight (λ _, 0) (λ _, 0) (λ _, 1) 0 e = (if has_type "winner.selected" e then 1 else 0)) as Hw.
  { intros e. unfold weight, has_type. destruct (String.eqb_spec (type_of e) "outcome.recorded") as [->|]; [done|].
    destruct (String.eqb_spec (type_of e) "score.assigned") as [->|]; [done|]. by destruct (type_of e =s? _). }
  split; rewrite <-(sum_weights _ _ _ (λ e, proj1 (Hw e))).
  - assert (adds selected_events (for_each l board_episode)
      (sum (map (weight (λ _, 0) (λ _, 0) (λ _, 0) 1) evs))) as H; [|rewrite (H _ _ run); done].
    apply board_adds; intros; try apply update_events; try done.
    unfold selected_events. cbn. rewrite length_app. cbn. lia.
  - rewrite (sum_weights _ _ _ (λ e, proj1 (Hw e))), <-(sum_weights _ _ _ (λ e, proj2 (Hw e))).
    assert (adds (all_rows wins) (for_each l board_episode)
      (sum (map (weight (λ _, 0) (λ _, 0) (λ _, 1) 0) evs))) as H; [|rewrite (H _ _ run); done].
    apply board_adds; intros; try (apply keep_all; done); try done; [|symmetry; apply Z.add_0_r].
    by apply (update_all wins).
Qed.
End counts.

(** * The rows *)

Record rows_ok (b : board) : Prop := {
  rows_wf : dict_wf (participants b);
  rows_named : ∀ k p, participants b !! k = Some p → participant_id p = k ∧ k ≠ "";
}.

(** The rows stay in order. *)
Definition rows_kept (_ : bool) (b b' : board) : Prop := rows_ok b → rows_ok b'.

#[export] Instance rows_kept_rel : TraceRel rows_kept.
Proof. split; unfold rows_kept; auto. Qed.

Lemma update_kept id f : (∀ p, participant_id (f p) = participant_id p) →
  traced rows_kept (update_participant id f).
Proof.
  intros Hf b. unfold update_participant. destruct (String.eqb_spec id "") as [|Hne]; [by apply traced_lift; apply _|].
  apply traced_modify. intros [Hw Hn]. split; cbn; [by apply dict_wf_insert|].
  intros k p. rewrite dict_lookup_insert_case. destruct (decide (id = k)) as [<-|]; [|apply Hn].
  intros [= <-]. rewrite Hf. destruct (participants b !! id) as [q|] eqn:E; [|done]. cbn. split; [|done].
  by apply Hn in E as [-> _].
Qed.

Ltac rows_leaf := first
  [ by apply update_kept
  | apply traced_modify; intros [Hw Hn]; split; assumption ].

Lemma board_rows_kept l : traced rows_kept (for_each l board_episode).
Proof.
  unfold board_episode, board_invariant, board_event, on_outcome, on_score, on_winner, on_rejected, exclude_all,
    record_loser, _record_exclusion.
  solve_traced rows_leaf.
Qed.
