(* ===== verification/SuiteProperties.v ===== *)
(** Properties of templates, and of suites and their scoreboards. *)
From S2P Require Import Prelude PyStr PyDict PyFloat PyJson KernelState SimSteps StepReader.
From S2P Require Import Simulation SimulationRun SimulationProperties Protocols Templates Suites.
From S2P Require Import SuiteFacts.
Open Scope Z_scope.

(** * Scoreboards *)

(** C13: a scoreboard counts the events of its episodes, and nothing else: its
rows have distinct, non-empty names and are at most as many as the limit; the
wins, outcomes and scores of a row are the numbers of winner, outcome and score
events that name it; and every winner event has one winner, so that the wins of
all rows add up to the winner events listed. *)
Theorem scoreboard_counts (l : list CustomSuiteEpisodeResult) (s : ArenaScoreboard) :
  _scoreboard l = Ok s →
  let events := concat (map events_of l) in
  NoDup (map participant_id (sb_participants s))
  ∧ Z.of_nat (length (sb_participants s)) ≤ MAX_SUITE_PARTICIPANTS
  ∧ (∀ p, p ∈ sb_participants s →
       participant_id p ≠ ""
       ∧ wins p = how_many (says "winner.selected" "winner_id" (participant_id p)) events
       ∧ outcome_count p = how_many (says "outcome.recorded" "participant_id" (participant_id p)) events
       ∧ score_count p = how_many (says "score.assigned" "participant_id" (participant_id p)) events)
  ∧ sum (map wins (sb_participants s)) = Z.of_nat (length (sb_winner_events s))
  ∧ Z.of_nat (length (sb_winner_events s)) = how_many (has_type "winner.selected") events.
Proof.
  unfold _scoreboard. destruct (for_each l board_episode empty_board) as [[[]|e] b] eqn:Hrun; [|done].
  destruct (Z.gtb_spec (Z.of_nat (length (participants b))) MAX_SUITE_PARTICIPANTS) as [|Hle]; [done|].
  intros [= <-]. cbn [sb_participants sb_winner_events].
  destruct (board_rows_kept l empty_board) as (ok & Hk & _). rewrite Hrun in Hk.
  destruct Hk as [Hw Hn]; [by split; [apply dict_wf_nil|]|]. cbn [snd] in Hw, Hn.
  destruct (winners_counted l b Hrun) as [Hs Ha]. split_and!.
  - assert (map participant_id (values (participants b)) = keys (participants b)) as ->; [|done].
    unfold values, keys. rewrite map_map. apply map_ext_in. intros [k p] Hin%list_elem_of_In. cbn.
    by apply dict_elem_lookup, Hn in Hin as [-> _].
  - unfold values. by rewrite length_map.
  - intros p Hp. destruct (values_lookup p (participants b) Hw Hp) as [k Hl].
    destruct (Hn _ _ Hl) as [-> Hne].
    pose proof (wins_counted l b Hrun k) as H1. pose proof (outcomes_counted l b Hrun k) as H2.
    pose proof (scores_counted l b Hrun k) as H3. unfold at_row in H1, H2, H3. rewrite Hl in H1, H2, H3.
    cbn [default from_option id] in H1, H2, H3. by rewrite H1, H2, H3.
  - unfold all_rows in Ha. rewrite Ha, <-Hs. done.
  - exact Hs.
Qed.

Definition suite_run : res CustomSuiteResult := run_custom_kernel_suite "k" strict_validate (JObj arena_suite).

(** The shipped suite: both rounds are won by alpha. *)
Lemma suite_shown :
  match suite_run with
  | Ok r => Some (su_passed r, map (λ p, (participant_id p, wins p)) (sb_participants (su_scoreboard r)))
  | Raise _ => None
  end = Some (true, [("alpha", 2); ("beta", 0)]).
Proof. vm_compute. reflexivity. Qed.

Definition board_of : res (list CustomSuiteEpisodeResult * ArenaScoreboard) :=
  r ← suite_run; s ← _scoreboard (su_episodes r); Ok (su_episodes r, s).

Lemma board_computed : is_ok board_of = true.
Proof. vm_compute. reflexivity. Qed.

Lemma scoreboard_counts_witness : ∃ l s, _scoreboard l = Ok s
  ∧ sum (map wins (sb_participants s)) = Z.of_nat (length (sb_winner_events s)).
Proof.
  pose proof board_computed as H. unfold board_of in H. destruct suite_run as [r|]; [|discriminate H].
  cbn [mbind res_bind] in H. destruct (_scoreboard (su_episodes r)) as [s|] eqn:E; [|discriminate H].
  exists (su_episodes r), s. split; [exact E|].
  destruct (scoreboard_counts (su_episodes r) s E) as (_ & _ & _ & Hs & _). exact Hs.
Defined.

(** References on a scoreboard are event ids, and ids start again in every
episode: alpha's two outcomes leave one reference. *)
Lemma references_collide :
  match suite_run with
  | Ok r => map (λ p, (participant_id p, outcome_count p, size (outcome_refs p)))
              (sb_participants (su_scoreboard r))
  | Raise _ => []
  end = [("alpha", 2, 1%nat); ("beta", 2, 1%nat)].
Proof. vm_compute. reflexivity. Qed.

(** * Templates *)

(** Any validator that reads well-typed rows as the classes say gives the checks
the strict one gives, when all rows are well-typed. *)
Lemma check_spec_faithful validate spec raw steps : faithful validate →
  list_field spec "steps" = Ok raw → strict_rows (map normalized_row raw) = Some steps →
  check_spec validate spec = check_spec strict_validate spec.
Proof.
  intros Hv Hraw Hs. unfold check_spec.
  assert (parse_kernel_steps validate (JList raw) = parse_kernel_steps strict_validate (JList raw)) as Hp.
  { unfold parse_kernel_steps. by rewrite (Hv _ _ Hs), (strict_faithful _ _ Hs). }
  rewrite Hraw. cbn [mbind res_bind]. by rewrite Hp.
Qed.

Lemma run_faithful secret validate spec raw steps : faithful validate →
  list_field spec "steps" = Ok raw → strict_rows (map normalized_row raw) = Some steps →
  run_custom_kernel_simulation secret validate (JObj spec)
  = run_custom_kernel_simulation secret strict_validate (JObj spec).
Proof.
  intros Hv Hraw Hs. pose proof (check_spec_faithful validate spec raw steps Hv Hraw Hs) as E.
  unfold run_custom_kernel_simulation, simulate. rewrite E. reflexivity.
Qed.

(** The rows of a specification are well-typed. *)
Definition well_typed (spec : jobject) : bool :=
  match list_field spec "steps" with
  | Ok raw => match strict_rows (map normalized_row raw) with Some _ => true | None => false end
  | Raise _ => false
  end.

Lemma run_well_typed secret validate spec : faithful validate → well_typed spec = true →
  run_custom_kernel_simulation secret validate (JObj spec)
  = run_custom_kernel_simulation secret strict_validate (JObj spec).
Proof.
  unfold well_typed. intros Hv Hw. destruct (list_field spec "steps") as [raw|] eqn:E; [|discriminate Hw].
  destruct (strict_rows (map normalized_row raw)) as [steps|] eqn:Hs; [|discriminate Hw].
  exact (run_faithful secret validate spec raw steps Hv E Hs).
Qed.

(** What a run of a template shows: whether it passed, whether it renders, and the
kinds of event it declares and does not record. *)
Definition template_run (validate : list json → list KernelStepSpec + list validation_error)
    (t : CustomKernelSimulationTemplate) : option (bool * bool * list string) :=
  match run_custom_kernel_simulation "k" validate (JObj (tp_spec t)) with
  | (Ok r, s) =>
      Some (tr_passed (trace_contract r), is_ok (render_custom_kernel_template "k" validate (tp_template_id t)),
            List.filter (λ ty, negb (str_in ty (map event_type (ledger s)))) (tp_ledger_requirements t))
  | _ => None
  end.

Lemma templates_well_typed : forallb (λ t, well_typed (tp_spec t)) _TEMPLATES = true.
Proof. vm_compute. reflexivity. Qed.

Lemma templates_strict : map (template_run strict_validate) _TEMPLATES =
  [Some (true, true, []); Some (true, true, []);
   Some (true, true, ["process.started"; "review.finding"; "fix.proposed"]);
   Some (true, true, ["capability.used"; "node.frozen"])].
Proof. vm_compute. reflexivity. Qed.

Lemma template_found t : t ∈ _TEMPLATES → _template_by_id (tp_template_id t) = Ok t.
Proof.
  intros Ht. assert (Forall (λ t, _template_by_id (tp_template_id t) = Ok t) _TEMPLATES) as H.
  { repeat constructor. }
  rewrite Forall_forall in H. by apply H.
Qed.

Lemma template_run_faithful validate t : faithful validate → t ∈ _TEMPLATES →
  template_run validate t = template_run strict_validate t.
Proof.
  intros Hv Ht. assert (well_typed (tp_spec t) = true) as Hw.
  { pose proof templates_well_typed as H. rewrite forallb_elem in H. by apply H. }
  unfold template_run, render_custom_kernel_template. rewrite (template_found t Ht).
  cbn [mbind res_bind]. unfold _validate_template_spec. rewrite (run_well_typed "k" validate _ Hv Hw). reflexivity.
Qed.

(** Every shipped template renders, and its run passes all the invariants it
declares, with any validation library that fills in and checks well-typed rows
as the step classes say (and under a signing secret).  Two of them declare
ledger events that no run of theirs records. *)
Theorem templates_render (validate : list json → list KernelStepSpec + list validation_error) :
  faithful validate →
  map (template_run validate) _TEMPLATES =
  [Some (true, true, []); Some (true, true, []);
   Some (true, true, ["process.started"; "review.finding"; "fix.proposed"]);
   Some (true, true, ["capability.used"; "node.frozen"])].
Proof.
  intros Hv. rewrite <-templates_strict. apply map_ext_in. intros t Ht%list_elem_of_In.
  by apply template_run_faithful.
Qed.

Lemma templates_render_witness : faithful strict_validate
  ∧ length (map (template_run strict_validate) _TEMPLATES) = 4%nat.
Proof. split; [exact strict_faithful|]. rewrite (templates_render _ strict_faithful). reflexivity. Defined.
