(* ===== verification/Primitives.v ===== *)
(** The vocabulary of the graph kernel (graph_kernel/primitives.py).

    The models of genomes, variants and drafts: their fields, what the classes
    declare of them ([*_valid]) and their payloads, which leave out a field that
    is [None].  Building one validates its fields; the validation library is
    only used on values that have the declared types here. *)
From Stdlib Require Import Ascii.
From S2P Require Import Prelude PyStr PyDict PyFloat PyJson PyHash SimSteps.
Open Scope Z_scope.

(** [_digest] of a value. *)
Definition _digest (value : json) : string := sha256_hex (canonical_json value).

(** A built model, or the error of the validation library. *)
Definition validated {A} (valid : A → bool) (x : A) : res A :=
  if valid x then Ok x else Raise (ValueError "validation error").

(** * References *)

Record KernelRef : Type := mkRef { kr_kind : string; kr_id : string }.

Definition ref_valid (r : KernelRef) : bool := len_in 1 80 (kr_kind r) && len_in 1 256 (kr_id r).

Definition parse_ref (value : string) : res KernelRef :=
  match split1 ":"%char value with
  | (kind, Some ref_id) => validated ref_valid (mkRef kind ref_id)
  | (_, None) => Raise (ValueError "kernel ref must be formatted as kind:id")
  end.

(** [__str__]. *)
Definition ref_text (r : KernelRef) : string := kr_kind r +:+ ":" +:+ kr_id r.

(** * Safety markers *)

Record SafetyMarkers : Type := mkMarkers {
  sm_simulation_only : bool;
  sm_proposal_only : bool;
  sm_active_apply_enabled : bool;
}.

Definition markers_valid (m : SafetyMarkers) : bool :=
  negb (negb (sm_simulation_only m) || negb (sm_proposal_only m) || sm_active_apply_enabled m).

Definition default_markers : SafetyMarkers := mkMarkers true true false.

Definition markers_payload (m : SafetyMarkers) : jobject :=
  [("simulation_only", JBool (sm_simulation_only m)); ("proposal_only", JBool (sm_proposal_only m));
   ("active_apply_enabled", JBool (sm_active_apply_enabled m))].

(** * Mutations and lineage *)

Record Mutation : Type := mkMutation {
  mu_type : string;
  mu_target_ref : option string;
  mu_parameters : jobject;
  mu_expected_effect : option string;
  mu_risk_class : string;
  mu_safety : SafetyMarkers;
}.

Definition mutation_valid (m : Mutation) : bool :=
  len_in 1 120 (mu_type m) && opt_len 0 256 (mu_target_ref m) && opt_len 0 512 (mu_expected_effect m)
  && str_in (mu_risk_class m) ["simulation"; "low"; "medium"; "high"; "dangerous"] && markers_valid (mu_safety m).

Definition mutation_payload (m : Mutation) : jobject :=
  [("type", JStr (mu_type m))] ++ some_entry "target_ref" JStr (mu_target_ref m)
  ++ [("parameters", JObj (mu_parameters m))] ++ some_entry "expected_effect" JStr (mu_expected_effect m)
  ++ [("risk_class", JStr (mu_risk_class m)); ("safety", JObj (markers_payload (mu_safety m)))].

Record Lineage : Type := mkLineage {
  ln_parent_refs : list string;
  ln_variant_id : option string;
  ln_generation : Z;
  ln_mutations : list Mutation;
  ln_source_traits : list string;
  ln_replay_digest : option string;
  ln_safety : SafetyMarkers;
}.

Definition lineage_valid (l : Lineage) : bool :=
  at_most 32 (ln_parent_refs l) && opt_len 0 160 (ln_variant_id l) && (0 <=? ln_generation l)
  && at_most 32 (ln_mutations l) && forallb mutation_valid (ln_mutations l) && at_most 64 (ln_source_traits l)
  && opt_len 0 128 (ln_replay_digest l) && markers_valid (ln_safety l).

Definition lineage_payload (l : Lineage) : jobject :=
  [("parent_refs", jstrs (ln_parent_refs l))] ++ some_entry "variant_id" JStr (ln_variant_id l)
  ++ [("generation", JInt (ln_generation l));
      ("mutations", JList (map (JObj ∘ mutation_payload) (ln_mutations l)));
      ("source_traits", jstrs (ln_source_traits l))]
  ++ some_entry "replay_digest" JStr (ln_replay_digest l)
  ++ [("safety", JObj (markers_payload (ln_safety l)))].

(** * Fitness, rollback, gates *)

Record FitnessVector : Type := mkFitness {
  ft_product_fit : option pyfloat;
  ft_correctness : option pyfloat;
  ft_security : option pyfloat;
  ft_authority_minimality : option pyfloat;
  ft_cost : option pyfloat;
  ft_latency : option pyfloat;
  ft_maintainability : option pyfloat;
  ft_novelty : option pyfloat;
  ft_rollback_confidence : option pyfloat;
  ft_aggregate_score : option pyfloat;
  ft_dimensions : jobject;
}.

(** [ge=0, le=1]. *)
Definition unit_valid (o : option pyfloat) : bool :=
  match o with Some x => fle fzero x && fle x (f_round 1) | None => true end.

Definition fitness_valid (f : FitnessVector) : bool :=
  forallb unit_valid [ft_product_fit f; ft_correctness f; ft_security f; ft_authority_minimality f; ft_cost f;
    ft_latency f; ft_maintainability f; ft_novelty f; ft_rollback_confidence f].

Definition fitness_payload (f : FitnessVector) : jobject :=
  some_entry "product_fit" JFloat (ft_product_fit f) ++ some_entry "correctness" JFloat (ft_correctness f)
  ++ some_entry "security" JFloat (ft_security f)
  ++ some_entry "authority_minimality" JFloat (ft_authority_minimality f)
  ++ some_entry "cost" JFloat (ft_cost f) ++ some_entry "latency" JFloat (ft_latency f)
  ++ some_entry "maintainability" JFloat (ft_maintainability f) ++ some_entry "novelty" JFloat (ft_novelty f)
  ++ some_entry "rollback_confidence" JFloat (ft_rollback_confidence f)
  ++ some_entry "aggregate_score" JFloat (ft_aggregate_score f) ++ [("dimensions", JObj (ft_dimensions f))].

(** [FitnessVector(aggregate_score=..., dimensions=...)], and without arguments. *)
Definition scored_fitness (score : option pyfloat) (dimensions : jobject) : FitnessVector :=
  mkFitness None None None None None None None None None score dimensions.

Record RollbackPlan : Type := mkRollback {
  rb_strategy : string;
  rb_target_refs : list string;
  rb_restore_refs : list string;
  rb_steps : list string;
  rb_verified : bool;
  rb_safety : SafetyMarkers;
}.

Definition rollback_valid (r : RollbackPlan) : bool :=
  len_in 1 160 (rb_strategy r) && at_most 64 (rb_target_refs r) && at_most 64 (rb_restore_refs r)
  && at_most 64 (rb_steps r) && markers_valid (rb_safety r).

Definition default_rollback : RollbackPlan :=
  mkRollback "discard_disabled_draft" [] [] [] false default_markers.

Definition rollback_payload (r : RollbackPlan) : jobject := [
  ("strategy", JStr (rb_strategy r)); ("target_refs", jstrs (rb_target_refs r));
  ("restore_refs", jstrs (rb_restore_refs r)); ("steps", jstrs (rb_steps r));
  ("verified", JBool (rb_verified r)); ("safety", JObj (markers_payload (rb_safety r)))].

Inductive gate_type : Set := OwnerApproval | GReview | GProof | GCanary | GRollback | GKillSwitch.
Inductive gate_status : Set := GMissing | GPending | GPassed | GFailed | GBlocked.

Definition gate_type_name (g : gate_type) : string :=
  match g with
  | OwnerApproval => "owner_approval" | GReview => "review" | GProof => "proof" | GCanary => "canary"
  | GRollback => "rollback" | GKillSwitch => "kill_switch"
  end.

Definition gate_status_name (s : gate_status) : string :=
  match s with
  | GMissing => "missing" | GPending => "pending" | GPassed => "passed" | GFailed => "failed"
  | GBlocked => "blocked"
  end.

Record PromotionGate : Type := mkGate {
  gt_type : gate_type;
  gt_status : gate_status;
  gt_evidence_refs : list string;
  gt_required : bool;
}.

Definition gate_valid (g : PromotionGate) : bool := at_most 64 (gt_evidence_refs g).

Definition gate_payload (g : PromotionGate) : jobject := [
  ("gate_type", JStr (gate_type_name (gt_type g))); ("status", JStr (gate_status_name (gt_status g)));
  ("evidence_refs", jstrs (gt_evidence_refs g)); ("required", JBool (gt_required g))].

(** * Genomes, variants, drafts *)

Record Genome : Type := mkGenome {
  gn_genome_id : string;
  gn_genome_type : string;
  gn_refs : list string;
  gn_blueprint : jobject;
  gn_spec : jobject;
  gn_metadata : jobject;
  gn_safety : SafetyMarkers;
}.

Definition genome_valid (g : Genome) : bool :=
  len_in 1 160 (gn_genome_id g) && len_in 1 120 (gn_genome_type g) && at_most 128 (gn_refs g)
  && markers_valid (gn_safety g).

Definition genome_payload (g : Genome) : jobject := [
  ("genome_id", JStr (gn_genome_id g)); ("genome_type", JStr (gn_genome_type g)); ("refs", jstrs (gn_refs g));
  ("blueprint", JObj (gn_blueprint g)); ("spec", JObj (gn_spec g)); ("metadata", JObj (gn_metadata g));
  ("safety", JObj (markers_payload (gn_safety g)))].

Definition genome_digest (g : Genome) : string := _digest (JObj (genome_payload g)).

Record Variant : Type := mkVariant {
  va_variant_id : string;
  va_genome : Genome;
  va_lineage : Lineage;
  va_fitness : FitnessVector;
  va_passed : bool;
  va_proposal_ref : option string;
  va_safety : SafetyMarkers;
}.

Definition variant_valid (v : Variant) : bool :=
  len_in 1 160 (va_variant_id v) && genome_valid (va_genome v) && lineage_valid (va_lineage v)
  && fitness_valid (va_fitness v) && opt_len 0 256 (va_proposal_ref v) && markers_valid (va_safety v).

Definition variant_payload (v : Variant) : jobject :=
  [("variant_id", JStr (va_variant_id v)); ("genome", JObj (genome_payload (va_genome v)));
   ("lineage", JObj (lineage_payload (va_lineage v))); ("fitness", JObj (fitness_payload (va_fitness v)));
   ("passed", JBool (va_passed v))] ++ some_entry "proposal_ref" JStr (va_proposal_ref v)
  ++ [("safety", JObj (markers_payload (va_safety v)))].

Record ProposalDraft : Type := mkDraft {
  pd_proposal_id : string;
  pd_proposal_type : string;
  pd_title : string;
  pd_base_ref : option string;
  pd_lineage : Lineage;
  pd_draft : jobject;
  pd_fitness : FitnessVector;
  pd_rollback_plan : RollbackPlan;
  pd_promotion_gates : list PromotionGate;
  pd_safety : SafetyMarkers;
}.

Definition draft_valid (p : ProposalDraft) : bool :=
  len_in 1 256 (pd_proposal_id p) && len_in 1 120 (pd_proposal_type p) && len_in 1 256 (pd_title p)
  && opt_len 0 256 (pd_base_ref p) && lineage_valid (pd_lineage p) && fitness_valid (pd_fitness p)
  && rollback_valid (pd_rollback_plan p) && at_most 16 (pd_promotion_gates p)
  && forallb gate_valid (pd_promotion_gates p) && markers_valid (pd_safety p).

(** [draft_status] has one value, so a draft is disabled; a "status" of the draft
object would come after it. *)
Definition to_legacy_payload (p : ProposalDraft) : jobject :=
  let payload := dict_update [
    ("proposal_id", JStr (pd_proposal_id p)); ("proposal_type", JStr (pd_proposal_type p));
    ("title", JStr (pd_title p)); ("base_ref", jopt (pd_base_ref p));
    ("lineage", JObj (lineage_payload (pd_lineage p)));
    ("draft", JObj (dict_update [("status", JStr "disabled")] (pd_draft p)));
    ("fitness", JObj (fitness_payload (pd_fitness p)));
    ("rollback_plan", JObj (rollback_payload (pd_rollback_plan p)));
    ("promotion_gates", JList (map (JObj ∘ gate_payload) (pd_promotion_gates p)))]
    (markers_payload (pd_safety p)) in
  <["proposal_digest" := JStr (_digest (JObj payload))]> payload.

(** * Facts *)

(** Models that validate are the ones built. *)
Lemma all_validated {A} (valid : A → bool) (l k : list A) : res_map (validated valid) l = Ok k → k = l.
Proof.
  intros H%res_map_ok. induction H as [|x y l k Hx _ ->]; [done|]. unfold validated in Hx.
  destruct (valid x); [by injection Hx as ->|discriminate Hx].
Qed.

Lemma markers_default m : markers_valid m = true ↔ m = default_markers.
Proof. unfold default_markers. destruct m as [[] [] []]; cbn; split; congruence. Qed.

(** The status of a draft is a constant of the class, but an entry of the draft
object takes its place in the payload. *)
Lemma draft_status_overwritten : ∃ p, draft_valid p = true ∧
  match jget (to_legacy_payload p) "draft" with JObj d => jget d "status" | _ => JNull end = JStr "enabled".
Proof.
  exists (mkDraft "p" "t" "title" None (mkLineage [] None 0 [] [] None default_markers)
    [("status", JStr "enabled")] (scored_fitness None []) default_rollback [] default_markers).
  split; [vm_compute; reflexivity|]. unfold to_legacy_payload. rewrite jget_insert_ne by done. reflexivity.
Qed.
