(* ===== verification/EvolutionSpec.v ===== *)
(** The specifications an evolution experiment runs (graph_kernel/evolution.py):
    participants, mutations, and the mutated or generated specification of a
    variant, with a population under one of five topologies.

    A population is a list of JSON objects.  [_participant_specs] makes them, but
    the metadata of an inline specification can bring others; the ids of those
    are compared by their text.  Selection takes the first best of a list, what
    [sorted(...)[0]] gives when no key is NaN. *)
From Stdlib Require Import Ascii.
From S2P Require Import Prelude PyStr PyDict PyFloat PyJson KernelRouting Safety SimSteps.
From S2P Require Import Simulation SimulationRun.
From S2P Require Import Protocols Templates Primitives.
Open Scope Z_scope.

Definition MAX_EVOLUTION_VARIANTS : Z := 8.
Definition MAX_SCORE_DELTA : Z := 25.
Definition MIN_EVOLUTION_PARTICIPANTS : Z := 2.
Definition MAX_EVOLUTION_PARTICIPANTS : Z := 12.
Definition MULTI_AGENT_TOPOLOGIES : list string := ["star"; "ring"; "market"; "mentor"; "adversarial_review"].

Definition evo_refuse {A} (msg : string) : res A := Raise (KernelEvolutionError msg).

(** * Reading values *)

Definition evo_text (field : string) (value : json) : res string :=
  match value with
  | JStr _ | JInt _ | JBool _ | JFloat _ =>
      let text := strip (py_str value) in
      if text =s? "" then evo_refuse (field +:+ " is required")
      else if 256 <? Z.of_nat (String.length text) then evo_refuse (field +:+ " exceeds 256 characters")
      else Ok text
  | _ => evo_refuse (field +:+ " must be text")
  end.

Definition evo_optional_text (dflt : string) (value : json) : res string :=
  match value with JNull => Ok dflt | _ => evo_text "text" value end.

Definition evo_slug (value : json) : res string :=
  text ← evo_text "id" value;
  let out := strip_char "-"%char (of_chars (map slug_char (chars (lower text)))) in
  let short := str_take 96 out in
  Ok (if short =s? "" then "evolution" else short).

(** [except (TypeError, ValueError)] around a conversion. *)
Definition converted_or {A} (msg : string) (r : res A) : res A :=
  match r with
  | Raise TypeError | Raise (ValueError _) => evo_refuse msg
  | _ => r
  end.

Definition evo_int (dflt minimum maximum : Z) (value : json) : res Z :=
  number ← converted_or "expected an integer" (py_int (match value with JNull => JInt dflt | _ => value end));
  if (number <? minimum) || (number >? maximum) then
    evo_refuse ("integer must be between " +:+ dec minimum +:+ " and " +:+ dec maximum)
  else Ok number.

(** The bounds are integers; [f"{x:g}"] prints them without a point. *)
Definition evo_float (dflt : pyfloat) (minimum maximum : Z) (value : json) : res pyfloat :=
  number ← converted_or "expected a number" (py_float (match value with JNull => JFloat dflt | _ => value end));
  if flt number (f_round minimum) || flt (f_round maximum) number then
    evo_refuse ("number must be between " +:+ dec minimum +:+ " and " +:+ dec maximum)
  else Ok number.

Definition _round_score (value : pyfloat) : json :=
  let rounded := round6 value in
  if is_integer rounded then
    match int_of_float rounded with Ok n => JInt n | Raise _ => JFloat rounded end
  else JFloat rounded.

(** [float(d.get(k) or 0.0)]. *)
Definition float_field (d : jobject) (k : string) : res pyfloat := py_float (py_or (jget d k) (JFloat fzero)).

(** [x if isinstance(x, dict) else {}]. *)
Definition object_or_empty (j : json) : jobject := match j with JObj d => d | _ => [] end.

(** * Participants *)

Definition participant_source (raw : json) : res jobject :=
  match raw with
  | JStr _ => Ok [("id", raw)]
  | JObj d => Ok d
  | _ => evo_refuse "each participant must be text or an object"
  end.

Definition capability_rows (skill : string) (capabilities : json) : res (list string) :=
  rows ← match capabilities with
         | JNull => Ok [skill]
         | JList l => res_map (λ item, str_take 48 <$> evo_slug item) (take 8 l)
         | _ => evo_refuse "participant capabilities must be a list"
         end;
  Ok (match rows with [] => [skill] | _ => rows end).

(** One turn of the loop: the ids seen so far, and the row. *)
Definition participant_spec (index : Z) (seen : list string) (raw : json) : res (string * jobject) :=
  source ← participant_source raw;
  long_id ← evo_slug (py_or (jget source "id") (py_or (jget source "participant_id")
              (py_or (jget source "name") (JStr ("agent-" +:+ dec (index + 1))))));
  let participant_id := str_take 48 long_id in
  if str_in participant_id seen then evo_refuse ("duplicate participant id: " +:+ participant_id)
  else
    long_skill ← evo_slug (py_or (jget source "skill") (py_or (jget source "primary_skill")
                   (JStr ("skill-" +:+ dec (index + 1)))));
    let skill := str_take 48 long_skill in
    fitness ← evo_float (fadd (f_round 60) (fmul (f_round index) (f_round 7))) 0 100
                (jget_or source "fitness" (jget source "score"));
    cost ← evo_int (1 + index mod 3) 0 20 (jget source "cost");
    rows ← capability_rows skill (jget source "capabilities");
    role ← evo_optional_text "candidate" (jget source "role");
    Ok (participant_id,
        [("id", JStr participant_id); ("role", JStr role); ("skill", JStr skill);
         ("fitness", _round_score fitness); ("cost", JInt cost); ("capabilities", jstrs rows)]).

Fixpoint participant_loop (index : Z) (seen : list string) (raws : list json) : res (list jobject) :=
  match raws with
  | [] => Ok []
  | raw :: rest =>
      row ← participant_spec index seen raw;
      rows ← participant_loop (index + 1) (row.1 :: seen) rest;
      Ok (row.2 :: rows)
  end.

Definition _participant_specs (value : json) : res (list jobject) :=
  match value with
  | JList l =>
      let n := Z.of_nat (length l) in
      if (n <? MIN_EVOLUTION_PARTICIPANTS) || (n >? MAX_EVOLUTION_PARTICIPANTS) then
        evo_refuse ("participants must include between " +:+ dec MIN_EVOLUTION_PARTICIPANTS +:+ " and "
                    +:+ dec MAX_EVOLUTION_PARTICIPANTS +:+ " agents")
      else participant_loop 0 [] l
  | _ => evo_refuse "participants must be a list"
  end.

Definition spec_metadata (base_spec : jobject) : jobject := object_or_empty (jget base_spec "metadata").

Definition _population_from_spec (base_spec : jobject) : res (list jobject) :=
  match jget (spec_metadata base_spec) "evolution_population" with
  | JList l => Ok (dicts l)
  | _ => evo_refuse "multi-agent topology requires participants"
  end.

(** * Mutations *)

(** [{...}.get(topology, dflt)]. *)
Definition by_topology (table : list (string * Z)) (dflt : Z) (topology : string) : pyfloat :=
  f_round (match List.find (λ p, p.1 =s? topology) table with Some p => p.2 | None => dflt end).

(** The multipliers, in quarters: 1.0, 1.5, 2.0, 1.75, 2.25. *)
Definition complexity_quarters : list (string * Z) :=
  [("star", 4); ("ring", 6); ("market", 8); ("mentor", 7); ("adversarial_review", 9)].

Definition _topology_complexity (topology : string) (participant_count : Z) : json :=
  let multiplier := fdiv (by_topology complexity_quarters 4 topology) (f_round 4) in
  _round_score (fmul multiplier (f_round participant_count)).

(** The share of the largest shift that variant [index] gets. *)
Definition score_delta_of (index variant_count : Z) (max_score_delta : pyfloat) : pyfloat :=
  if (variant_count <=? 1) || fle max_score_delta fzero then fzero
  else fmul max_score_delta (fdiv (f_round index) (f_round (variant_count - 1))).

Definition _mutation (index variant_count : Z) (max_score_delta : pyfloat) (strategy : string)
    (base_spec : jobject) : res jobject :=
  let score_delta := score_delta_of index variant_count max_score_delta in
  if strategy =s? "multi_agent_topology" then
    let topology := default "" (MULTI_AGENT_TOPOLOGIES !! Z.to_nat (index mod 5)) in
    participants ← _population_from_spec base_spec;
    let n := Z.of_nat (length participants) in
    if n =? 0 then Raise ZeroDivisionError
    else Ok [("type", JStr "multi_agent_topology"); ("topology", JStr topology);
             ("score_delta", _round_score score_delta); ("rotation", JInt (index mod n));
             ("participant_count", JInt n); ("structural_complexity", _topology_complexity topology n);
             ("bounds", JObj [("max_score_delta", JFloat max_score_delta);
                              ("max_variants", JInt MAX_EVOLUTION_VARIANTS);
                              ("min_participants", JInt MIN_EVOLUTION_PARTICIPANTS);
                              ("max_participants", JInt MAX_EVOLUTION_PARTICIPANTS)])]
  else Ok [("type", JStr "bounded_score_shift"); ("score_delta", _round_score score_delta);
           ("bounds", JObj [("max_score_delta", JFloat max_score_delta);
                            ("max_variants", JInt MAX_EVOLUTION_VARIANTS)])].

(** * The specification of a shifted variant *)

(** [for x in spec.get(k) or []], changing the dicts of a list in place; other
values are gone through and left alone, as long as they can be. *)
Definition change_items (f : jobject → res jobject) (spec : jobject) (k : string) : res jobject :=
  match py_or (jget spec k) (JList []) with
  | JList [] => Ok spec
  | JList l =>
      l' ← res_map (λ item, match item with JObj d => JObj <$> f d | _ => Ok item end) l;
      Ok (<[k := JList l']> spec)
  | other => _ ← py_items other; Ok spec
  end.

Definition shift_metrics (score_delta : pyfloat) (step : jobject) : res jobject :=
  match jget step "metrics" with
  | JObj metrics =>
      if has_key "score" metrics then
        x ← float_field metrics "score";
        Ok (<["metrics" := JObj (<["score" := _round_score (fadd x (fdiv score_delta (f_round 100)))]> metrics)]> step)
      else Ok step
  | _ => Ok step
  end.

Definition shift_step (score_delta : pyfloat) (step : jobject) : res jobject :=
  step ← (if is_text (jget step "type") "score_participant" && has_key "score" step then
            x ← float_field step "score"; Ok (<["score" := _round_score (fadd x score_delta)]> step)
          else Ok step);
  if is_text (jget step "type") "record_outcome" then shift_metrics score_delta step else Ok step.

(** The scores by id, the last one of an id. *)
Definition score_entry (scores : dict pyfloat) (step : json) : res (dict pyfloat) :=
  match step with
  | JObj d =>
      if is_text (jget d "type") "score_participant" then
        let score_id := text_or "" (py_or (jget d "score_id") (jget d "id")) in
        if score_id =s? "" then Ok scores
        else x ← float_field d "score"; Ok (<[score_id := x]> scores)
      else Ok scores
  | _ => Ok scores
  end.

Fixpoint score_table (scores : dict pyfloat) (steps : list json) : res (dict pyfloat) :=
  match steps with
  | [] => Ok scores
  | step :: rest => scores ← score_entry scores step; score_table scores rest
  end.

Definition sync_invariant (scores : dict pyfloat) (invariant : jobject) : jobject :=
  if is_text (jget invariant "id") "participant_score" then
    match scores !! text_or "" (py_or (jget invariant "score_id") (jget invariant "id")) with
    | Some x => <["score" := _round_score x]> invariant
    | None => invariant
    end
  else invariant.

Definition _sync_participant_score_invariants (spec : jobject) : res jobject :=
  steps ← py_items (py_or (jget spec "steps") (JList []));
  scores ← score_table [] steps;
  change_items (λ d, Ok (sync_invariant scores d)) spec "invariants".

Definition shifted_spec (base_spec : jobject) (mutation : jobject) (index : Z) (seed : string) : res jobject :=
  delta ← jitem mutation "score_delta";
  score_delta ← py_float delta;
  title ← evo_text "title" (py_or (jget base_spec "title") (JStr "Kernel simulation"));
  let spec := <["title" := JStr (title +:+ " / evolved " +:+ dec (index + 1))]> base_spec in
  scenario_id ← evo_slug (JStr (py_str (py_or (jget spec "scenario_id") (jget spec "title")) +:+ "-"
                  +:+ str_take 8 seed +:+ "-v" +:+ dec (index + 1)));
  let spec := <["scenario_id" := JStr scenario_id]> spec in
  let evolution := [("variant_index", JInt index); ("mutation", JObj mutation); ("seed", JStr seed);
    ("simulation_only", JBool true); ("proposal_only", JBool true); ("active_apply_enabled", JBool false)] in
  let spec := <["metadata" := JObj (<["evolution" := JObj evolution]> (spec_metadata spec))]> spec in
  spec ← change_items (shift_step score_delta) spec "steps";
  _sync_participant_score_invariants spec.

(** * Topologies *)

(** * Reading participants *)

(** [str(participant[k])], as in a formatted string. *)
Definition item_text (p : jobject) (k : string) : res string := py_str <$> jitem p k.

(** [list(enumerate(l))]. *)
Definition numbered {A} (l : list A) : list (Z * A) := imap (λ i x, (Z.of_nat i, x)) l.

(** A value of [_round_score] as a float. *)
Definition score_number (j : json) : pyfloat :=
  match j with JInt n => f_round n | JFloat x => x | _ => fzero end.

(** [l[0]] and [l[i]] of a list that may be too short. *)
Definition item_at {A} (l : list A) (i : Z) : res A :=
  match l !! Z.to_nat i with Some x => Ok x | None => Raise IndexError end.

Definition _rotate (values : list jobject) (offset : Z) : list jobject :=
  match values with
  | [] => []
  | _ => let pivot := Z.to_nat (offset mod Z.of_nat (length values)) in drop pivot values ++ take pivot values
  end.

(** * Scores *)

Definition role_bonus : list (string * Z) :=
  [("star", 0); ("ring", 2); ("market", 4); ("mentor", 3); ("adversarial_review", -1)].

(** [max(0.0, 3.0 - float(rank))]. *)
Definition rank_bonus (rank : Z) : pyfloat :=
  let left := fsub (f_round 3) (f_round rank) in if flt fzero left then left else fzero.

Definition _participant_score (topology : string) (rank : Z) (score_delta : pyfloat) (p : jobject) : res json :=
  fitness ← jitem p "fitness";
  x ← py_float fitness;
  let raw := fadd (fadd (fadd x (by_topology role_bonus 0 topology)) (rank_bonus rank)) score_delta in
  Ok (_round_score (if flt raw (f_round 100) then raw else f_round 100)).

(** * The best and the worst of a list *)

Section selection.
Context {A : Type} (key : A → scored).

Definition best_by (x : A) (xs : list A) : A := foldl (λ b d, if beats (key d) (key b) then d else b) x xs.

Definition worst_by (x : A) (xs : list A) : A := foldl (λ b d, if beats (key b) (key d) then d else b) x xs.
End selection.

(** [(float(p["fitness"]), str(p["id"]))]. *)
Definition fitness_key (p : jobject) : res (scored * jobject) :=
  fitness ← jitem p "fitness"; x ← py_float fitness; id ← item_text p "id"; Ok ((x, id, ""), p).

Definition _excluded_participant (participants : list jobject) (topology : string) : res (option jobject) :=
  if negb (topology =s? "adversarial_review") then Ok None
  else
    keyed ← res_map fitness_key participants;
    match keyed with
    | [] => Raise IndexError
    | k :: ks => Ok (Some (worst_by fst k ks).2)
    end.

(** The score and the id of a participant that stays in. *)
Definition winner_key (topology : string) (excluded_id : option string) (score_delta : pyfloat)
    (row : Z * jobject) : res (option (scored * json)) :=
  id ← jitem row.2 "id";
  if bool_decide (excluded_id = Some (py_str id)) then Ok None
  else score ← _participant_score topology row.1 score_delta row.2;
       Ok (Some ((score_number score, py_str id, ""), id)).

Definition _expected_winner (participants : list jobject) (topology : string) (excluded_id : option string)
    (score_delta : pyfloat) : res json :=
  keyed ← res_map (winner_key topology excluded_id score_delta) (numbered participants);
  match omap id keyed with
  | [] => Raise IndexError
  | k :: ks => Ok (best_by fst k ks).2
  end.

(** * Ports and edges *)

Definition port_spec (node_id : json) (port_id direction schema_ref : string) : json := JObj [
  ("node_id", node_id); ("id", JStr port_id); ("direction", JStr direction); ("schema_ref", JStr schema_ref)].

Definition participant_ports (p : jobject) : res (list json) :=
  id ← jitem p "id"; skill ← item_text p "skill";
  Ok [port_spec id ("invoke:" +:+ skill) "input" "agent.skill.v1";
      port_spec id "peer:evolve" "bidirectional" "agent.peer.v1"].

Definition _multi_agent_ports (participants : list jobject) (coordinator : string) : res (list json) :=
  ports ← res_map participant_ports participants;
  Ok ([port_spec (JStr coordinator) "route:evolve" "output" "kernel.evolution.v1";
       port_spec (JStr coordinator) "review:evolve" "input" "kernel.review.v1"] ++ concat ports).

Record topology_edge : Type := mkTopologyEdge {
  te_edge_id : string;
  te_from : json;
  te_from_port : string;
  te_to : json;
  te_to_port : string;
  te_edge_type : string;
  te_cost : json;
}.

Definition call_edge (coordinator topology : string) (p : jobject) : res topology_edge :=
  id ← jitem p "id"; skill ← item_text p "skill"; cost ← jitem p "cost";
  Ok (mkTopologyEdge (str_take 80 ("edge-" +:+ coordinator +:+ "-" +:+ py_str id)) (JStr coordinator)
        "route:evolve" id ("invoke:" +:+ skill)
        (if topology =s? "adversarial_review" then "review" else "call") cost).

(** The edge to the next participant; the last one has none in a mentor chain. *)
Definition peer_edge (topology : string) (participants : list jobject) (index : Z) : res (option topology_edge) :=
  let n := Z.of_nat (length participants) in
  current ← item_at participants index;
  peer ← item_at participants ((index + 1) mod n);
  if (topology =s? "mentor") && (index =? n - 1) then Ok None
  else
    from ← jitem current "id"; to ← jitem peer "id"; cost ← jitem peer "cost"; amount ← py_int cost;
    Ok (Some (mkTopologyEdge (str_take 80 ("edge-" +:+ py_str from +:+ "-" +:+ py_str to)) from "peer:evolve"
                to "peer:evolve" (if topology =s? "ring" then "collaborate" else "mentor")
                (JInt (Z.max 1 amount)))).

Definition market_edge (leader p : jobject) : res topology_edge :=
  from ← jitem leader "id"; to ← jitem p "id";
  Ok (mkTopologyEdge (str_take 80 ("edge-market-" +:+ py_str from +:+ "-" +:+ py_str to)) from "peer:evolve"
        to "peer:evolve" "compare" (JInt 1)).

Definition _topology_edges (participants : list jobject) (topology coordinator : string) :
    res (list topology_edge) :=
  let n := length participants in
  calls ← (if str_in topology ["star"; "market"; "adversarial_review"]
           then res_map (call_edge coordinator topology) participants else Ok []);
  peers ← (if str_in topology ["ring"; "mentor"]
           then res_map (peer_edge topology participants)
                  (seqZ 0 (if topology =s? "ring" then Z.of_nat n else Z.max 1 (Z.of_nat n - 1)))
           else Ok []);
  market ← match participants with
           | leader :: rest =>
               if (topology =s? "market") && (3 <=? n)%nat then res_map (market_edge leader) rest else Ok []
           | [] => Ok []
           end;
  Ok (calls ++ omap id peers ++ market).

(** * Steps *)

Definition COORDINATOR : string := "kernel-orchestrator".
Definition EVOLUTION_CAPABILITY : string := "cap-evolution-coordinator".

Definition node_port (node_id : json) (port_id : string) : json :=
  JObj [("node_id", node_id); ("port_id", JStr port_id)].

Section variant.
Context (topology seed process_id arena_id : string) (index : Z) (score_delta : pyfloat).

Definition start_step (n_edges n_participants : Z) : json := JObj [
  ("type", JStr "start_process"); ("process_id", JStr process_id); ("owner", JStr COORDINATOR);
  ("capability_id", JStr EVOLUTION_CAPABILITY); ("ttl", JInt 20);
  ("budget", JInt (Z.max 10 (n_edges + n_participants + 2))); ("max_calls", JInt (n_edges + 2))].

Definition edge_steps (e : topology_edge) : list json := [
  JObj [("type", JStr "propose_edge"); ("edge_id", JStr (te_edge_id e));
        ("from", node_port (te_from e) (te_from_port e)); ("to", node_port (te_to e) (te_to_port e));
        ("edge_type", JStr (te_edge_type e)); ("capability_id", JStr EVOLUTION_CAPABILITY);
        ("process_id", JStr process_id);
        ("provenance_ref", JStr ("kernel_evolution:" +:+ topology +:+ ":" +:+ str_take 12 seed))];
  JObj [("type", JStr "activate_edge"); ("edge_id", JStr (te_edge_id e));
        ("decision_id", JStr ("pd-" +:+ te_edge_id e))];
  JObj [("type", JStr "use_edge"); ("edge_id", JStr (te_edge_id e)); ("cost", te_cost e)]].

Definition participant_steps (row : Z * jobject) : res (list json) :=
  let p := row.2 in
  score ← _participant_score topology row.1 score_delta p;
  id ← jitem p "id"; role ← jitem p "role"; skill ← jitem p "skill"; fitness ← jitem p "fitness";
  cost ← jitem p "cost";
  let name := py_str id in
  Ok [JObj [("type", JStr "emit_signal"); ("node_id", id); ("signal_type", JStr "evolution.observation");
            ("payload", JObj [("topology", JStr topology); ("role", role); ("skill", skill);
                              ("fitness", fitness); ("score", score); ("simulation_only", JBool true)])];
      JObj [("type", JStr "record_outcome"); ("outcome_id", JStr ("outcome-" +:+ name)); ("participant_id", id);
            ("process_id", JStr process_id);
            ("metrics", JObj [("score", _round_score (fdiv (score_number score) (f_round 100)));
                              ("cost", cost); ("topology", JStr topology)]);
            ("evidence_refs",
              jstrs ["evolution:" +:+ str_take 12 seed +:+ ":" +:+ topology +:+ ":" +:+ name])];
      JObj [("type", JStr "score_participant"); ("score_id", JStr ("score-" +:+ name)); ("participant_id", id);
            ("outcome_id", JStr ("outcome-" +:+ name)); ("score", score);
            ("explanation_refs", jstrs ["mutation:" +:+ topology +:+ ":" +:+ dec (index + 1)])]].

Definition freeze_step (id : json) : json := JObj [
  ("type", JStr "freeze_node"); ("node_id", id); ("reason", JStr "unsafe arena participant")].

Definition candidate_entry (name : string) : string * json :=
  (name, JObj [("score_id", JStr ("score-" +:+ name)); ("outcome_id", JStr ("outcome-" +:+ name));
               ("process_id", JStr process_id)]).

Definition closing_steps (names : list string) : list json := [
  JObj [("type", JStr "select_winner"); ("arena_id", JStr arena_id);
        ("candidates", JObj (dict_update [] (map candidate_entry names)))];
  JObj [("type", JStr "check_policy"); ("decision_id", JStr ("pd-evolution-" +:+ dec (index + 1)));
        ("action", JStr "call"); ("resource", JStr "skill:evolve")];
  JObj [("type", JStr "stop_process"); ("process_id", JStr process_id);
        ("reason", JStr "simulation_completed")]].

Definition variant_invariants (winner_id : json) (excluded_id : option json) (ids : list json) (n_steps : Z) :
    list json :=
  [JStr "replay_deterministic"; JStr "no_active_apply"; JStr "no_violations";
   JObj [("id", JStr "winner_selected"); ("arena_id", JStr arena_id); ("winner_id", winner_id)];
   JObj [("id", JStr "process_absent"); ("process_id", JStr process_id)];
   JObj [("id", JStr "expected_decision"); ("step", JInt (n_steps - 1)); ("decision", JStr "allow")]]
  ++ (match excluded_id with
      | Some id => [JObj [("id", JStr "candidate_excluded"); ("arena_id", JStr arena_id);
                          ("participant_id", id); ("reason", JStr "participant_frozen")]]
      | None => []
      end)
  ++ map (λ id, JObj [("id", JStr "outcome_recorded"); ("outcome_id", JStr ("outcome-" +:+ py_str id));
                      ("participant_id", id)]) ids.
End variant.

(** * The specification *)

Definition invoke_resource (p : jobject) : res string :=
  id ← item_text p "id"; skill ← item_text p "skill"; Ok (id +:+ ":invoke:" +:+ skill).

Definition coordinator_capability (resources : list string) (n_edges n_participants : Z) : json := JObj [
  ("id", JStr EVOLUTION_CAPABILITY); ("owner", JStr COORDINATOR);
  ("actions", jstrs ["call"; "review"; "score"; "collaborate"; "mentor"; "compare"]);
  ("resources", jstrs resources); ("budget", JInt (Z.max 20 (n_edges + n_participants * 2)));
  ("delegation_depth", JInt 1)].

Definition evolution_policy : json := JObj [
  ("id", JStr "owner-allow-evolution"); ("level", JStr "owner"); ("effect", JStr "allow");
  ("actions", jstrs ["call"; "review"; "collaborate"; "mentor"; "compare"]);
  ("resources", jstrs ["skill:*"; "*:invoke:*"; "*:peer:evolve"])].

(** The record of the variant in the metadata. *)
Definition evolution_entry (mutation : jobject) (index : Z) (seed topology : string) (simulation_type : json)
    (participants : list jobject) (winner_id : json) (excluded_id : option json) : json := JObj [
  ("variant_index", JInt index); ("mutation", JObj mutation); ("seed", JStr seed);
  ("simulation_type", py_or simulation_type (JStr "multi_agent_evolution"));
  ("participants", JList (map JObj participants)); ("topology", JStr topology); ("winner_id", winner_id);
  ("excluded_participant_id", default JNull excluded_id); ("simulation_only", JBool true);
  ("proposal_only", JBool true); ("active_apply_enabled", JBool false)].

Definition _multi_agent_variant_spec (base_spec mutation : jobject) (index : Z) (seed : string) : res jobject :=
  population ← _population_from_spec base_spec;
  rotation ← py_int (py_or (jget mutation "rotation") (JInt 0));
  let participants := _rotate population rotation in
  topology ← evo_text "topology" (py_or (jget mutation "topology") (JStr "star"));
  let process_id := "evo-process-" +:+ dec (index + 1) in
  let arena_id := "evo-arena-" +:+ dec (index + 1) in
  score_delta ← float_field mutation "score_delta";
  excluded ← _excluded_participant participants topology;
  edges ← _topology_edges participants topology COORDINATOR;
  excluded_id ← match excluded with Some p => Some <$> jitem p "id" | None => Ok None end;
  winner_id ← _expected_winner participants topology (py_str <$> excluded_id) score_delta;
  invokes ← res_map invoke_resource participants;
  ids ← res_map (λ p, jitem p "id") participants;
  let names := map py_str ids in
  let n_edges := Z.of_nat (length edges) in
  let n := Z.of_nat (length participants) in
  rows ← res_map (participant_steps topology seed process_id index score_delta) (numbered participants);
  let steps := [start_step process_id n_edges n] ++ concat (map (edge_steps topology seed process_id) edges)
    ++ concat rows ++ match excluded_id with Some id => [freeze_step id] | None => [] end
    ++ closing_steps process_id arena_id index names in
  let base_metadata := spec_metadata base_spec in
  title ← evo_text "title" (py_or (jget base_spec "title") (JStr "Multi-agent evolution"));
  scenario_id ← evo_slug (JStr (py_str (py_or (jget base_spec "scenario_id") (JStr "multi-agent-evolution"))
    +:+ "-" +:+ str_take 8 seed +:+ "-" +:+ topology +:+ "-" +:+ dec (index + 1)));
  ports ← _multi_agent_ports participants COORDINATOR;
  Ok [("title", JStr (title +:+ " / " +:+ topology +:+ " " +:+ dec (index + 1)));
      ("scenario_id", JStr scenario_id); ("template_kind", JStr "multi_agent_evolution");
      ("risk_class", JStr "simulation");
      ("actors", JList (map (λ id, JObj [("id", id)]) (JStr COORDINATOR :: ids)));
      ("ports", JList ports);
      ("capabilities", JList [coordinator_capability (["skill:*"; "agent:*"] ++ invokes
                                ++ map (λ name, name +:+ ":peer:evolve") names) n_edges n]);
      ("policies", JList [evolution_policy]); ("steps", JList steps);
      ("invariants", JList (take 25 (variant_invariants process_id arena_id winner_id excluded_id ids
                                       (Z.of_nat (length steps)))));
      ("metadata", JObj (<["evolution" := evolution_entry mutation index seed topology
          (jget base_metadata "simulation_type") participants winner_id excluded_id]> base_metadata))].

Definition _mutated_spec (base_spec mutation : jobject) (index : Z) (seed : string) : res jobject :=
  if is_text (jget mutation "type") "multi_agent_topology"
  then _multi_agent_variant_spec base_spec mutation index seed
  else shifted_spec base_spec mutation index seed.
