(* ===== verification/Evolution.v ===== *)
(** Evolution experiments (graph_kernel/evolution.py): a bounded number of
    mutated specifications, each run as a custom simulation and scored, and a
    disabled draft proposal for the winner.

    Only the refusals of the simulation ([CustomSimulationError]) count as a
    failed variant; another exception of a run leaves the experiment. *)
From Stdlib Require Import Ascii.
From S2P Require Import Prelude PyStr PyDict PyFloat PyJson KernelRouting SimSteps.
From S2P Require Import Safety Simulation SimulationRun Templates Primitives EvolutionSpec.
Open Scope Z_scope.

(** * Results *)

Record KernelVariantResult : Type := mkVariantResult {
  kv_variant_id : string;
  kv_parent_ref : string;
  kv_mutation : jobject;
  kv_spec : jobject;
  kv_passed : bool;
  kv_score : pyfloat;
  kv_trace : jobject;
  kv_trace_summary : jobject;
  kv_state_summary : jobject;
  kv_replay_digest : string;
  kv_proposal_ref : option string;
  kv_error : option string;
}.

Definition variant_result_payload (v : KernelVariantResult) : jobject := [
  ("variant_id", JStr (kv_variant_id v)); ("parent_ref", JStr (kv_parent_ref v));
  ("mutation", JObj (kv_mutation v)); ("spec", JObj (kv_spec v)); ("passed", JBool (kv_passed v));
  ("score", JFloat (kv_score v)); ("trace", JObj (kv_trace v)); ("trace_summary", JObj (kv_trace_summary v));
  ("state_summary", JObj (kv_state_summary v)); ("replay_digest", JStr (kv_replay_digest v));
  ("proposal_ref", jopt (kv_proposal_ref v)); ("error", jopt (kv_error v))] ++ SAFETY_MARKERS.

Record KernelEvolutionResult : Type := mkEvolutionResult {
  ke_experiment_id : string;
  ke_title : string;
  ke_base_ref : string;
  ke_seed : string;
  ke_variants : list KernelVariantResult;
  ke_winner_variant_id : option string;
  ke_proposal : option jobject;
}.

Definition evolution_passed (r : KernelEvolutionResult) : bool := bool_decide (is_Some (ke_winner_variant_id r)).

Definition evolution_payload (r : KernelEvolutionResult) : jobject := [
  ("experiment_id", JStr (ke_experiment_id r)); ("title", JStr (ke_title r));
  ("base_ref", JStr (ke_base_ref r)); ("seed", JStr (ke_seed r));
  ("variant_count", JInt (Z.of_nat (length (ke_variants r)))); ("passed", JBool (evolution_passed r));
  ("winner_variant_id", jopt (ke_winner_variant_id r));
  ("variants", JList (map (JObj ∘ variant_result_payload) (ke_variants r)));
  ("proposal", match ke_proposal r with Some p => JObj p | None => JNull end)] ++ SAFETY_MARKERS.

(** * Scores *)

(** [len(trace.get(k) or [])] of a trace, whose values there are lists. *)
Definition length_of (trace : jobject) (k : string) : Z := Z.of_nat (length (as_list (jget trace k))).

Definition denied (decision : jobject) : bool :=
  is_text (jget decision "decision") "deny" || is_text (jget decision "decision") "blocked".

Definition _policy_denial_count (trace : jobject) : Z :=
  Z.of_nat (length (List.filter denied (dicts (as_list (jget trace "policy_decisions"))))).

(** The sum of the scores assigned, from the left. *)
Fixpoint total_score (acc : pyfloat) (events : list jobject) : res pyfloat :=
  match events with
  | [] => Ok acc
  | event :: rest =>
      if is_text (jget event "event_type") "score.assigned" then
        x ← float_field (object_or_empty (jget event "payload")) "score";
        total_score (fadd acc x) rest
      else total_score acc rest
  end.

Definition times (n : Z) (weight : Z) : pyfloat := fmul (f_round n) (f_round weight).

Definition _score_result (r : CustomSimulationResult) (mutation : jobject) : res pyfloat :=
  let trace := trace_payload (trace_contract r) in
  if negb (tr_passed (trace_contract r)) then
    fails ← py_float (py_or (jget (trace_summary_payload r) "invariant_fail_count") (JInt 0));
    Ok (fsub (f_round (-1000)) (fmul fails (f_round 100)))
  else
    total ← total_score fzero (dicts (as_list (jget trace "events")));
    delta ← float_field mutation "score_delta";
    complexity ← float_field mutation "structural_complexity";
    Ok (fsub (fsub (fsub (fadd (fadd (fadd (f_round 1000) total) delta) complexity)
                      (times (_policy_denial_count trace) 150))
                (times (length_of trace "alerts") 25))
          (times (length_of trace "violations") 250)).

(** * Running a variant *)

Definition refused_trace (variant_id error : string) (spec : jobject) : jobject := [
  ("scenario_id", py_or (jget spec "scenario_id") (JStr variant_id)); ("passed", JBool false);
  ("events", JList []); ("invariant_results", JList []); ("alerts", JList []);
  ("violations", jstrs [error])] ++ SAFETY_MARKERS.

Definition refused_variant (variant_id parent_ref error : string) (mutation spec : jobject) : KernelVariantResult :=
  mkVariantResult variant_id parent_ref mutation spec false (f_round (-10000))
    (refused_trace variant_id error spec)
    [("passed", JBool false); ("invariant_fail_count", JInt 1); ("violation_count", JInt 1);
     ("active_apply_enabled", JBool false)] []
    (_digest (JObj [("variant_id", JStr variant_id); ("error", JStr error)])) None (Some error).

Section run.
Context (secret : string) (validate_python : list json → list KernelStepSpec + list validation_error).

Definition _run_variant (variant_id parent_ref : string) (mutation spec : jobject) (proposal_ref : string) :
    res KernelVariantResult :=
  match (run_custom_kernel_simulation secret validate_python (JObj spec)).1 with
  | Raise (CustomSimulationError error) => Ok (refused_variant variant_id parent_ref error mutation spec)
  | Raise e => Raise e
  | Ok r =>
      let trace := trace_payload (trace_contract r) in
      let passed := tr_passed (trace_contract r) in
      score ← _score_result r mutation;
      Ok (mkVariantResult variant_id parent_ref mutation spec passed score trace (trace_summary_payload r)
            (state_summary r) (_digest (JObj trace)) (if passed then Some proposal_ref else None) None)
  end.

(** * The base and the strategy *)

Definition rendered_base (template_id : string) : res jobject :=
  match render_custom_kernel_template secret validate_python template_id with
  | Raise (CustomSimulationError msg) => evo_refuse msg
  | r => r
  end.

Definition population_of (experiment : jobject) : json :=
  match jget experiment "participants" with JNull => jget experiment "agents" | v => v end.

(** How many of the three ways to give a base are used. *)
Definition bases_given (experiment : jobject) : nat :=
  length (List.filter id [truthy (jget experiment "base_template_id");
    match jget experiment "base_spec" with JObj _ => true | _ => false end;
    negb (bool_decide (population_of experiment = JNull))]).

Definition population_base (experiment : jobject) : res (string * jobject) :=
  participants ← _participant_specs (population_of experiment);
  title ← evo_text "title" (py_or (jget experiment "title") (JStr "Multi-agent evolution experiment"));
  scenario_id ← evo_slug (JStr (title +:+ "-population"));
  simulation_type ← evo_optional_text "multi_agent_evolution" (jget experiment "simulation_type");
  Ok ("multi_agent_population",
      [("title", JStr title); ("scenario_id", JStr scenario_id);
       ("metadata", JObj ([("evolution_population", JList (map JObj participants));
                           ("simulation_type", JStr simulation_type)] ++ SAFETY_MARKERS))]).

Definition _base_spec (experiment : jobject) : res (string * jobject) :=
  if negb (bases_given experiment =? 1)%nat then
    evo_refuse "provide exactly one of base_template_id, base_spec, or participants"
  else if truthy (jget experiment "base_template_id") then
    template_id ← evo_text "base_template_id" (jget experiment "base_template_id");
    spec ← rendered_base template_id; Ok (template_id, spec)
  else match jget experiment "base_spec" with
       | JObj spec => Ok ("inline_spec", spec)
       | _ => population_base experiment
       end.

Definition active_request : string :=
  "kernel evolution experiments are simulation-only and cannot request active apply".
Definition carries_intents : string := "kernel evolution experiments cannot carry mutation grants or write intents".

Definition _reject_active_evolution_request (experiment : jobject) : res unit :=
  if existsb (λ key, truthy (jget experiment key)) FORBIDDEN_ACTIVE_APPLY_FLAGS then evo_refuse active_request
  else if existsb (λ key, present (jget experiment key)) FORBIDDEN_WRITE_INTENT_KEYS then evo_refuse carries_intents
  else Ok ().

Definition _seed (experiment : jobject) (base_ref : string) (base_spec : jobject) : res string :=
  match jget experiment "seed" with
  | JNull => Ok (_digest (JObj [("base_ref", JStr base_ref); ("base_spec", JObj base_spec);
                                ("variant_count", jget experiment "variant_count")]))
  | provided => evo_slug provided
  end.

Definition _strategy (experiment base_spec : jobject) : res string :=
  let has_population := match jget (spec_metadata base_spec) "evolution_population" with
                        | JList _ => true | _ => false end in
  strategy ← evo_optional_text (if has_population then "multi_agent_topology" else "bounded_score_shift")
               (jget experiment "strategy");
  if negb (str_in strategy ["bounded_score_shift"; "multi_agent_topology"]) then
    evo_refuse "strategy must be bounded_score_shift or multi_agent_topology"
  else if has_population && negb (strategy =s? "multi_agent_topology") then
    evo_refuse "participants require strategy multi_agent_topology"
  else if negb has_population && negb (strategy =s? "bounded_score_shift") then
    evo_refuse "multi_agent_topology requires participants"
  else Ok strategy.

End run.

(** * The winner and its draft *)

Definition variant_key (v : KernelVariantResult) : scored := (kv_score v, kv_variant_id v, "").

Definition _winner (variants : list KernelVariantResult) : option KernelVariantResult :=
  match List.filter kv_passed variants with
  | [] => None
  | v :: vs => Some (best_by variant_key v vs)
  end.

(** The lineage, the fitness, the rollback plan and the gates, built and checked. *)
Definition winner_lineage (w : KernelVariantResult) : Lineage :=
  mkLineage [kv_parent_ref w] (Some (kv_variant_id w)) 0
    [mkMutation (py_str (py_or (jget (kv_mutation w) "type") (JStr "mutation"))) None (kv_mutation w) None
       "simulation" default_markers]
    [] (Some (kv_replay_digest w)) default_markers.

Definition winner_fitness (w : KernelVariantResult) : FitnessVector :=
  scored_fitness (Some (kv_score w)) [
    ("score", JFloat (kv_score w)); ("passed", JBool (kv_passed w));
    ("policy_denials", JInt (_policy_denial_count (kv_trace w)));
    ("alerts", JInt (length_of (kv_trace w) "alerts"));
    ("violations", JInt (length_of (kv_trace w) "violations"))].

Definition winner_rollback (experiment_id base_ref : string) (w : KernelVariantResult) : RollbackPlan :=
  mkRollback "discard_disabled_draft" ["proposal:" +:+ experiment_id +:+ ":" +:+ kv_variant_id w] [base_ref]
    ["leave current kernel state unchanged"; "discard disabled proposal draft"] true default_markers.

Definition winner_gates (w : KernelVariantResult) : list PromotionGate := [
  mkGate OwnerApproval GMissing [] true; mkGate GReview GMissing [] true; mkGate GProof GMissing [] true;
  mkGate GCanary GMissing [] true; mkGate GRollback GPassed [kv_replay_digest w] true].

Definition proposal_fields (experiment_id title base_ref seed : string) (w : KernelVariantResult)
    (lineage : Lineage) (fitness : FitnessVector) (rollback : RollbackPlan) (gates : list PromotionGate) :
    jobject := [
  ("proposal_id", JStr (experiment_id +:+ ":" +:+ kv_variant_id w));
  ("proposal_type", JStr "kernel_template_variant"); ("title", JStr (title +:+ " proposal"));
  ("base_ref", JStr base_ref); ("winner_variant_id", JStr (kv_variant_id w));
  ("lineage", JObj [("parent_ref", JStr (kv_parent_ref w)); ("variant_id", JStr (kv_variant_id w));
                    ("mutation", JObj (kv_mutation w)); ("seed", JStr seed);
                    ("replay_digest", JStr (kv_replay_digest w))]);
  ("kernel_lineage", JObj (lineage_payload lineage));
  ("draft", JObj [("status", JStr "disabled"); ("spec", JObj (kv_spec w))]); ("score", JFloat (kv_score w));
  ("fitness", JObj (fitness_payload fitness)); ("rollback_plan", JObj (rollback_payload rollback));
  ("promotion_gates", JList (map (JObj ∘ gate_payload) gates))] ++ SAFETY_MARKERS.

Definition _proposal (experiment_id title base_ref seed : string) (winner : KernelVariantResult) : res jobject :=
  lineage ← validated lineage_valid (winner_lineage winner);
  fitness ← validated fitness_valid (winner_fitness winner);
  rollback ← validated rollback_valid (winner_rollback experiment_id base_ref winner);
  gates ← res_map (validated gate_valid) (winner_gates winner);
  let proposal := proposal_fields experiment_id title base_ref seed winner lineage fitness rollback gates in
  Ok (<["proposal_digest" := JStr (_digest (JObj proposal))]> proposal).

(** * The experiment *)

Section experiment.
Context (secret : string) (validate_python : list json → list KernelStepSpec + list validation_error).

(** The mutation, the specification and the run of each variant, in turn. *)
Definition evolve_variant (experiment_id base_ref seed strategy : string) (base_spec : jobject)
    (variant_count : Z) (max_score_delta : pyfloat) (index : Z) : res KernelVariantResult :=
  mutation ← _mutation index variant_count max_score_delta strategy base_spec;
  spec ← _mutated_spec base_spec mutation index seed;
  let variant_id := experiment_id +:+ "-v" +:+ dec (index + 1) in
  _run_variant secret validate_python variant_id base_ref mutation spec
    ("proposal:" +:+ experiment_id +:+ ":" +:+ variant_id).

Definition evolve (experiment : jobject) : res KernelEvolutionResult :=
  _ ← _reject_active_evolution_request experiment;
  title ← evo_text "title" (py_or (jget experiment "title") (JStr "Kernel evolution experiment"));
  variant_count ← evo_int 3 1 MAX_EVOLUTION_VARIANTS (jget experiment "variant_count");
  max_score_delta ← evo_float (f_round (Z.max 0 (variant_count - 1))) 0 MAX_SCORE_DELTA
                      (jget experiment "max_score_delta");
  base ← _base_spec secret validate_python experiment;
  seed ← _seed experiment base.1 base.2;
  experiment_id ← evo_slug (py_or (jget experiment "experiment_id") (JStr ("evolution-" +:+ str_take 12 seed)));
  strategy ← _strategy experiment base.2;
  variants ← res_map (evolve_variant experiment_id base.1 seed strategy base.2 variant_count max_score_delta)
               (seqZ 0 variant_count);
  let winner := _winner variants in
  proposal ← match winner with
             | Some w => Some <$> _proposal experiment_id title base.1 seed w
             | None => Ok None
             end;
  Ok (mkEvolutionResult experiment_id title base.1 seed variants (kv_variant_id <$> winner) proposal).

Definition run_kernel_evolution_experiment (experiment : json) : res KernelEvolutionResult :=
  match experiment with
  | JObj d => evolve d
  | _ => evo_refuse "evolution experiment must be an object"
  end.
End experiment.
