(* ===== verification/EvolutionProperties.v ===== *)
(** Properties of evolution experiments: the winner is the best variant that
    passed, and all an experiment leaves is a disabled draft behind gates that
    are missing. *)
From Stdlib Require Import SpecFloat.
From S2P Require Import Prelude PyStr PyDict PyFloat PyJson KernelRouting KernelGovern.
From S2P Require Import SimSteps.
From S2P Require Import StepReader Safety Simulation SimulationRun Templates Primitives.
From S2P Require Import EvolutionSpec.
From S2P Require Import Evolution.
Open Scope Z_scope.

(** * The best of a list by a key *)

Lemma best_by_key {A} (key : A → scored) x xs : key (best_by key x xs) = best (key x) (map key xs).
Proof.
  unfold best_by, best. revert x. induction xs as [|y xs IH]; intros x; [done|]. cbn [foldl map].
  rewrite IH. by destruct (beats (key y) (key x)).
Qed.

Lemma best_by_in {A} (key : A → scored) x xs : best_by key x xs ∈ x :: xs.
Proof.
  unfold best_by. revert x. induction xs as [|y xs IH]; intros x; cbn [foldl]; [set_solver|].
  destruct (beats (key y) (key x)); [specialize (IH y)|specialize (IH x)]; set_solver.
Qed.

Lemma best_by_unbeaten {A} (key : A → scored) x xs y : y ∈ x :: xs → beats (key y) (key (best_by key x xs)) = false.
Proof.
  intros Hy. rewrite best_by_key. apply best_unbeaten. change (key x :: map key xs) with (map key (x :: xs)).
  by apply list_elem_of_fmap_2.
Qed.

(** * The winner *)

Definition best_passing (variants : list KernelVariantResult) (w : KernelVariantResult) : Prop :=
  w ∈ variants ∧ kv_passed w = true
  ∧ ∀ v, v ∈ variants → kv_passed v = true → beats (variant_key v) (variant_key w) = false.

Lemma winner_outcome variants :
  match _winner variants with
  | Some w => best_passing variants w
  | None => ∀ v, v ∈ variants → kv_passed v = false
  end.
Proof.
  unfold _winner. destruct (List.filter kv_passed variants) as [|v vs] eqn:E.
  - intros v Hv. destruct (kv_passed v) eqn:Hp; [|done].
    assert (v ∈ List.filter kv_passed variants) as H by (apply list_elem_of_In, filter_In; by rewrite <-list_elem_of_In).
    rewrite E in H. by apply elem_of_nil in H.
  - assert (∀ x, x ∈ v :: vs ↔ x ∈ variants ∧ kv_passed x = true) as Hf.
    { intros x. by rewrite <-E, list_elem_of_In, filter_In, <-list_elem_of_In. }
    pose proof (best_by_in variant_key v vs) as Hin. apply Hf in Hin as [H1 H2]. split; [done|split; [done|]].
    intros x Hx Hp. apply best_by_unbeaten, Hf. done.
Qed.

(** * Variants *)

(** What a variant shows is what the simulation of its specification gave. *)
Definition ran_as (secret : string) (validate : list json → list KernelStepSpec + list validation_error)
    (v : KernelVariantResult) : Prop :=
  match (run_custom_kernel_simulation secret validate (JObj (kv_spec v))).1 with
  | Ok r => kv_trace v = trace_payload (trace_contract r) ∧ kv_passed v = tr_passed (trace_contract r)
            ∧ kv_replay_digest v = _digest (JObj (kv_trace v)) ∧ kv_error v = None
  | Raise (CustomSimulationError e) => kv_passed v = false ∧ kv_error v = Some e
  | Raise _ => False
  end.

Ltac unfold_variant :=
  cbn [kv_variant_id kv_parent_ref kv_spec kv_trace kv_passed kv_replay_digest kv_error kv_proposal_ref].

Lemma run_variant_outcome secret validate id base mutation spec ref v :
  _run_variant secret validate id base mutation spec ref = Ok v →
  kv_variant_id v = id ∧ kv_parent_ref v = base ∧ ran_as secret validate v
  ∧ kv_proposal_ref v = (if kv_passed v then Some ref else None).
Proof.
  unfold _run_variant, ran_as.
  destruct (run_custom_kernel_simulation secret validate (JObj spec)).1 as [r|e] eqn:E.
  - intros (score & _ & [= <-])%res_bind_ok. unfold_variant. by rewrite E.
  - destruct e; try done. intros [= <-]. unfold refused_variant. unfold_variant. by rewrite E.
Qed.

Definition nth_id (experiment_id : string) (i : Z) : string := experiment_id +:+ "-v" +:+ dec (i + 1).

Lemma variants_outcome secret validate exp base seed strategy spec n delta variants :
  res_map (evolve_variant secret validate exp base seed strategy spec n delta) (seqZ 0 n) = Ok variants →
  map kv_variant_id variants = map (nth_id exp) (seqZ 0 n)
  ∧ ∀ v, v ∈ variants → kv_parent_ref v = base ∧ ran_as secret validate v
      ∧ kv_proposal_ref v = (if kv_passed v then Some ("proposal:" +:+ exp +:+ ":" +:+ kv_variant_id v) else None).
Proof.
  intros H%res_map_ok. induction H as [|i v il vs Hv _ [IH1 IH2]]; [split; [done|set_solver]|].
  unfold evolve_variant in Hv. apply res_bind_ok in Hv as (m & _ & Hv).
  apply res_bind_ok in Hv as (s & _ & Hv). apply run_variant_outcome in Hv as (H1 & H2 & H3 & H4).
  cbn [map]. rewrite H1, IH1. split; [done|]. intros w [->|Hw]%elem_of_cons; [|by apply IH2].
  by rewrite H4, H1.
Qed.

Lemma evo_int_bounds dflt lo hi v n : evo_int dflt lo hi v = Ok n → lo ≤ n ≤ hi.
Proof.
  unfold evo_int. intros (m & _ & H)%res_bind_ok. destruct (Z.ltb_spec m lo), (Z.gtb_spec m hi); try done.
  injection H as <-. lia.
Qed.

Lemma not_requested d : _reject_active_evolution_request d = Ok () →
  (∀ k, k ∈ FORBIDDEN_ACTIVE_APPLY_FLAGS → truthy (jget d k) = false)
  ∧ (∀ k, k ∈ FORBIDDEN_WRITE_INTENT_KEYS → present (jget d k) = false).
Proof.
  unfold _reject_active_evolution_request. destruct (existsb _ FORBIDDEN_ACTIVE_APPLY_FLAGS) eqn:E1; [done|].
  destruct (existsb _ FORBIDDEN_WRITE_INTENT_KEYS) eqn:E2; [done|]. intros _. split; intros k Hk%list_elem_of_In.
  - destruct (truthy (jget d k)) eqn:E; [|done].
    rewrite <-E1. symmetry. apply existsb_exists. by exists k.
  - destruct (present (jget d k)) eqn:E; [|done].
    rewrite <-E2. symmetry. apply existsb_exists. by exists k.
Qed.

(** * The experiment *)

Definition gates_of (w : KernelVariantResult) : json := JList (map (JObj ∘ gate_payload) (winner_gates w)).

(** A draft that applies nothing: disabled, with four gates missing, and marked. *)
Definition disabled_draft (w : KernelVariantResult) (p : jobject) : Prop :=
  jget p "draft" = JObj [("status", JStr "disabled"); ("spec", JObj (kv_spec w))]
  ∧ jget p "promotion_gates" = gates_of w
  ∧ map (λ g, (gt_type g, gt_status g)) (winner_gates w)
    = [(OwnerApproval, GMissing); (GReview, GMissing); (GProof, GMissing); (GCanary, GMissing); (GRollback, GPassed)]
  ∧ (∀ k v, (k, v) ∈ SAFETY_MARKERS → jget p k = v).

Lemma proposal_disabled exp title base seed w p : _proposal exp title base seed w = Ok p → disabled_draft w p.
Proof.
  unfold _proposal. intros (l & _ & H)%res_bind_ok. apply res_bind_ok in H as (f & _ & H).
  apply res_bind_ok in H as (rb & _ & H). apply res_bind_ok in H as (g & Hg & [= <-]).
  apply all_validated in Hg as ->.
  unfold disabled_draft. split_and!; try reflexivity; try (rewrite jget_insert_ne by done; reflexivity).
  intros k v Hk. unfold SAFETY_MARKERS in Hk. set_unfold in Hk.
  destruct_or! Hk; injection Hk as -> ->; reflexivity.
Qed.

(** C8: an experiment runs one to eight variants of one base, each the simulation
of its specification, and asks for nothing active.  When a variant passed, the
winner is one that no passing variant beats, and the draft made of it is
disabled behind missing gates; when none passed there is no winner and no
draft.  Only variants that passed have a reference to a proposal. *)
Theorem experiment_proposes_best secret validate experiment r :
  run_kernel_evolution_experiment secret validate experiment = Ok r →
  let n := Z.of_nat (length (ke_variants r)) in
  1 ≤ n ≤ MAX_EVOLUTION_VARIANTS
  ∧ (∃ d, experiment = JObj d
      ∧ (∀ k, k ∈ FORBIDDEN_ACTIVE_APPLY_FLAGS → truthy (jget d k) = false)
      ∧ (∀ k, k ∈ FORBIDDEN_WRITE_INTENT_KEYS → present (jget d k) = false))
  ∧ map kv_variant_id (ke_variants r) = map (nth_id (ke_experiment_id r)) (seqZ 0 n)
  ∧ (∀ v, v ∈ ke_variants r → kv_parent_ref v = ke_base_ref r ∧ ran_as secret validate v
       ∧ (is_Some (kv_proposal_ref v) ↔ kv_passed v = true))
  ∧ match ke_winner_variant_id r, ke_proposal r with
    | Some name, Some p => ∃ w, best_passing (ke_variants r) w ∧ kv_variant_id w = name ∧ disabled_draft w p
    | None, None => ∀ v, v ∈ ke_variants r → kv_passed v = false
    | _, _ => False
    end.
Proof.
  destruct experiment as [| | | | | |d]; try done. cbn [run_kernel_evolution_experiment]. unfold evolve.
  intros ([] & Hreq & H)%res_bind_ok. apply res_bind_ok in H as (title & _ & H).
  apply res_bind_ok in H as (n & Hn%evo_int_bounds & H). apply res_bind_ok in H as (delta & _ & H).
  apply res_bind_ok in H as (base & _ & H). apply res_bind_ok in H as (seed & _ & H).
  apply res_bind_ok in H as (exp & _ & H). apply res_bind_ok in H as (strategy & _ & H).
  apply res_bind_ok in H as (variants & Hvs & H). pose proof (res_map_length _ _ _ Hvs) as Hlen.
  rewrite length_seqZ in Hlen. apply variants_outcome in Hvs as [Hids Hvs].
  apply res_bind_ok in H as (p & Hp & [= <-]).
  cbn [ke_variants ke_experiment_id ke_winner_variant_id ke_proposal ke_base_ref]. cbv zeta.
  rewrite Hlen, Z2Nat.id by lia. split_and!; try lia.
  - exists d. split; [done|by apply not_requested].
  - exact Hids.
  - intros v Hv. destruct (Hvs v Hv) as (H1 & H2 & H3). split_and!; [done|done|].
    rewrite H3. destruct (kv_passed v); by split; intros H.
  - pose proof (winner_outcome variants) as Hw. destruct (_winner variants) as [w|].
    + destruct (_proposal exp title base.1 seed w) as [q|] eqn:Hq; [|discriminate Hp].
      injection Hp as <-. exists w. split; [exact Hw|split; [reflexivity|by apply proposal_disabled in Hq]].
    + injection Hp as <-. exact Hw.
Qed.

(** * A concrete experiment *)

Definition member (id : string) (cost : Z) : json := JObj [("id", JStr id); ("cost", JInt cost)].

Definition experiment_of (cost : Z) : json := JObj [
  ("participants", JList [member "alpha" cost; member "beta" cost]); ("variant_count", JInt 2);
  ("seed", JStr "s")].

Definition run_experiment (experiment : json) : res KernelEvolutionResult :=
  run_kernel_evolution_experiment "k" strict_validate experiment.

(** The winner, and what each variant shows. *)
Definition experiment_shown (r : res KernelEvolutionResult) :
    option (option string * list (bool * string)) + exc :=
  match r with
  | Ok r => inl (Some (ke_winner_variant_id r, map (λ v, (kv_passed v, float_repr (kv_score v))) (ke_variants r)))
  | Raise e => inr e
  end.

(** The ring of two participants beats the star. *)
Lemma experiment_won : experiment_shown (run_experiment (experiment_of 1)) =
  inl (Some (Some "evolution-s-v2", [(true, "1134.0"); (true, "1142.0")])).
Proof. vm_compute. reflexivity. Qed.

(** A cost of 20 is accepted, but the budget of the process is made from the
number of edges: no variant can pass. *)
Lemma accepted_costs_exhaust : experiment_shown (run_experiment (experiment_of 20)) =
  inl (Some (None, [(false, "-1400.0"); (false, "-1400.0")])).
Proof. vm_compute. reflexivity. Qed.

Lemma experiment_proposes_best_witness : ∃ r w p, run_experiment (experiment_of 1) = Ok r
  ∧ best_passing (ke_variants r) w ∧ ke_proposal r = Some p ∧ disabled_draft w p.
Proof.
  pose proof experiment_won as Hs. destruct (run_experiment (experiment_of 1)) as [r|e] eqn:Hr; [|discriminate Hs].
  destruct (experiment_proposes_best "k" strict_validate (experiment_of 1) r Hr) as (_ & _ & _ & _ & H).
  injection Hs as Hw _. rewrite Hw in H. destruct (ke_proposal r) as [p|] eqn:Hp; [|destruct H].
  destruct H as (w & Hb & _ & Hd). exists r, w, p. split_and!; [reflexivity|exact Hb|exact Hp|exact Hd].
Defined.

(** [float] reads text, and every comparison with NaN is false: the bounds of a
number let it through. *)
Lemma nan_within_bounds : evo_float fzero 0 MAX_SCORE_DELTA (JStr "nan") = Ok S754_nan.
Proof. reflexivity. Qed.

(** [int] of an infinite number raises an exception that is not refused. *)
Lemma infinite_count_escapes :
  run_experiment (JObj [("participants", JList [member "a" 1; member "b" 1]);
                        ("variant_count", JFloat (S754_infinity false))]) = Raise OverflowError.
Proof. vm_compute. reflexivity. Qed.

(** A population without participants is divided by. *)
Lemma empty_population_divides :
  run_experiment (JObj [("base_spec", JObj [("metadata", JObj [("evolution_population", JList [])])]);
                        ("seed", JStr "s")]) = Raise ZeroDivisionError.
Proof. vm_compute. reflexivity. Qed.
