(* ===== verification/AgentAccess.v ===== *)
(** Who may discover, call, fork and edit an agent, and who may read the
    evidence of its calls (control_plane/agent_authorization.py).

    The database is its rows: a query with [where] is a filter, and a comparison
    with a missing organization matches no row. *)
From Stdlib Require Import Ascii.
From S2P Require Import Prelude PyStr PyDict PyFloat PyJson.
Open Scope Z_scope.

(** * Rows *)

Record User : Type := mkUser { us_id : Z; us_is_admin : bool }.

Record Agent : Type := mkAgent {
  ag_id : Z;
  ag_owner_id : Z;
  ag_organization_id : option Z;
  ag_name : string;
  ag_public : bool;
  ag_fork_policy : option string;
}.

Record OrganizationMember : Type := mkMember {
  om_organization_id : Z;
  om_user_id : Z;
  om_role : string;
  om_active : bool;
}.

Record AgentSession : Type := mkAgentSession { as_agent_id : option Z; as_caller : option string }.

Record access_db : Type := mkAccessDb { db_agents : list Agent; db_members : list OrganizationMember }.

(** [result.scalar_one_or_none()]. *)
Definition scalar_one_or_none {A} (rows : list A) : res (option A) :=
  match rows with
  | [] => Ok None
  | [x] => Ok (Some x)
  | _ => Raise MultipleResultsFound
  end.

(** * Decisions *)

Inductive AgentAction : Set := Discover | Invoke | UseExisting | Compose | Fork | EditExisting.

#[export] Instance AgentAction_eq_dec : EqDecision AgentAction.
Proof. solve_decision. Defined.

Definition action_name (a : AgentAction) : string :=
  match a with
  | Discover => "discover" | Invoke => "invoke" | UseExisting => "use_existing" | Compose => "compose"
  | Fork => "fork" | EditExisting => "edit_existing"
  end.

Definition _SOURCE_WRITER_ROLES : list string := ["owner"; "admin"; "maintainer"].
Definition _VALID_FORK_POLICIES : list string := ["private"; "organization"; "public"].

Record AgentAccessDecision : Type := mkAccess {
  ac_action : AgentAction;
  ac_allowed : bool;
  ac_reason : string;
  ac_basis : string;
  ac_organization_role : option string;
}.

Definition access_snapshot (d : AgentAccessDecision) : jobject := [
  ("action", JStr (action_name (ac_action d))); ("allowed", JBool (ac_allowed d));
  ("reason", JStr (ac_reason d)); ("basis", JStr (ac_basis d));
  ("organization_role", jopt (ac_organization_role d))].

Definition member_of (org user : Z) (m : OrganizationMember) : bool :=
  (om_organization_id m =? org) && (om_user_id m =? user) && om_active m.

Definition membership (db : access_db) (user : User) (agent : Agent) : res (option OrganizationMember) :=
  match ag_organization_id agent with
  | None => Ok None
  | Some org => scalar_one_or_none (List.filter (member_of org (us_id user)) (db_members db))
  end.

Definition decide_edit (m : option OrganizationMember) : AgentAccessDecision :=
  let denied role := mkAccess EditExisting false
    "editing requires ownership or an organization maintainer role" "denied" role in
  match m with
  | Some m =>
      if str_in (om_role m) _SOURCE_WRITER_ROLES
      then mkAccess EditExisting true "organization source maintainer" "organization" (Some (om_role m))
      else denied (Some (om_role m))
  | None => denied None
  end.

(** An unknown policy counts as private. *)
Definition fork_policy_of (agent : Agent) : string :=
  let given := default "" (ag_fork_policy agent) in
  let policy := lower (if given =s? "" then "organization" else given) in
  if str_in policy _VALID_FORK_POLICIES then policy else "private".

Definition decide_fork (agent : Agent) (m : option OrganizationMember) : AgentAccessDecision :=
  let policy := fork_policy_of agent in
  let otherwise :=
    if ag_public agent && (policy =s? "public") then
      mkAccess Fork true "owner explicitly permits public forks" "public_fork_policy" None
    else mkAccess Fork false "source is not licensed for this caller to fork" "denied" (om_role <$> m) in
  match m with
  | Some m =>
      if str_in policy ["organization"; "public"]
      then mkAccess Fork true "organization fork policy permits source reuse" "organization" (Some (om_role m))
      else otherwise
  | None => otherwise
  end.

Definition decide_use (action : AgentAction) (agent : Agent) (m : option OrganizationMember) :
    AgentAccessDecision :=
  match m with
  | Some m => mkAccess action true "active organization member" "organization" (Some (om_role m))
  | None =>
      if ag_public agent then mkAccess action true "public deployed interface" "public_interface" None
      else mkAccess action false "agent is private to another owner or organization" "denied" None
  end.

Definition decide_agent_access (db : access_db) (user : User) (agent : Agent) (action : AgentAction) :
    res AgentAccessDecision :=
  if ag_owner_id agent =? us_id user then Ok (mkAccess action true "agent owner" "owner" None)
  else
    m ← membership db user agent;
    Ok (match action with
        | EditExisting => decide_edit m
        | Fork => decide_fork agent m
        | _ => decide_use action agent m
        end).

(** The detail of the refusal is an object, written here as its JSON text. *)
Definition access_refusal (agent : Agent) (d : AgentAccessDecision) : string := canonical_json (JObj [
  ("error", JStr "agent_action_denied"); ("action", JStr (action_name (ac_action d)));
  ("agent", JStr (ag_name agent)); ("reason", JStr (ac_reason d))]).

Definition require_agent_access (db : access_db) (user : User) (agent : Agent) (action : AgentAction) :
    res AgentAccessDecision :=
  d ← decide_agent_access db user agent action;
  if ac_allowed d then Ok d else Raise (HTTPException 403 (access_refusal agent d)).

(** * Lists *)

(** The row condition of [visible_agents_clause]. *)
Definition visible_agents_clause (db : access_db) (user_id : Z) (agent : Agent) : bool :=
  (ag_owner_id agent =? user_id) || ag_public agent
  || existsb (λ m, match ag_organization_id agent with
                   | Some org => member_of org user_id m
                   | None => false
                   end) (db_members db).

Definition active_organization_ids (db : access_db) (user_id : Z) : list Z :=
  merge_sort Z.le (remove_dups
    (map om_organization_id (List.filter (λ m, (om_user_id m =? user_id) && om_active m) (db_members db)))).

(** * Evidence *)

Definition may_read_agent_evidence (db : access_db) (user : User) (agent : Agent) : res bool :=
  if us_is_admin user then Ok true
  else ac_allowed <$> decide_agent_access db user agent EditExisting.

Definition agent_is_discoverable (db : access_db) (user : User) (agent : Agent) : res bool :=
  if us_is_admin user then Ok true
  else ac_allowed <$> decide_agent_access db user agent Discover.

Definition evidence_caller_ref (user : User) : string := "user:" +:+ dec (us_id user).

Definition is_own_evidence (caller : option string) (user : option User) : bool :=
  match user with
  | None => false
  | Some u => default "" caller =s? evidence_caller_ref u
  end.

Record EvidenceRead : Type := mkEvidenceRead { er_agent : Agent; er_own_caller : option string }.

Definition scoped_to_caller (r : EvidenceRead) : bool := bool_decide (is_Some (er_own_caller r)).

Definition agent_missing {A} : res A := Raise (HTTPException 404 "agent not found").

Definition resolve_agent_for_evidence_read (db : access_db) (name : string) (user : option User) :
    res EvidenceRead :=
  agent ← scalar_one_or_none (List.filter (λ a, ag_name a =s? name) (db_agents db));
  match agent, user with
  | Some agent, Some u =>
      reader ← may_read_agent_evidence db u agent;
      if (reader : bool) then Ok (mkEvidenceRead agent None)
      else
        known ← agent_is_discoverable db u agent;
        if (known : bool) then Ok (mkEvidenceRead agent (Some (evidence_caller_ref u))) else agent_missing
  | _, _ => agent_missing
  end.

(** [session.get(Agent, id)]. *)
Definition agent_by_id (db : access_db) (id : Z) : option Agent :=
  List.find (λ a, ag_id a =? id) (db_agents db).

Definition authorize_session_read (db : access_db) (row : AgentSession) (user : option User) : res unit :=
  match user with
  | None => Raise (HTTPException 404 "session not found")
  | Some u =>
      if is_own_evidence (as_caller row) user then Ok ()
      else
        let agent := as_agent_id row ≫= agent_by_id db in
        reader ← match agent with
                 | Some a => may_read_agent_evidence db u a
                 | None => Ok (us_is_admin u)
                 end;
        if (reader : bool) then Ok () else Raise (HTTPException 403 "not authorized to view this session")
  end.
