(* ===== verification/AgentAccessProperties.v ===== *)
(** Properties of agent access: the list of agents one sees agrees with the
    decision on each, source is out of reach of strangers unless its policy says
    otherwise, and evidence is read by editors, administrators and callers. *)
From S2P Require Import Prelude PyStr PyDict PyFloat PyJson AgentAccess.
Open Scope Z_scope.

(** * Unique rows *)

(** The unique constraints of the tables. *)
Record db_wf (db : access_db) : Prop := {
  unique_members : NoDup (map (λ m, (om_organization_id m, om_user_id m)) (db_members db));
  unique_names : NoDup (map ag_name (db_agents db));
  unique_ids : NoDup (map ag_id (db_agents db));
}.

Lemma scalar_unique {A K} (f : A → K) (k : K) (p : A → bool) l : NoDup (map f l) →
  (∀ x, x ∈ l → p x = true → f x = k) → scalar_one_or_none (List.filter p l) = Ok (List.find p l).
Proof.
  induction l as [|x l IH]; [done|]. cbn [map List.filter List.find]. intros [Hx Hn]%NoDup_cons Hk.
  destruct (p x) eqn:Hp; [|apply IH; [done|]; intros y Hy; apply Hk; set_solver].
  assert (List.filter p l = []) as ->; [|done].
  apply elem_of_nil_inv. intros y Hy. apply list_elem_of_In, filter_In in Hy as [Hy Hpy].
  apply list_elem_of_In in Hy. apply Hx, list_elem_of_fmap. exists y. split; [|done].
  rewrite (Hk x), (Hk y); set_solver.
Qed.

Lemma found_spec {A} (p : A → bool) l :
  match List.find p l with
  | Some x => x ∈ l ∧ p x = true
  | None => ∀ x, x ∈ l → p x = false
  end.
Proof.
  destruct (List.find p l) as [x|] eqn:E.
  - apply find_some in E as [Hx%list_elem_of_In Hp]. done.
  - intros x Hx%list_elem_of_In. by apply (find_none _ _ E).
Qed.

(** * Membership *)

(** [m] makes [user] a member of the organization of [agent]. *)
Definition enrolled (db : access_db) (user : User) (agent : Agent) (m : OrganizationMember) : Prop :=
  ∃ org, ag_organization_id agent = Some org ∧ m ∈ db_members db ∧ member_of org (us_id user) m = true.

Lemma membership_outcome db user agent : db_wf db →
  ∃ o, membership db user agent = Ok o
    ∧ match o with
      | Some m => enrolled db user agent m
      | None => ∀ m, ¬ enrolled db user agent m
      end.
Proof.
  intros Hwf. unfold membership, enrolled. destruct (ag_organization_id agent) as [org|].
  - eexists. split.
    + apply (scalar_unique _ (org, us_id user) _ _ (unique_members db Hwf)). intros m _. unfold member_of.
      rewrite !andb_true_iff, !Z.eqb_eq. by intros [[-> ->] _].
    + pose proof (found_spec (member_of org (us_id user)) (db_members db)) as H.
      destruct (List.find _ _) as [m|]; [by exists org|]. intros m (o & [= <-] & Hm & Hp). by rewrite H in Hp.
  - exists None. split; [done|]. by intros m (o & ? & _).
Qed.

(** There is at most one membership. *)
Lemma enrolled_unique db user agent m m' : db_wf db → enrolled db user agent m → enrolled db user agent m' → m = m'.
Proof.
  intros Hwf (org & Ho & Hm & Hp) (org' & Ho' & Hm' & Hp'). rewrite Ho in Ho'. injection Ho' as <-.
  assert (∀ x, member_of org (us_id user) x = true → (om_organization_id x, om_user_id x) = (org, us_id user)) as Hk.
  { intros x. unfold member_of. rewrite !andb_true_iff, !Z.eqb_eq. by intros [[-> ->] _]. }
  pose proof (scalar_unique _ _ _ _ (unique_members db Hwf) (λ x _, Hk x)) as Hs.
  destruct (List.filter _ _) as [|y [|]] eqn:E.
  - assert (m ∈ List.filter (member_of org (us_id user)) (db_members db)) as H
      by (apply list_elem_of_In, filter_In; by rewrite <-list_elem_of_In). rewrite E in H. set_solver.
  - assert (∀ z, z ∈ db_members db → member_of org (us_id user) z = true → z = y) as Hy.
    { intros z Hz Hpz. assert (z ∈ List.filter (member_of org (us_id user)) (db_members db)) as H
        by (apply list_elem_of_In, filter_In; by rewrite <-list_elem_of_In). rewrite E in H. set_solver. }
    by rewrite (Hy m), (Hy m').
  - discriminate Hs.
Qed.

(** What holds of the membership found holds of some membership. *)
Lemma membership_found db user agent : db_wf db →
  ∃ o, membership db user agent = Ok o
    ∧ ∀ P, (∃ m, o = Some m ∧ P m) ↔ (∃ m, enrolled db user agent m ∧ P m).
Proof.
  intros Hwf. destruct (membership_outcome db user agent Hwf) as (o & -> & Ho). exists o. split; [done|].
  intros P. destruct o as [m|]; split.
  - intros (m' & [= <-] & Hm). by exists m.
  - intros (m' & He & Hm). exists m. by rewrite (enrolled_unique _ _ _ _ _ Hwf Ho He).
  - by intros (m & ? & _).
  - intros (m & He & _). by destruct (Ho m).
Qed.

Ltac decide_text l := let E := fresh "E" in
  destruct (str_in _ l) eqn:E; [apply str_in_elem in E|apply str_in_false in E].

Lemma decide_edit_exact o :
  ac_allowed (decide_edit o) = true ↔ ∃ m, o = Some m ∧ om_role m ∈ _SOURCE_WRITER_ROLES.
Proof. unfold decide_edit. destruct o as [m|]; [decide_text _SOURCE_WRITER_ROLES|]; cbn; naive_solver. Qed.

Lemma decide_fork_exact agent o : ac_allowed (decide_fork agent o) = true ↔
  (ag_public agent = true ∧ fork_policy_of agent = "public")
  ∨ ∃ m, o = Some m ∧ fork_policy_of agent ∈ ["organization"; "public"].
Proof.
  unfold decide_fork. generalize (fork_policy_of agent) as policy. intros policy.
  assert (∀ b (d e : AgentAccessDecision), ac_allowed (if b : bool then d else e) = if b then ac_allowed d else ac_allowed e)
    as Hif by by intros [].
  destruct o as [m|].
  - decide_text ["organization"; "public"].
    + cbn. split; [|done]. intros _. right. by exists m.
    + rewrite Hif. cbn [ac_allowed]. destruct (ag_public agent), (String.eqb_spec policy "public"); cbn; naive_solver.
  - rewrite Hif. cbn [ac_allowed]. destruct (ag_public agent), (String.eqb_spec policy "public"); cbn; naive_solver.
Qed.

Lemma decide_use_exact action agent o : ac_allowed (decide_use action agent o) = true ↔
  ag_public agent = true ∨ ∃ m, o = Some m ∧ True.
Proof. unfold decide_use. destruct o as [m|], (ag_public agent); cbn; naive_solver. Qed.

(** * What is allowed *)

Definition owns (user : User) (agent : Agent) : Prop := ag_owner_id agent = us_id user.

(** Who may change the source. *)
Definition edits (db : access_db) (user : User) (agent : Agent) : Prop :=
  owns user agent ∨ ∃ m, enrolled db user agent m ∧ om_role m ∈ _SOURCE_WRITER_ROLES.

(** Who may see and call the agent. *)
Definition uses (db : access_db) (user : User) (agent : Agent) : Prop :=
  owns user agent ∨ ag_public agent = true ∨ ∃ m, enrolled db user agent m ∧ True.

(** Who may copy the source. *)
Definition forks (db : access_db) (user : User) (agent : Agent) : Prop :=
  owns user agent ∨ (ag_public agent = true ∧ fork_policy_of agent = "public")
  ∨ ∃ m, enrolled db user agent m ∧ fork_policy_of agent ∈ ["organization"; "public"].

Definition permits (db : access_db) (user : User) (agent : Agent) (action : AgentAction) : Prop :=
  match action with
  | EditExisting => edits db user agent
  | Fork => forks db user agent
  | _ => uses db user agent
  end.

Lemma decision_exact db user agent action : db_wf db →
  ∃ d, decide_agent_access db user agent action = Ok d
    ∧ (ac_allowed d = true ↔ permits db user agent action).
Proof.
  intros Hwf. unfold decide_agent_access. destruct (Z.eqb_spec (ag_owner_id agent) (us_id user)) as [He|He].
  { eexists. split; [reflexivity|]. split; [|done]. intros _. by destruct action; left. }
  destruct (membership_found db user agent Hwf) as (o & -> & Ho). cbn [mbind res_bind].
  eexists. split; [reflexivity|]. assert (¬ owns user agent) as Hno by done.
  destruct action; cbn [permits]; unfold uses, edits, forks;
    rewrite ?decide_use_exact, ?decide_edit_exact, ?decide_fork_exact, Ho; tauto.
Qed.

Lemma allowed_ok db user agent action : db_wf db →
  ∃ b : bool, ac_allowed <$> decide_agent_access db user agent action = Ok b ∧ (b = true ↔ permits db user agent action).
Proof. intros Hwf. destruct (decision_exact db user agent action Hwf) as (d & -> & Hd). by eexists. Qed.

Lemma visible_exact db user agent : visible_agents_clause db (us_id user) agent = true ↔ uses db user agent.
Proof.
  unfold visible_agents_clause, uses, owns, enrolled. rewrite !orb_true_iff, Z.eqb_eq, existsb_exists.
  assert ((∃ m, In m (db_members db) ∧ match ag_organization_id agent with
            | Some org => member_of org (us_id user) m | None => false end = true)
          ↔ ∃ m, (∃ org, ag_organization_id agent = Some org ∧ m ∈ db_members db
                    ∧ member_of org (us_id user) m = true) ∧ True) as ->; [|tauto].
  setoid_rewrite <-list_elem_of_In.
  destruct (ag_organization_id agent) as [org|]; naive_solver.
Qed.

Lemma permits_visible db user agent action : permits db user agent action → uses db user agent.
Proof. destruct action; cbn; unfold edits, forks, uses; naive_solver. Qed.

(** C14: every action on an agent is decided, and exactly as the rules say; the
query that lists agents returns the ones whose discovery would be allowed, so
nothing can be done with an agent one does not see; the visibility of an agent
alone never gives its source: a caller who neither owns it nor belongs to its
organization cannot edit it, and forks it only when it is public with the public
fork policy; and the gate of the routes refuses with 403 what is not allowed. *)
Theorem access_agrees db user agent action : db_wf db →
  (∃ d, decide_agent_access db user agent action = Ok d ∧ (ac_allowed d = true ↔ permits db user agent action)
     ∧ require_agent_access db user agent action
       = if ac_allowed d then Ok d else Raise (HTTPException 403 (access_refusal agent d)))
  ∧ (permits db user agent Discover ↔ visible_agents_clause db (us_id user) agent = true)
  ∧ (permits db user agent action → visible_agents_clause db (us_id user) agent = true)
  ∧ (¬ owns user agent → (∀ m, ¬ enrolled db user agent m) →
       ¬ permits db user agent EditExisting
       ∧ (permits db user agent Fork ↔ ag_public agent = true ∧ fork_policy_of agent = "public")).
Proof.
  intros Hwf. rewrite visible_exact. split_and!.
  - destruct (decision_exact db user agent action Hwf) as (d & Hd & Hp). exists d. split_and!; [done|done|].
    unfold require_agent_access. by rewrite Hd.
  - done.
  - apply permits_visible.
  - intros Ho Hm. cbn. unfold edits, forks. naive_solver.
Qed.

(** * Evidence *)

(** Whoever may edit an agent reads its evidence, and so does an administrator. *)
Definition reads_evidence (db : access_db) (user : User) (agent : Agent) : Prop :=
  us_is_admin user = true ∨ edits db user agent.

Definition discovers (db : access_db) (user : User) (agent : Agent) : Prop :=
  us_is_admin user = true ∨ uses db user agent.

Lemma may_read_exact db user agent : db_wf db →
  ∃ b : bool, may_read_agent_evidence db user agent = Ok b ∧ (b = true ↔ reads_evidence db user agent).
Proof.
  intros Hwf. unfold may_read_agent_evidence, reads_evidence. destruct (us_is_admin user); [exists true; naive_solver|].
  destruct (allowed_ok db user agent EditExisting Hwf) as (b & -> & Hb). exists b. naive_solver.
Qed.

Lemma discoverable_exact db user agent : db_wf db →
  ∃ b : bool, agent_is_discoverable db user agent = Ok b ∧ (b = true ↔ discovers db user agent).
Proof.
  intros Hwf. unfold agent_is_discoverable, discovers. destruct (us_is_admin user); [exists true; naive_solver|].
  destruct (allowed_ok db user agent Discover Hwf) as (b & -> & Hb). exists b. naive_solver.
Qed.

Lemma agent_named db name : db_wf db →
  scalar_one_or_none (List.filter (λ a, ag_name a =s? name) (db_agents db))
  = Ok (List.find (λ a, ag_name a =s? name) (db_agents db)).
Proof. intros Hwf. apply (scalar_unique ag_name name _ _ (unique_names db Hwf)). intros a _. by apply String.eqb_eq. Qed.

(** What a caller gets of the evidence of the agent of a name. *)
Definition evidence_rows (db : access_db) (user : option User) (agent : option Agent) (r : res EvidenceRead) : Prop :=
  match agent, user with
  | Some a, Some u =>
      (reads_evidence db u a ∧ r = Ok (mkEvidenceRead a None))
      ∨ (¬ reads_evidence db u a ∧ discovers db u a ∧ r = Ok (mkEvidenceRead a (Some (evidence_caller_ref u))))
      ∨ (¬ discovers db u a ∧ r = agent_missing)
  | _, _ => r = agent_missing
  end.

Lemma reader_discovers db user agent : reads_evidence db user agent → discovers db user agent.
Proof. unfold reads_evidence, discovers, edits, uses. naive_solver. Qed.

(** C16: an evidence reader (an editor of the agent, or an administrator) reads
every row of its evidence; whoever else discovers the agent reads only the rows
of calls of one's own; all others, and callers without an account, get the
answer for an agent that does not exist.  A session is shown exactly to the
caller it records, to the evidence readers of its agent, and to an administrator
once the agent is gone. *)
Theorem evidence_reads_exact db name user row : db_wf db →
  evidence_rows db user (List.find (λ a, ag_name a =s? name) (db_agents db))
    (resolve_agent_for_evidence_read db name user)
  ∧ (authorize_session_read db row user = Ok () ↔
       ∃ u, user = Some u ∧ (default "" (as_caller row) = evidence_caller_ref u
         ∨ match as_agent_id row ≫= agent_by_id db with
           | Some a => reads_evidence db u a
           | None => us_is_admin u = true
           end))
  ∧ (∀ e, authorize_session_read db row user = Raise e →
       e = match user with
           | Some _ => HTTPException 403 "not authorized to view this session"
           | None => HTTPException 404 "session not found"
           end).
Proof.
  intros Hwf. split.
  - unfold resolve_agent_for_evidence_read, evidence_rows. rewrite (agent_named db name Hwf). cbn [mbind res_bind].
    destruct (List.find _ _) as [a|], user as [u|]; try done.
    destruct (may_read_exact db u a Hwf) as ([] & -> & Hr); cbn [mbind res_bind]; [left; naive_solver|].
    destruct (discoverable_exact db u a Hwf) as ([] & -> & Hd); cbn [mbind res_bind]; right; [left|right];
      pose proof (reader_discovers db u a); naive_solver.
  - unfold authorize_session_read. destruct user as [u|]; [|split; [split; [done|by intros (? & ? & _)]|by intros e [= <-]]].
    cbn [is_own_evidence]. destruct (String.eqb_spec (default "" (as_caller row)) (evidence_caller_ref u)) as [Ho|Ho].
    { split; [|done]. split; [|done]. intros _. exists u. by split; [|left]. }
    assert (∀ (b : bool) (P : Prop), b = true ↔ P →
      let r : res unit := if b then Ok () else Raise (HTTPException 403 "not authorized to view this session") in
      (r = Ok () ↔ ∃ v, Some u = Some v ∧ (default "" (as_caller row) = evidence_caller_ref v ∨ P))
      ∧ ∀ e, r = Raise e → e = HTTPException 403 "not authorized to view this session") as Hb.
    { intros b P HP. destruct b; cbn; (split; [split|]); try done.
      - intros _. exists u. split; [done|]. right. by apply HP.
      - intros (v & [= <-] & [H|H]); [done|]. by apply HP in H.
      - by intros e [= <-]. }
    destruct (as_agent_id row ≫= agent_by_id db) as [a|].
    + destruct (may_read_exact db u a Hwf) as (b & -> & Hr). cbn [mbind res_bind].
      destruct (Hb b _ Hr) as [H1 H2]. split; [|exact H2]. rewrite H1.
      split; intros (v & Hv & H); exists v; (split; [exact Hv|]); injection Hv as <-; exact H.
    + cbn [mbind res_bind]. destruct (Hb (us_is_admin u) (us_is_admin u = true) ltac:(done)) as [H1 H2].
      split; [|exact H2]. rewrite H1.
      split; intros (v & Hv & H); exists v; (split; [exact Hv|]); injection Hv as <-; exact H.
Qed.

(** * A small organization *)

Definition shop : Agent := mkAgent 10 1 (Some 7) "shop" false (Some "Private").

Definition small_db : access_db :=
  mkAccessDb [shop] [mkMember 7 2 "maintainer" true; mkMember 7 3 "member" true; mkMember 7 4 "admin" false].

Lemma small_wf : db_wf small_db.
Proof. split; cbn; repeat (constructor; [set_solver|]); constructor. Qed.

(** The owner, a maintainer, a member and a former administrator: may each edit,
fork and discover? *)
Lemma small_decisions :
  map (λ u, map (λ action, match decide_agent_access small_db (mkUser u false) shop action with
                           | Ok d => Some (ac_allowed d) | Raise _ => None end)
              [EditExisting; Fork; Discover]) [1; 2; 3; 4]
  = [[Some true; Some true; Some true]; [Some true; Some false; Some true];
     [Some false; Some false; Some true]; [Some false; Some false; Some false]].
Proof. vm_compute. reflexivity. Qed.

Lemma access_agrees_witness :
  db_wf small_db ∧ visible_agents_clause small_db 3 shop = true ∧ ¬ permits small_db (mkUser 5 false) shop EditExisting.
Proof.
  split; [exact small_wf|]. split; [reflexivity|].
  destruct (access_agrees small_db (mkUser 5 false) shop EditExisting small_wf) as (_ & _ & _ & H).
  apply H; [intros Ho; discriminate Ho|]. intros m (org & [= <-] & Hm & Hp). revert Hp.
  unfold small_db in Hm. cbn in Hm. set_unfold in Hm. destruct_or! Hm; subst m; discriminate.
Defined.

Lemma evidence_reads_exact_witness :
  resolve_agent_for_evidence_read small_db "shop" (Some (mkUser 4 false)) = agent_missing
  ∧ resolve_agent_for_evidence_read small_db "none" (Some (mkUser 4 false)) = agent_missing
  ∧ authorize_session_read small_db (mkAgentSession (Some 10) (Some "user:4")) (Some (mkUser 4 false)) = Ok ().
Proof.
  split; [vm_compute; reflexivity|].
  destruct (evidence_reads_exact small_db "none" (Some (mkUser 4 false))
    (mkAgentSession (Some 10) (Some "user:4")) small_wf) as (H1 & H2 & _).
  split; [exact H1|]. apply H2. exists (mkUser 4 false). split; [reflexivity|]. left. reflexivity.
Defined.
