(* ===== verification/Urls.v ===== *)
(** URLs: what the code uses of Python's [urllib.parse] (version 3.11).

    Contents: [urlsplit] with the attributes of its result, [urlunsplit] and
    [urljoin].  On code points below 256 the check of a host under NFKC
    normalisation always passes, since none of them decomposes to one of the
    characters it looks for. *)
From Stdlib Require Import Ascii.
From S2P Require Import Prelude PyStr IpAddress.
Open Scope Z_scope.

Record SplitResult : Type := mkSplit {
  sr_scheme : string;
  sr_netloc : string;
  sr_path : string;
  sr_query : string;
  sr_fragment : string;
}.

Definition mem_char (c : ascii) (s : string) : bool := existsb (Ascii.eqb c) (chars s).

(** [s.partition(sep)] without the separator, [s.rpartition(sep)[2]]. *)
Definition partition (sep : ascii) (s : string) : string * string :=
  let '(a, b) := split1 sep s in (a, default "" b).

Definition after_last (sep : ascii) (s : string) : string := default "" (last (split sep s)).

Definition is_alpha (c : ascii) : bool :=
  let n := code c in ((65 <=? n) && (n <=? 90) || (97 <=? n) && (n <=? 122))%N.

Definition scheme_char (c : ascii) : bool := is_alpha c || is_digit c || mem_char c "+-.".

(** The scheme of a URL and what follows it, or the default. *)
Definition split_scheme (url dflt : string) : string * string :=
  match split1 ":"%char url with
  | (String c pre, Some rest) =>
      if is_alpha c && forallb scheme_char (chars (String c pre)) then (lower (String c pre), rest) else (dflt, url)
  | _ => (dflt, url)
  end.

Fixpoint span_chars (p : ascii → bool) (l : list ascii) : list ascii * list ascii :=
  match l with
  | [] => ([], [])
  | c :: l' => if p c then let '(a, b) := span_chars p l' in (c :: a, b) else ([], l)
  end.

(** [_splitnetloc]: up to the first of the delimiters. *)
Definition _splitnetloc (url : string) : string * string :=
  let '(a, b) := span_chars (λ c, negb (mem_char c "/?#")) (chars url) in (of_chars a, of_chars b).

Definition is_hex_char (c : ascii) : bool := bool_decide (is_Some (hex_val c)).

(** [re.match(r"\Av[a-fA-F0-9]+\..+\Z", host)]. *)
Definition is_ipvfuture (host : string) : bool :=
  match chars host with
  | c :: l =>
      let '(digits, rest) := span_chars is_hex_char l in
      Ascii.eqb c "v"%char && negb (length digits =? 0)%nat
      && match rest with
         | d :: (_ :: _) as rest => Ascii.eqb d "."%char && forallb (λ c, negb (code c =? 10)%N) rest
         | _ => false
         end
  | [] => false
  end.

Definition invalid_ipv6 {A} : res A := Raise (ValueError "Invalid IPv6 URL").

Definition _check_bracketed_host (hostname : string) : res unit :=
  if startswith hostname "v" then
    if is_ipvfuture hostname then Ok () else Raise (ValueError "IPvFuture address is invalid")
  else match ip_address hostname with
       | None => Raise (ValueError (hostname +:+ " does not appear to be an IPv4 or IPv6 address"))
       | Some (IPv4Address _) => Raise (ValueError "An IPv4 address cannot be in brackets")
       | Some (IPv6Address _ _) => Ok ()
       end.

Definition _check_bracketed_netloc (netloc : string) : res unit :=
  let hostname_and_port := after_last "@"%char netloc in
  match split1 "["%char hostname_and_port with
  | (before_bracket, Some bracketed) =>
      if negb (before_bracket =s? "") then invalid_ipv6
      else
        let '(hostname, port) := partition "]"%char bracketed in
        if negb (port =s? "") && negb (startswith port ":") then invalid_ipv6
        else _check_bracketed_host hostname
  | (_, None) => _check_bracketed_host (partition ":"%char hostname_and_port).1
  end.

Definition c0_or_space (c : ascii) : bool := (code c <=? 32)%N.

Definition unsafe_byte (c : ascii) : bool := let n := code c in ((n =? 9) || (n =? 13) || (n =? 10))%N.

Definition urlsplit (url scheme : string) : res SplitResult :=
  let url := of_chars (List.filter (λ c, negb (unsafe_byte c)) (drop_while c0_or_space (chars url))) in
  let scheme := of_chars (List.filter (λ c, negb (unsafe_byte c)) (chars (strip_by c0_or_space scheme))) in
  let '(scheme, url) := split_scheme url scheme in
  '(netloc, url) ←
    (if startswith url "//" then
       let '(netloc, url) := _splitnetloc (of_chars (drop 2 (chars url))) in
       let opens := mem_char "["%char netloc in
       let closes := mem_char "]"%char netloc in
       if xorb opens closes then invalid_ipv6
       else _ ← (if opens && closes then _check_bracketed_netloc netloc else Ok ()); Ok (netloc, url)
     else Ok ("", url));
  let '(url, fragment) := partition "#"%char url in
  let '(url, query) := partition "?"%char url in
  Ok (mkSplit scheme netloc url query fragment).

(** * Attributes *)

Definition has_userinfo (r : SplitResult) : bool := mem_char "@"%char (sr_netloc r).

(** The host and the port as text, empty when missing. *)
Definition _hostinfo (netloc : string) : string * string :=
  let hostinfo := after_last "@"%char netloc in
  match split1 "["%char hostinfo with
  | (_, Some bracketed) =>
      let '(hostname, rest) := partition "]"%char bracketed in (hostname, (partition ":"%char rest).2)
  | (_, None) => partition ":"%char hostinfo
  end.

(** [lower] of the host, its zone apart; empty when missing. *)
Definition sr_hostname (r : SplitResult) : string :=
  match split1 "%"%char (_hostinfo (sr_netloc r)).1 with
  | (host, None) => lower host
  | (host, Some zone) => lower host +:+ "%" +:+ zone
  end.

Definition sr_port (r : SplitResult) : res (option Z) :=
  let port := (_hostinfo (sr_netloc r)).2 in
  if port =s? "" then Ok None
  else if forallb is_digit (chars port) then
    if (4300 <? length (chars port))%nat then Raise (ValueError "Exceeds the limit (4300 digits) for integer string conversion")
    else let n := digits_value (chars port) in
    if n <=? 65535 then Ok (Some n) else Raise (ValueError "Port out of range 0-65535")
  else Raise (ValueError ("Port could not be cast to integer value as " +:+ port)).

(** * Putting together *)

Definition uses_relative : list string :=
  [""; "ftp"; "http"; "gopher"; "nntp"; "imap"; "wais"; "file"; "https"; "shttp"; "mms"; "prospero"; "rtsp"; "rtspu";
   "sftp"; "svn"; "svn+ssh"; "ws"; "wss"].
Definition uses_netloc : list string :=
  [""; "ftp"; "http"; "gopher"; "nntp"; "telnet"; "imap"; "wais"; "file"; "mms"; "https"; "shttp"; "snews"; "prospero";
   "rtsp"; "rtspu"; "rsync"; "svn"; "svn+ssh"; "sftp"; "nfs"; "git"; "git+ssh"; "ws"; "wss"].
Definition uses_params : list string :=
  [""; "ftp"; "hdl"; "prospero"; "http"; "imap"; "https"; "shttp"; "rtsp"; "rtspu"; "sip"; "sips"; "mms"; "sftp"; "tel"].

Definition urlunsplit (scheme netloc url query fragment : string) : string :=
  let url :=
    if negb (netloc =s? "") || negb (scheme =s? "") && str_in scheme uses_netloc && negb (startswith url "//") then
      "//" +:+ netloc +:+ (if negb (url =s? "") && negb (startswith url "/") then "/" +:+ url else url)
    else url in
  let url := if scheme =s? "" then url else scheme +:+ ":" +:+ url in
  let url := if query =s? "" then url else url +:+ "?" +:+ query in
  if fragment =s? "" then url else url +:+ "#" +:+ fragment.

(** [urlparse]: the parameters of the last segment apart. *)
Definition _splitparams (url : string) : string * string :=
  let segments := split "/"%char url in
  let '(seg, params) := partition ";"%char (default "" (last segments)) in
  (String.concat "/" (removelast segments ++ [seg]), params).

Definition path_params (r : SplitResult) : string * string :=
  if str_in (sr_scheme r) uses_params && mem_char ";"%char (sr_path r) then _splitparams (sr_path r)
  else (sr_path r, "").

Definition urlunparse (scheme netloc url params query fragment : string) : string :=
  urlunsplit scheme netloc (if params =s? "" then url else url +:+ ";" +:+ params) query fragment.

(** Dots of a path: the segments that stay. *)
Definition resolve_segment (resolved : list string) (seg : string) : list string :=
  if seg =s? ".." then removelast resolved else if seg =s? "." then resolved else resolved ++ [seg].

Definition filter_middle (l : list string) : list string :=
  match l with
  | x :: (_ :: _) as rest => x :: List.filter (λ s, negb (s =s? "")) (removelast rest) ++ option_list (last rest)
  | _ => l
  end.

Definition urljoin (base url : string) : res string :=
  if base =s? "" then Ok url
  else if url =s? "" then Ok base
  else
    b ← urlsplit base "";
    u ← urlsplit url (sr_scheme b);
    let scheme := sr_scheme u in
    let '(bpath, bparams) := path_params b in
    let '(path, params) := path_params u in
    if negb (scheme =s? sr_scheme b) || negb (str_in scheme uses_relative) then Ok url
    else if str_in scheme uses_netloc && negb (sr_netloc u =s? "") then
      Ok (urlunparse scheme (sr_netloc u) path params (sr_query u) (sr_fragment u))
    else
      let netloc := if str_in scheme uses_netloc then sr_netloc b else sr_netloc u in
      if (path =s? "") && (params =s? "") then
        Ok (urlunparse scheme netloc bpath bparams (if sr_query u =s? "" then sr_query b else sr_query u)
              (sr_fragment u))
      else
        let base_parts := split "/"%char bpath in
        let base_parts := if default "" (last base_parts) =s? "" then base_parts else removelast base_parts in
        let segments :=
          if startswith path "/" then split "/"%char path else filter_middle (base_parts ++ split "/"%char path) in
        let resolved := foldl resolve_segment [] segments in
        let final := default "" (last segments) in
        let resolved := if (final =s? ".") || (final =s? "..") then resolved ++ [""] else resolved in
        let joined := String.concat "/" resolved in
        Ok (urlunparse scheme netloc (if joined =s? "" then "/" else joined) params (sr_query u) (sr_fragment u)).
