(* ===== verification/SafeHttp.v ===== *)
(** Guarded outbound requests (control_plane/safe_http.py).

    A request is a program ([net]) that asks the resolver and connects; what they
    answer, and when the time limit cuts a wait short, is up to the network.  The
    query parameters are merged by httpx and the hosts outside ASCII are encoded
    by the Unicode tables of the idna codec: both are parameters.  The time limit
    is a whole number of seconds, below a million. *)
From Stdlib Require Import Ascii.
From S2P Require Import Prelude PyStr PyDict PyFloat PyJson IpAddress Urls.
Open Scope Z_scope.

Definition _REDIRECT_STATUSES : list Z := [301; 302; 303; 307; 308].
Definition _SAFE_CROSS_ORIGIN_HEADERS : list string := ["accept"; "accept-encoding"; "accept-language"; "user-agent"].
Definition _MAX_URL_LENGTH : Z := 8 * 1024.

Definition unsafe {A} (msg : string) : res A := Raise (UnsafeURLError msg).

(** * URLs *)

Record _ParsedURL : Type := mkParsed {
  pu_url : string;
  pu_scheme : string;
  pu_hostname : string;
  pu_port : Z;
  pu_authority : string;
}.

Record _ValidatedURL : Type := mkValidated { vu_parsed : _ParsedURL; vu_addresses : list address }.

Definition origin : Type := string * string * Z.

Definition parsed_origin (p : _ParsedURL) : origin := (pu_scheme p, pu_hostname p, pu_port p).

(** Whatever [except ValueError] catches becomes an unsafe URL. *)
Definition or_unsafe {A} (msg : string) (m : res A) : res A :=
  match m with Raise (ValueError _) => unsafe msg | _ => m end.

Definition rstrip_dots (s : string) : string := of_chars (rev (drop_while (Ascii.eqb "."%char) (rev (chars s)))).

Definition default_port (scheme : string) : Z := if scheme =s? "https" then 443 else 80.

Section urls.
(** The idna encoding of a host outside ASCII. *)
Context (to_ascii : string → option string).

(** [host.encode("idna").decode("ascii")]. *)
Definition idna_encode (host : string) : option string :=
  if is_ascii host then
    let labels := split "."%char host in
    if forallb (λ l, negb (l =s? "") && (String.length l <? 64)%nat) (removelast labels)
       && (String.length (default "" (last labels)) <? 64)%nat
       || (host =s? "")
    then Some host else None
  else to_ascii host.

Definition canonical_name (hostname : string) : res string :=
  match idna_encode (rstrip_dots hostname) with
  | None => unsafe "URL host is invalid"
  | Some name =>
      let name := lower name in
      if (name =s? "") || (253 <? String.length name)%nat then unsafe "URL host is invalid"
      else if (name =s? "localhost") || endswith name ".localhost" then unsafe "localhost URLs are not allowed"
      else Ok name
  end.

(** The host in its canonical form, and as it is written in a URL. *)
Definition canonical_host (hostname : string) : res (string * string) :=
  match ip_address hostname with
  | Some (IPv4Address ip) => let c := compressed (IPv4Address ip) in Ok (c, c)
  | Some a => Ok (compressed a, "[" +:+ compressed a +:+ "]")
  | None => name ← canonical_name hostname; Ok (name, name)
  end.

Definition url_char (c : ascii) : bool := negb ((code c <? 32)%N || is_space c || Ascii.eqb c "092"%char).

Definition _parse_http_url (url : string) : res _ParsedURL :=
  let value := strip url in
  if (value =s? "") || (_MAX_URL_LENGTH <? Z.of_nat (String.length value)) then unsafe "URL is empty or too long"
  else if negb (forallb url_char (chars value)) then unsafe "URL contains invalid characters"
  else
    '(parsed, explicit_port) ← or_unsafe "URL host or port is invalid"
      (parsed ← urlsplit value ""; port ← sr_port parsed; Ok (parsed, port));
    let scheme := lower (sr_scheme parsed) in
    let hostname := sr_hostname parsed in
    if negb (str_in scheme ["http"; "https"]) then unsafe "URL must use http:// or https://"
    else if hostname =s? "" then unsafe "URL must include a host"
    else if has_userinfo parsed then unsafe "URL must not include credentials"
    else if bool_decide (explicit_port = Some 0) || endswith (sr_netloc parsed) ":" then unsafe "URL port is invalid"
    else if contains "%" hostname then unsafe "URL host must not include percent escapes or a zone identifier"
    else
      '(host, host_for_authority) ← canonical_host hostname;
      let port := default (default_port scheme) explicit_port in
      let authority :=
        match explicit_port with
        | Some p => if p =? default_port scheme then host_for_authority else host_for_authority +:+ ":" +:+ dec p
        | None => host_for_authority
        end in
      let path := if sr_path parsed =s? "" then "/" else sr_path parsed in
      Ok (mkParsed (urlunsplit scheme authority path (sr_query parsed) "") scheme host port authority).

End urls.

Definition has_query (url : string) : res bool := r ← urlsplit url ""; Ok (negb (sr_query r =s? "")).

(** Without the query, for what is kept. *)
Definition _response_url (url : string) : res string :=
  r ← urlsplit url ""; Ok (urlunsplit (sr_scheme r) (sr_netloc r) (sr_path r) "" "").

Definition _require_confidential_transport (target : _ParsedURL) (required : bool) : res unit :=
  if required && negb (pu_scheme target =s? "https")
  then Raise (InsecureTransportError "HTTPS is required for sensitive outbound requests") else Ok ().

(** * Addresses *)

(** 64:ff9b::/96 *)
Definition in_nat64 (ip : Z) : bool := ip_in 128 ip (v6 100 65435 0 0) 96.

(** The IPv4 addresses that an IPv6 address carries. *)
Definition embedded (ip : Z) : list Z :=
  option_list (ipv4_mapped ip) ++ option_list (sixtofour ip)
  ++ match teredo ip with Some (server, client) => [server; client] | None => [] end
  ++ (if in_nat64 ip then [low32 ip] else []).

Definition _is_public_address (a : address) : bool :=
  is_global a && match a with IPv4Address _ => true | IPv6Address ip _ => forallb v4_is_global (embedded ip) end.

(** * The network *)

Inductive body : Type := NoBody | JsonBody (j : json) | FormBody (fields : jobject).

(** One request on one connection: the client is told the address, and the
name only for the Host header and for TLS. *)
Record connection : Type := mkConnection {
  cn_address : address;
  cn_scheme : string;
  cn_port : Z;
  cn_sni : string;
  cn_url : string;
  cn_method : string;
  cn_headers : dict string;
  cn_body : body;
}.

(** What the server sends: the body comes in decoded chunks, and may break off. *)
Record response : Type := mkResponse {
  rs_status : Z;
  rs_headers : dict string;
  rs_chunks : list (list N);
  rs_broken : option exc;
  rs_encoding : option string;
}.

Inductive net (A : Type) : Type :=
  | Return (r : res A)
  | Resolve (hostname : string) (port : Z) (k : res (list string) → net A)
  | Connect (c : connection) (k : res response → net A)
  | Exhausted.

Arguments Return {A}.
Arguments Resolve {A}.
Arguments Connect {A}.
Arguments Exhausted {A}.

Fixpoint net_bind {A B} (f : res A → net B) (m : net A) : net B :=
  match m with
  | Return r => f r
  | Resolve hostname port k => Resolve hostname port (λ r, net_bind f (k r))
  | Connect c k => Connect c (λ r, net_bind f (k r))
  | Exhausted => Exhausted
  end.

Definition pass {A B} (f : A → net B) (r : res A) : net B :=
  match r with Ok a => f a | Raise e => Return (Raise e) end.

#[export] Instance net_mbind : MBind net := λ A B f m, net_bind (pass f) m.

(** * Requests *)

(** [_read_limited_body], with what is read so far. *)
Fixpoint read_chunks (max_bytes : Z) (read : list N) (chunks : list (list N)) : res (list N) :=
  match chunks with
  | [] => Ok read
  | chunk :: rest =>
      if max_bytes <? Z.of_nat (length read) + Z.of_nat (length chunk)
      then Raise (ResponseTooLargeError ("remote response exceeds the " +:+ dec max_bytes +:+ "-byte limit"))
      else read_chunks max_bytes (read ++ chunk) rest
  end.

Definition declared_too_large (headers : dict string) (max_bytes : Z) : bool :=
  match headers !! "content-length" with
  | Some text =>
      negb (text =s? "") && match int_of_text text with Ok n => max_bytes <? n | Raise _ => false end
  | None => false
  end.

Definition _read_limited_body (r : response) (max_bytes : Z) : res (list N) :=
  if declared_too_large (rs_headers r) max_bytes
  then Raise (ResponseTooLargeError ("remote response exceeds the " +:+ dec max_bytes +:+ "-byte limit"))
  else content ← read_chunks max_bytes [] (rs_chunks r);
       match rs_broken r with Some e => Raise e | None => Ok content end.

Record _NetworkResponse : Type := mkNetwork {
  nr_status_code : Z;
  nr_headers : dict string;
  nr_content : list N;
  nr_encoding : string;
}.

Record SafeHTTPResponse : Type := mkSafeResponse {
  sp_status_code : Z;
  sp_url : string;
  sp_headers : dict string;
  sp_content : list N;
  sp_encoding : string;
}.

Definition is_redirect (status : Z) : bool := existsb (Z.eqb status) _REDIRECT_STATUSES.

Definition location_of (headers : dict string) : option string :=
  match headers !! "location" with Some l => if l =s? "" then None else Some l | None => None end.

Definition redirects_to (status : Z) (headers : dict string) : option string :=
  if is_redirect status then location_of headers else None.

Definition or_utf8 (encoding : option string) : string :=
  match encoding with Some e => if e =s? "" then "utf-8" else e | None => "utf-8" end.

(** What one connection gives. *)
Definition receive (max_response_bytes : Z) (r : response) : res _NetworkResponse :=
  match redirects_to (rs_status r) (rs_headers r) with
  | Some _ => Ok (mkNetwork (rs_status r) (rs_headers r) [] "utf-8")
  | None =>
      content ← _read_limited_body r max_response_bytes;
      Ok (mkNetwork (rs_status r) (rs_headers r) content (or_utf8 (rs_encoding r)))
  end.

(** The headers of one connection. *)
Definition wire_headers (authority : string) (headers : dict string) : dict string :=
  let kept := List.filter (λ p, negb (lower p.1 =s? "host")) headers in
  let kept := if existsb (λ p, lower p.1 =s? "accept-encoding") kept then kept
              else <["accept-encoding" := "identity"]> kept in
  <["host" := authority]> kept.

Definition address_host (a : address) : string :=
  match a with IPv4Address _ => compressed a | IPv6Address _ _ => "[" +:+ compressed a +:+ "]" end.

Definition connection_to (target : _ParsedURL) (a : address) (method : string) (headers : dict string)
    (payload : body) : res connection :=
  r ← urlsplit (pu_url target) "";
  Ok (mkConnection a (pu_scheme target) (pu_port target) (pu_hostname target)
        (urlunsplit (pu_scheme target) (address_host a +:+ ":" +:+ dec (pu_port target)) (sr_path r) (sr_query r) "")
        method (wire_headers (pu_authority target) headers) payload).

(** [_request_address] and the loop of [_request_validated_url]; [last_error]
says whether the last failure was a timeout. *)
Fixpoint request_addresses (target : _ParsedURL) (method : string) (headers : dict string) (payload : body)
    (max_response_bytes : Z) (last_error : option bool) (addresses : list address) : net _NetworkResponse :=
  match addresses with
  | [] =>
      Return (if bool_decide (last_error = Some true) then Raise (TransportError true)
              else Raise (SafeHTTPError "remote URL could not be reached"))
  | a :: rest =>
      match connection_to target a method headers payload with
      | Raise e => Return (Raise e)
      | Ok c =>
          Connect c (λ answer,
            match answer ≫= receive max_response_bytes with
            | Raise (TransportError timed_out) =>
                request_addresses target method headers payload max_response_bytes (Some timed_out) rest
            | r => Return r
            end)
      end
  end.

Definition _request_validated_url (target : _ValidatedURL) (method : string) (headers : dict string) (payload : body)
    (max_response_bytes : Z) : net _NetworkResponse :=
  request_addresses (vu_parsed target) method headers payload max_response_bytes None (vu_addresses target).

(** Each address once, in the order they come. *)
Fixpoint distinct (seen : list address) (l : list address) : list address :=
  match l with
  | [] => []
  | a :: l => if bool_decide (a ∈ seen) then distinct seen l else a :: distinct (a :: seen) l
  end.

Definition resolved_addresses (records : res (list string)) : res (list address) :=
  match records with
  | Raise _ => Raise (SafeHTTPError "URL host could not be resolved")
  | Ok texts =>
      match mapM ip_address texts with
      | None => unsafe "URL host resolved to an invalid IP address"
      | Some l => Ok (distinct [] l)
      end
  end.

Definition _resolve_host_addresses (hostname : string) (port : Z) : net (list address) :=
  match ip_address hostname with
  | Some literal => Return (Ok [literal])
  | None => Resolve hostname port (λ records, Return (resolved_addresses records))
  end.

Section requests.
Context (to_ascii : string → option string).
(** [str(httpx.URL(url).copy_merge_params(params))]. *)
Context (copy_merge_params : string → jobject → option string).

Definition _validate_public_url (url : string) : net _ValidatedURL :=
  match _parse_http_url to_ascii url with
  | Raise e => Return (Raise e)
  | Ok parsed =>
      addresses ← _resolve_host_addresses (pu_hostname parsed) (pu_port parsed);
      Return (match addresses with
              | [] => Raise (SafeHTTPError "URL host did not resolve to an IP address")
              | _ =>
                  if forallb _is_public_address addresses then Ok (mkValidated parsed addresses)
                  else unsafe "URL host resolves to a non-public IP address"
              end)
  end.

Definition validate_public_url (url : string) : net string :=
  v ← _validate_public_url url; Return (Ok (pu_url (vu_parsed v))).

(** The arguments of a request. *)
Record call : Type := mkCall {
  ca_method : string;
  ca_url : string;
  ca_headers : dict string;
  ca_sensitive : dict string;
  ca_params : jobject;
  ca_json : option json;
  ca_form : option jobject;
  ca_max_response_bytes : Z;
  ca_timeout_seconds : Z;
  ca_max_redirects : Z;
  ca_client_options : jobject;
  ca_require_https : bool;
}.

Definition sensitive_header_names (q : call) : list string := map (λ p, lower p.1) (ca_sensitive q).

Definition first_headers (q : call) : dict string :=
  dict_update (List.filter (λ p, negb (str_in (lower p.1) (sensitive_header_names q))) (dict_update [] (ca_headers q)))
    (ca_sensitive q).

(** The headers that follow to another origin. *)
Definition cross_origin_headers (names : list string) (headers : dict string) : dict string :=
  List.filter (λ p, str_in (lower p.1) _SAFE_CROSS_ORIGIN_HEADERS && negb (str_in (lower p.1) names)) headers.

Definition payload_of (q : call) : body :=
  match ca_json q, ca_form q with Some j, _ => JsonBody j | None, Some f => FormBody f | None, None => NoBody end.

Definition becomes_get (status : Z) (method : string) : bool :=
  (status =? 303) || ((status =? 301) || (status =? 302)) && (method =s? "POST").

(** The loop: a hop, its redirect, the next hop. *)
Fixpoint request_loop (fuel : nat) (q : call) (confidential : bool) (redirects : Z) (current_url method : string)
    (headers : dict string) (payload : body) : net SafeHTTPResponse :=
  match fuel with
  | O => Exhausted
  | S fuel =>
      target ← _validate_public_url current_url;
      let here := vu_parsed target in
      network_response ← _request_validated_url target method headers payload (ca_max_response_bytes q);
      match redirects_to (nr_status_code network_response) (nr_headers network_response) with
      | None =>
          Return (url ← _response_url (pu_url here);
                  Ok (mkSafeResponse (nr_status_code network_response) url (nr_headers network_response)
                        (nr_content network_response) (nr_encoding network_response)))
      | Some location =>
          if ca_max_redirects q <=? redirects then
            Return (Raise (TooManyRedirectsError
              ("remote URL exceeded the " +:+ dec (ca_max_redirects q) +:+ "-redirect limit")))
          else
            pass (λ next,
                let cross := negb (bool_decide (parsed_origin next = parsed_origin here)) in
                if cross && negb (bool_decide (ca_params q = [])) then
                  Return (unsafe "URL with query credentials must not redirect cross-origin")
                else
                  let headers :=
                    if cross then cross_origin_headers (sensitive_header_names q) headers else headers in
                  let to_get := becomes_get (nr_status_code network_response) method in
                  request_loop fuel q confidential (redirects + 1) (pu_url next) (if to_get then "GET" else method)
                    headers (if to_get then NoBody else payload))
              (next_url ← urljoin (pu_url here) location;
               next ← _parse_http_url to_ascii next_url;
               required ← (if confidential then Ok true else has_query (pu_url next));
               _ ← _require_confidential_transport next required;
               Ok next)
      end
  end.

(** What must not cross cleartext, whatever the initial URL says. *)
Definition confidential_call (q : call) : bool :=
  ca_require_https q || (upper (strip (ca_method q)) =s? "POST") || negb (bool_decide (ca_sensitive q = []))
  || negb (bool_decide (ca_params q = [])).

Definition confidential_options (q : call) : bool :=
  bool_decide (is_Some (ca_json q)) || bool_decide (is_Some (ca_form q)) || truthy (jget (ca_client_options q) "cert").

Definition checked_call (q : call) : res unit :=
  if ca_max_response_bytes q <=? 0 then Raise (ValueError "max_response_bytes must be positive")
  else if ca_timeout_seconds q <=? 0 then Raise (ValueError "timeout_seconds must be positive")
  else if ca_max_redirects q <? 0 then Raise (ValueError "max_redirects must not be negative")
  else if negb (str_in (upper (strip (ca_method q))) ["GET"; "POST"]) then
    Raise (ValueError "safe_request_url only supports GET and POST")
  else if bool_decide (is_Some (ca_json q)) && bool_decide (is_Some (ca_form q)) then
    Raise (ValueError "json_body and form_data are mutually exclusive")
  else if negb (forallb (λ k, str_in k ["cert"; "verify"]) (keys (ca_client_options q))) then
    Raise (ValueError "unsupported guarded HTTP client option")
  else Ok ().

(** The URL of the first hop, and whether the transport has to be confidential. *)
Definition first_url (q : call) : res (string * bool) :=
  _ ← checked_call q;
  initial ← _parse_http_url to_ascii (ca_url q);
  confidential ←
    (if confidential_call q then Ok true
     else queried ← has_query (pu_url initial); Ok (queried || confidential_options q));
  _ ← _require_confidential_transport initial confidential;
  match copy_merge_params (pu_url initial) (ca_params q) with
  | Some url => Ok (url, confidential)
  | None => unsafe "URL or query parameters are invalid"
  end.

Definition time_limit {A} (q : call) : res A :=
  Raise (SafeHTTPTimeoutError ("remote URL exceeded the " +:+ dec (ca_timeout_seconds q) +:+ "-second time limit")).

Definition caught (q : call) (r : res SafeHTTPResponse) : net SafeHTTPResponse :=
  Return (match r with Raise (TransportError true) => time_limit q | _ => r end).

Definition safe_request_url (q : call) : net SafeHTTPResponse :=
  pass (λ '(url, confidential),
      net_bind (caught q)
        (request_loop (S (Z.to_nat (ca_max_redirects q))) q confidential 0 url (upper (strip (ca_method q)))
           (first_headers q) (payload_of q)))
    (first_url q).

Definition safe_fetch_url (url : string) (headers sensitive_headers : dict string) (params : jobject)
    (max_response_bytes timeout_seconds max_redirects : Z) (require_https : bool) : net SafeHTTPResponse :=
  safe_request_url
    (mkCall "GET" url headers sensitive_headers params None None max_response_bytes timeout_seconds max_redirects []
       require_https).
End requests.

(** * Runs

The network answers from what has happened; no answer means that the time limit
has passed. *)

Inductive event : Type := Asked (hostname : string) (port : Z) (records : res (list string)) | Sent (c : connection).

Record network : Type := mkNetworkOf {
  nw_resolver : list event → string → Z → option (res (list string));
  nw_server : list event → connection → option (res response);
}.

Inductive ending (A : Type) : Type := Finished (r : res A) | TimedOut | OutOfFuel.
Arguments Finished {A}.
Arguments TimedOut {A}.
Arguments OutOfFuel {A}.

Fixpoint interpret {A} (nw : network) (history : list event) (m : net A) : list event * ending A :=
  match m with
  | Return r => (history, Finished r)
  | Resolve hostname port k =>
      match nw_resolver nw history hostname port with
      | Some records => interpret nw (history ++ [Asked hostname port records]) (k records)
      | None => (history, TimedOut)
      end
  | Connect c k =>
      match nw_server nw history c with
      | Some answer => interpret nw (history ++ [Sent c]) (k answer)
      | None => (history ++ [Sent c], TimedOut)
      end
  | Exhausted => (history, OutOfFuel)
  end.

(** The result of a guarded request, with what it sent. *)
Definition fetched (to_ascii : string → option string) (copy_merge_params : string → jobject → option string)
    (nw : network) (q : call) : list event * option (res SafeHTTPResponse) :=
  let '(history, e) := interpret nw [] (safe_request_url to_ascii copy_merge_params q) in
  (history, match e with Finished r => Some r | TimedOut => Some (time_limit q) | OutOfFuel => None end).
