(* ===== verification/SafeHttpFacts.v ===== *)
(** What a parsed URL is made of, and that parsing its normal form again finds
    the same scheme, host and port. *)
From Stdlib Require Import Ascii.
From S2P Require Import Prelude PyStr PyDict PyFloat PyJson IpAddress IpFacts Urls SafeHttp.
Open Scope Z_scope.

(** * Text *)

Lemma chars_cons c s : chars (String c s) = c :: chars s.
Proof. done. Qed.

Lemma split1_app sep a b : lacks sep a = true → split1 sep (a +:+ String sep b) = (a, Some b).
Proof.
  intros H. unfold split1, lacks in *. rewrite chars_app, chars_cons.
  assert (∀ l acc, forallb (λ c, negb (Ascii.eqb c sep)) l = true →
    split1_chars sep acc (l ++ sep :: chars b) = (rev acc ++ l, Some (chars b))) as Hl.
  { induction l as [|c l IH]; intros acc; cbn; [by rewrite Ascii.eqb_refl, app_nil_r|].
    destruct (Ascii.eqb c sep); [done|]. cbn. intros Hl. rewrite IH by done. cbn. by rewrite <- app_assoc. }
  rewrite Hl by done. cbn. by rewrite !of_chars_chars.
Qed.

Lemma after_last_lacks sep s : lacks sep s = true → after_last sep s = s.
Proof. intros H. unfold after_last. by rewrite split_lacks. Qed.

Lemma partition_lacks sep s : lacks sep s = true → partition sep s = (s, "").
Proof. intros H. unfold partition. by rewrite split1_lacks. Qed.

Lemma partition_app sep a b : lacks sep a = true → partition sep (a +:+ String sep b) = (a, b).
Proof. intros H. unfold partition. by rewrite split1_app. Qed.

Lemma mem_lacks c s : mem_char c s = negb (lacks c s).
Proof.
  unfold mem_char, lacks. induction (chars s) as [|d l IH]; cbn; [done|]. rewrite IH.
  rewrite negb_andb, negb_involutive, Ascii.eqb_sym. done.
Qed.

Lemma contains_mem c s : contains (String c "") s = mem_char c s.
Proof.
  destruct (lacks c s) eqn:E; [by rewrite contains_lacks, mem_lacks, E|]. rewrite mem_lacks, E. cbn.
  unfold lacks in E. induction s as [|d s IH]; [done|]. cbn in E |- *.
  destruct (ascii_dec c d) as [->|Hne]; [by destruct s|]. cbn. apply IH. apply andb_false_iff in E as [E|E]; [|done].
  apply negb_false_iff, Ascii.eqb_eq in E. congruence.
Qed.

Lemma lacks_app c a b : lacks c (a +:+ b) = lacks c a && lacks c b.
Proof. unfold lacks. by rewrite chars_app, forallb_app. Qed.

Lemma span_app p l c k : forallb p l = true → p c = false → span_chars p (l ++ c :: k) = (l, c :: k).
Proof. induction l as [|d l IH]; cbn; [by intros _ ->|]. intros [-> Hl]%andb_true_iff Hc. by rewrite IH. Qed.

Lemma drop_while_app p l c k : p c = false → drop_while p (l ++ c :: k) = drop_while p l ++ c :: k.
Proof. intros Hc. induction l as [|d l IH]; cbn; [by rewrite Hc|]. by destruct (p d). Qed.

(** [strip] leaves what stands before a character that is not dropped. *)
Lemma strip_keeps p h a c b : p h = false → p c = false →
  ∃ b', strip_by p (String h a +:+ String c b) = String h a +:+ String c b'.
Proof.
  intros Hh Hc. unfold strip_by. rewrite chars_app, !chars_cons. cbn [app drop_while]. rewrite Hh.
  replace (rev (h :: chars a ++ c :: chars b)) with (rev (chars b) ++ c :: rev (h :: chars a)).
  2:{ cbn. rewrite rev_app_distr. cbn. by rewrite <- !app_assoc. }
  rewrite drop_while_app by done. exists (of_chars (rev (drop_while p (rev (chars b))))).
  apply (inj chars). rewrite chars_of_chars, chars_app, !chars_cons, chars_of_chars.
  rewrite rev_app_distr. cbn [rev]. rewrite rev_app_distr, rev_involutive. cbn. by rewrite <- !app_assoc.
Qed.

Lemma lower_lower s : lower (lower s) = lower s.
Proof.
  unfold lower. rewrite chars_of_chars, map_map. f_equal. apply map_ext. intros c.
  by destruct c as [[] [] [] [] [] [] [] []].
Qed.

(** * Hosts *)

(** A host in whose text a port cannot be mistaken for a part of it. *)
Definition settled (host : string) : Prop := length (split ":"%char host) ≠ 2%nat.

Lemma split1_inv sep s :
  match split1 sep s with
  | (a, Some b) => s = a +:+ String sep b ∧ lacks sep a = true
  | (a, None) => s = a ∧ lacks sep s = true
  end.
Proof.
  unfold split1.
  assert (∀ l acc, forallb (λ c, negb (Ascii.eqb c sep)) acc = true →
    match split1_chars sep acc l with
    | (a, Some b) => rev acc ++ l = a ++ sep :: b ∧ forallb (λ c, negb (Ascii.eqb c sep)) a = true
    | (a, None) => rev acc ++ l = a ∧ forallb (λ c, negb (Ascii.eqb c sep)) (rev acc ++ l) = true
    end) as H.
  { assert (∀ acc, forallb (λ c, negb (Ascii.eqb c sep)) (rev acc) = forallb (λ c, negb (Ascii.eqb c sep)) acc) as Hr.
    { induction acc as [|c acc IH]; [done|]. cbn. rewrite forallb_app, IH. cbn. by rewrite andb_true_r, andb_comm. }
    induction l as [|c l IH]; intros acc Ha; cbn; [rewrite app_nil_r, Hr; done|].
    destruct (Ascii.eqb_spec c sep) as [->|Hne]; [by rewrite Hr|].
    specialize (IH (c :: acc)). cbn in IH. rewrite <- app_assoc in IH. cbn in IH. apply IH.
    rewrite Ha, andb_true_r. by apply negb_true_iff, Ascii.eqb_neq. }
  specialize (H (chars s) [] eq_refl). cbn in H. destruct (split1_chars sep [] (chars s)) as [a [b|]]; cbn.
  - destruct H as [H1 H2]. split; [|by unfold lacks; rewrite chars_of_chars].
    apply (inj chars). by rewrite chars_app, chars_cons, !chars_of_chars.
  - destruct H as [H1 H2]. split; [|done]. by rewrite <- H1, of_chars_chars.
Qed.

(** A host with a colon only when it is an address. *)
Definition plain_host (host : string) : Prop := lacks ":"%char host = false → is_Some (ip_address host).

(** What may be in a host. *)
Definition host_char (c : ascii) : bool := negb (mem_char c "/?#@%]").

Lemma lower_host_char c : host_char (lower_char c) = host_char c.
Proof. by destruct c as [[] [] [] [] [] [] [] []]. Qed.

Lemma forallb_mapped {A} (p q : A → bool) (f : A → A) l : (∀ c, q (f c) = p c) → forallb q (map f l) = forallb p l.
Proof. intros H. induction l as [|c l IH]; cbn; [done|]. by rewrite H, IH. Qed.

Lemma lower_kind s : of_kind host_char s → of_kind host_char (lower s).
Proof.
  unfold of_kind, lower. rewrite chars_of_chars. intros H. by rewrite (forallb_mapped host_char _ _ _ lower_host_char).
Qed.

Lemma rstrip_dots_sub s : ∃ t, s = rstrip_dots s +:+ t.
Proof.
  unfold rstrip_dots. assert (∀ l, ∃ k, l = k ++ drop_while (Ascii.eqb "."%char) l) as H.
  { induction l as [|c l [k IH]]; [by exists []|]. cbn [drop_while].
    destruct (Ascii.eqb "." c); [exists (c :: k); cbn; by f_equal|by exists []]. }
  destruct (H (rev (chars s))) as [k Hk]. exists (of_chars (rev k)). apply (inj chars).
  rewrite chars_app, !chars_of_chars, <- rev_app_distr, <- Hk. by rewrite rev_involutive.
Qed.

Lemma rstrip_kind p s : of_kind p s → of_kind p (rstrip_dots s).
Proof.
  destruct (rstrip_dots_sub s) as [t Ht]. unfold of_kind. rewrite Ht at 1. rewrite chars_app, forallb_app.
  by intros [H _]%andb_true_iff.
Qed.

Lemma drop_while_idem p l : drop_while p (drop_while p l) = drop_while p l.
Proof. induction l as [|c l IH]; [done|]. cbn. destruct (p c) eqn:E; [done|]. cbn. by rewrite E. Qed.

Lemma rstrip_idem s : rstrip_dots (rstrip_dots s) = rstrip_dots s.
Proof. unfold rstrip_dots. by rewrite chars_of_chars, rev_involutive, drop_while_idem. Qed.

Lemma lower_rstrip s : rstrip_dots (lower s) = lower (rstrip_dots s).
Proof.
  unfold rstrip_dots, lower. rewrite !chars_of_chars. f_equal.
  rewrite (map_rev lower_char (drop_while _ _)), <- (map_rev lower_char (chars s)). f_equal.
  induction (rev (chars s)) as [|c l IH]; [done|]. cbn [map drop_while].
  assert (Ascii.eqb "." (lower_char c) = Ascii.eqb "." c) as -> by by destruct c as [[] [] [] [] [] [] [] []].
  by destruct (Ascii.eqb "." c).
Qed.

Lemma lower_ascii s : is_ascii (lower s) = is_ascii s.
Proof.
  unfold is_ascii, lower. rewrite chars_of_chars. apply forallb_mapped. intros c.
  by destruct c as [[] [] [] [] [] [] [] []].
Qed.

(** * Hosts of parsed URLs *)

Lemma split_netloc_kind value r : urlsplit value "" = Ok r → of_kind (λ c, negb (mem_char c "/?#")) (sr_netloc r).
Proof.
  unfold urlsplit. cbv zeta. destruct (split_scheme _ _) as [sch u].
  destruct (startswith u "//"); cbn [mbind res_bind].
  - assert (∀ l, forallb (λ c, negb (mem_char c "/?#")) (span_chars (λ c, negb (mem_char c "/?#")) l).1 = true) as H.
    { induction l as [|c l IH]; [done|]. cbn [span_chars]. destruct (negb (mem_char c "/?#")) eqn:E; [|done].
      destruct (span_chars _ l). cbn [fst forallb] in *. by rewrite E. }
    unfold _splitnetloc. specialize (H (chars (of_chars (drop 2 (chars u))))).
    destruct (span_chars _ _) as [a b]. destruct (xorb _ _); [done|]. destruct (if _ && _ then _ else _) as [[]|]; [|done].
    cbn [mbind res_bind]. destruct (partition "#" _) as [v f]. destruct (partition "?" v) as [v' q]. intros [= <-].
    unfold of_kind. cbn [sr_netloc]. by rewrite chars_of_chars.
  - destruct (partition "#" _) as [v f]. destruct (partition "?" v) as [v' q]. by intros [= <-].
Qed.

Lemma split_brackets value r : urlsplit value "" = Ok r →
  mem_char "["%char (sr_netloc r) = mem_char "]"%char (sr_netloc r).
Proof.
  unfold urlsplit. cbv zeta. destruct (split_scheme _ _) as [sch u].
  destruct (startswith u "//"); cbn [mbind res_bind].
  - destruct (_splitnetloc _) as [n u'].
    destruct (mem_char "[" n) eqn:E1, (mem_char "]" n) eqn:E2; cbn [xorb andb]; try done.
    all: try (destruct (_check_bracketed_netloc n) as [[]|]; [|done]).
    all: cbn [mbind res_bind]; destruct (partition "#" _) as [v f]; destruct (partition "?" v) as [v' q];
      intros [= <-]; cbn [sr_netloc]; by rewrite E1, E2.
  - destruct (partition "#" _) as [v f]. destruct (partition "?" v) as [v' q]. by intros [= <-].
Qed.

Lemma split1_kind p sep s : of_kind p s → of_kind p (split1 sep s).1 ∧ of_kind p (default "" (split1 sep s).2).
Proof.
  intros H. pose proof (split1_inv sep s) as Hs. destruct (split1 sep s) as [a [b|]]; cbn; destruct Hs as [Hs _]; subst s; [|done].
  unfold of_kind in *. rewrite chars_app, chars_cons, forallb_app in H. cbn in H. rewrite !andb_true_iff in H. tauto.
Qed.

Lemma hostinfo_kind p netloc : mem_char "@"%char netloc = false → of_kind p netloc → of_kind p (_hostinfo netloc).1.
Proof.
  rewrite mem_lacks, negb_false_iff. intros Hat Hk. unfold _hostinfo. rewrite after_last_lacks by done.
  destruct (split1_kind p "["%char netloc Hk) as [_ H2].
  destruct (split1 "[" netloc) as [a [b|]]; cbn [snd default] in H2; unfold partition.
  - destruct (split1_kind p "]"%char b H2) as [H3 _]. by destruct (split1 "]" b) as [h rest].
  - destruct (split1_kind p ":"%char netloc Hk) as [H3 _]. by destruct (split1 ":" netloc) as [h rest].
Qed.

(** A host has no closing bracket. *)
Lemma hostinfo_bracket netloc : mem_char "@"%char netloc = false → mem_char "["%char netloc = mem_char "]"%char netloc →
  lacks "]"%char (_hostinfo netloc).1 = true.
Proof.
  intros Hat Hb. unfold _hostinfo. rewrite mem_lacks, negb_false_iff in Hat. rewrite after_last_lacks by done.
  pose proof (split1_inv "["%char netloc) as Hi. destruct (split1 "[" netloc) as [a [b|]]; unfold partition.
  - pose proof (split1_inv "]"%char b) as H. destruct (split1 "]" b) as [h [rest|]]; destruct H as [E H]; [exact H|by rewrite E in H].
  - destruct Hi as [_ Hl]. rewrite !mem_lacks, Hl in Hb. symmetry in Hb. apply negb_false_iff in Hb.
    destruct (split1_kind _ ":"%char netloc Hb) as [H _]. by destruct (split1 ":" netloc) as [h rest].
Qed.

Lemma hostname_lower r : lacks "%"%char (sr_hostname r) = true → sr_hostname r = lower (_hostinfo (sr_netloc r)).1.
Proof.
  unfold sr_hostname. destruct (split1 "%" (_hostinfo (sr_netloc r)).1) as [h [z|]] eqn:E.
  - rewrite !lacks_app. change (lacks "%" "%") with false. by rewrite andb_false_r.
  - pose proof (split1_inv "%"%char (_hostinfo (sr_netloc r)).1) as H. rewrite E in H. by destruct H as [-> _].
Qed.

Lemma and_kind p q s : of_kind p s → of_kind q s → of_kind (λ c, p c && q c) s.
Proof. unfold of_kind. rewrite !forallb_forall. intros Hp Hq c Hc. by rewrite Hp, Hq. Qed.

Lemma sub_kind p q s : (∀ c, p c = true → q c = true) → of_kind p s → of_kind q s.
Proof. unfold of_kind. rewrite !forallb_forall. auto. Qed.

Lemma lacks_kind c s : lacks c s = true ↔ of_kind (λ d, negb (Ascii.eqb d c)) s.
Proof. done. Qed.

Lemma hostname_kind value r : urlsplit value "" = Ok r → mem_char "@"%char (sr_netloc r) = false →
  lacks "%"%char (sr_hostname r) = true → of_kind host_char (sr_hostname r).
Proof.
  intros Hs Hat Hp. pose proof (hostname_lower r Hp) as Hl.
  pose proof (split_netloc_kind value r Hs) as Hk. assert (Hat' := Hat). rewrite mem_lacks, negb_false_iff in Hat'.
  pose proof (hostinfo_kind _ (sr_netloc r) Hat (and_kind _ _ _ Hk Hat')) as H.
  pose proof (and_kind _ _ _ H (hostinfo_bracket _ Hat (split_brackets _ _ Hs))) as H2.
  assert (of_kind (λ c, negb (mem_char c "/?#@]")) (sr_hostname r)) as H'.
  { rewrite Hl. unfold of_kind, lower. rewrite chars_of_chars.
    rewrite (forallb_mapped (λ c, negb (mem_char c "/?#@]"))).
    - revert H2. apply sub_kind. intros c. by destruct c as [[] [] [] [] [] [] [] []].
    - intros c. by destruct c as [[] [] [] [] [] [] [] []]. }
  eapply sub_kind; [|exact (and_kind _ _ _ H' Hp)]. intros c. by destruct c as [[] [] [] [] [] [] [] []].
Qed.

(** * Public addresses *)

Lemma sixtofour_special x v : sixtofour x = Some v → special_v6 x ∧ ¬ lies x mapped_range.
Proof.
  unfold sixtofour. destruct (Z.shiftr x 112 =? 8194) eqn:E; [intros _|done].
  eapply special_tunnels; [|by left]. apply (same_range 128 x (v6 0x2002 0 0 0) 16); [by vm_compute|exact E].
Qed.

Lemma teredo_special x v : teredo x = Some v → special_v6 x ∧ ¬ lies x mapped_range.
Proof.
  unfold teredo. destruct (Z.shiftr x 96 =? 536936448) eqn:E; [intros _|done].
  eapply special_tunnels; [|by right; left]. apply (same_range 128 x (v6 0x2001 0 0 0) 32); [by vm_compute|exact E].
Qed.

Lemma nat64_lies x : in_nat64 x = true ↔ lies x nat64_range.
Proof. apply same_range. by vm_compute. Qed.

Lemma nat64_unmapped x : lies x nat64_range → ¬ lies x mapped_range.
Proof.
  intros H Hm. apply (apart_lies [nat64_range] [mapped_range] x); [by vm_compute|by apply Exists_cons_hd..].
Qed.

Lemma mapped_unspecial x : lies x mapped_range → ¬ special_v6 x.
Proof. intros Hm [H _]. apply (apart_lies [mapped_range] v6_special x); [by vm_compute|by apply Exists_cons_hd|exact H]. Qed.

(** The test of an address admits those of the public internet. *)
Lemma public_iff a : _is_public_address a = true ↔ public a.
Proof.
  destruct a as [x|x scope]; unfold _is_public_address, is_global, public; [by rewrite andb_true_r, v4_global_iff|].
  unfold stands_for_v4, embedded. rewrite andb_true_iff, negb_true_iff.
  destruct (sixtofour x) as [v|] eqn:E6.
  { destruct (sixtofour_special _ _ E6) as [H1 H2]. apply v6_private_iff in H1 as H3; [|done]. rewrite H3. split; [by intros [[=] _]|intros [H _]; contradiction]. }
  destruct (teredo x) as [v|] eqn:Et.
  { destruct (teredo_special _ _ Et) as [H1 H2]. apply v6_private_iff in H1 as H3; [|done]. rewrite H3. split; [by intros [[=] _]|intros [H _]; contradiction]. }
  rewrite <-low32_remainder, <-nat64_lies, <-not_true_iff_false. cbn [option_list app].
  destruct (decide (Z.shiftr x 32 = 65535)) as [Em%mapped_lies|Em].
  - assert (in_nat64 x = false) as -> by (apply not_true_iff_false; rewrite nat64_lies; intros H; by apply (nat64_unmapped x)).
    unfold v6_is_private, ipv4_mapped. apply mapped_lies in Em as Es. rewrite Es. change (65535 =? 65535) with true. cbv iota.
    change (forallb v4_is_global _) with (v4_is_global (low32 x) && true). rewrite andb_true_r, v4_global_iff. pose proof (mapped_unspecial x Em).
    assert (v4_is_private (low32 x) = true → special_v4 (low32 x)) as Hp.
    { intros Hp. destruct (decide (v4_is_global (low32 x) = true)) as [Hg|Hg].
      - unfold v4_is_global in Hg. by rewrite Hp, andb_false_r in Hg.
      - rewrite v4_global_iff in Hg. destruct (decide (special_v4 (low32 x))); [done|contradiction]. }
    destruct (v4_is_private (low32 x)); [specialize (Hp eq_refl); tauto|].
    assert (false ≠ true) by done. tauto.
  - rewrite <-mapped_lies in Em. rewrite v6_private_iff by done. unfold ipv4_mapped.
    destruct (Z.eqb_spec (Z.shiftr x 32) 65535) as [E|_]; [by apply mapped_lies in E|]. cbv iota. destruct (in_nat64 x).
    + change (forallb v4_is_global _) with (v4_is_global (low32 x) && true). rewrite andb_true_r, v4_global_iff. tauto.
    + change (forallb v4_is_global _) with true. assert (false ≠ true) by done. tauto.
Qed.

(** * Parsing *)

(** The idna codec, on characters below 256: a name is made of ASCII letters, digits,
hyphens and dots, of spaces (which the compatibility forms of accents have) and of ASCII
characters of the host; and it ends with a dot only when the host does. *)
Definition idna_names (to_ascii : string → option string) : Prop :=
  ∀ host name, to_ascii host = Some name →
    (∀ c, c ∈ chars name →
       (code c < 128)%N ∧ (c ∈ chars host ∨ is_alpha c = true ∨ is_digit c = true ∨ c ∈ ["-"; "."; " "]%char))
    ∧ (rstrip_dots host = host → rstrip_dots name = name).

Lemma idna_kind to_ascii host name : idna_names to_ascii → to_ascii host = Some name → of_kind host_char host →
  of_kind host_char name ∧ is_ascii name = true.
Proof.
  intros H Hn Hk. destruct (H _ _ Hn) as [Hc _]. unfold of_kind, is_ascii in *. rewrite !forallb_forall in *.
  split; intros c Hin%list_elem_of_In; destruct (Hc c Hin) as [Ha Hi].
  - destruct Hi as [Hi|Hi]; [by apply Hk, list_elem_of_In|]. rewrite !elem_of_cons in Hi.
    clear -Hi. destruct c as [[] [] [] [] [] [] [] []]; try done; by destruct Hi as [|[|[|[|[|Hi%elem_of_nil]]]]].
  - by apply N.ltb_lt.
Qed.

Section parsing.
Context (to_ascii : string → option string).

Let parse := _parse_http_url to_ascii.

(** The authority of a URL from its parts. *)
Definition authority_of (scheme written : string) (explicit : option Z) : string :=
  match explicit with
  | Some p => if p =? default_port scheme then written else written +:+ ":" +:+ dec p
  | None => written
  end.

(** What a parsed URL comes from. *)
Record parsed_from (p : _ParsedURL) (value : string) (r : SplitResult) (written : string) (explicit : option Z) : Prop := {
  pf_chars : of_kind url_char value;
  pf_split : urlsplit value "" = Ok r;
  pf_port : sr_port r = Ok explicit;
  pf_scheme : pu_scheme p = lower (sr_scheme r);
  pf_known : pu_scheme p = "http" ∨ pu_scheme p = "https";
  pf_user : mem_char "@"%char (sr_netloc r) = false;
  pf_zero : explicit ≠ Some 0;
  pf_percent : lacks "%"%char (sr_hostname r) = true;
  pf_host : canonical_host to_ascii (sr_hostname r) = Ok (pu_hostname p, written);
  pf_portnum : pu_port p = default (default_port (pu_scheme p)) explicit;
  pf_authority : pu_authority p = authority_of (pu_scheme p) written explicit;
  pf_url : pu_url p = urlunsplit (pu_scheme p) (pu_authority p)
    (if sr_path r =s? "" then "/" else sr_path r) (sr_query r) "";
}.

Lemma parse_inv url p : parse url = Ok p → ∃ r written explicit, parsed_from p (strip url) r written explicit.
Proof.
  unfold parse, _parse_http_url. cbv zeta. destruct (_ || _); [done|].
  destruct (forallb url_char (chars (strip url))) eqn:Hc; [|done]. cbn [negb].
  destruct (urlsplit (strip url) "") as [r|e] eqn:Hs; [|by destruct e]. cbn [mbind res_bind].
  destruct (sr_port r) as [explicit|e] eqn:Hp; [|by destruct e]. cbn [mbind res_bind or_unsafe].
  destruct (str_in (lower (sr_scheme r)) _) eqn:Hk; [|done]. cbn [negb].
  destruct (sr_hostname r =s? ""); [done|]. unfold has_userinfo. destruct (mem_char "@" (sr_netloc r)) eqn:Hu; [done|].
  destruct (bool_decide (explicit = Some 0)) eqn:Hz; [done|]. destruct (endswith _ _); [done|]. cbn [orb].
  destruct (contains "%" (sr_hostname r)) eqn:H37; [done|].
  destruct (canonical_host to_ascii (sr_hostname r)) as [[host written]|e] eqn:Hh; [|done]. cbn [mbind res_bind].
  intros [= <-]. exists r, written, explicit. apply bool_decide_eq_false in Hz.
  rewrite contains_mem, mem_lacks, negb_false_iff in H37.
  constructor; cbn [pu_scheme pu_hostname pu_port pu_authority pu_url]; try done.
  unfold str_in in Hk. apply existsb_exists in Hk as (k & Hk & ->%String.eqb_eq). destruct Hk as [<-|[<-|[]]]; auto.
Qed.

Lemma canonical_host_written host name written : canonical_host to_ascii host = Ok (name, written) → written ≠ "".
Proof.
  unfold canonical_host. destruct (ip_address host) as [[ip|ip sc]|] eqn:E.
  - cbv zeta. pose proof (ip_address_v4 _ _ E) as Hc. rewrite Hc. intros [= <- <-] ->. by vm_compute in E.
  - generalize (compressed (IPv6Address ip sc)). intros c [= _ <-]. by cbn.
  - unfold canonical_name. destruct (idna_encode _ _) as [n|]; [|done]. destruct (lower n =s? "") eqn:En; [done|]. cbn [orb].
    destruct (_ <? _)%nat; [done|]. destruct (_ || _); [done|]. intros [= <- <-]. by apply String.eqb_neq.
Qed.

Lemma str_app_nonempty a b : a ≠ "" → a +:+ b ≠ "".
Proof. by destruct a. Qed.

Lemma authority_nonempty scheme written explicit : written ≠ "" → authority_of scheme written explicit ≠ "".
Proof. unfold authority_of. intros H. destruct explicit; [|done]. case_match; [done|by apply str_app_nonempty]. Qed.

Lemma parsed_shape url p : parse url = Ok p →
  ∃ tail, pu_url p = pu_scheme p +:+ "://" +:+ pu_authority p +:+ String "/" tail.
Proof.
  intros (r & written & explicit & H)%parse_inv. destruct H as [? ? ? ? Hk ? ? ? Hh ? Ha Hu].
  assert (pu_authority p ≠ "") as Hne by (rewrite Ha; by eapply authority_nonempty, canonical_host_written).
  rewrite Hu. unfold urlunsplit. rewrite (proj2 (String.eqb_neq _ _) Hne). cbn [negb orb].
  set (path := if sr_path r =s? "" then "/" else sr_path r).
  assert (∃ t, (if negb (path =s? "") && negb (startswith path "/") then "/" +:+ path else path) = String "/" t) as [t ->].
  { assert (path ≠ "") as Hp by (subst path; destruct (String.eqb_spec (sr_path r) ""); done).
    rewrite (proj2 (String.eqb_neq _ _) Hp). cbn. destruct (startswith path "/") eqn:E; [|by eexists].
    apply startswith_iff in E as [t ->]. by eexists. }
  assert ((pu_scheme p =s? "") = false) as -> by by destruct Hk as [->| ->].
  change ("" =s? "") with true. cbv iota.
  destruct (sr_query r =s? ""); [by exists t|]. exists (t +:+ "?" +:+ sr_query r).
  rewrite <- !str_app_assoc. reflexivity.
Qed.

(** An absolute URL of allowed characters is split as it stands. *)
Lemma split_clean scheme x : scheme = "http" ∨ scheme = "https" → of_kind url_char (scheme +:+ "://" +:+ x) →
  split_scheme (of_chars (List.filter (λ c, negb (unsafe_byte c)) (drop_while c0_or_space (chars (scheme +:+ "://" +:+ x))))) ""
  = (scheme, "//" +:+ x).
Proof.
  intros Hk Hc. set (url := scheme +:+ _) in *.
  assert (drop_while c0_or_space (chars url) = chars url) as -> by (subst url; by destruct Hk as [->| ->]).
  assert (List.filter (λ c, negb (unsafe_byte c)) (chars url) = chars url) as ->.
  { unfold of_kind in Hc. induction (chars url) as [|c l IH]; [done|]. cbn in Hc. apply andb_true_iff in Hc as [Hc Hl].
    cbn. rewrite IH by done. by destruct c as [[] [] [] [] [] [] [] []]. }
  rewrite of_chars_chars. unfold split_scheme. subst url.
  change (scheme +:+ "://" +:+ x) with (scheme +:+ String ":" ("//" +:+ x)).
  rewrite split1_app by by destruct Hk as [->| ->]. by destruct Hk as [->| ->].
Qed.

(** Of an absolute URL only the authority decides the scheme, the host and the port. *)
Lemma split_absolute scheme a t r : scheme = "http" ∨ scheme = "https" →
  of_kind (λ c, negb (mem_char c "/?#")) a → of_kind url_char (scheme +:+ "://" +:+ a +:+ String "/" t) →
  urlsplit (scheme +:+ "://" +:+ a +:+ String "/" t) "" = Ok r → sr_scheme r = scheme ∧ sr_netloc r = a.
Proof.
  intros Hk Ha Hc. unfold urlsplit. cbv zeta.
  assert (of_chars (List.filter (λ c, negb (unsafe_byte c)) (chars (strip_by c0_or_space ""))) = "") as -> by done.
  rewrite split_clean by done.
  assert (startswith ("//" +:+ a +:+ String "/" t) "//" = true) as -> by (apply startswith_iff; by eexists).
  assert (_splitnetloc (of_chars (drop 2 (chars ("//" +:+ a +:+ String "/" t)))) = (a, String "/" t)) as ->.
  { unfold _splitnetloc. rewrite chars_of_chars, !chars_app, chars_cons.
    change (drop 2 _) with (chars a ++ "/"%char :: chars t).
    rewrite span_app by done. rewrite <- chars_cons. by rewrite !of_chars_chars. }
  destruct (xorb _ _); [done|]. destruct (if _ && _ then _ else _) as [[]|]; [|done]. cbn [mbind res_bind].
  destruct (partition "#" _) as [u f]. destruct (partition "?" u) as [u' q]. by intros [= <-].
Qed.

(** A URL that begins with https:// has that scheme, and one of that scheme begins so. *)
Lemma https_scheme url p : startswith url "https://" = true → parse url = Ok p → pu_scheme p = "https".
Proof.
  intros (x & ->)%startswith_iff Hp. destruct (parse_inv _ _ Hp) as (r & written & explicit & F).
  destruct (strip_keeps is_space "h"%char "ttps:/" "/"%char x eq_refl eq_refl) as [y Hy].
  change (String "h" "ttps:/" +:+ String "/" x) with ("https://" +:+ x) in Hy.
  change (String "h" "ttps:/" +:+ String "/" y) with ("https" +:+ "://" +:+ y) in Hy.
  destruct F as [Fc Fs _ Fsch _ _ _ _ _ _ _ _]. fold strip in Hy. unfold strip in Fc, Fs. rewrite Hy in Fc, Fs. rewrite Fsch.
  revert Fs. unfold urlsplit. cbv zeta.
  assert (of_chars (List.filter (λ c, negb (unsafe_byte c)) (chars (strip_by c0_or_space ""))) = "") as -> by done.
  rewrite split_clean by (by right || done).
  destruct (if startswith _ _ then _ else _) as [[n u]|]; [|done]. cbn [mbind res_bind].
  destruct (partition "#" _) as [v f]. destruct (partition "?" v) as [v' q]. by intros [= <-].
Qed.

Lemma https_url url p : parse url = Ok p → pu_scheme p = "https" → startswith (pu_url p) "https://" = true.
Proof. intros Hp Hs. destruct (parsed_shape url p Hp) as [tail ->]. rewrite Hs. apply startswith_iff. by eexists. Qed.

(** A canonical host is a name, which is canonical again, or an IPv6 address in brackets. *)
Lemma canonical_cases host name written : idna_names to_ascii →
  lacks "%"%char host = true → of_kind host_char host → lower host = host →
  canonical_host to_ascii host = Ok (name, written) →
  (written = name ∧ of_kind host_char name ∧ lower name = name
   ∧ ∀ name' written', lacks ":"%char name = true → canonical_host to_ascii name = Ok (name', written') → name' = name)
  ∨ ∃ ip, 0 ≤ ip < 2 ^ 128 ∧ name = v6_text ip ∧ written = "[" +:+ name +:+ "]".
Proof.
  intros Hidna Hp Hk Hl Hc. assert (Hc' := Hc). unfold canonical_host in Hc. destruct (ip_address host) as [[ip|ip sc]|] eqn:E.
  - cbv zeta in Hc. rewrite (ip_address_v4 _ _ E) in Hc. injection Hc as <- <-. left. split_and!; try done.
    intros n2 w2 _ H. congruence.
  - right. exists ip. split; [by eapply ip_address_v6|]. destruct (v6_colon _ _ _ Hp E) as [_ ->].
    rewrite v6_compressed in Hc. revert Hc. generalize (v6_text ip). by intros c [= <- <-].
  - left. unfold canonical_name in Hc. destruct (idna_encode to_ascii (rstrip_dots host)) as [n|] eqn:En; [|done].
    assert (of_kind host_char n ∧ is_ascii n = true ∧ rstrip_dots n = n) as (Hn & Ha & Hr).
    { unfold idna_encode in En. apply rstrip_kind in Hk. destruct (is_ascii (rstrip_dots host)) eqn:Ea.
      - destruct (_ || _) in En; [|done]. injection En as <-. split_and!; [done|done|apply rstrip_idem].
      - destruct (idna_kind _ _ _ Hidna En Hk). split_and!; [done..|]. apply (Hidna _ _ En), rstrip_idem. }
    destruct (_ || _) in Hc; [done|]. destruct (_ || _) in Hc; [done|]. injection Hc as <- <-.
    split_and!; [done|by apply lower_kind|apply lower_lower|].
    intros n2 w2 Hcol H. unfold canonical_host in H. destruct (ip_address (lower n)) as [[ip|ip sc]|] eqn:E2.
    + cbv zeta in H. rewrite (ip_address_v4 _ _ E2) in H. by injection H.
    + destruct (v6_colon (lower n) ip sc) as [H' _]; [|done|by rewrite H' in Hcol].
      apply lower_kind in Hn. revert Hn. apply sub_kind. intros c. by destruct c as [[] [] [] [] [] [] [] []].
    + unfold canonical_name in H. rewrite lower_rstrip, Hr in H. unfold idna_encode in H.
      rewrite lower_ascii, Ha in H. destruct (_ || _) in H; [|done].
      destruct (_ || _) in H; [done|]. destruct (_ || _) in H; [done|]. injection H as <- _. apply lower_lower.
Qed.

(** The text of a port in an authority. *)
Definition port_text (scheme : string) (explicit : option Z) : string :=
  match explicit with Some p => if p =? default_port scheme then "" else dec p | None => "" end.

Lemma authority_text scheme written explicit :
  authority_of scheme written explicit = written ∧ port_text scheme explicit = ""
  ∨ authority_of scheme written explicit = written +:+ String ":" (port_text scheme explicit).
Proof. destruct explicit as [p|]; cbn; [|by left]. destruct (p =? default_port scheme); [by left|by right]. Qed.

Lemma port_text_kind scheme explicit : (∀ p, explicit = Some p → 0 ≤ p) → of_kind is_digit (port_text scheme explicit).
Proof. intros H. destruct explicit as [p|]; cbn; [|done]. destruct (p =? _); [done|]. by apply dec_kind, H. Qed.

Lemma port_again r scheme explicit explicit' : (∀ p, explicit = Some p → 0 ≤ p) →
  (_hostinfo (sr_netloc r)).2 = port_text scheme explicit → sr_port r = Ok explicit' →
  default (default_port scheme) explicit' = default (default_port scheme) explicit.
Proof.
  intros Hpos Ht. unfold sr_port. rewrite Ht. destruct explicit as [p|]; cbn [port_text]; [|by intros [= <-]].
  destruct (Z.eqb_spec p (default_port scheme)) as [->|]; [by intros [= <-]|].
  destruct (dec_digits p (Hpos p eq_refl)) as (Hv & Hd & Hne).
  destruct (String.eqb_spec (dec p) "") as [E|_]; [by rewrite E in Hne|].
  destruct (forallb _ _); [|done]. destruct (_ <? _)%nat; [done|]. destruct (_ <=? _); [|done].
  intros [= <-]. cbn. by rewrite Hv.
Qed.

Lemma explicit_pos r explicit : sr_port r = Ok explicit → ∀ p, explicit = Some p → 0 ≤ p.
Proof.
  unfold sr_port. destruct (_ =? "")%string; [by intros [= <-]|]. destruct (forallb _ _) eqn:Hd; [|done].
  destruct (_ <? _)%nat; [done|]. destruct (_ <=? _); [|done]. intros [= <-] p [= <-].
  rewrite forallb_forall in Hd. unfold digits_value.
  assert (∀ l a, 0 ≤ a → (∀ c, In c l → is_digit c = true) → 0 ≤ foldl (λ acc c, 10 * acc + digit_val c) a l) as H.
  { induction l as [|c l IH]; intros a Ha Hl; cbn; [done|]. apply IH; [|by intros; apply Hl; right].
    specialize (Hl c (or_introl eq_refl)). unfold is_digit in Hl. apply andb_true_iff in Hl as [Hl%N.leb_le _].
    unfold digit_val. lia. }
  by apply H.
Qed.
(** The hosts and ports that an authority names. *)
Lemma name_authority name scheme explicit : lacks "@"%char name = true → lacks "["%char name = true →
  lacks ":"%char name = true → (∀ p, explicit = Some p → 0 ≤ p) →
  _hostinfo (authority_of scheme name explicit) = (name, port_text scheme explicit).
Proof.
  intros Hat Hb Hc Hpos. pose proof (port_text_kind scheme explicit Hpos) as Hd.
  assert (lacks "@"%char (port_text scheme explicit) = true ∧ lacks "["%char (port_text scheme explicit) = true) as [D1 D2]
    by (split; by apply (kind_lacks is_digit)).
  unfold _hostinfo. destruct (authority_text scheme name explicit) as [[-> ->]| ->].
  - by rewrite after_last_lacks, split1_lacks, partition_lacks.
  - assert (∀ c, Ascii.eqb ":"%char c = false → lacks c name = true → lacks c (port_text scheme explicit) = true →
      lacks c (name +:+ String ":" (port_text scheme explicit)) = true) as Hl.
    { intros c E H1 H2. rewrite lacks_app, H1. unfold lacks in *. rewrite chars_cons. cbn [forallb]. by rewrite E, H2. }
    rewrite after_last_lacks, split1_lacks by by apply Hl. by rewrite partition_app.
Qed.

Lemma v6_authority ip scheme explicit : (∀ p, explicit = Some p → 0 ≤ p) →
  _hostinfo (authority_of scheme ("[" +:+ v6_text ip +:+ "]") explicit) = (v6_text ip, port_text scheme explicit).
Proof.
  intros Hpos. pose proof (port_text_kind scheme explicit Hpos) as Hd. pose proof (v6_text_kind ip) as Hk.
  assert (∃ rest, authority_of scheme ("[" +:+ v6_text ip +:+ "]") explicit = String "[" (v6_text ip +:+ String "]" rest)
    ∧ (partition ":"%char rest).2 = port_text scheme explicit ∧ lacks "@"%char rest = true) as (rest & -> & Hr & Hat).
  { destruct (authority_text scheme ("[" +:+ v6_text ip +:+ "]") explicit) as [[-> ->]| ->].
    - by exists "".
    - exists (String ":" (port_text scheme explicit)). split; [rewrite <- !str_app_assoc; reflexivity|].
      split; [by rewrite (partition_app ":"%char "" _ eq_refl : partition ":"%char (String ":" _) = _)|]. unfold lacks. rewrite chars_cons. cbn [forallb].
      by apply (kind_lacks is_digit). }
  unfold _hostinfo. rewrite after_last_lacks.
  - change (String "[" (v6_text ip +:+ String "]" rest)) with ("" +:+ String "[" (v6_text ip +:+ String "]" rest)).
    rewrite split1_app by done. rewrite partition_app by by apply (kind_lacks v6_char). by rewrite Hr.
  - change (lacks "@" (v6_text ip +:+ String "]" rest) = true). rewrite lacks_app.
    rewrite (kind_lacks v6_char) by done. exact Hat.
Qed.

(** A name of several colons is not a host and a port. *)
Lemma colons_no_port name scheme explicit r port : lacks "@"%char name = true → lacks "["%char name = true →
  (3 ≤ length (split ":"%char name))%nat → (∀ p, explicit = Some p → 0 ≤ p) →
  sr_netloc r = authority_of scheme name explicit → sr_port r ≠ Ok port.
Proof.
  intros Hat Hb Hn Hpos Hr. pose proof (port_text_kind scheme explicit Hpos) as Hd.
  pose proof (split1_inv ":"%char name) as Hs. destruct (split1 ":" name) as [a [b|]]; cycle 1.
  { destruct Hs as [_ Hl]. rewrite split_lacks in Hn by done. cbn in Hn. lia. }
  destruct Hs as [-> Ha]. rewrite split_app, length_app, (split_lacks _ a) in Hn by done. cbn [length] in Hn.
  assert (lacks ":"%char b = false) as Hbc.
  { apply not_true_is_false. intros H. rewrite split_lacks in Hn by done. cbn in Hn. lia. }
  assert (∃ rest, sr_netloc r = a +:+ String ":" (b +:+ rest) ∧ lacks "@"%char rest = true ∧ lacks "["%char rest = true)
    as (rest & Hnet & R1 & R2).
  { rewrite Hr. destruct (authority_text scheme (a +:+ String ":" b) explicit) as [[-> _]| ->].
    - exists "". split; [|done]. f_equal. apply (inj chars). by rewrite !chars_cons, chars_app, app_nil_r.
    - exists (String ":" (port_text scheme explicit)). split; [by rewrite <- str_app_assoc|].
      unfold lacks. rewrite chars_cons. cbn [forallb]. split; by apply (kind_lacks is_digit). }
  assert (∀ c, Ascii.eqb ":"%char c = false → lacks c (a +:+ String ":" b) = true → lacks c rest = true →
    lacks c (a +:+ String ":" (b +:+ rest)) = true) as Hl.
  { intros c E H1 H2. change (String ":" (b +:+ rest)) with (String ":" b +:+ rest). by rewrite str_app_assoc, lacks_app, H1. }
  unfold sr_port, _hostinfo. rewrite Hnet, after_last_lacks, split1_lacks by by apply Hl.
  rewrite partition_app by done. cbn [snd].
  destruct (String.eqb_spec (b +:+ rest) "") as [E|_]; [by destruct b|].
  destruct (forallb is_digit (chars (b +:+ rest))) eqn:Hf; [|done]. rewrite chars_app, forallb_app in Hf.
  apply andb_true_iff in Hf as [Hf _]. by rewrite (kind_lacks is_digit) in Hbc.
Qed.

Lemma one_part name : length (split ":"%char name) = 1%nat → lacks ":"%char name = true.
Proof.
  pose proof (split1_inv ":"%char name) as H. destruct (split1 ":" name) as [a [b|]]; [|by destruct H].
  destruct H as [-> Ha]. rewrite split_app, length_app, split_lacks by done. cbn [length].
  unfold split at 1. rewrite length_map. intros Hn.
  destruct (split_chars ":" [] (chars b)) eqn:E; [by apply split_chars_ne in E|cbn in Hn; lia].
Qed.

Lemma authority_kind p scheme written explicit : (∀ c, is_digit c = true → p c = true) → p ":"%char = true →
  of_kind p written → (∀ n, explicit = Some n → 0 ≤ n) → of_kind p (authority_of scheme written explicit).
Proof.
  intros Hd Hc Hw Hpos. destruct (authority_text scheme written explicit) as [[-> _]| ->]; [done|].
  unfold of_kind in *. rewrite chars_app, chars_cons, forallb_app, Hw. cbn [forallb]. rewrite Hc.
  apply (sub_kind is_digit p); [done|]. by apply port_text_kind.
Qed.

Lemma strip_url scheme a t : scheme = "http" ∨ scheme = "https" →
  ∃ t', strip (scheme +:+ "://" +:+ a +:+ String "/" t) = scheme +:+ "://" +:+ a +:+ String "/" t'.
Proof.
  intros Hk. assert (∃ h s, scheme = String h s ∧ is_space h = false) as (h & s & -> & Hh).
  { destruct Hk as [->| ->]; by repeat eexists. }
  destruct (strip_keeps is_space h (s +:+ "://" +:+ a) "/"%char t Hh eq_refl) as [t' Ht]. exists t'.
  change (String h (s +:+ "://" +:+ a)) with (String h s +:+ "://" +:+ a) in Ht. rewrite <- !str_app_assoc in Ht. exact Ht.
Qed.

(** Parsing the normal form again finds the same scheme, host and port. *)
Lemma parse_settled url p p' : idna_names to_ascii → parse url = Ok p → settled (pu_hostname p) →
  parse (pu_url p) = Ok p' → parsed_origin p' = parsed_origin p.
Proof.
  intros Hidna Hp Hset Hp'. destruct (parsed_shape url p Hp) as [tail Hu].
  destruct (parse_inv url p Hp) as (r & written & explicit & F).
  destruct (parse_inv (pu_url p) p' Hp') as (r' & written' & explicit' & F').
  pose proof (explicit_pos _ _ (pf_port _ _ _ _ _ F)) as Hpos.
  destruct F as [_ Fs _ _ Fk Fu _ F37 Fh Fn Fa _], F' as [Fc' Fs' Fp' Fsch' _ _ _ F37' Fh' Fn' _ _].
  pose proof (hostname_lower r' F37') as Hl'.
  assert (lower (sr_hostname r) = sr_hostname r) as Hl by by rewrite (hostname_lower r F37), lower_lower.
  destruct (strip_url (pu_scheme p) (pu_authority p) tail Fk) as [tail' Hstrip].
  rewrite Hu, Hstrip in Fc', Fs'.
  assert (of_kind (λ c, negb (mem_char c "/?#")) (pu_authority p) → pu_scheme p' = pu_scheme p ∧ sr_netloc r' = pu_authority p)
    as Habs.
  { intros Hk. destruct (split_absolute _ _ _ _ Fk Hk Fc' Fs') as [Hs Hn]. split; [|done].
    rewrite Fsch', Hs. by destruct Fk as [->| ->]. }
  assert (pu_hostname p' = pu_hostname p ∧ pu_scheme p' = pu_scheme p
    ∧ (_hostinfo (sr_netloc r')).2 = port_text (pu_scheme p) explicit) as (Hh & Hs & Ht).
  { rewrite Fa in Habs.
    destruct (canonical_cases _ _ _ Hidna F37 (hostname_kind _ _ Fs Fu F37) Hl Fh) as [(-> & Hk & Hlow & Hagain)|(ip & Hip & Hn & ->)].
    - destruct Habs as [Hs Hn].
      { apply authority_kind; [by intros [[] [] [] [] [] [] [] []]|done| |done].
        revert Hk. apply sub_kind. by intros [[] [] [] [] [] [] [] []]. }
      assert (lacks "@"%char (pu_hostname p) = true) as Hat by (revert Hk; apply sub_kind; by intros [[] [] [] [] [] [] [] []]).
      assert (lacks "["%char (pu_hostname p) = true) as Hbr.
      { pose proof (split_brackets _ _ Fs') as Hbb. rewrite Hn, !mem_lacks in Hbb.
        assert (lacks "]"%char (authority_of (pu_scheme p) (pu_hostname p) explicit) = true) as Hc.
        { apply authority_kind; [by intros [[] [] [] [] [] [] [] []]|done| |done].
          revert Hk. apply sub_kind. by intros [[] [] [] [] [] [] [] []]. }
        rewrite Hc in Hbb. apply negb_false_iff in Hbb.
        destruct (authority_text (pu_scheme p) (pu_hostname p) explicit) as [[E _]|E]; rewrite E in Hbb; [done|].
        by rewrite lacks_app, andb_true_iff in Hbb; destruct Hbb. }
      assert (lacks ":"%char (pu_hostname p) = true) as Hcol.
      { unfold settled in Hset. destruct (length (split ":" (pu_hostname p))) as [|[|[|n]]] eqn:El; try done.
        - unfold split in El. rewrite length_map in El. by apply nil_length_inv, split_chars_ne in El.
        - by apply one_part.
        - exfalso. eapply (colons_no_port (pu_hostname p)); try done; lia. }
      pose proof (name_authority _ (pu_scheme p) explicit Hat Hbr Hcol Hpos) as Hinfo. rewrite <- Hn in Hinfo.
      rewrite Hinfo in Hl' |- *. cbn [fst snd] in *. rewrite Hlow in Hl'. rewrite Hl' in Fh'.
      split_and!; [by eapply Hagain|done|done].
    - rewrite Hn in *. destruct Habs as [Hs Hnet].
      { apply authority_kind; [by intros [[] [] [] [] [] [] [] []]|done| |done].
        pose proof (v6_text_kind ip) as Hk. apply (sub_kind _ (λ c, negb (mem_char c "/?#"))) in Hk;
          [|by intros [[] [] [] [] [] [] [] []]].
        unfold of_kind in *. by rewrite !chars_app, !forallb_app, Hk. }
      pose proof (v6_authority ip (pu_scheme p) explicit Hpos) as Hinfo. rewrite <- Hnet in Hinfo.
      rewrite Hinfo in Hl' |- *. cbn [fst snd] in *. rewrite v6_text_lower in Hl'. rewrite Hl' in Fh'.
      split_and!; [|done|done]. revert Fh'. unfold canonical_host. rewrite <- v6_compressed, v6_roundtrip by done.
      rewrite v6_compressed. generalize (v6_text ip). by intros c [= -> _]. }
  unfold parsed_origin. rewrite Hh, Hs, Fn', Fn, Hs. f_equal. by eapply port_again.
Qed.

(** A colon in the text of an address is one of several. *)
Lemma address_settled host : is_Some (ip_address host) → settled host.
Proof.
  intros [a Ha] Hn. unfold ip_address in Ha. destruct (contains "/" host); [done|].
  destruct (ipv4_value host) as [v|] eqn:E4.
  { rewrite <- (ipv4_text _ _ E4) in Hn.
    rewrite split_lacks in Hn; [done|]. apply (kind_lacks v4_char); [apply v4_text_kind|done]. }
  destruct (split_scope host) as [[addr scope]|] eqn:Es; [|done]. cbn in Ha.
  destruct (ipv6_value addr) as [v|] eqn:E6; [|done]. unfold ipv6_value, groups_of in E6.
  destruct (Nat.ltb_spec (length (split ":" addr)) 3) as [|H3]; [done|].
  unfold split_scope in Es. pose proof (split1_inv "%"%char host) as Hi. destruct (split1 "%" host) as [a' [b|]].
  - destruct (_ || _); [done|]. injection Es as -> _. destruct Hi as [-> _]. clear -H3 Hn.
    pose proof (split1_inv ":"%char addr) as H. destruct (split1 ":" addr) as [x [y|]]; destruct H as [H Hx].
    2:{ subst. rewrite split_lacks in H3 by done. cbn in H3. lia. }
    subst addr. rewrite <-str_app_assoc in Hn.
    change (String ":" y +:+ String "%" b) with (String ":" (y +:+ String "%" b)) in Hn.
    rewrite split_app, length_app, (split_lacks _ x) in Hn, H3 by done. cbn [length] in *.
    pose proof (split1_inv ":"%char y) as H. destruct (split1 ":" y) as [z [w|]]; destruct H as [H Hz].
    2:{ subst. rewrite (split_lacks _ z) in H3 by done. cbn in H3. lia. }
    subst y. rewrite <-str_app_assoc in Hn. change (String ":" w +:+ String "%" b) with (String ":" (w +:+ String "%" b)) in Hn.
    rewrite split_app, length_app, (split_lacks _ z) in Hn by done. cbn [length] in Hn.
    unfold split in Hn. rewrite length_map in Hn.
    destruct (split_chars ":" [] (chars (w +:+ String "%" b))) eqn:E; [by apply split_chars_ne in E|cbn in Hn; lia].
  - destruct Hi as [<- _]. injection Es as <- <-. lia.
Qed.

(** Parsing the normal form again finds the same scheme, host and port, unless the host
has a colon and is no address. *)
Lemma parse_again url p p' : idna_names to_ascii → parse url = Ok p → plain_host (pu_hostname p) →
  parse (pu_url p) = Ok p' → parsed_origin p' = parsed_origin p.
Proof.
  intros Hidna Hp Hcol Hp'. eapply parse_settled; [done..| |done].
  destruct (lacks ":" (pu_hostname p)) eqn:E; [|by apply address_settled, Hcol].
  unfold settled. by rewrite split_lacks.
Qed.
End parsing.
