(* ===== verification/SafeHttpProperties.v ===== *)
(** Guarded requests: wherever redirects and name servers lead, connections go
    to public addresses that were checked, confidential data does not cross
    cleartext, credentials stay with their origin, and the request ends. *)
From Stdlib Require Import Ascii.
From S2P Require Import Prelude PyStr PyDict PyFloat PyJson IpAddress IpFacts Urls SafeHttp.
From S2P Require Import SafeHttpFacts.
Open Scope Z_scope.

(** * What a program sends

[sends P Q history m]: started after [history], [m] never runs out of fuel, every
connection satisfies [P] with what happened before it, and the result [Q]. *)
Fixpoint sends {A} (P : list event → connection → Prop) (Q : list event → res A → Prop) (history : list event)
    (m : net A) : Prop :=
  match m with
  | Return r => Q history r
  | Resolve hostname port k => ∀ records, sends P Q (history ++ [Asked hostname port records]) (k records)
  | Connect c k => P history c ∧ ∀ answer, sends P Q (history ++ [Sent c]) (k answer)
  | Exhausted => False
  end.

Definition all_sent (P : list event → connection → Prop) (history : list event) : Prop :=
  ∀ before c after, history = before ++ Sent c :: after → P before c.

Definition connection_origin (c : connection) : origin := (cn_scheme c, cn_sni c, cn_port c).

(** The address was read off the name itself, or off an answer for it. *)
Definition pinned (history : list event) (hostname : string) (port : Z) (a : address) : Prop :=
  ip_address hostname = Some a
  ∨ ∃ texts text, Asked hostname port (Ok texts) ∈ history ∧ text ∈ texts ∧ ip_address text = Some a.

(** A header of a name that the caller declared sensitive. *)
Definition carries (names : list string) (headers : dict string) : Prop :=
  ∃ h v, (h, v) ∈ headers ∧ lower h ∈ names ∧ lower h ∉ ["host"; "accept-encoding"].

Lemma sends_bind {A B} P (Q : list event → res A → Prop) (Q' : list event → res B → Prop) f m history :
  sends P Q history m → (∀ h r, Q h r → sends P Q' h (f r)) → sends P Q' history (net_bind f m).
Proof.
  revert history. induction m as [r|hostname port k IH|c k IH|]; intros history Hm Hf; cbn in *; [by apply Hf| | |done].
  - intros records. by apply IH.
  - destruct Hm as [Hc Hm]. split; [done|]. intros answer. by apply IH.
Qed.

Lemma sends_weaken {A} P (Q Q' : list event → res A → Prop) m history :
  sends P Q history m → (∀ h r, Q h r → Q' h r) → sends P Q' history m.
Proof.
  revert history. induction m as [r|hostname port k IH|c k IH|]; intros history Hm Hq; cbn in *; naive_solver.
Qed.

Lemma all_sent_asked P history hostname port records :
  all_sent P history → all_sent P (history ++ [Asked hostname port records]).
Proof.
  intros H before c after E. destruct after as [|e after _] using rev_ind.
  - apply app_inj_tail in E as [_ E]. done.
  - rewrite app_comm_cons, app_assoc in E. apply app_inj_tail in E as [-> _]. by eapply H.
Qed.

Lemma all_sent_sent P history c : all_sent P history → P history c → all_sent P (history ++ [Sent c]).
Proof.
  intros H Hc before c' after E. destruct after as [|e after _] using rev_ind.
  - apply app_inj_tail in E as [-> [= ->]]. done.
  - rewrite app_comm_cons, app_assoc in E. apply app_inj_tail in E as [-> _]. by eapply H.
Qed.

Lemma interpret_sends {A} P (Q : list event → res A → Prop) nw m history history' e :
  sends P Q history m → all_sent P history → interpret nw history m = (history', e) →
  all_sent P history' ∧ match e with Finished r => Q history' r | TimedOut => True | OutOfFuel => False end.
Proof.
  revert history. induction m as [r|hostname port k IH|c k IH|]; intros history Hm Ha; cbn in *; [by intros [= <- <-]| | |done].
  - destruct (nw_resolver nw history hostname port) as [records|]; [|by intros [= <- <-]].
    intros H. eapply IH; [apply Hm|by apply all_sent_asked|done].
  - destruct Hm as [Hc Hm]. destruct (nw_server nw history c) as [answer|].
    + intros H. eapply IH; [apply Hm|by apply all_sent_sent|done].
    + intros [= <- <-]. split; [by apply all_sent_sent|done].
Qed.

(** * Pieces of a hop *)

Lemma elem_of_set {V} k (v : V) d p : p ∈ dict_set k v d → p = (k, v) ∨ p ∈ d.
Proof.
  induction d as [|[k' v'] d IH]; cbn; [set_solver|]. destruct (String.eqb_spec k k') as [->|]; set_solver.
Qed.

Lemma wire_carries names authority headers : carries names (wire_headers authority headers) → carries names headers.
Proof.
  intros (h & v & Hin & Hn & Ho). exists h, v. split; [|done]. unfold wire_headers in Hin. cbv zeta in Hin.
  apply elem_of_set in Hin as [[= -> ->]|Hin]; [set_solver|].
  assert ((h, v) ∈ List.filter (λ p, negb (lower p.1 =s? "host")) headers) as Hf.
  { case_match; [done|]. apply elem_of_set in Hin as [[= -> ->]|Hin]; [set_solver|done]. }
  apply list_elem_of_In, filter_In in Hf as [Hf _]. by apply list_elem_of_In.
Qed.

Lemma cross_origin_clean names headers : ¬ carries names (cross_origin_headers names headers).
Proof.
  intros (h & v & Hin & Hn & _). apply list_elem_of_In, filter_In in Hin as [_ H].
  apply andb_true_iff in H as [_ H%negb_true_iff%str_in_false]. done.
Qed.

Lemma read_chunks_bound max_bytes read chunks content : Z.of_nat (length read) ≤ max_bytes →
  read_chunks max_bytes read chunks = Ok content → Z.of_nat (length content) ≤ max_bytes.
Proof.
  revert read. induction chunks as [|chunk chunks IH]; intros read Hr; cbn; [by intros [= <-]|].
  destruct (Z.ltb_spec max_bytes (Z.of_nat (length read) + Z.of_nat (length chunk))); [done|].
  apply IH. rewrite length_app. lia.
Qed.

Lemma receive_bound max_bytes r n : 0 < max_bytes → receive max_bytes r = Ok n → Z.of_nat (length (nr_content n)) ≤ max_bytes.
Proof.
  intros Hm. unfold receive. destruct (redirects_to _ _); [intros [= <-]; cbn; lia|].
  intros (content & H & E)%res_bind_ok. injection E as <-. cbn [nr_content]. unfold _read_limited_body in H.
  destruct (declared_too_large _ _); [done|]. apply res_bind_ok in H as (read & H & E).
  destruct (rs_broken r); [done|]. injection E as <-. eapply (read_chunks_bound _ []); [cbn; lia|done].
Qed.

Lemma mapM_ip_address texts l a : mapM ip_address texts = Some l → a ∈ l → ∃ text, text ∈ texts ∧ ip_address text = Some a.
Proof.
  intros H%mapM_Some (i & Hi)%list_elem_of_lookup. destruct (Forall2_lookup_r _ _ _ _ _ H Hi) as (text & Ht & Ha).
  exists text. split; [by eapply list_elem_of_lookup_2|done].
Qed.

Lemma distinct_sub seen l a : a ∈ distinct seen l → a ∈ l.
Proof.
  revert seen. induction l as [|b l IH]; intros seen; cbn; [done|]. destruct (bool_decide _).
  - intros Ha%IH. by right.
  - intros [->|Ha%IH]%elem_of_cons; [by left|by right].
Qed.

(** The addresses of a target are public and pinned to its name. *)
Definition target_ok (history : list event) (v : _ValidatedURL) : Prop :=
  Forall (λ a, _is_public_address a = true ∧ pinned history (pu_hostname (vu_parsed v)) (pu_port (vu_parsed v)) a)
    (vu_addresses v).

Section props.
Context (to_ascii : string → option string) (copy_merge_params : string → jobject → option string).

Lemma validate_sends P url history :
  sends P (λ h r, ∀ v, r = Ok v → _parse_http_url to_ascii url = Ok (vu_parsed v) ∧ target_ok h v) history
    (_validate_public_url to_ascii url).
Proof.
  unfold _validate_public_url. destruct (_parse_http_url to_ascii url) as [parsed|e] eqn:E; [|by cbn].
  unfold mbind, net_mbind. eapply (sends_bind _ (λ h r, ∀ l, r = Ok l →
    ∀ a, a ∈ l → pinned h (pu_hostname parsed) (pu_port parsed) a)).
  - unfold _resolve_host_addresses. destruct (ip_address (pu_hostname parsed)) as [literal|] eqn:Ei; cbn.
    + intros l [= <-] a ->%list_elem_of_singleton. by left.
    + intros [texts|e]; [|done]. cbn. intros l Hl a Ha. destruct (mapM ip_address texts) as [l'|] eqn:Em; [|done].
      injection Hl as <-. apply distinct_sub in Ha. destruct (mapM_ip_address _ _ _ Em Ha) as (text & Ht & Hip).
      right. exists texts, text. split; [|done]. apply elem_of_app. right. by left.
  - intros h [l|e] Hl; cbn; [|done]. intros v Hv. destruct l as [|a l]; [done|].
    destruct (forallb _is_public_address (a :: l)) eqn:Ef; [|done]. injection Hv as <-. split; [done|].
    unfold target_ok. cbn [vu_addresses vu_parsed]. apply Forall_forall. intros b Hb. split; [|by apply (Hl _ eq_refl)].
    rewrite forallb_forall in Ef. by apply Ef, list_elem_of_In.
Qed.

Lemma pinned_later history later hostname port a : pinned history hostname port a → pinned (history ++ later) hostname port a.
Proof. intros [H|(texts & text & H & Ht)]; [by left|right]. exists texts, text. split; [|done]. apply elem_of_app. by left. Qed.

Lemma target_later history later v : target_ok history v → target_ok (history ++ later) v.
Proof. intros H. eapply Forall_impl; [exact H|]. intros a [H1 H2]. split; [done|by apply pinned_later]. Qed.

(** The connections of one hop. *)
Lemma hop_sends P target method headers payload max_bytes history :
  0 < max_bytes → target_ok history target →
  (∀ later a c, _is_public_address a = true →
     pinned (history ++ later) (pu_hostname (vu_parsed target)) (pu_port (vu_parsed target)) a →
     connection_to (vu_parsed target) a method headers payload = Ok c → P (history ++ later) c) →
  sends P (λ _ r, ∀ n, r = Ok n → Z.of_nat (length (nr_content n)) ≤ max_bytes) history
    (_request_validated_url target method headers payload max_bytes).
Proof.
  intros Hm. destruct target as [parsed addresses]. unfold target_ok, _request_validated_url. cbn [vu_parsed vu_addresses].
  generalize (@None bool) as last_error. revert history.
  induction addresses as [|a addresses IH]; intros history last_error Ht HP; cbn; [by case_match|].
  apply Forall_cons in Ht as [[Ha Hpin] Ht]. destruct (connection_to parsed a method headers payload) as [c|e] eqn:Ec; [|by cbn].
  cbn. split; [rewrite <- (app_nil_r history); apply (HP [] a); rewrite ?app_nil_r; done|].
  intros answer. destruct (answer ≫= receive max_bytes) as [n|e] eqn:Er.
  - cbn. intros n' [= <-]. apply res_bind_ok in Er as (r & -> & Hr). by eapply receive_bound.
  - destruct e; try by cbn. apply IH.
    + eapply Forall_impl; [exact Ht|]. intros b [H1 H2]. split; [done|by apply pinned_later].
    + intros later b c' Hb Hp' Hc'. rewrite <- app_assoc. apply (HP _ b); [done| |done]. by rewrite app_assoc.
Qed.

Lemma connection_parts target a method headers payload c : connection_to target a method headers payload = Ok c →
  cn_address c = a ∧ connection_origin c = parsed_origin target ∧ cn_headers c = wire_headers (pu_authority target) headers.
Proof. unfold connection_to. intros (r & _ & H)%res_bind_ok. by injection H as <-. Qed.

(** What holds of a connection, with the origin [o] of the first hop. *)
Definition sent_ok (q : call) (confidential : bool) (o : origin) (before : list event) (c : connection) : Prop :=
  public (cn_address c)
  ∧ pinned before (cn_sni c) (cn_port c) (cn_address c)
  ∧ (confidential = true → cn_scheme c = "https")
  ∧ (plain_host o.1.2 → ca_params q ≠ [] ∨ carries (sensitive_header_names q) (cn_headers c) → connection_origin c = o).

(** The loop's invariant at the start of a hop. *)
Definition hop_ok (q : call) (confidential : bool) (o : origin) (url : string) (headers : dict string) : Prop :=
  ∀ p, _parse_http_url to_ascii url = Ok p →
    (confidential = true → pu_scheme p = "https")
    ∧ (plain_host o.1.2 → ca_params q ≠ [] ∨ carries (sensitive_header_names q) headers → parsed_origin p = o).

Lemma confidential_next target required r : _require_confidential_transport target required = Ok r →
  required = true → pu_scheme target = "https".
Proof.
  unfold _require_confidential_transport. intros H ->. destruct (String.eqb_spec (pu_scheme target) "https"); [done|].
  by cbn in H.
Qed.

(** A redirect that keeps the headers stays with the origin. *)
Lemma next_hop_ok q confidential o next headers next_url required u :
  idna_names to_ascii → (confidential = true → required = true) →
  _parse_http_url to_ascii next_url = Ok next → _require_confidential_transport next required = Ok u →
  (plain_host o.1.2 → ca_params q ≠ [] ∨ carries (sensitive_header_names q) headers → parsed_origin next = o) →
  hop_ok q confidential o (pu_url next) headers.
Proof.
  intros Hidna Hreq Hn Hr Ho p Hp. split.
  - intros Hc. eapply https_scheme; [|exact Hp]. eapply https_url; [exact Hn|].
    eapply confidential_next; [exact Hr|by apply Hreq].
  - intros Hs Hw. specialize (Ho Hs Hw). rewrite <- Ho. eapply parse_again; [done|exact Hn| |exact Hp].
    by rewrite <- Ho in Hs.
Qed.

Lemma loop_sends q confidential o fuel redirects url method headers payload history :
  idna_names to_ascii → 0 < ca_max_response_bytes q →
  redirects ≤ ca_max_redirects q < Z.of_nat fuel + redirects → hop_ok q confidential o url headers →
  sends (sent_ok q confidential o) (λ _ r, ∀ sp, r = Ok sp → Z.of_nat (length (sp_content sp)) ≤ ca_max_response_bytes q)
    history (request_loop to_ascii fuel q confidential redirects url method headers payload).
Proof.
  intros Hidna Hmax. revert redirects url method headers payload history.
  induction fuel as [|fuel IH]; intros redirects url method headers payload history Hfuel Hhop; [lia|].
  cbn [request_loop]. unfold mbind, net_mbind. eapply sends_bind; [apply validate_sends|].
  intros h [target|e] Ht; [|done]. destruct (Ht target eq_refl) as [Hp Htarget]. clear Ht. cbn [pass].
  destruct (Hhop _ Hp) as [Hhttps Horigin].
  eapply sends_bind; [apply (hop_sends (sent_ok q confidential o)); [done|exact Htarget|]|].
  { intros later a c Ha Hpin Hc. destruct (connection_parts _ _ _ _ _ _ Hc) as (<- & Hco & Hch).
    unfold connection_origin in Hco. injection Hco as Hs Hn Hport.
    unfold sent_ok, connection_origin. rewrite Hs, Hn, Hport, Hch, <-public_iff. split_and!; try done.
    intros Hset Hw. apply Horigin; [done|]. destruct Hw as [Hw|Hw]; [by left|right; by eapply wire_carries]. }
  intros h' [n|e] Hn; [|done]. cbn [pass]. destruct (redirects_to _ _) as [location|].
  2:{ cbn. intros sp (u & _ & E)%res_bind_ok. injection E as <-. by apply Hn. }
  destruct (Z.leb_spec (ca_max_redirects q) redirects); [done|].
  match goal with |- context [pass _ ?m] => destruct m as [next|e] eqn:Enext end; [|done]. cbn [pass].
  apply res_bind_ok in Enext as (next_url & _ & E). apply res_bind_ok in E as (next' & Hnext & E).
  apply res_bind_ok in E as (required & Hreq & E). apply res_bind_ok in E as (u & Hu & E). injection E as ->.
  cbv zeta. destruct (_ && _) eqn:Ecross; [done|]. apply IH; [lia|].
  eapply next_hop_ok; [done| |exact Hnext|exact Hu|].
  { intros ->. by injection Hreq. }
  intros Hset Hw. destruct (bool_decide_reflect (parsed_origin next = parsed_origin (vu_parsed target))) as [->|Hne].
  - apply Horigin; [done|]. by cbn in Hw.
  - exfalso. cbn in Ecross, Hw. apply negb_false_iff, bool_decide_eq_true in Ecross.
    destruct Hw as [Hw|Hw]; [done|]. by apply cross_origin_clean in Hw.
Qed.

Lemma checked_bounds q : checked_call q = Ok () → 0 < ca_max_response_bytes q ∧ 0 ≤ ca_max_redirects q.
Proof.
  unfold checked_call. destruct (Z.leb_spec (ca_max_response_bytes q) 0); [done|].
  destruct (ca_timeout_seconds q <=? 0); [done|]. by destruct (Z.ltb_spec (ca_max_redirects q) 0).
Qed.

(** What a call keeps confidential: that it is asked to, its method, its headers, parameters,
body and certificate, and the query of its URL. *)
Definition confidential_data (q : call) : Prop :=
  ca_require_https q = true ∨ upper (strip (ca_method q)) = "POST" ∨ ca_sensitive q ≠ [] ∨ ca_params q ≠ []
  ∨ ca_json q ≠ None ∨ ca_form q ≠ None ∨ truthy (jget (ca_client_options q) "cert") = true
  ∨ ∃ first r, _parse_http_url to_ascii (ca_url q) = Ok first ∧ urlsplit (pu_url first) "" = Ok r ∧ sr_query r ≠ "".

Lemma confidential_call_iff q : confidential_call q = true ↔
  ca_require_https q = true ∨ upper (strip (ca_method q)) = "POST" ∨ ca_sensitive q ≠ [] ∨ ca_params q ≠ [].
Proof. unfold confidential_call. rewrite !orb_true_iff, String.eqb_eq, !negb_true_iff, !bool_decide_eq_false. tauto. Qed.

Lemma confidential_options_iff q : confidential_options q = true ↔
  ca_json q ≠ None ∨ ca_form q ≠ None ∨ truthy (jget (ca_client_options q) "cert") = true.
Proof. unfold confidential_options. rewrite !orb_true_iff, !bool_decide_eq_true, !not_eq_None_Some. tauto. Qed.

(** A header of a name that the caller declared sensitive is among those sent. *)
Definition sends_sensitive (q : call) (c : connection) : Prop :=
  ∃ h v k w, (h, v) ∈ cn_headers c ∧ (k, w) ∈ ca_sensitive q ∧ lower h = lower k ∧ lower h ∉ ["host"; "accept-encoding"].

Lemma sensitive_carried q c : sends_sensitive q c → carries (sensitive_header_names q) (cn_headers c).
Proof.
  intros (h & v & k & w & Hh & Hk & E & Ho). exists h, v. split; [done|]. split; [|done].
  apply list_elem_of_fmap. by exists (k, w).
Qed.

(** The origin of the first hop. *)
Definition first_origin (url : string) : origin :=
  match _parse_http_url to_ascii url with Ok p => parsed_origin p | Raise _ => ("", "", 0) end.

Lemma first_hop_ok q url confidential :
  (∀ url params merged, copy_merge_params url params = Some merged →
     startswith url "https://" = true → startswith merged "https://" = true) →
  first_url to_ascii copy_merge_params q = Ok (url, confidential) →
  0 < ca_max_response_bytes q ∧ 0 ≤ ca_max_redirects q
  ∧ (confidential_data q → confidential = true)
  ∧ hop_ok q confidential (first_origin url) url (first_headers q).
Proof.
  intros Hmerge H. apply res_bind_ok in H as ([] & Hck & H). apply res_bind_ok in H as (initial & Hi & H).
  apply res_bind_ok in H as (conf & Hconf & H). apply res_bind_ok in H as (u & Hreq & H).
  destruct (copy_merge_params _ _) as [merged|] eqn:Em; [|done]. injection H as -> ->.
  destruct (checked_bounds q Hck). split_and!; [done|done| |].
  - intros Hw. destruct (confidential_call q) eqn:Ec; [by injection Hconf|].
    apply res_bind_ok in Hconf as (queried & Hq & E). injection E as <-. apply orb_true_iff.
    rewrite confidential_options_iff. apply not_true_iff_false in Ec. rewrite confidential_call_iff in Ec.
    assert ((∃ first r, _parse_http_url to_ascii (ca_url q) = Ok first ∧ urlsplit (pu_url first) "" = Ok r ∧ sr_query r ≠ "") →
      queried = true) as Hquery.
    { intros (first & r & Hf & Hr & Hn). rewrite Hf in Hi. injection Hi as <-. unfold has_query in Hq. rewrite Hr in Hq.
      injection Hq as <-. by apply negb_true_iff, String.eqb_neq. }
    unfold confidential_data in Hw. tauto.
  - intros p Hp. split.
    + intros Hc. eapply https_scheme; [|exact Hp]. eapply Hmerge; [exact Em|]. eapply https_url; [exact Hi|].
      by eapply confidential_next.
    + intros _ _. unfold first_origin. by rewrite Hp.
Qed.

Definition within (q : call) (history : list event) (r : res SafeHTTPResponse) : Prop :=
  ∀ sp, r = Ok sp → Z.of_nat (length (sp_content sp)) ≤ ca_max_response_bytes q.

Lemma request_sends q url confidential :
  idna_names to_ascii → 0 < ca_max_response_bytes q → 0 ≤ ca_max_redirects q →
  hop_ok q confidential (first_origin url) url (first_headers q) →
  sends (sent_ok q confidential (first_origin url)) (within q) []
    (net_bind (caught q)
      (request_loop to_ascii (S (Z.to_nat (ca_max_redirects q))) q confidential 0 url (upper (strip (ca_method q)))
        (first_headers q) (payload_of q))).
Proof.
  intros Hidna Hmax Hred Hhop. eapply sends_bind; [apply loop_sends; [done..| |exact Hhop]; lia|].
  intros h r Hr. unfold caught, within. cbn. destruct r as [sp|e]; [exact Hr|]. by destruct e as [| | | | | | | | | | | | | | | | | | | | |[]|].
Qed.

(** C26: a guarded request ends, after at most [max_redirects] redirects, and
    returns no more than the allowed bytes.  Whatever servers and name servers
    answer, it only connects to public addresses that were read off the host's name or an
    answer for it; a call with confidential data only crosses https; and query
    parameters and sensitive headers only go to the origin of the first URL, provided its
    host has no colon unless it is an IP address. *)
Theorem guarded_requests (nw : network) (q : call) (history : list event) (result : option (res SafeHTTPResponse))
  (Hidna : idna_names to_ascii)
  (Hmerge : ∀ url params merged, copy_merge_params url params = Some merged →
     startswith url "https://" = true → startswith merged "https://" = true)
  (Hrun : fetched to_ascii copy_merge_params nw q = (history, result)) :
  is_Some result
  ∧ (∀ sp, result = Some (Ok sp) → Z.of_nat (length (sp_content sp)) ≤ ca_max_response_bytes q)
  ∧ ∀ before c after, history = before ++ Sent c :: after →
      public (cn_address c)
      ∧ pinned before (cn_sni c) (cn_port c) (cn_address c)
      ∧ (confidential_data q → cn_scheme c = "https")
      ∧ ∀ url confidential first, first_url to_ascii copy_merge_params q = Ok (url, confidential) →
          _parse_http_url to_ascii url = Ok first → plain_host (pu_hostname first) →
          ca_params q ≠ [] ∨ sends_sensitive q c →
          connection_origin c = parsed_origin first.
Proof.
  unfold fetched in Hrun. destruct (interpret nw [] _) as [history' e] eqn:Ei. injection Hrun as -> <-.
  unfold safe_request_url in Ei. destruct (first_url to_ascii copy_merge_params q) as [[url confidential]|ex] eqn:Ef; cycle 1.
  { cbn in Ei. injection Ei as <- <-. split; [by eexists|]. split; [done|]. intros before c after E. by destruct before. }
  destruct (first_hop_ok q url confidential Hmerge Ef) as (Hmax & Hred & Hconf & Hhop).
  destruct (interpret_sends _ _ nw _ [] history e (request_sends q url confidential Hidna Hmax Hred Hhop)
    ltac:(by intros []) Ei) as [Hall He].
  split; [by destruct e; [by eexists..|]|]. split.
  { destruct e as [r| |]; intros sp; [intros [= ->]; by apply He|done|done]. }
  intros before c after E. destruct (Hall before c after E) as (H1 & H2 & H3 & H4).
  split; [done|]. split; [done|]. split; [by intros Hc; apply H3, Hconf|].
  intros url' conf' first [= <- <-] Hfirst Hset Hw. unfold first_origin in H4. rewrite Hfirst in H4.
  apply H4; [done|]. destruct Hw as [Hw|Hw]; [by left|by right; apply sensitive_carried].
Qed.
End props.

(** A call with a credential: the first host redirects to another one, whose
    name then resolves to a private address for whoever asks again. *)
Definition sample_call : call :=
  mkCall "get" "HTTPS://API.Example.com:443/v1" [("Accept", "application/json")] [("Authorization", "Bearer secret")] []
    None None 1000 10 2 [] false.

Definition sample_network : network :=
  mkNetworkOf
    (λ history hostname _,
       if existsb (λ e, match e with Asked h _ _ => h =s? hostname | Sent _ => false end) history
       then Some (Ok ["127.0.0.1"]) else Some (Ok ["93.184.215.14"; "2606:2800:21f:cb07::1"]))
    (λ history c,
       if cn_sni c =s? "api.example.com"
       then Some (Ok (mkResponse 302 [("location", "https://cdn.example.org/file")] [] None None))
       else Some (Ok (mkResponse 200 [] [[104; 105]%N] None None))).

(** Two of the names that the idna codec writes. *)
Definition two_names (host : string) : option string :=
  if host =s? "caf" +:+ of_chars ["233"%char] +:+ ".example" then Some "xn--caf-dma.example"
  else if host =s? of_chars ["233"%char] +:+ ":80" then Some "xn--:80-9la" else None.

Lemma two_names_ok : idna_names two_names.
Proof.
  intros host name. unfold two_names.
  destruct (String.eqb_spec host ("caf" +:+ of_chars ["233"%char] +:+ ".example")) as [->|_];
    [|destruct (String.eqb_spec host (of_chars ["233"%char] +:+ ":80")) as [->|_]; [|done]].
  all: intros [= <-]; (split; [|done]).
  - apply Forall_forall, (bool_decide_unpack (Forall _ _)). vm_compute. exact I.
  - apply Forall_forall, (bool_decide_unpack (Forall _ _)). vm_compute. exact I.
Qed.

Definition keep_url (url : string) (params : jobject) : option string := Some url.

Definition sent_of (history : list event) : list connection :=
  omap (λ e, match e with Sent c => Some c | Asked _ _ _ => None end) history.

Lemma guarded_requests_witness :
  let '(history, result) := fetched two_names keep_url sample_network sample_call in
  (map (λ c, (cn_url c, has_key "Authorization" (cn_headers c))) (sent_of history),
   match result with Some (Ok r) => Some (Ok (sp_url r)) | Some (Raise e) => Some (Raise e) | None => None end)
  = ([("https://93.184.215.14:443/v1", true); ("https://93.184.215.14:443/file", false)],
     Some (Ok "https://cdn.example.org/file"))
  ∧ is_Some result
  ∧ ∀ before c after, history = before ++ Sent c :: after → confidential_data two_names sample_call → cn_scheme c = "https".
Proof.
  pose proof (guarded_requests two_names keep_url sample_network sample_call) as H.
  destruct (fetched two_names keep_url sample_network sample_call) as [history result] eqn:E.
  destruct (H history result) as (Hr & _ & Hs); [apply two_names_ok|by intros ??? [= <-]|done|].
  split; [|split; [exact Hr|]].
  - vm_compute in E. injection E as <- <-. reflexivity.
  - intros before c after Hh. apply (Hs before c after Hh).
Defined.

(** C38: what a URL is checked as is what it is connected to: when the normal form of
    a parsed URL parses, it has the same scheme, host and port, provided the host has no
    colon unless it is an IP address. *)
Theorem normal_form_stable to_ascii url p p' : idna_names to_ascii →
  _parse_http_url to_ascii url = Ok p → plain_host (pu_hostname p) →
  _parse_http_url to_ascii (pu_url p) = Ok p' → parsed_origin p' = parsed_origin p.
Proof. apply parse_again. Qed.

Lemma normal_form_stable_witness :
  ∃ p p', _parse_http_url two_names " HTTPS://[2001:DB8:0::0:1]:0443/a;b?c#d " = Ok p
    ∧ pu_url p = "https://[2001:db8::1]/a;b?c" ∧ _parse_http_url two_names (pu_url p) = Ok p'
    ∧ parsed_origin p' = parsed_origin p.
Proof.
  eexists. eexists. split; [vm_compute; reflexivity|]. split; [reflexivity|]. split; [vm_compute; reflexivity|].
  apply (normal_form_stable two_names " HTTPS://[2001:DB8:0::0:1]:0443/a;b?c#d " _ _ two_names_ok);
    [vm_compute; reflexivity|intros _; vm_compute; by eexists|vm_compute; reflexivity].
Defined.

(** A bracketed host of a future version may hold a colon: it loses its brackets in the
normal form, and what followed the colon becomes the port. *)
Lemma future_host_shifts :
  match _parse_http_url two_names "https://[v1.a:80]/" with
  | Ok p => parsed_origin p = ("https", "v1.a:80", 443)
      ∧ match _parse_http_url two_names (pu_url p) with Ok p' => parsed_origin p' = ("https", "v1.a", 80) | Raise _ => False end
  | Raise _ => False
  end.
Proof. vm_compute. split; reflexivity. Qed.

(** Addresses of the host's own networks, however they are written. *)
Lemma private_texts_refused :
  forallb (λ s, match ip_address s with Some a => negb (_is_public_address a) | None => false end)
    ["127.0.0.1"; "169.254.169.254"; "10.0.0.1"; "100.64.0.1"; "0.0.0.0"; "::1"; "::"; "fd00::1"; "fe80::1";
     "::ffff:127.0.0.1"; "::ffff:100.64.0.1"; "64:ff9b::a9fe:a9fe"; "64:ff9b::7f00:1"; "2002:7f00:1::"; "2001:0:1::1"] = true.
Proof. vm_compute. reflexivity. Qed.

(** A redirect whose location is no URL escapes as a plain [ValueError]. *)
Lemma malformed_location_escapes :
  (fetched two_names keep_url
     (mkNetworkOf (λ _ _ _, Some (Ok ["93.184.215.14"]))
        (λ _ _, Some (Ok (mkResponse 302 [("location", "https://[bad/")] [] None None)))) sample_call).2
  = Some (Raise (ValueError "Invalid IPv6 URL")).
Proof. vm_compute. reflexivity. Qed.
