(* ===== verification/Idempotency.v ===== *)
(** Idempotent requests (control_plane/idempotency.py).

    The code finds the columns of a record by trying names on the model class,
    so a record is a row of named values and [record_attributes] are the columns
    that models.py declares.  Times are integers.  A request is a program
    ([io]) of transactions on the table of records and of the operation itself;
    what happens between two of them is for the other requests to use. *)
From Stdlib Require Import Ascii NArith.
From S2P Require Import Prelude PyStr PyDict PyFloat PyJson PyHash.
Open Scope Z_scope.

Definition IDEMPOTENCY_KEY_HEADER : string := "Idempotency-Key".
Definition IDEMPOTENCY_REPLAYED_HEADER : string := "Idempotency-Replayed".
Definition STATUS_PROCESSING : string := "in_progress".
Definition STATUS_SUCCEEDED : string := "succeeded".
Definition STATUS_FAILED : string := "failed".
Definition PROCESSING_STATUSES : list string := ["in_progress"; "processing"].
Definition DEFAULT_RECORD_TTL_SECONDS : Z := 24 * 60 * 60.
Definition MAX_IDEMPOTENCY_KEY_LENGTH : Z := 255.

(** * Fields *)

(** The columns of [IdempotencyRecord]. *)
Definition record_attributes : list string :=
  ["id"; "scope"; "idempotency_key"; "request_hash"; "status"; "user_id"; "thread_id"; "job_id"; "result_type";
   "result_id"; "response_status_code"; "response_body"; "error"; "metadata_json"; "created_at"; "updated_at";
   "locked_until"; "completed_at"; "expires_at"].

Definition _KEY_FIELDS : list string := ["idempotency_key"; "key"].
Definition _SCOPE_FIELDS : list string := ["scope"; "tenant_key"; "namespace"].
Definition _REQUEST_HASH_FIELDS : list string := ["request_hash"; "request_fingerprint"; "fingerprint"].
Definition _METHOD_FIELDS : list string := ["method"; "request_method"].
Definition _PATH_FIELDS : list string := ["path"; "request_path"].
Definition _BODY_HASH_FIELDS : list string := ["body_hash"; "request_body_hash"].
Definition _STATUS_FIELDS : list string := ["status"; "state"].
Definition _STATUS_CODE_FIELDS : list string := ["status_code"; "response_status_code"; "http_status_code"].
Definition _BODY_FIELDS : list string := ["response_body"; "response_json"; "body"].
Definition _HEADERS_FIELDS : list string := ["response_headers"; "headers"].
Definition _MEDIA_TYPE_FIELDS : list string := ["response_media_type"; "media_type"; "content_type"].
Definition _ERROR_FIELDS : list string := ["error"; "error_message"; "failure_reason"].
Definition _EXTRA_FIELDS : list string :=
  ["metadata_json"; "extra"; "record_metadata"; "result_metadata"; "response_metadata"].
Definition _CREATED_AT_FIELDS : list string := ["created_at"].
Definition _UPDATED_AT_FIELDS : list string := ["updated_at"].
Definition _COMPLETED_AT_FIELDS : list string := ["completed_at"; "finished_at"].
Definition _LOCKED_UNTIL_FIELDS : list string := ["locked_until"].
Definition _EXPIRES_AT_FIELDS : list string := ["expires_at"].

(** [hasattr] of a record, or of its class. *)
Definition _field_name (candidates : list string) : option string :=
  List.find (λ name, str_in name record_attributes) candidates.

(** An attribute that was never set is [None]. *)
Definition _get_value (record : jobject) (candidates : list string) (dflt : json) : json :=
  match _field_name candidates with Some name => jget record name | None => dflt end.

Definition _set_value (candidates : list string) (value : json) (record : jobject) : jobject :=
  match _field_name candidates with Some name => <[name := value]> record | None => record end.

(** * Requests *)

Record Request : Type := mkHttpRequest {
  rq_method : string;
  rq_path : string;
  rq_body : list N;
  rq_key : option string;
}.

Definition visible_char (c : ascii) : bool := ((33 <=? code c) && (code c <=? 126))%N.

Definition _normalize_key (required : bool) (key : option string) : res (option string) :=
  let normalized := strip (default "" key) in
  if normalized =s? "" then
    if required then Raise (HTTPException 400 ("missing " +:+ IDEMPOTENCY_KEY_HEADER +:+ " header")) else Ok None
  else if MAX_IDEMPOTENCY_KEY_LENGTH <? Z.of_nat (String.length normalized) then
    Raise (HTTPException 400 (IDEMPOTENCY_KEY_HEADER +:+ " must be at most "
             +:+ dec MAX_IDEMPOTENCY_KEY_LENGTH +:+ " characters"))
  else if negb (forallb visible_char (chars normalized)) then
    Raise (HTTPException 400 (IDEMPOTENCY_KEY_HEADER +:+ " must contain visible ASCII characters only"))
  else Ok (Some normalized).

Definition body_hash_of (r : Request) : string := hexdigest (sha256 (rq_body r)).

Definition _request_hash (r : Request) : string :=
  hexdigest (sha256 (utf8 (upper (rq_method r)) ++ [0%N] ++ utf8 (rq_path r) ++ [0%N] ++ utf8 (body_hash_of r))).

(** * Replies *)

Inductive content : Type := NoContent | JsonContent (body : json) | TextContent (text : string).

Record reply : Type := mkReply {
  rp_status : Z;
  rp_content : content;
  rp_headers : dict string;
  rp_media_type : string;
}.

Definition dropped_headers : list string :=
  ["connection"; "content-length"; "date"; "keep-alive"; "transfer-encoding"].

Definition _response_headers (headers : dict string) : dict string :=
  List.filter (λ p, negb (str_in (lower p.1) dropped_headers)) headers.

(** A stored mapping of headers. *)
Definition header_texts (j : json) : dict string :=
  match j with JObj d => map (λ p, (p.1, py_str p.2)) d | _ => [] end.

Definition _cached_response (key : string) (record : jobject) : res (option reply) :=
  match _get_value record _STATUS_CODE_FIELDS JNull with
  | JNull => Ok None
  | status_code =>
      let body := _get_value record _BODY_FIELDS JNull in
      let media_type := _get_value record _MEDIA_TYPE_FIELDS (JStr "application/json") in
      let headers := <[IDEMPOTENCY_KEY_HEADER := key]> (<[IDEMPOTENCY_REPLAYED_HEADER := "true"]>
        (_response_headers (header_texts (_get_value record _HEADERS_FIELDS (JObj []))))) in
      status ← py_int status_code;
      let content :=
        if bool_decide (body = JNull) || (status =? 204) || (status =? 304) then NoContent
        else if is_text media_type "application/json" then JsonContent body
        else TextContent (py_str body) in
      Ok (Some (mkReply status content headers (py_str media_type)))
  end.

(** * Records *)

Definition seconds (n : Z) : Z := n * 1000000.

Definition _new_record (key scope request_hash body_hash method path : string) (ttl_seconds now : Z) : jobject :=
  let locked_until := JInt (now + seconds ttl_seconds) in
  _set_value _EXPIRES_AT_FIELDS locked_until
 (_set_value _LOCKED_UNTIL_FIELDS locked_until
 (_set_value _UPDATED_AT_FIELDS (JInt now)
 (_set_value _CREATED_AT_FIELDS (JInt now)
 (_set_value _EXTRA_FIELDS (JObj [("method", JStr method); ("path", JStr path); ("body_hash", JStr body_hash)])
 (_set_value _STATUS_FIELDS (JStr STATUS_PROCESSING)
 (_set_value _PATH_FIELDS (JStr path)
 (_set_value _METHOD_FIELDS (JStr method)
 (_set_value _BODY_HASH_FIELDS (JStr body_hash)
 (_set_value _REQUEST_HASH_FIELDS (JStr request_hash)
 (_set_value _SCOPE_FIELDS (JStr scope)
 (_set_value _KEY_FIELDS (JStr key) []))))))))))).

Definition conflict {A} (msg : string) : res A := Raise (HTTPException 409 (IDEMPOTENCY_KEY_HEADER +:+ msg)).

Definition _ensure_same_request (record : jobject) (request_hash : string) : res unit :=
  let stored_hash := _get_value record _REQUEST_HASH_FIELDS JNull in
  if truthy stored_hash && negb (is_text stored_hash request_hash)
  then conflict " was already used for a different request" else Ok ().

Definition _ensure_not_processing (record : jobject) : res unit :=
  match _get_value record _STATUS_FIELDS JNull with
  | JStr status =>
      if str_in status PROCESSING_STATUSES
      then Raise (HTTPException 409 ("request with this " +:+ IDEMPOTENCY_KEY_HEADER +:+ " is still processing"))
      else Ok ()
  | _ => Ok ()
  end.

(** * Programs

[Find]: the query of [_find_record].  [Reserve]: adding a record and committing,
which fails on the unique constraint.  [Save]: committing a changed record.
[Flush]: sending it without a commit.  [Work]: the operation of the route, with
its status, its body and what it adds to the metadata, or its exception. *)

Record outcome : Type := mkOutcome { oc_status : Z; oc_body : json; oc_extra : jobject }.

Inductive io (A : Type) : Type :=
  | Done (r : res A)
  | Clock (k : Z → io A)
  | Find (scope key : string) (k : option jobject → io A)
  | Reserve (record : jobject) (k : bool → io A)
  | Save (record : jobject) (k : io A)
  | Flush (record : jobject) (k : io A)
  | Work (k : res outcome → io A).

Arguments Done {A}.
Arguments Clock {A}.
Arguments Find {A}.
Arguments Reserve {A}.
Arguments Save {A}.
Arguments Flush {A}.
Arguments Work {A}.

Fixpoint io_bind {A B} (f : A → io B) (m : io A) : io B :=
  match m with
  | Done (Ok a) => f a
  | Done (Raise e) => Done (Raise e)
  | Clock k => Clock (λ t, io_bind f (k t))
  | Find scope key k => Find scope key (λ o, io_bind f (k o))
  | Reserve record k => Reserve record (λ b, io_bind f (k b))
  | Save record k => Save record (io_bind f k)
  | Flush record k => Flush record (io_bind f k)
  | Work k => Work (λ r, io_bind f (k r))
  end.

#[export] Instance io_mbind : MBind io := λ A B f m, io_bind f m.
#[export] Instance io_mret : MRet io := λ A a, Done (Ok a).

(** * Contexts *)

Record IdempotencyContext : Type := mkContext {
  cx_key : option string;
  cx_request_hash : option string;
  cx_body_hash : option string;
  cx_record : option jobject;
  cx_cached_response : option reply;
}.

Definition cx_enabled (c : IdempotencyContext) : bool :=
  bool_decide (is_Some (cx_key c)) && bool_decide (is_Some (cx_record c)).

Definition is_replay (c : IdempotencyContext) : bool := bool_decide (is_Some (cx_cached_response c)).

Definition disabled_context : IdempotencyContext := mkContext None None None None None.

Definition stored_record (status : string) (status_code : Z) (body : json) (headers : dict string)
    (media_type : string) (error : option string) (extra : jobject) (now : Z) (record : jobject) : jobject :=
  let existing := match _get_value record _EXTRA_FIELDS (JObj []) with JObj d => d | _ => [] end in
  _set_value _LOCKED_UNTIL_FIELDS JNull
 (_set_value _COMPLETED_AT_FIELDS (JInt now)
 (_set_value _UPDATED_AT_FIELDS (JInt now)
 (_set_value _EXTRA_FIELDS (JObj (dict_update existing extra))
 (_set_value _ERROR_FIELDS (jopt error)
 (_set_value _MEDIA_TYPE_FIELDS (JStr media_type)
 (_set_value _HEADERS_FIELDS (JObj (map (λ p, (p.1, JStr p.2)) (_response_headers headers)))
 (_set_value _BODY_FIELDS (match body with JNull => JObj [] | _ => body end)
 (_set_value _STATUS_CODE_FIELDS (JInt status_code)
 (_set_value _STATUS_FIELDS (JStr status) record))))))))).

Definition store_response (status : option string) (status_code : Z) (body : json) (headers : dict string)
    (media_type : string) (error : option string) (extra : jobject) (commit : bool) (c : IdempotencyContext) :
    io unit :=
  match cx_record c with
  | Some record =>
      if cx_enabled c then
        Clock (λ now,
          let final := match status with
                       | Some s => if s =s? "" then None else Some s
                       | None => None
                       end in
          let record := stored_record
            (default (if status_code <? 400 then STATUS_SUCCEEDED else STATUS_FAILED) final)
            status_code body headers media_type error extra now record in
          if commit then Save record (mret ()) else Flush record (mret ()))
      else mret ()
  | None => mret ()
  end.

Definition store_success (status_code : Z) (body : json) (headers : dict string) (media_type : string)
    (extra : jobject) (commit : bool) (c : IdempotencyContext) : io unit :=
  store_response (Some STATUS_SUCCEEDED) status_code body headers media_type None extra commit c.

Definition store_failure (status_code : Z) (body : json) (error : option string) (headers : dict string)
    (media_type : string) (extra : jobject) (commit : bool) (c : IdempotencyContext) : io unit :=
  let said := default "" error in
  let body := match body with
              | JNull => JObj [("detail", JStr (if said =s? "" then "request failed" else said))]
              | _ => body
              end in
  store_response (Some STATUS_FAILED) status_code body headers media_type error extra commit c.

Definition store_http_exception (status_code : Z) (detail : string) (headers : dict string) (commit : bool)
    (c : IdempotencyContext) : io unit :=
  store_failure status_code (JObj [("detail", JStr detail)]) (Some detail) headers "application/json" [] commit c.

(** * Beginning *)

(** A record is there already: replay its response, or refuse. *)
Definition join_record (key request_hash body_hash msg : string) (record : jobject) : io IdempotencyContext :=
  Done (_ ← _ensure_same_request record request_hash;
        cached ← _cached_response key record;
        match cached with
        | Some r => Ok (mkContext (Some key) (Some request_hash) (Some body_hash) (Some record) (Some r))
        | None => _ ← _ensure_not_processing record; conflict msg
        end).

(** The reservation failed: another request took the key first. *)
Definition rejoin (request : Request) (scope key : string) : io IdempotencyContext :=
  Find scope key (λ found,
    match found with
    | None => Done (conflict " reservation conflicted")
    | Some record =>
        join_record key (_request_hash request) (body_hash_of request) " reservation conflicted" record
    end).

Definition request_record (request : Request) (scope : string) (ttl_seconds : Z) (key : string) (now : Z) : jobject :=
  _new_record key scope (_request_hash request) (body_hash_of request) (upper (rq_method request)) (rq_path request)
    ttl_seconds now.

Definition reserved_context (request : Request) (key : string) (record : jobject) : IdempotencyContext :=
  mkContext (Some key) (Some (_request_hash request)) (Some (body_hash_of request)) (Some record) None.

Definition reserve (request : Request) (scope : string) (ttl_seconds : Z) (key : string) (now : Z) :
    io IdempotencyContext :=
  let record := request_record request scope ttl_seconds key now in
  Reserve record (λ committed,
    if committed then Done (Ok (reserved_context request key record)) else rejoin request scope key).

Definition begin_keyed (request : Request) (scope : string) (ttl_seconds : Z) (key : string) :
    io IdempotencyContext :=
  Find scope key (λ found,
    match found with
    | Some record =>
        join_record key (_request_hash request) (body_hash_of request) " exists but has no cached response" record
    | None => Clock (reserve request scope ttl_seconds key)
    end).

Definition begin_idempotency (request : Request) (required : bool) (scope : string) (ttl_seconds : Z) :
    io IdempotencyContext :=
  key ← Done (_normalize_key required (rq_key request));
  match key with
  | None => Done (Ok disabled_context)
  | Some key => begin_keyed request scope ttl_seconds key
  end.

(** * The routes *)

(** How the routes of routes/bounties.py use it: a replay is returned at once,
an [HTTPException] of the operation is stored and raised, other exceptions leave
the record as it is, and a result is stored. *)
Definition fresh_reply (o : outcome) : reply :=
  mkReply (oc_status o) (JsonContent (oc_body o)) [] "application/json".

Definition after_work (c : IdempotencyContext) (result : res outcome) : io reply :=
  match result with
  | Ok o =>
      _ ← store_success (oc_status o) (oc_body o) [] "application/json" (oc_extra o) true c;
      mret (fresh_reply o)
  | Raise (HTTPException status detail) =>
      _ ← store_http_exception status detail [] true c; Done (Raise (HTTPException status detail))
  | Raise e => Done (Raise e)
  end.

Definition run_bounty (c : IdempotencyContext) : io reply :=
  match cx_cached_response c with
  | Some r => mret r
  | None => Work (after_work c)
  end.

Definition create_bounty (request : Request) (scope : string) : io reply :=
  c ← begin_idempotency request false scope DEFAULT_RECORD_TTL_SECONDS; run_bounty c.

(** * Requests side by side

The table of records with its unique constraint on scope and key, and the
requests that have come.  A step is one action of one request, or a new request;
a request that is never scheduled again is one whose process died.  [th_ran] is
a history: what the operation returned each time the request ran it. *)

Definition row_is (scope key : string) (row : jobject) : bool :=
  is_text (jget row "scope") scope && is_text (jget row "idempotency_key") key.

Definition _find_record (scope key : string) (table : list jobject) : option jobject :=
  List.find (row_is scope key) table.

Definition same_row (record row : jobject) : bool :=
  bool_decide (jget row "scope" = jget record "scope")
  && bool_decide (jget row "idempotency_key" = jget record "idempotency_key").

(** The constraint: no row has the scope and the key of [record]. *)
Definition insertable (record : jobject) (table : list jobject) : bool :=
  negb (existsb (same_row record) table).

Definition saved (record : jobject) (table : list jobject) : list jobject :=
  map (λ row, if same_row record row then record else row) table.

Record thread : Type := mkThread {
  th_request : Request;
  th_scope : string;
  th_ran : list (res outcome);
  th_prog : io reply;
}.

Definition arrive (request : Request) (scope : string) : thread :=
  mkThread request scope [] (create_bounty request scope).

Record world : Type := mkWorld { w_table : list jobject; w_threads : list thread }.

Inductive action : list jobject → io reply → list jobject → io reply → option (res outcome) → Prop :=
  | act_clock table k now : action table (Clock k) table (k now) None
  | act_find table scope key k : action table (Find scope key k) table (k (_find_record scope key table)) None
  | act_reserve table record k : insertable record table = true →
      action table (Reserve record k) (table ++ [record]) (k true) None
  | act_conflict table record k : insertable record table = false → action table (Reserve record k) table (k false) None
  | act_save table record k : action table (Save record k) (saved record table) k None
  | act_flush table record k : action table (Flush record k) table k None
  | act_work table k result : action table (Work k) table (k result) (Some result).

Definition ran_with (t : thread) (result : option (res outcome)) (prog : io reply) : thread :=
  mkThread (th_request t) (th_scope t) (th_ran t ++ option_list result) prog.

Inductive step : world → world → Prop :=
  | step_act table threads i t table' prog' result :
      threads !! i = Some t → action table (th_prog t) table' prog' result →
      step (mkWorld table threads) (mkWorld table' (<[i := ran_with t result prog']> threads))
  | step_arrive table threads request scope :
      step (mkWorld table threads) (mkWorld table (threads ++ [arrive request scope])).

Definition reachable : world → Prop := rtc step (mkWorld [] []).

(** A run of the system: who moves, and what the clock or the operation says. *)
Inductive move : Type := Come (request : Request) (scope : string) | Act (i : nat) (now : Z) (result : res outcome).

Definition perform (m : move) (w : world) : option world :=
  let '(mkWorld table threads) := w in
  match m with
  | Come request scope => Some (mkWorld table (threads ++ [arrive request scope]))
  | Act i now result =>
      t ← threads !! i;
      let next table' prog' ran := Some (mkWorld table' (<[i := ran_with t ran prog']> threads)) in
      match th_prog t with
      | Done _ => None
      | Clock k => next table (k now) None
      | Find scope key k => next table (k (_find_record scope key table)) None
      | Reserve record k =>
          if insertable record table then next (table ++ [record]) (k true) None else next table (k false) None
      | Save record k => next (saved record table) k None
      | Flush record k => next table k None
      | Work k => next table (k result) (Some result)
      end
  end.

Fixpoint performs (l : list move) (w : world) : option world :=
  match l with
  | [] => Some w
  | m :: l => w' ← perform m w; performs l w'
  end.
