(* ===== verification/IdempotencyProperties.v ===== *)
(** Properties of idempotent requests: whatever requests come and however their
    actions interleave, the operation behind a key runs at most once and every
    other answer to the key is a replay of its stored outcome or a refusal. *)
From Stdlib Require Import Ascii NArith.
From S2P Require Import Prelude PyStr PyDict PyFloat PyJson PyHash Idempotency.
Open Scope Z_scope.

(** [t] is a request with a key. *)
Definition asks (scope key : string) (t : thread) : Prop :=
  th_scope t = scope ∧ _normalize_key false (rq_key (th_request t)) = Ok (Some key).

(** What a stored outcome answers. *)
Definition replay_of (key : string) (result : res outcome) : option reply :=
  let answer status body :=
    Some (mkReply status
      (if (status =? 204) || (status =? 304) then NoContent
       else JsonContent match body with JNull => JObj [] | _ => body end)
      [(IDEMPOTENCY_REPLAYED_HEADER, "true"); (IDEMPOTENCY_KEY_HEADER, key)] "application/json") in
  match result with
  | Ok o => answer (oc_status o) (oc_body o)
  | Raise (HTTPException status detail) => answer status (JObj [("detail", JStr detail)])
  | Raise _ => None
  end.

(** * Phases

Where a keyed request is in its program: what is left to do, whether it ran the
operation, and the row it holds. *)

Inductive phase : Type :=
  | Start
  | Stamping
  | Reserving (now : Z)
  | Rejoining
  | Working (row : jobject)
  | Storing (row : jobject) (result : res outcome)
  | Saving (row : jobject) (result : res outcome) (now : Z)
  | Stored (row : jobject) (result : res outcome) (now : Z)
  | Failed (row : jobject) (e : exc)
  | Replayed (row : jobject) (r : reply)
  | Refused (msg : string).

(** The row after [result] is stored. *)
Definition stored_row (row : jobject) (result : res outcome) (now : Z) : jobject :=
  match result with
  | Ok o =>
      stored_record STATUS_SUCCEEDED (oc_status o) (oc_body o) [] "application/json" None (oc_extra o) now row
  | Raise (HTTPException status detail) =>
      stored_record STATUS_FAILED status (JObj [("detail", JStr detail)]) [] "application/json" (Some detail) [] now row
  | Raise _ => row
  end.

Definition answer_of (result : res outcome) : res reply := o ← result; Ok (fresh_reply o).

Definition prog_at (request : Request) (scope key : string) (p : phase) : io reply :=
  match p with
  | Start => io_bind run_bounty (begin_keyed request scope DEFAULT_RECORD_TTL_SECONDS key)
  | Stamping => io_bind run_bounty (Clock (reserve request scope DEFAULT_RECORD_TTL_SECONDS key))
  | Reserving now => io_bind run_bounty (reserve request scope DEFAULT_RECORD_TTL_SECONDS key now)
  | Rejoining => io_bind run_bounty (rejoin request scope key)
  | Working row => run_bounty (reserved_context request key row)
  | Storing row result => after_work (reserved_context request key row) result
  | Saving row result now => Save (stored_row row result now) (Done (answer_of result))
  | Stored _ result _ => Done (answer_of result)
  | Failed _ e => Done (Raise e)
  | Replayed _ r => Done (Ok r)
  | Refused msg => Done (Raise (HTTPException 409 msg))
  end.

Definition ran_at (p : phase) : list (res outcome) :=
  match p with
  | Storing _ result | Saving _ result _ | Stored _ result _ => [result]
  | Failed _ e => [Raise e]
  | _ => []
  end.

Definition held (p : phase) : option jobject :=
  match p with
  | Working row | Storing row _ | Saving row _ _ | Failed row _ => Some row
  | Stored row result now => Some (stored_row row result now)
  | _ => None
  end.

(** The row of a request that has just reserved the key. *)
Definition reserved_row (request : Request) (scope key : string) (row : jobject) : Prop :=
  ∃ now, row = request_record request scope DEFAULT_RECORD_TTL_SECONDS key now.

Definition completed (row : jobject) : Prop := jget row "response_status_code" ≠ JNull.

Definition storable (result : res outcome) : Prop := is_Some (replay_of "" result).

Definition phase_ok (table : list jobject) (request : Request) (scope key : string) (p : phase) : Prop :=
  match p with
  | Working row | Failed row _ => reserved_row request scope key row
  | Storing row result | Saving row result _ | Stored row result _ =>
      reserved_row request scope key row ∧ storable result
  | Replayed row r =>
      _find_record scope key table = Some row ∧ completed row
      ∧ jget row "request_hash" = JStr (_request_hash request) ∧ _cached_response key row = Ok (Some r)
  | _ => True
  end.

Definition thread_ok (table : list jobject) (t : thread) (p : phase) : Prop :=
  match _normalize_key false (rq_key (th_request t)) with
  | Ok (Some key) =>
      th_prog t = prog_at (th_request t) (th_scope t) key p ∧ th_ran t = ran_at p
      ∧ phase_ok table (th_request t) (th_scope t) key p
  | _ =>
      th_prog t = run_bounty disabled_context ∨ ∃ r, th_prog t = Done r
  end.

Record table_ok (w : world) (ps : nat → phase) : Prop := {
  threads_ok : ∀ i t, w_threads w !! i = Some t → thread_ok (w_table w) t (ps i);
  holders_find : ∀ i t scope key row, w_threads w !! i = Some t → asks scope key t → held (ps i) = Some row →
    _find_record scope key (w_table w) = Some row;
  rows_held : ∀ scope key row, _find_record scope key (w_table w) = Some row →
    ∃ i t, w_threads w !! i = Some t ∧ asks scope key t ∧ held (ps i) = Some row;
  one_holder : ∀ i j ti tj scope key, w_threads w !! i = Some ti → w_threads w !! j = Some tj →
    asks scope key ti → asks scope key tj → is_Some (held (ps i)) → is_Some (held (ps j)) → i = j;
}.

(** * Rows *)

Lemma is_text_spec j s : is_text j s = true ↔ j = JStr s.
Proof. destruct j; cbn; try (split; congruence). rewrite String.eqb_eq. split; congruence. Qed.

Lemma row_is_spec scope key row :
  row_is scope key row = true ↔ jget row "scope" = JStr scope ∧ jget row "idempotency_key" = JStr key.
Proof. unfold row_is. by rewrite andb_true_iff, !is_text_spec. Qed.

Lemma find_app {A} (f : A → bool) l l' :
  List.find f (l ++ l') = match List.find f l with Some x => Some x | None => List.find f l' end.
Proof. induction l as [|x l IH]; cbn; [done|]. by destruct (f x). Qed.

Definition row_keyed (scope key : string) (row : jobject) : Prop :=
  jget row "scope" = JStr scope ∧ jget row "idempotency_key" = JStr key.

Lemma same_row_is scope key record row : row_keyed scope key record → same_row record row = row_is scope key row.
Proof.
  intros [Hs Hk]. unfold same_row. rewrite Hs, Hk. apply eq_true_iff_eq.
  by rewrite row_is_spec, andb_true_iff, !bool_decide_eq_true.
Qed.

Lemma insertable_spec scope key record table : row_keyed scope key record →
  insertable record table = bool_decide (_find_record scope key table = None).
Proof.
  intros Hr. unfold insertable, _find_record. induction table as [|row table IH]; cbn; [done|].
  rewrite (same_row_is scope key) by done. by destruct (row_is scope key row).
Qed.

Lemma find_reserved scope key record table s k : row_keyed scope key record →
  _find_record scope key table = None →
  _find_record s k (table ++ [record]) =
  if decide ((s, k) = (scope, key)) then Some record else _find_record s k table.
Proof.
  unfold _find_record. intros [Hs Hk] Hn. rewrite find_app. cbn.
  destruct (decide _) as [[= -> ->]|Hne].
  - rewrite Hn. by rewrite (proj2 (row_is_spec scope key record)).
  - destruct (List.find (row_is s k) table); [done|]. destruct (row_is s k record) eqn:E; [|done].
    apply row_is_spec in E as [E1 E2]. congruence.
Qed.

Lemma find_saved scope key record table s k : row_keyed scope key record →
  is_Some (_find_record scope key table) →
  _find_record s k (saved record table) =
  if decide ((s, k) = (scope, key)) then Some record else _find_record s k table.
Proof.
  intros Hr. assert (row_is scope key record = true) as Hrow by by apply row_is_spec.
  unfold _find_record, saved. induction table as [|row table IH]; cbn; [by intros []|].
  rewrite (same_row_is scope key) by done. destruct (row_is scope key row) eqn:E.
  - intros _. destruct (decide _) as [[= -> ->]|Hne]; [by rewrite Hrow|].
    assert (∀ r, row_is scope key r = true → row_is s k r = false) as Hother.
    { intros r H%row_is_spec. apply not_true_is_false. intros H'%row_is_spec. destruct H, H'. congruence. }
    rewrite !Hother by done. clear IH E. induction table as [|row' table IH]; cbn; [done|].
    rewrite (same_row_is scope key) by done. destruct (row_is scope key row') eqn:E; [|by rewrite IH].
    by rewrite !Hother.
  - intros H. rewrite IH by done. case_decide as Hd; [|done]. injection Hd as -> ->. by rewrite E.
Qed.

Lemma reserved_fields request scope key row : reserved_row request scope key row →
  row_keyed scope key row ∧ jget row "request_hash" = JStr (_request_hash request)
  ∧ jget row "response_status_code" = JNull.
Proof. by intros [now ->]. Qed.

(** Fields that storing leaves alone. *)
Lemma stored_row_keeps row result now f : f ∈ ["scope"; "idempotency_key"; "request_hash"] →
  jget (stored_row row result now) f = jget row f.
Proof.
  intros Hf. destruct result as [o|[]]; [|try done..]; set_unfold in Hf;
    unfold stored_row, stored_record, _set_value, _field_name; cbn;
    rewrite !jget_insert_ne; (done || naive_solver).
Qed.

Lemma stored_row_keyed scope key row result now :
  row_keyed scope key row → row_keyed scope key (stored_row row result now).
Proof. intros [Hs Hk]. by split; rewrite stored_row_keeps; [|set_solver..]. Qed.

Lemma stored_record_answer key status code body error extra now row :
  let stored := stored_record status code body [] "application/json" error extra now row in
  completed stored ∧ _cached_response key stored =
    Ok (Some (mkReply code
      (if (code =? 204) || (code =? 304) then NoContent
       else JsonContent match body with JNull => JObj [] | _ => body end)
      [(IDEMPOTENCY_REPLAYED_HEADER, "true"); (IDEMPOTENCY_KEY_HEADER, key)] "application/json")).
Proof.
  intros stored.
  assert (jget stored "response_status_code" = JInt code) as Hc.
  { subst stored. unfold stored_record, _set_value, _field_name; cbn.
    rewrite !jget_insert_ne by done. by rewrite jget_insert. }
  assert (jget stored "response_body" = match body with JNull => JObj [] | _ => body end) as Hb.
  { subst stored. unfold stored_record, _set_value, _field_name; cbn.
    rewrite !jget_insert_ne by done. by rewrite jget_insert. }
  clearbody stored. unfold completed. split; [by rewrite Hc|].
  unfold _cached_response, _get_value, _field_name; cbn. rewrite Hc, Hb; cbn.
  rewrite bool_decide_false by by destruct body. cbn. by destruct ((code =? 204) || (code =? 304)).
Qed.

Lemma stored_row_answer key row result now : storable result →
  completed (stored_row row result now) ∧ _cached_response key (stored_row row result now) = Ok (replay_of key result).
Proof.
  intros [r Hr]. destruct result as [o|[]]; try done; unfold stored_row, replay_of; apply stored_record_answer.
Qed.

(** * Threads *)

Lemma asks_thread table t p scope key : thread_ok table t p → asks scope key t →
  th_prog t = prog_at (th_request t) scope key p ∧ th_ran t = ran_at p ∧ phase_ok table (th_request t) scope key p.
Proof. unfold thread_ok. by intros Ht [<- Hk]; rewrite Hk in Ht. Qed.

(** A held row is the request's own, as it was reserved or as it was stored. *)
Lemma held_row table request scope key p row : phase_ok table request scope key p → held p = Some row →
  row_keyed scope key row ∧ jget row "request_hash" = JStr (_request_hash request)
  ∧ (completed row → ∃ row0 result now, p = Stored row0 result now).
Proof.
  intros Hp Hh.
  assert (∃ row0, reserved_row request scope key row0
    ∧ (row = row0 ∨ ∃ result now, p = Stored row0 result now ∧ row = stored_row row0 result now)) as (row0 & Hr & Hd).
  { destruct p; try done; cbn in *; injection Hh as <-; destruct_and?; eauto 8. }
  apply reserved_fields in Hr as (Hk & Hh0 & Hc).
  destruct Hd as [->|(result & now & -> & ->)]; [done|].
  split; [by apply stored_row_keyed|]. split; [rewrite stored_row_keeps; [done|set_solver]|eauto].
Qed.

(** What a step of a keyed request does to the rows of its key. *)
Record progress (table table' : list jobject) (request : Request) (scope key : string) (p p' : phase) : Prop := {
  pr_others : ∀ s k, (s, k) ≠ (scope, key) → _find_record s k table' = _find_record s k table;
  pr_row : _find_record scope key table' = match held p' with Some row => Some row | None => _find_record scope key table end;
  pr_keeps : is_Some (held p) → is_Some (held p');
  pr_takes : held p = None → is_Some (held p') → _find_record scope key table = None;
  pr_ok : phase_ok table' request scope key p';
}.

(** The step of one request. *)
Lemma progress_same table request scope key p p' : held p' = held p →
  (∀ row, held p = Some row → _find_record scope key table = Some row) →
  phase_ok table request scope key p' → progress table table request scope key p p'.
Proof.
  intros Hh Hrow Hp. constructor; rewrite ?Hh; try done.
  - destruct (held p) as [row|] eqn:E; [by apply Hrow|done].
  - intros ->. by intros [].
Qed.

Lemma request_hash_truthy r : truthy (JStr (_request_hash r)) = true.
Proof.
  assert (_request_hash r ≠ "") as Hne.
  { unfold _request_hash. match goal with |- context [sha256 ?m] => pose proof (sha256_length m) as H end.
    destruct (sha256 _); [done|]. by unfold hexdigest. }
  cbn. by destruct (_request_hash r).
Qed.

(** What a request may find under its key. *)
Definition found_ok (key : string) (row : jobject) : Prop :=
  (∃ r, jget row "request_hash" = JStr (_request_hash r))
  ∧ (completed row → ∃ answer, _cached_response key row = Ok (Some answer)).

Lemma join_record_phase table request scope key msg row : found_ok key row →
  _find_record scope key table = Some row →
  ∃ p, io_bind run_bounty (join_record key (_request_hash request) (body_hash_of request) msg row)
         = prog_at request scope key p
    ∧ ran_at p = [] ∧ held p = None ∧ phase_ok table request scope key p.
Proof.
  intros [[rq Hh] Hc] Hf. unfold join_record, _ensure_same_request, _get_value, _field_name; cbn -[_cached_response truthy].
  rewrite Hh, request_hash_truthy; cbn -[_cached_response].
  destruct (_request_hash rq =s? _request_hash request) eqn:E; cbn -[_cached_response].
  2:{ by eexists (Refused _). }
  apply String.eqb_eq in E.
  destruct (decide (completed row)) as [Hd|Hd].
  - destruct (Hc Hd) as [r Hr]. rewrite Hr. exists (Replayed row r).
    split; [done|]. split; [done|]. split; [done|]. cbn -[_cached_response]. by rewrite <- E.
  - assert (_cached_response key row = Ok None) as ->.
    { apply dec_stable in Hd. unfold _cached_response, _get_value, _field_name; cbn. by rewrite Hd. }
    cbn. unfold _ensure_not_processing, conflict. destruct (_get_value _ _ _); try by eexists (Refused _).
    cbn -[str_in]. destruct (str_in _ _); by eexists (Refused _).
Qed.

Lemma keyed_step table request scope key p table' prog' result : phase_ok table request scope key p →
  (∀ row, held p = Some row → _find_record scope key table = Some row) →
  (∀ row, _find_record scope key table = Some row → found_ok key row) →
  action table (prog_at request scope key p) table' prog' result →
  ∃ p', prog' = prog_at request scope key p' ∧ ran_at p' = ran_at p ++ option_list result
    ∧ progress table table' request scope key p p'.
Proof.
  intros Hp Hheld Hfound Hact.
  destruct p as [| |now| |row|row o|row o now|row o now|row e|row r|msg]; cbn -[begin_keyed reserve rejoin] in *.
  - inversion Hact; subst. destruct (_find_record scope key table') as [row|] eqn:E.
    + destruct (join_record_phase table' request scope key " exists but has no cached response" row)
        as (p & -> & Hr & Hh & Hok); [by apply Hfound|done|].
      exists p. split; [done|]. split; [done|]. by apply progress_same.
    + exists Stamping. by split_and!; [..|apply progress_same].
  - inversion Hact; subst. exists (Reserving now). by split_and!; [..|apply progress_same].
  - inversion Hact as [| |? ? ? Hi|? ? ? Hi| | |]; subst.
    all: rewrite (insertable_spec scope key) in Hi by done.
    + apply bool_decide_eq_true in Hi. eexists (Working _). split; [done|]. split; [done|].
      constructor; cbn; try done; [| |by eexists].
      * intros s k Hne. rewrite (find_reserved scope key) by done. by rewrite decide_False.
      * rewrite (find_reserved scope key) by done. by rewrite decide_True.
    + exists Rejoining. by split_and!; [..|apply progress_same].
  - inversion Hact; subst. destruct (_find_record scope key table') as [row|] eqn:E.
    + destruct (join_record_phase table' request scope key " reservation conflicted" row)
        as (p & -> & Hr & Hh & Hok); [by apply Hfound|done|].
      exists p. split; [done|]. split; [done|]. by apply progress_same.
    + eexists (Refused _). by split_and!; [..|apply progress_same].
  - inversion Hact as [| | | | | |? ? out]; subst.
    assert (storable out ∨ ∃ e, out = Raise e ∧ ¬ storable out) as [Hs|(e & -> & Hs)].
    { destruct out as [o|[]]; [by left; eexists|..]; (by left; eexists) || (right; eexists; split; [done|]); by intros []. }
    + exists (Storing row out). split; [done|]. split; [done|]. by apply progress_same.
    + exists (Failed row e). split; [destruct e; try done; destruct Hs; by eexists|]. split; [done|]. by apply progress_same.
  - destruct Hp as [Hrow Hs].
    assert (∃ k, after_work (reserved_context request key row) o = Clock k
      ∧ ∀ now, k now = prog_at request scope key (Saving row o now)) as (k & Hk & Hsave).
    { destruct Hs as [r Hs]. destruct o as [o|[]]; try done; by eexists. }
    rewrite Hk in Hact. inversion Hact; subst. rewrite Hsave. exists (Saving row o now).
    split; [done|]. split; [done|]. by apply progress_same.
  - inversion Hact; subst. exists (Stored row o now). split; [done|]. split; [done|].
    destruct Hp as [Hrow Hs]. pose proof (reserved_fields _ _ _ _ Hrow) as (Hk & _).
    apply (stored_row_keyed _ _ _ o now) in Hk. specialize (Hheld row eq_refl).
    constructor; cbn; try done.
    + intros s k Hne. rewrite (find_saved scope key) by done. by rewrite decide_False.
    + rewrite (find_saved scope key) by done. by rewrite decide_True.
  - inversion Hact.
  - inversion Hact.
  - inversion Hact.
  - inversion Hact.
Qed.

Lemma phase_ok_frame table table' request scope key p :
  (∀ row, _find_record scope key table = Some row → completed row → _find_record scope key table' = Some row) →
  phase_ok table request scope key p → phase_ok table' request scope key p.
Proof. destruct p; cbn; naive_solver. Qed.

(** * Worlds *)

Definition set_phase (i : nat) (p : phase) (ps : nat → phase) (j : nat) : phase := if decide (j = i) then p else ps j.

Lemma set_phase_eq i p ps : set_phase i p ps i = p.
Proof. unfold set_phase. by rewrite decide_True. Qed.

Lemma set_phase_ne i p ps j : j ≠ i → set_phase i p ps j = ps j.
Proof. intros. unfold set_phase. by rewrite decide_False. Qed.

Lemma table_found_ok w ps scope key row : table_ok w ps →
  _find_record scope key (w_table w) = Some row → found_ok key row.
Proof.
  intros Hw Hf. destruct (rows_held w ps Hw _ _ _ Hf) as (i & t & Hi & Ha & Hh).
  pose proof (threads_ok w ps Hw i t Hi) as Ht. destruct (asks_thread _ _ _ _ _ Ht Ha) as (_ & _ & Hp).
  destruct (held_row _ _ _ _ _ _ Hp Hh) as (_ & Hhash & Hc). split; [eauto|].
  intros (row0 & result & now & Heq)%Hc. rewrite Heq in Hp, Hh. cbn in Hp, Hh. injection Hh as <-.
  destruct Hp as [_ Hs]. destruct (stored_row_answer key row0 result now Hs) as [_ ->].
  destruct Hs as [r Hs]. destruct result as [o|[]]; try done; by eexists.
Qed.

(** A request of another key or without one does not see the step. *)
Lemma keyed_update table table' threads ps i t t' scope key p' :
  table_ok (mkWorld table threads) ps → threads !! i = Some t → asks scope key t →
  th_request t' = th_request t → th_scope t' = th_scope t →
  th_prog t' = prog_at (th_request t) scope key p' → th_ran t' = ran_at p' →
  progress table table' (th_request t) scope key (ps i) p' →
  (∀ row, held (ps i) = Some row → ¬ completed row) →
  table_ok (mkWorld table' (<[i := t']> threads)) (set_phase i p' ps).
Proof.
  intros Hw Hi Ha Hrq Hsc Hprog Hran [Hothers Hrow Hkeeps Htakes Hok] Hopen.
  assert (asks scope key t') as Ha' by by destruct Ha; split; congruence.
  assert (∀ s k, asks s k t' → (s, k) = (scope, key)) as Hkey.
  { intros s k [<- Hk]. destruct Ha' as [<- Hk']. congruence. }
  assert (∀ j u, j ≠ i → threads !! j = Some u → asks scope key u → is_Some (held (ps j)) → held p' = None) as Hexcl.
  { intros j u Hne Hj Hu [row Hh]. apply eq_None_not_Some. intros Hs.
    destruct (held (ps i)) as [row0|] eqn:Eh.
    - apply Hne. by eapply (one_holder _ _ Hw j i).
    - pose proof (holders_find _ _ Hw j u scope key row Hj Hu Hh) as Hf. cbn [w_table] in Hf.
      by rewrite (Htakes eq_refl Hs) in Hf. }
  assert (∀ s k row, _find_record s k table = Some row → completed row → _find_record s k table' = Some row) as Hdone.
  { intros s k row Hf Hc. destruct (decide ((s, k) = (scope, key))) as [[= -> ->]|Hne]; [|by rewrite Hothers].
    destruct (rows_held _ _ Hw scope key row Hf) as (j & u & Hj & Hu & Hh). rewrite Hrow.
    destruct (decide (j = i)) as [->|Hne]; [by destruct (Hopen row Hh)|]. by rewrite (Hexcl j u). }
  constructor; cbn [w_table w_threads].
  - intros j u [(<- & <- & _)|[Hne Hu]]%list_lookup_insert_Some.
    + rewrite set_phase_eq. unfold thread_ok. destruct Ha as [Hs Hk]. by rewrite Hrq, Hsc, Hk, Hs.
    + rewrite set_phase_ne by done. pose proof (threads_ok _ _ Hw j u Hu) as Hok'. unfold thread_ok in *.
      destruct (_normalize_key _ _) as [[k|]|]; [|done..]. destruct Hok' as (? & ? & Hp). split_and!; [done..|].
      eapply phase_ok_frame; [|exact Hp]. intros row. apply Hdone.
  - intros j u s k row [(<- & <- & _)|[Hne Hu]]%list_lookup_insert_Some Hask.
    + rewrite set_phase_eq. intros Hh. apply Hkey in Hask as [= -> ->]. by rewrite Hrow, Hh.
    + rewrite set_phase_ne by done. intros Hh. pose proof (holders_find _ _ Hw j u s k row Hu Hask Hh) as Hf.
      destruct (decide ((s, k) = (scope, key))) as [[= -> ->]|Hne']; [|by rewrite Hothers].
      rewrite Hrow. by rewrite (Hexcl j u).
  - intros s k row Hf.
    assert (held p' = None ∨ (s, k) ≠ (scope, key) → ∃ j u, <[i:=t']> threads !! j = Some u ∧ asks s k u
      ∧ held (set_phase i p' ps j) = Some row) as Hold.
    { intros Hcase. assert (_find_record s k table = Some row) as Hf0.
      { destruct (decide ((s, k) = (scope, key))) as [[= -> ->]|Hne]; [|by rewrite <- Hothers].
        destruct Hcase as [Hn|]; [|done]. by rewrite Hrow, Hn in Hf. }
      destruct (rows_held _ _ Hw s k row Hf0) as (j & u & Hj & Hu & Hh). exists j, u.
      assert (j ≠ i) as Hne; [|by rewrite list_lookup_insert_ne, set_phase_ne].
      intros ->. cbn in Hj. simplify_eq. destruct Hu as [Es Ek], Ha as [Es' Ek'].
      destruct Hcase as [Hn|[]]; [|congruence]. rewrite Hn in Hkeeps. by destruct Hkeeps. }
    destruct (held p') as [row'|] eqn:Eh; [|by apply Hold; left].
    destruct (decide ((s, k) = (scope, key))) as [[= -> ->]|Hne]; [|by apply Hold; right].
    rewrite Hrow in Hf. exists i, t'. rewrite set_phase_eq. split; [|by rewrite Eh].
    apply list_lookup_insert_Some. left. by eapply lookup_lt_Some in Hi.
  - intros j1 j2 u1 u2 s k H1 H2 A1 A2.
    assert (∀ j u, j ≠ i → <[i:=t']> threads !! j = Some u → asks s k u → asks s k t' →
      is_Some (held (set_phase i p' ps i)) → is_Some (held (set_phase i p' ps j)) → False) as Hno.
    { intros j u N Hu Au At. apply Hkey in At as [= -> ->]. rewrite set_phase_eq, set_phase_ne by done.
      rewrite list_lookup_insert_ne in Hu by done. intros Hs Hj. by rewrite (Hexcl j u) in Hs. }
    destruct (decide (j1 = i)) as [->|N1], (decide (j2 = i)) as [->|N2]; [done|..].
    + apply list_lookup_insert_Some in H1 as [(_ & <- & _)|[]]; [|done]. intros. by destruct (Hno j2 u2).
    + apply list_lookup_insert_Some in H2 as [(_ & <- & _)|[]]; [|done]. intros. by destruct (Hno j1 u1).
    + rewrite !set_phase_ne by done. rewrite list_lookup_insert_ne in H1, H2 by done. by eapply (one_holder _ _ Hw).
Qed.

(** Without a key a request leaves the records alone. *)
Lemma unkeyed_act table t table' prog' result :
  (th_prog t = run_bounty disabled_context ∨ ∃ r, th_prog t = Done r) →
  action table (th_prog t) table' prog' result →
  table' = table ∧ ∃ r, prog' = Done r.
Proof.
  intros [->|[r ->]] Hact; inversion Hact as [| | | | | |? ? out]; subst. split; [done|].
  destruct out as [o|[]]; by eexists.
Qed.

Lemma unkeyed_update table threads ps i t t' : table_ok (mkWorld table threads) ps → threads !! i = Some t →
  th_request t' = th_request t → th_scope t' = th_scope t → (∀ scope key, ¬ asks scope key t) →
  thread_ok table t' (ps i) → table_ok (mkWorld table (<[i := t']> threads)) ps.
Proof.
  intros Hw Hi Hrq Hsc Hno Hok.
  assert (∀ s k, ¬ asks s k t') as Hno' by (intros s k [? ?]; apply (Hno s k); split; congruence).
  constructor; cbn [w_table w_threads].
  - intros j u [(<- & <- & _)|[Hne Hu]]%list_lookup_insert_Some; [done|by apply (threads_ok _ _ Hw)].
  - intros j u s k row [(_ & <- & _)|[Hne Hu]]%list_lookup_insert_Some Ha; [by destruct (Hno' s k)|].
    by eapply (holders_find _ _ Hw).
  - intros s k row (j & u & Hj & Hu & Hh)%(rows_held _ _ Hw). exists j, u.
    rewrite list_lookup_insert_ne; [done|]. intros <-. cbn in Hj. simplify_eq. by destruct (Hno s k).
  - intros j1 j2 u1 u2 s k [(_ & <- & _)|[_ H1]]%list_lookup_insert_Some
      [(_ & <- & _)|[_ H2]]%list_lookup_insert_Some A1 A2; try by destruct (Hno' s k).
    by eapply (one_holder _ _ Hw).
Qed.

Lemma arrive_ok table request scope : thread_ok table (arrive request scope) Start.
Proof.
  unfold thread_ok, arrive, create_bounty, begin_idempotency; cbn [th_request th_prog th_ran th_scope].
  destruct (_normalize_key false (rq_key request)) as [[key|]|e]; [done|by left|]. right. by eexists.
Qed.

Lemma arrival_update table threads ps request scope : table_ok (mkWorld table threads) ps →
  table_ok (mkWorld table (threads ++ [arrive request scope])) (set_phase (length threads) Start ps).
Proof.
  intros Hw. set (n := length threads).
  assert (∀ j u, threads !! j = Some u → set_phase n Start ps j = ps j) as Hold.
  { intros j u Hj%lookup_lt_Some. apply set_phase_ne. lia. }
  assert (∀ j u, (threads ++ [arrive request scope]) !! j = Some u →
    (threads !! j = Some u ∧ set_phase n Start ps j = ps j)
    ∨ (u = arrive request scope ∧ set_phase n Start ps j = Start)) as Hcase.
  { intros j u [Hj|[Hj Hu]]%lookup_app_Some; [by left; eauto|]. right.
    apply list_lookup_singleton_Some in Hu as [Hz <-]. replace j with n by (subst n; lia).
    by rewrite set_phase_eq. }
  constructor; cbn [w_table w_threads].
  - intros j u [[Hj ->]|[-> ->]]%Hcase; [by apply (threads_ok _ _ Hw)|apply arrive_ok].
  - intros j u s k row [[Hj ->]|[-> ->]]%Hcase; [by apply (holders_find _ _ Hw)|done].
  - intros s k row (j & u & Hj & Hu & Hh)%(rows_held _ _ Hw). exists j, u. rewrite (Hold j u) by done.
    split; [|done]. by apply lookup_app_l_Some.
  - intros j1 j2 u1 u2 s k [[H1 ->]|[-> ->]]%Hcase [[H2 ->]|[-> ->]]%Hcase A1 A2; cbn; try by intros ?? [].
    + by eapply (one_holder _ _ Hw).
    + by intros ? [].
    + by intros [].
    + by intros [].
Qed.

Lemma step_ok w w' ps : table_ok w ps → step w w' → ∃ ps', table_ok w' ps'.
Proof.
  intros Hw Hs. destruct Hs as [table threads i t table' prog' result Hi Hact|table threads request scope].
  - pose proof (threads_ok _ _ Hw i t Hi) as Ht. cbn [w_table] in Ht.
    destruct (_normalize_key false (rq_key (th_request t))) as [[key|]|e] eqn:Ek.
    2,3: exists ps; unfold thread_ok in Ht; rewrite Ek in Ht;
      destruct (unkeyed_act _ _ _ _ _ Ht Hact) as [-> [r ->]];
      (apply (unkeyed_update _ _ _ i t); try done; [intros s k [_ Hk]; congruence|]);
      unfold thread_ok; cbn; rewrite Ek; eauto.
    assert (asks (th_scope t) key t) as Ha by done.
    destruct (asks_thread _ _ _ _ _ Ht Ha) as (Hprog & Hran & Hok). rewrite Hprog in Hact.
    destruct (keyed_step _ _ _ _ _ _ _ _ Hok (λ row Hh, holders_find _ _ Hw i t _ _ row Hi Ha Hh)
      (λ row Hf, table_found_ok _ ps _ _ row Hw Hf) Hact) as (p' & Hp' & Hr' & Hpr).
    exists (set_phase i p' ps). apply (keyed_update table table' threads ps i t _ (th_scope t) key p'); try done.
    + cbn. by rewrite Hran, Hr'.
    + intros row Hh Hc. destruct (held_row _ _ _ _ _ _ Hok Hh) as (_ & _ & (? & ? & ? & Hst)%(λ f, f Hc)).
      rewrite Hst in Hact. inversion Hact.
  - exists (set_phase (length threads) Start ps). by apply arrival_update.
Qed.

Lemma reachable_ok w : reachable w → ∃ ps, table_ok w ps.
Proof.
  assert (∀ w0, rtc step w0 w → (∃ ps, table_ok w0 ps) → ∃ ps, table_ok w ps) as H.
  { induction 1 as [w0|w0 w1 w Hs _ IH]; [done|]. intros [ps Hw]. apply IH. by eapply step_ok. }
  intros Hr. apply (H _ Hr). exists (λ _, Start). by constructor.
Qed.

Lemma performed w m w' : perform m w = Some w' → step w w'.
Proof.
  destruct w as [table threads], m as [request scope|i now result]; cbn; [intros [= <-]; constructor|].
  destruct (threads !! i) as [t|] eqn:Hi; cbn; [|done].
  destruct (th_prog t) as [|k|s k f|r k|r k|r k|k] eqn:Hp; [done| | |destruct (insertable r table) eqn:Hin|..];
    intros [= <-]; (eapply step_act; [done|]); rewrite Hp; by constructor.
Qed.

Lemma performs_reachable l w : performs l (mkWorld [] []) = Some w → reachable w.
Proof.
  unfold reachable. generalize (mkWorld [] []) as w0. induction l as [|m l IH]; intros w0; cbn; [intros [= ->]; constructor|].
  destruct (perform m w0) as [w1|] eqn:E; cbn; [|done]. intros H. eapply rtc_l; [by apply performed in E|by apply IH].
Qed.

Lemma finished_phase table request scope key p answer : phase_ok table request scope key p →
  prog_at request scope key p = Done answer →
  (∃ result, ran_at p = [result] ∧ answer = answer_of result)
  ∨ ran_at p = [] ∧ ((∃ msg, answer = Raise (HTTPException 409 msg)) ∨ ∃ row r, p = Replayed row r ∧ answer = Ok r).
Proof.
  destruct p as [| | | | |row o|row o now|row o now|row e|row r|msg]; try done; intros Hp.
  - destruct Hp as [_ [r Hs]]. by destruct o as [o|[]].
  - intros [= <-]. left. by exists o.
  - intros [= <-]. left. by exists (Raise e).
  - intros [= <-]. right. eauto 6.
  - intros [= <-]. right. eauto.
Qed.

(** C28: whatever requests come and however they interleave, at most one of the
    requests with a key in a scope runs the operation, and once; an answer to
    any other of them is the replay of what the operation returned to that one,
    for a request with the same digest of method, path and body, or a refusal
    with status 409.  A request that runs the operation answers with its result. *)
Theorem single_execution w scope key (Hw : reachable w) :
  (∀ i j ti tj, w_threads w !! i = Some ti → w_threads w !! j = Some tj → asks scope key ti → asks scope key tj →
     th_ran ti ≠ [] → th_ran tj ≠ [] → i = j)
  ∧ (∀ i t, w_threads w !! i = Some t → asks scope key t → (length (th_ran t) ≤ 1)%nat
     ∧ ∀ answer, th_prog t = Done answer →
       (∃ result, th_ran t = [result] ∧ answer = answer_of result)
       ∨ th_ran t = [] ∧
         ((∃ msg, answer = Raise (HTTPException 409 msg))
          ∨ ∃ j tj result r, w_threads w !! j = Some tj ∧ asks scope key tj
              ∧ _request_hash (th_request tj) = _request_hash (th_request t)
              ∧ th_ran tj = [result] ∧ th_prog tj = Done (answer_of result)
              ∧ replay_of key result = Some r ∧ answer = Ok r)).
Proof.
  destruct (reachable_ok w Hw) as [ps Hok].
  assert (∀ i t, w_threads w !! i = Some t → asks scope key t → th_prog t = prog_at (th_request t) scope key (ps i)
    ∧ th_ran t = ran_at (ps i) ∧ phase_ok (w_table w) (th_request t) scope key (ps i)) as Hat.
  { intros i t Hi. eapply asks_thread. by apply (threads_ok _ _ Hok). }
  split.
  - intros i j ti tj Hi Hj Ai Aj Ri Rj. eapply (one_holder _ _ Hok i j); try done.
    + destruct (Hat i ti Hi Ai) as (_ & R & _). rewrite R in Ri. by destruct (ps i).
    + destruct (Hat j tj Hj Aj) as (_ & R & _). rewrite R in Rj. by destruct (ps j).
  - intros i t Hi Ai. destruct (Hat i t Hi Ai) as (P & R & Hp). rewrite R, P.
    split; [destruct (ps i); cbn; lia|].
    intros answer Hd. destruct (finished_phase _ _ _ _ _ _ Hp Hd) as [?|[? [?|(row & r & Hr & ->)]]]; [by left|by right; auto|].
    right. split; [done|]. right. rewrite Hr in Hp. destruct Hp as (Hf & Hc & Hh & Hcached).
    destruct (rows_held _ _ Hok _ _ _ Hf) as (j & tj & Hj & Aj & Hheld).
    destruct (Hat j tj Hj Aj) as (Pj & Rj & Hpj).
    destruct (held_row _ _ _ _ _ _ Hpj Hheld) as (_ & Hhj & (row0 & result & now & Hst)%(λ f, f Hc)).
    rewrite Hst in Pj, Rj, Hpj, Hheld. injection Hheld as <-. destruct Hpj as [_ Hs].
    destruct (stored_row_answer key row0 result now Hs) as [_ Hcached'].
    exists j, tj, result, r. split_and!; try done; congruence.
Qed.

(** Three requests with one key: the second comes while the first is working
    and is refused, the third comes afterwards and gets the replay. *)
Definition sample_request : Request := mkHttpRequest "post" "/v1/bounties" [123; 125]%N (Some " key-1 ").

Definition sample_moves : list move :=
  let act i := Act i 5 (Ok (mkOutcome 201 (JObj [("slug", JStr "fix-it")]) [])) in
  [Come sample_request "bounties:1"; Come sample_request "bounties:1"; act 0%nat; act 1%nat; act 0%nat; act 1%nat;
   act 0%nat; act 1%nat; act 1%nat; act 0%nat; act 0%nat; act 0%nat; Come sample_request "bounties:1"; act 2%nat].

Definition sample_world : world := default (mkWorld [] []) (performs sample_moves (mkWorld [] [])).

Lemma single_execution_witness :
  reachable sample_world
  ∧ map (λ t, length (th_ran t)) (w_threads sample_world) = [1; 0; 0]%nat
  ∧ map (λ t, match th_prog t with
              | Done (Ok r) => Some (rp_status r, length (rp_headers r))
              | Done (Raise (HTTPException s _)) => Some (s, 0%nat)
              | _ => None end) (w_threads sample_world)
    = [Some (201, 0%nat); Some (409, 0%nat); Some (201, 2%nat)]
  ∧ (∀ i j ti tj, w_threads sample_world !! i = Some ti → w_threads sample_world !! j = Some tj →
       asks "bounties:1" "key-1" ti → asks "bounties:1" "key-1" tj → th_ran ti ≠ [] → th_ran tj ≠ [] → i = j).
Proof.
  assert (reachable sample_world) as Hr.
  { apply (performs_reachable sample_moves). vm_compute. reflexivity. }
  split; [exact Hr|]. split; [vm_compute; reflexivity|]. split; [vm_compute; reflexivity|].
  exact (proj1 (single_execution sample_world "bounties:1" "key-1" Hr)).
Defined.
