(* ===== verification/AccountTrials.v ===== *)
(** Platform-funded trial calls and the turn to one's own model key
    (control_plane/agent_access.py).

    A request is a program ([trial]) of statements on the usage table; between
    two of them other requests go on.  The update that takes a call commits with
    it.  Rows stay as long as the agent and the account do. *)
From Stdlib Require Import Ascii.
From stdpp Require Import gmap.
From S2P Require Import Prelude PyStr PyDict PyFloat PyJson.
Open Scope Z_scope.

Record AccountAccessPolicy : Type := mkAccountPolicy {
  ap_required : bool;
  ap_platform_skill_calls : Z;
  ap_after_trial : string;
}.

Definition no_policy : AccountAccessPolicy := mkAccountPolicy false 0 "byok".

Definition ap_enabled (p : AccountAccessPolicy) : bool := ap_required p.

Inductive llm_source : Type := PlatformTrial | Byok | Legacy.

Definition source_text (s : llm_source) : string :=
  match s with PlatformTrial => "platform_trial" | Byok => "byok" | Legacy => "legacy" end.

Record AccountAccessDecision : Type := mkDecision { ad_source : llm_source; ad_policy : AccountAccessPolicy; ad_used : Z }.

Definition ad_remaining (d : AccountAccessDecision) : Z := Z.max 0 (ap_platform_skill_calls (ad_policy d) - ad_used d).

Definition public_payload (d : AccountAccessDecision) : jobject :=
  [("required", JBool (ap_required (ad_policy d)));
   ("platform_skill_calls", JInt (ap_platform_skill_calls (ad_policy d)));
   ("platform_skill_calls_used", JInt (ad_used d));
   ("platform_skill_calls_remaining", JInt (ad_remaining d));
   ("after_trial", JStr (ap_after_trial (ad_policy d)));
   ("llm_source", JStr (source_text (ad_source d)))].

(** [int(raw or 0)], at least 0; a [TypeError] or [ValueError] counts as 0. *)
Definition card_calls (raw : jobject) : res Z :=
  match py_int (py_or (jget raw "platform_skill_calls") (JInt 0)) with
  | Ok n => Ok (Z.max 0 n)
  | Raise TypeError | Raise (ValueError _) => Ok 0
  | Raise e => Raise e
  end.

Definition account_access_policy (card : json) : res AccountAccessPolicy :=
  match card with
  | JObj card =>
      match jget card "runtime" with
      | JObj runtime =>
          match jget runtime "account_access" with
          | JObj raw =>
              let required := bool_decide (jget raw "required" = JBool true) in
              calls ← card_calls raw;
              let calls := Z.min calls 1000000 in
              Ok (mkAccountPolicy required (if required then calls else 0) "byok")
          | _ => Ok no_policy
          end
      | _ => Ok no_policy
      end
  | _ => Ok no_policy
  end.

Record Agent : Type := mkTrialAgent { ta_id : Z; ta_name : string; ta_card : json }.

Definition rstrip_slash (s : string) : string := of_chars (rev (drop_while (Ascii.eqb "/"%char) (rev (chars s)))).

Definition byok_required_payload (dashboard_url : string) (agent : Agent) (policy : AccountAccessPolicy) (used : Z) :
    jobject :=
  [("error", JStr "llm_credentials_required"); ("reason", JStr "platform_trial_exhausted"); ("agent", JStr (ta_name agent));
   ("message", JStr ("Your " +:+ dec (ap_platform_skill_calls policy) +:+ " platform-funded calls for "
      +:+ ta_name agent +:+ " have been used. Add your own model key to continue."));
   ("platform_skill_calls", JInt (ap_platform_skill_calls policy)); ("platform_skill_calls_used", JInt used);
   ("platform_skill_calls_remaining", JInt 0); ("after_trial", JStr (ap_after_trial policy));
   ("setup_url", JStr (rstrip_slash dashboard_url +:+ "/llm-keys"))].

(** * The usage table *)

Record AgentAccountAccessUsage : Type := mkUsage { us_calls_used : Z; us_last_skill_name : string }.

Abbreviation usage_table := (gmap (Z * Z) AgentAccountAccessUsage).

Inductive dialect : Type := Postgresql | Sqlite | OtherDialect.

(** [InsertMissing]: insert, doing nothing on a conflict.  [AddRow]: insert,
which raises on a conflict.  [TakeCall]: add one to the calls of the row as long
as they are below the limit, and return them. *)
Inductive trial (A : Type) : Type :=
  | Answer (r : res A)
  | ReadUsage (agent_id user_id : Z) (k : option Z → trial A)
  | InsertMissing (agent_id user_id : Z) (k : trial A)
  | AddRow (agent_id user_id : Z) (k : trial A)
  | TakeCall (agent_id user_id limit : Z) (skill : string) (k : option Z → trial A).

Arguments Answer {A}.
Arguments ReadUsage {A}.
Arguments InsertMissing {A}.
Arguments AddRow {A}.
Arguments TakeCall {A}.

Fixpoint trial_bind {A B} (f : A → trial B) (m : trial A) : trial B :=
  match m with
  | Answer (Ok a) => f a
  | Answer (Raise e) => Answer (Raise e)
  | ReadUsage a u k => ReadUsage a u (λ v, trial_bind f (k v))
  | InsertMissing a u k => InsertMissing a u (trial_bind f k)
  | AddRow a u k => AddRow a u (trial_bind f k)
  | TakeCall a u limit skill k => TakeCall a u limit skill (λ v, trial_bind f (k v))
  end.

#[export] Instance trial_mbind : MBind trial := λ A B f m, trial_bind f m.
#[export] Instance trial_mret : MRet trial := λ A a, Answer (Ok a).

Definition account_access_usage (agent_id user_id : Z) : trial Z :=
  ReadUsage agent_id user_id (λ value, mret (Z.max 0 (default 0 value))).

Definition reserve_platform_skill_call (d : dialect) (agent : Agent) (user_id : Z) (skill_name : string) (limit : Z) :
    trial (option Z) :=
  if limit <=? 0 then mret None
  else
    let take := TakeCall (ta_id agent) user_id limit (str_take 128 skill_name) (λ used, mret used) in
    match d with
    | Postgresql | Sqlite => InsertMissing (ta_id agent) user_id take
    | OtherDialect =>
        existing ← account_access_usage (ta_id agent) user_id;
        if existing =? 0 then AddRow (ta_id agent) user_id take else take
    end.

(** A decision, or what [AgentBYOKRequired] carries. *)
Inductive llm_access : Type := Access (d : AccountAccessDecision) | AgentBYOKRequired (payload : jobject).

Definition resolve_account_llm_access (dashboard_url : string) (d : dialect) (agent : Agent) (user_id : Z)
    (skill_name : string) (has_byok : bool) : trial llm_access :=
  policy ← Answer (account_access_policy (ta_card agent));
  if negb (ap_enabled policy) then mret (Access (mkDecision Legacy policy 0))
  else
    used ← account_access_usage (ta_id agent) user_id;
    if has_byok then mret (Access (mkDecision Byok policy used))
    else
      claimed ← reserve_platform_skill_call d agent user_id skill_name (ap_platform_skill_calls policy);
      match claimed with
      | Some n => mret (Access (mkDecision PlatformTrial policy n))
      | None =>
          used ← account_access_usage (ta_id agent) user_id;
          mret (AgentBYOKRequired (byok_required_payload dashboard_url agent policy used))
      end.

(** * Requests side by side *)

Inductive attempt : Type := NotYet | Took (n : Z) | Denied.

(** [tt_attempt] is a history: what the update returned to the request. *)
Record thread : Type := mkTrialThread {
  tt_agent : Agent;
  tt_user : Z;
  tt_attempt : attempt;
  tt_prog : trial llm_access;
}.

Record world : Type := mkTrialWorld { tw_usage : usage_table; tw_threads : list thread }.

Definition used_of (usage : usage_table) (agent_id user_id : Z) : option Z := us_calls_used <$> usage !! (agent_id, user_id).

Inductive statement : usage_table → trial llm_access → usage_table → trial llm_access → option attempt → Prop :=
  | st_read usage a u k : statement usage (ReadUsage a u k) usage (k (used_of usage a u)) None
  | st_insert_new usage a u k : usage !! (a, u) = None →
      statement usage (InsertMissing a u k) (<[(a, u) := mkUsage 0 ""]> usage) k None
  | st_insert_old usage a u k : is_Some (usage !! (a, u)) → statement usage (InsertMissing a u k) usage k None
  | st_add usage a u k : usage !! (a, u) = None →
      statement usage (AddRow a u k) (<[(a, u) := mkUsage 0 ""]> usage) k None
  | st_add_conflict usage a u k : is_Some (usage !! (a, u)) →
      statement usage (AddRow a u k) usage (Answer (Raise IntegrityError)) None
  | st_take usage a u limit skill k row : usage !! (a, u) = Some row → us_calls_used row < limit →
      statement usage (TakeCall a u limit skill k) (<[(a, u) := mkUsage (us_calls_used row + 1) skill]> usage)
        (k (Some (us_calls_used row + 1))) (Some (Took (us_calls_used row + 1)))
  | st_deny usage a u limit skill k : (∀ row, usage !! (a, u) = Some row → limit ≤ us_calls_used row) →
      statement usage (TakeCall a u limit skill k) usage (k None) (Some Denied).

Definition after_statement (t : thread) (result : option attempt) (prog : trial llm_access) : thread :=
  mkTrialThread (tt_agent t) (tt_user t) (default (tt_attempt t) result) prog.

Inductive step (dashboard_url : string) (d : dialect) : world → world → Prop :=
  | step_statement usage threads i t usage' prog' result :
      threads !! i = Some t → statement usage (tt_prog t) usage' prog' result →
      step dashboard_url d (mkTrialWorld usage threads)
        (mkTrialWorld usage' (<[i := after_statement t result prog']> threads))
  | step_request usage threads agent user_id skill has_byok :
      step dashboard_url d (mkTrialWorld usage threads)
        (mkTrialWorld usage (threads ++
           [mkTrialThread agent user_id NotYet
              (resolve_account_llm_access dashboard_url d agent user_id skill has_byok)])).

Definition reachable (dashboard_url : string) (d : dialect) : world → Prop :=
  rtc (step dashboard_url d) (mkTrialWorld ∅ []).

(** A run of the system: a request comes, or one does its next statement. *)
Inductive move : Type := Come (agent : Agent) (user_id : Z) (skill : string) (has_byok : bool) | Act (i : nat).

Definition perform (dashboard_url : string) (d : dialect) (m : move) (w : world) : option world :=
  let '(mkTrialWorld usage threads) := w in
  match m with
  | Come agent user_id skill has_byok =>
      Some (mkTrialWorld usage (threads ++ [mkTrialThread agent user_id NotYet
        (resolve_account_llm_access dashboard_url d agent user_id skill has_byok)]))
  | Act i =>
      t ← threads !! i;
      let next usage' prog' result := Some (mkTrialWorld usage' (<[i := after_statement t result prog']> threads)) in
      match tt_prog t with
      | Answer _ => None
      | ReadUsage a u k => next usage (k (used_of usage a u)) None
      | InsertMissing a u k =>
          match usage !! (a, u) with
          | None => next (<[(a, u) := mkUsage 0 ""]> usage) k None
          | Some _ => next usage k None
          end
      | AddRow a u k =>
          match usage !! (a, u) with
          | None => next (<[(a, u) := mkUsage 0 ""]> usage) k None
          | Some _ => next usage (Answer (Raise IntegrityError)) None
          end
      | TakeCall a u limit skill k =>
          match usage !! (a, u) with
          | None => next usage (k None) (Some Denied)
          | Some row =>
              if us_calls_used row <? limit
              then next (<[(a, u) := mkUsage (us_calls_used row + 1) skill]> usage) (k (Some (us_calls_used row + 1)))
                     (Some (Took (us_calls_used row + 1)))
              else next usage (k None) (Some Denied)
          end
      end
  end.

Fixpoint performs (dashboard_url : string) (d : dialect) (l : list move) (w : world) : option world :=
  match l with
  | [] => Some w
  | m :: l => w' ← perform dashboard_url d m w; performs dashboard_url d l w'
  end.
