(* ===== verification/AccountTrialProperties.v ===== *)
(** Trial calls are counted: however requests interleave, the funded calls of an
    account on an agent are numbered from one without gap or repetition, none is
    over the limit of the card, and nobody is sent away while calls are left. *)
From stdpp Require Import gmap.
From S2P Require Import Prelude PyStr PyDict PyFloat PyJson AccountTrials.
Open Scope Z_scope.

(** The limit of the agent's card. *)
Definition limit_of (agent : Agent) : Z :=
  match account_access_policy (ta_card agent) with Ok p => ap_platform_skill_calls p | Raise _ => 0 end.

Definition taken (t : thread) : option Z := match tt_attempt t with Took n => Some n | _ => None end.

Definition concerns (agent_id user_id : Z) (t : thread) : bool := (ta_id (tt_agent t) =? agent_id) && (tt_user t =? user_id).

(** The numbers of the calls that the requests of an account on an agent took. *)
Definition numbers (agent_id user_id : Z) (threads : list thread) : list Z :=
  omap (λ t, if concerns agent_id user_id t then taken t else None) threads.

(** What is left of a program agrees with what the request did: [seeded] says
    that the row is there. *)
Fixpoint well (agent_id user_id limit : Z) (h : attempt) (seeded : bool) (m : trial llm_access) : Prop :=
  match m with
  | Answer (Ok (Access d)) =>
      match ad_source d with PlatformTrial => h = Took (ad_used d) | _ => ∀ n, h ≠ Took n end
  | Answer (Ok (AgentBYOKRequired _)) => h = Denied ∨ limit ≤ 0
  | Answer (Raise _) => ∀ n, h ≠ Took n
  | ReadUsage a u k =>
      (a, u) = (agent_id, user_id)
      ∧ ∀ v, well agent_id user_id limit h (seeded || bool_decide (is_Some v)) (k v)
  | InsertMissing a u k => (a, u) = (agent_id, user_id) ∧ well agent_id user_id limit h true k
  | AddRow a u k => (a, u) = (agent_id, user_id) ∧ (∀ n, h ≠ Took n) ∧ well agent_id user_id limit h true k
  | TakeCall a u l _ k =>
      (a, u) = (agent_id, user_id) ∧ l = limit ∧ h = NotYet ∧ seeded = true
      ∧ (∀ n, well agent_id user_id limit (Took n) true (k (Some n))) ∧ well agent_id user_id limit Denied true (k None)
  end.

Lemma resolve_well url d agent user_id skill has_byok :
  well (ta_id agent) user_id (limit_of agent) NotYet false (resolve_account_llm_access url d agent user_id skill has_byok).
Proof.
  unfold resolve_account_llm_access, limit_of. destruct (account_access_policy (ta_card agent)) as [policy|e]; [|done].
  cbn. destruct (ap_enabled policy); [|done]. cbn. split; [done|]. intros v. destruct has_byok; [done|].
  unfold reserve_platform_skill_call. destruct (Z.leb_spec (ap_platform_skill_calls policy) 0).
  { cbn. auto. }
  destruct d; cbn; split_and!; try done; auto. intros w. destruct w as [n|]; cbn; [|split_and!; try done; auto].
  destruct (Z.max 0 n =? 0); cbn; rewrite ?orb_true_r; split_and!; try done; auto.
  cbn. split_and!; try done; auto.
Qed.

(** * The invariant *)

Definition thread_ok (usage : usage_table) (t : thread) : Prop :=
  let key := (ta_id (tt_agent t), tt_user t) in
  (∃ seeded, well key.1 key.2 (limit_of (tt_agent t)) (tt_attempt t) seeded (tt_prog t)
     ∧ (seeded = true → is_Some (usage !! key)))
  ∧ match tt_attempt t with
    | NotYet => True
    | Took n => n ≤ limit_of (tt_agent t)
    | Denied => ∃ row, usage !! key = Some row ∧ limit_of (tt_agent t) ≤ us_calls_used row
    end.

Definition calls_used (usage : usage_table) (agent_id user_id : Z) : Z := default 0 (used_of usage agent_id user_id).

Record counted (w : world) : Prop := {
  threads_well : ∀ t, t ∈ tw_threads w → thread_ok (tw_usage w) t;
  used_nonneg : ∀ a u, 0 ≤ calls_used (tw_usage w) a u;
  numbers_used : ∀ a u,
    numbers a u (tw_threads w) ≡ₚ map Z.of_nat (seq 1 (Z.to_nat (calls_used (tw_usage w) a u)));
}.

(** Rows only grow. *)
Definition grows (usage usage' : usage_table) : Prop :=
  ∀ key row, usage !! key = Some row → ∃ row', usage' !! key = Some row' ∧ us_calls_used row ≤ us_calls_used row'.

Lemma thread_ok_grows usage usage' t : grows usage usage' → thread_ok usage t → thread_ok usage' t.
Proof.
  intros Hg [(seeded & Hw & Hs) Ha]. split.
  - exists seeded. split; [done|]. intros [row Hr]%Hs. destruct (Hg _ _ Hr) as (row' & -> & _). by eexists.
  - destruct (tt_attempt t); try done. destruct Ha as (row & Hr & Hl). destruct (Hg _ _ Hr) as (row' & Hr' & Hle).
    exists row'. split; [done|lia].
Qed.

Lemma numbers_insert a u threads i t t' : threads !! i = Some t →
  numbers a u threads ≡ₚ option_list (if concerns a u t then taken t else None) ++ numbers a u (delete i threads)
  ∧ numbers a u (<[i := t']> threads) ≡ₚ option_list (if concerns a u t' then taken t' else None) ++ numbers a u (delete i threads).
Proof.
  intros Hi. assert (∀ x, numbers a u (<[i := x]> threads)
    ≡ₚ option_list (if concerns a u x then taken x else None) ++ numbers a u (delete i threads)) as H.
  { intros x. rewrite insert_take_drop by by eapply lookup_lt_Some. rewrite delete_take_drop.
    unfold numbers. rewrite !omap_app. cbn. destruct (if concerns a u x then taken x else None); cbn; [|done].
    by rewrite Permutation_middle. }
  split; [|apply H]. rewrite <- (list_insert_id threads i t Hi) at 1. apply H.
Qed.

Lemma numbers_same a u threads i t t' : threads !! i = Some t → tt_agent t' = tt_agent t → tt_user t' = tt_user t →
  taken t' = taken t → numbers a u (<[i := t']> threads) ≡ₚ numbers a u threads.
Proof.
  intros Hi Ha Hu Ht. destruct (numbers_insert a u threads i t t' Hi) as [-> ->].
  unfold concerns. by rewrite Ha, Hu, Ht.
Qed.

Lemma calls_used_insert usage a u row a' u' :
  calls_used (<[(a, u) := row]> usage) a' u' = if decide ((a, u) = (a', u')) then us_calls_used row else calls_used usage a' u'.
Proof.
  unfold calls_used, used_of. destruct (decide _) as [[= <- <-]|Hne]; [by rewrite lookup_insert_eq|by rewrite lookup_insert_ne].
Qed.

Lemma insert_grows usage a u row : (∀ old, usage !! (a, u) = Some old → us_calls_used old ≤ us_calls_used row) →
  grows usage (<[(a, u) := row]> usage).
Proof.
  intros H key old Hk. destruct (decide (key = (a, u))) as [->|Hne].
  - exists row. rewrite lookup_insert_eq. split; [done|by apply H].
  - exists old. rewrite lookup_insert_ne by done. split; [done|lia].
Qed.

(** What a statement does to the world. *)
Definition good_step (usage usage' : usage_table) (threads : list thread) (i : nat) (t' : thread) : Prop :=
  grows usage usage' ∧ thread_ok usage' t' ∧ (∀ a u, 0 ≤ calls_used usage' a u)
  ∧ ∀ a u, numbers a u (<[i := t']> threads) ≡ₚ map Z.of_nat (seq 1 (Z.to_nat (calls_used usage' a u))).

(** A statement that takes nothing. *)
Lemma idle_step usage usage' threads i t result prog' seeded : counted (mkTrialWorld usage threads) → threads !! i = Some t →
  grows usage usage' → (∀ a u, calls_used usage' a u = calls_used usage a u) →
  taken (after_statement t result prog') = taken t →
  well (ta_id (tt_agent t)) (tt_user t) (limit_of (tt_agent t)) (default (tt_attempt t) result) seeded prog' →
  (seeded = true → is_Some (usage' !! (ta_id (tt_agent t), tt_user t))) →
  (result = Some Denied → ∃ row, usage' !! (ta_id (tt_agent t), tt_user t) = Some row
     ∧ limit_of (tt_agent t) ≤ us_calls_used row) → (∀ n, result ≠ Some (Took n)) →
  good_step usage usage' threads i (after_statement t result prog').
Proof.
  intros Hc Hi Hg Hu Ht Hw Hseed Hd Hnt. split; [done|]. split; [split|split].
  - by exists seeded.
  - destruct (threads_well _ Hc t) as [_ Ha]; [by eapply list_elem_of_lookup_2|]. unfold after_statement; cbn [tt_attempt tt_agent tt_user].
    destruct result as [[|n|]|]; cbn [default]; [done|by destruct (Hnt n)|by apply Hd|].
    destruct (tt_attempt t); try done. destruct Ha as (row & Hr & Hl). destruct (Hg _ _ Hr) as (row' & Hr' & Hle).
    exists row'. split; [done|lia].
  - intros a u. rewrite Hu. apply (used_nonneg _ Hc).
  - intros a u. rewrite Hu, (numbers_same a u threads i t) by done. apply (numbers_used _ Hc).
Qed.

Lemma taken_none t prog : taken (after_statement t None prog) = taken t.
Proof. done. Qed.

Lemma new_row_step usage threads i t prog' : counted (mkTrialWorld usage threads) → threads !! i = Some t →
  usage !! (ta_id (tt_agent t), tt_user t) = None →
  well (ta_id (tt_agent t)) (tt_user t) (limit_of (tt_agent t)) (tt_attempt t) true prog' →
  good_step usage (<[(ta_id (tt_agent t), tt_user t) := mkUsage 0 ""]> usage) threads i (after_statement t None prog').
Proof.
  intros Hc Hi Hnone Hw. eapply (idle_step _ _ _ _ _ None _ true); try done.
  - apply insert_grows. by rewrite Hnone.
  - intros a u. rewrite calls_used_insert. destruct (decide _) as [[= <- <-]|]; [|done].
    unfold calls_used, used_of. by rewrite Hnone.
  - intros _. rewrite lookup_insert_eq. by eexists.
Qed.

(** The call taken is the next number. *)
Lemma take_step usage threads i t row skill prog' : counted (mkTrialWorld usage threads) → threads !! i = Some t →
  tt_attempt t = NotYet → usage !! (ta_id (tt_agent t), tt_user t) = Some row →
  us_calls_used row < limit_of (tt_agent t) →
  well (ta_id (tt_agent t)) (tt_user t) (limit_of (tt_agent t)) (Took (us_calls_used row + 1)) true prog' →
  good_step usage (<[(ta_id (tt_agent t), tt_user t) := mkUsage (us_calls_used row + 1) skill]> usage) threads i
    (after_statement t (Some (Took (us_calls_used row + 1))) prog').
Proof.
  intros Hc Hi Hny Hrow Hlt Hw. set (n := us_calls_used row + 1) in *.
  assert (calls_used usage (ta_id (tt_agent t)) (tt_user t) = us_calls_used row) as Hu.
  { unfold calls_used, used_of. by rewrite Hrow. }
  pose proof (used_nonneg _ Hc (ta_id (tt_agent t)) (tt_user t)) as H0. cbn [tw_usage] in H0. rewrite Hu in H0.
  split; [apply insert_grows; rewrite Hrow; intros old [= <-]; cbn; lia|]. split; [split|split].
  - exists true. split; [done|]. intros _. cbn. rewrite lookup_insert_eq. by eexists.
  - cbn. lia.
  - intros a u. rewrite calls_used_insert. destruct (decide _); [cbn; lia|apply (used_nonneg _ Hc)].
  - intros a u. rewrite calls_used_insert. pose proof (numbers_used _ Hc a u) as Hn. cbn [tw_usage tw_threads] in Hn.
    destruct (numbers_insert a u threads i t (after_statement t (Some (Took n)) prog') Hi) as [H1 ->]. rewrite H1 in Hn.
    unfold concerns, taken, after_statement in *. cbn [tt_agent tt_user tt_attempt default] in *. rewrite Hny in Hn.
    destruct (decide _) as [[= <- <-]|Hne].
    + rewrite !Z.eqb_refl in *. cbn [andb option_list app] in *. rewrite Hn, Hu. cbn [us_calls_used].
      replace (Z.to_nat n) with (Z.to_nat (us_calls_used row) + 1)%nat by lia. rewrite seq_app, map_app. cbn.
      rewrite Permutation_app_comm. cbn. by replace (Z.of_nat (S (Z.to_nat (us_calls_used row)))) with n by lia.
    + assert ((ta_id (tt_agent t) =? a) && (tt_user t =? u) = false) as E.
      { apply not_true_iff_false. rewrite andb_true_iff, !Z.eqb_eq. intros [Ea Eu]. by rewrite Ea, Eu in Hne. }
      rewrite E in *. exact Hn.
Qed.

Lemma statement_well usage threads i t usage' prog' result : counted (mkTrialWorld usage threads) → threads !! i = Some t →
  statement usage (tt_prog t) usage' prog' result → good_step usage usage' threads i (after_statement t result prog').
Proof.
  intros Hc Hi Hs. destruct (threads_well _ Hc t) as [(seeded & Hw & Hseed) Ha]; [by eapply list_elem_of_lookup_2|].
  cbn [fst snd tw_usage] in *.
  assert (grows usage usage) as Hrefl by (intros key row Hr; exists row; split; [done|lia]).
  remember (tt_prog t) as m eqn:Em.
  destruct Hs as [usage a u k|usage a u k Hnone|usage a u k Hsome|usage a u k Hnone|usage a u k Hsome
                 |usage a u limit skill k row Hrow Hlt|usage a u limit skill k Hdeny]; cbn in Hw.
  - destruct Hw as [[= -> ->] Hw]. specialize (Hw (used_of usage (ta_id (tt_agent t)) (tt_user t))).
    apply (idle_step _ _ _ _ _ None _ (seeded || bool_decide (is_Some (used_of usage (ta_id (tt_agent t)) (tt_user t)))));
      try done.
    intros [?|Hv%bool_decide_eq_true]%orb_true_iff; [by apply Hseed|]. by apply fmap_is_Some in Hv.
  - destruct Hw as [[= -> ->] Hw]. by apply new_row_step.
  - destruct Hw as [[= -> ->] Hw]. by eapply (idle_step _ _ _ _ _ None _ true).
  - destruct Hw as ([= -> ->] & _ & Hw). by apply new_row_step.
  - destruct Hw as (_ & Hnt & _). by eapply (idle_step _ _ _ _ _ None _ false).
  - destruct Hw as ([= -> ->] & -> & Hny & _ & Hw & _). by apply take_step.
  - destruct Hw as ([= -> ->] & -> & Hny & -> & _ & Hw). destruct (Hseed eq_refl) as [row Hrow].
    eapply (idle_step _ _ _ _ _ (Some Denied) _ true); try done.
    + unfold taken. cbn. by rewrite Hny.
    + intros _. exists row. auto.
Qed.

Lemma reachable_counted url d w : reachable url d w → counted w.
Proof.
  intros H. unfold reachable in H. remember (mkTrialWorld ∅ []) as w0 eqn:E.
  assert (counted w0) as H0.
  { subst. constructor; cbn; [by intros t ?%elem_of_nil|done|done]. }
  clear E. induction H as [w|w0 w1 w Hs _ IH]; [done|]. apply IH. clear IH.
  destruct Hs as [usage threads i t usage' prog' result Hi Hst|usage threads agent user_id skill has_byok].
  - destruct (statement_well _ _ _ _ _ _ _ H0 Hi Hst) as (Hg & Hok & Hu & Hn).
    constructor; cbn; [|done|done]. intros u Hu'. apply list_elem_of_lookup in Hu' as [j Hj].
    apply list_lookup_insert_Some in Hj as [(_ & <- & _)|[_ Hj]]; [done|].
    eapply thread_ok_grows; [done|]. apply (threads_well _ H0). by eapply list_elem_of_lookup_2.
  - constructor; cbn; [|apply (used_nonneg _ H0)|].
    + intros u [Hu| ->%list_elem_of_singleton]%elem_of_app; [by apply (threads_well _ H0)|]. split; [|done].
      exists false. split; [apply resolve_well|done].
    + intros a u. unfold numbers. rewrite omap_app. cbn. destruct (concerns _ _ _); cbn;
        rewrite app_nil_r; apply (numbers_used _ H0).
Qed.

Lemma trial_performed url d m w w' : perform url d m w = Some w' → step url d w w'.
Proof.
  destruct w as [usage threads], m as [agent user_id skill has_byok|i]; cbn; [intros [= <-]; constructor|].
  destruct (threads !! i) as [t|] eqn:Hi; cbn; [|done].
  destruct (tt_prog t) as [|a u k|a u k|a u k|a u limit skill k] eqn:Hp; [done| |destruct (usage !! (a, u)) eqn:Hr..].
  all: try (intros [= <-]; eapply step_statement; [done|]; rewrite Hp; by constructor).
  - destruct (Z.ltb_spec (us_calls_used a0) limit); intros [= <-]; (eapply step_statement; [done|]); rewrite Hp; constructor;
      [done|done|]. rewrite Hr. by intros row [= <-].
  - intros [= <-]. eapply step_statement; [done|]. rewrite Hp. constructor. by rewrite Hr.
Qed.

Lemma trial_performs_reachable url d l w : performs url d l (mkTrialWorld ∅ []) = Some w → reachable url d w.
Proof.
  unfold reachable. generalize (mkTrialWorld ∅ []) as w0. induction l as [|m l IH]; intros w0; cbn; [intros [= ->]; constructor|].
  destruct (perform url d m w0) as [w1|] eqn:E; cbn; [|done]. intros H. eapply rtc_l; [by apply trial_performed in E|by apply IH].
Qed.

(** C25: whatever requests come and however their statements interleave, the
    platform-funded calls of an account on an agent are numbered one, two, and
    so on, each number to one request; a request answered as funded holds its
    number, within the limit of the card, one answered otherwise holds none, and
    a request is sent for a key of its own only when at least the limit of calls
    has been funded. *)
Theorem trial_calls_counted url d w agent_id user_id (Hw : reachable url d w) :
  ∃ used : nat, numbers agent_id user_id (tw_threads w) ≡ₚ map Z.of_nat (seq 1 used)
    ∧ ∀ t answer, t ∈ tw_threads w → concerns agent_id user_id t = true → tt_prog t = Answer (Ok answer) →
      match answer with
      | Access decision =>
          match ad_source decision with
          | PlatformTrial => taken t = Some (ad_used decision) ∧ 1 ≤ ad_used decision ≤ limit_of (tt_agent t)
          | _ => taken t = None
          end
      | AgentBYOKRequired _ => limit_of (tt_agent t) ≤ Z.of_nat used
      end.
Proof.
  pose proof (reachable_counted url d w Hw) as Hc. exists (Z.to_nat (calls_used (tw_usage w) agent_id user_id)).
  split; [apply (numbers_used _ Hc)|]. intros t answer Ht Hcon Hp.
  destruct (threads_well _ Hc t Ht) as [(seeded & Hwell & _) Ha]. rewrite Hp in Hwell. cbn [well] in Hwell.
  assert (Hcon' := Hcon). unfold concerns in Hcon'. apply andb_true_iff in Hcon' as [<-%Z.eqb_eq <-%Z.eqb_eq].
  destruct answer as [decision|payload].
  - destruct (ad_source decision); [|unfold taken; destruct (tt_attempt t) as [|n|]; by (done || destruct (Hwell n))..].
    rewrite Hwell in Ha. unfold taken. rewrite Hwell. split; [done|]. split; [|done].
    assert (ad_used decision ∈ numbers (ta_id (tt_agent t)) (tt_user t) (tw_threads w)) as Hin.
    { apply list_elem_of_omap. exists t. split; [done|]. rewrite Hcon. unfold taken. by rewrite Hwell. }
    rewrite (numbers_used _ Hc) in Hin. apply list_elem_of_fmap in Hin as (k & -> & Hk%elem_of_seq). lia.
  - pose proof (used_nonneg _ Hc (ta_id (tt_agent t)) (tt_user t)) as H0. destruct Hwell as [Hd|Hl]; [|lia].
    rewrite Hd in Ha. destruct Ha as (row & Hrow & Hl).
    assert (calls_used (tw_usage w) (ta_id (tt_agent t)) (tt_user t) = us_calls_used row) as Hu.
    { unfold calls_used, used_of. by rewrite Hrow. }
    lia.
Qed.

(** Three requests on a card that funds one call. *)
Definition sample_agent : Agent :=
  mkTrialAgent 1 "helper"
    (JObj [("runtime", JObj [("account_access", JObj [("required", JBool true); ("platform_skill_calls", JInt 1)])])]).

Definition sample_moves : list move :=
  [Come sample_agent 7 "ask" false; Come sample_agent 7 "ask" false; Come sample_agent 8 "ask" true;
   Act 0; Act 1; Act 0; Act 1; Act 1; Act 0; Act 0; Act 2].

Definition sample_world : world :=
  default (mkTrialWorld ∅ []) (performs "https://d/" Postgresql sample_moves (mkTrialWorld ∅ [])).

Lemma trial_calls_counted_witness :
  reachable "https://d/" Postgresql sample_world
  ∧ map taken (tw_threads sample_world) = [None; Some 1; None]
  ∧ map (λ t, match tt_prog t with
              | Answer (Ok (Access d)) => Some (source_text (ad_source d))
              | Answer (Ok (AgentBYOKRequired p)) => Some (py_str (jget p "setup_url"))
              | _ => None end) (tw_threads sample_world)
    = [Some "https://d/llm-keys"; Some "platform_trial"; Some "byok"]
  ∧ ∃ used : nat, numbers 1 7 (tw_threads sample_world) ≡ₚ map Z.of_nat (seq 1 used).
Proof.
  assert (reachable "https://d/" Postgresql sample_world) as Hr.
  { apply (trial_performs_reachable _ _ sample_moves). vm_compute. reflexivity. }
  split; [exact Hr|]. split; [vm_compute; reflexivity|]. split; [vm_compute; reflexivity|].
  destruct (trial_calls_counted "https://d/" Postgresql sample_world 1 7 Hr) as (used & H & _). exists used. exact H.
Defined.

(** A card whose number of calls is infinite is not bounded: it raises. *)
Lemma infinite_card_raises :
  account_access_policy (JObj [("runtime", JObj [("account_access", JObj [("platform_skill_calls", JFloat (SpecFloat.S754_infinity false))])])])
  = Raise OverflowError.
Proof. reflexivity. Qed.
