(* ===== verification/Cron.v ===== *)
(** Cron expressions and the next matching time (control_plane/cron.py).

    A local time is a number of minutes since 0001-01-01 00:00 on the wall
    clock of the zone, which is how the code steps through it; instants are
    microseconds.  The zone database is the host's: a zone is a parameter with
    its two conversions. *)
From Stdlib Require Import Ascii.
From S2P Require Import Prelude PyStr PyDict PyJson.
Open Scope Z_scope.

Definition CRON_MACROS : dict string := [
  ("@hourly", "0 * * * *"); ("@daily", "0 0 * * *"); ("@weekly", "0 0 * * 0"); ("@monthly", "0 0 1 * *")
].

Record CronSpec : Type := mkCron {
  minutes : gset Z;
  hours : gset Z;
  days : gset Z;
  months : gset Z;
  weekdays : gset Z;
}.

(** * Parsing *)

Definition _parse_int (raw : string) (minimum maximum : Z) : res Z :=
  match int_of_text raw with
  | Raise (ValueError _) => Raise (ValueError ("invalid cron value: " +:+ raw))
  | Raise e => Raise e
  | Ok value =>
      if (value <? minimum) || (maximum <? value)
      then Raise (ValueError ("cron value out of range: " +:+ raw)) else Ok value
  end.

Definition has_char (c : ascii) (s : string) : bool := existsb (Ascii.eqb c) (chars s).

Definition _split_step (item : string) : res (string * Z) :=
  if negb (has_char "/"%char item) then Ok (item, 1)
  else
    let '(base, rest) := split1 "/"%char item in
    step ← _parse_int (default "" rest) 1 10000;
    Ok (if base =s? "" then "*" else base, step).

(** [set(range(start, stop, step))] for a positive step. *)
Definition range_step (start stop step : Z) : list Z :=
  map (λ i, start + Z.of_nat i * step) (List.seq 0 (Z.to_nat ((stop - start + step - 1) / step))).

Definition _parse_segment (item : string) (minimum maximum : Z) (sunday_alias : bool) : res (gset Z) :=
  bs ← _split_step item;
  let '(base, step) := (bs : string * Z) in
  if base =s? "*" then Ok (list_to_set (range_step minimum (maximum + 1) step))
  else if has_char "-"%char base then
    let '(lo, hi) := split1 "-"%char base in
    start ← _parse_int lo minimum maximum;
    stop ← _parse_int (default "" hi) minimum maximum;
    if stop <? start then Raise (ValueError "cron range end must be >= start")
    else Ok (list_to_set (range_step start (stop + 1) step))
  else
    value ← _parse_int base minimum maximum;
    Ok {[ if sunday_alias && (value =? 7) then 0 else value ]}.

Fixpoint parse_segments (items : list string) (minimum maximum : Z) (sunday_alias : bool)
    (values : gset Z) : res (gset Z) :=
  match items with
  | [] => Ok values
  | item :: rest =>
      let item := strip item in
      if item =s? "" then Raise (ValueError "empty cron field segment")
      else
        vs ← _parse_segment item minimum maximum sunday_alias;
        parse_segments rest minimum maximum sunday_alias (values ∪ vs)
  end.

Definition fold_sunday (v : Z) : Z := if v =? 7 then 0 else v.

Definition _parse_field (raw : string) (minimum maximum : Z) (sunday_alias : bool) : res (gset Z) :=
  values ← parse_segments (split ","%char raw) minimum maximum sunday_alias ∅;
  if bool_decide (values = ∅) then Raise (ValueError "cron field has no values")
  else Ok (if sunday_alias then set_map fold_sunday values else values).

Definition parse_cron (expr : string) : res CronSpec :=
  match words expr with
  | [p0; p1; p2; p3; p4] =>
      mi ← _parse_field p0 0 59 false;
      ho ← _parse_field p1 0 23 false;
      da ← _parse_field p2 1 31 false;
      mo ← _parse_field p3 1 12 false;
      wd ← _parse_field p4 0 7 true;
      Ok (mkCron mi ho da mo wd)
  | _ => Raise (ValueError "cron must have five fields")
  end.

Definition normalize_cron (value : string) : res string :=
  let expr := lower (strip value) in
  let expr := default expr (CRON_MACROS !! expr) in
  match words expr with
  | [_; _; _; _; _] => _ ← parse_cron expr; Ok expr
  | _ => Raise (ValueError "cron must have five fields")
  end.

(** * The calendar of [datetime] *)

Definition days_before_month (m : Z) : Z :=
  match m with
  | 1 => 0 | 2 => 31 | 3 => 59 | 4 => 90 | 5 => 120 | 6 => 151 | 7 => 181 | 8 => 212 | 9 => 243
  | 10 => 273 | 11 => 304 | _ => 334
  end.
Definition days_in_month (m : Z) : Z :=
  match m with 2 => 28 | 4 | 6 | 9 | 11 => 30 | _ => 31 end.

(** The month and the day of the month of a day counted from 0001-01-01. *)
Definition month_day (n : Z) : Z * Z :=
  let n400 := n / 146097 in let n := n mod 146097 in
  let n100 := n / 36524 in let n := n mod 36524 in
  let n4 := n / 1461 in let n := n mod 1461 in
  let n1 := n / 365 in let n := n mod 365 in
  if (n1 =? 4) || (n100 =? 4) then (12, 31)
  else
    let leap := (n1 =? 3) && (negb (n4 =? 24) || (n100 =? 3)) in
    let one (b : bool) := if b then 1 else 0 in
    let month := Z.shiftr (n + 50) 5 in
    let preceding := days_before_month month + one ((2 <? month) && leap) in
    if n <? preceding then
      let month := month - 1 in
      let preceding := preceding - (days_in_month month + one ((month =? 2) && leap)) in
      (month, n - preceding + 1)
    else (month, n - preceding + 1).

(** The minutes of a day, and the last minute a [datetime] can hold. *)
Definition DAY : Z := 1440.
Definition MAX_MINUTE : Z := 3652059 * DAY - 1.
Definition MINUTE_US : Z := 60000000.

(** [local + timedelta(minutes=n)]. *)
Definition add_minutes (m n : Z) : res Z :=
  if (0 <=? m + n) && (m + n <=? MAX_MINUTE) then Ok (m + n) else Raise OverflowError.

Definition _matches (spec : CronSpec) (m : Z) : bool :=
  let day := m / DAY in
  let '(month, dom) := month_day day in
  let cron_weekday := (day mod 7 + 1) mod 7 in
  bool_decide (m mod 60 ∈ minutes spec) && bool_decide (m mod DAY / 60 ∈ hours spec)
  && bool_decide (dom ∈ days spec) && bool_decide (month ∈ months spec)
  && bool_decide (cron_weekday ∈ weekdays spec).

(** The loop of [next_cron_time]: the minutes from [m] on, at most [fuel] of them. *)
Fixpoint search (spec : CronSpec) (fuel : nat) (m : Z) : res Z :=
  match fuel with
  | O => Raise (ValueError "cron has no matching time in the next two years")
  | S fuel =>
      if _matches spec m then Ok m
      else next ← add_minutes m 1; search spec fuel next
  end.

Definition TWO_YEARS : Z := 366 * 2 * DAY.

Section zones.
(** The host's zone database: a zone by name, and its conversions between the
instants and the wall clock, both in microseconds. *)
Context (zone : Type) (ZoneInfo : string → option zone).
Context (to_local from_local : zone → Z → Z).

Definition validate_timezone (value : string) : res string :=
  let z := strip (if value =s? "" then "UTC" else value) in
  match ZoneInfo z with Some _ => Ok z | None => Raise (ValueError "unknown timezone") end.

(** [after] is an instant; the answer is one. *)
Definition next_cron_time (expr tz_name : string) (after : Z) : res Z :=
  e ← normalize_cron expr;
  spec ← parse_cron e;
  zname ← validate_timezone tz_name;
  match ZoneInfo zname with
  | None => Raise (ValueError "unknown timezone")
  | Some z =>
      first ← add_minutes (to_local z after / MINUTE_US) 1;
      _ ← add_minutes first TWO_YEARS;
      m ← search spec (Z.to_nat (TWO_YEARS + 1)) first;
      Ok (from_local z (m * MINUTE_US))
  end.
End zones.

(** * Examples *)

Example month_day_leap : month_day 737483 = (2, 29).
Proof. reflexivity. Qed.

(** * The search *)

(** [no_match spec m n]: no minute of [m], ..., [n - 1] matches. *)
Definition no_match (spec : CronSpec) (m n : Z) : Prop :=
  ∀ k, m ≤ k < n → _matches spec k = false.

Lemma no_match_step spec m n :
  _matches spec m = false → no_match spec (m + 1) n → no_match spec m n.
Proof. intros Hm H k Hk. destruct (decide (k = m)) as [->|]; [done|]. apply H. lia. Qed.

(** Every outcome of the search: the first match, or none in the window, or the end of time. *)
Lemma search_outcome spec fuel m :
  0 ≤ m ≤ MAX_MINUTE →
  match search spec fuel m with
  | Ok r => m ≤ r < m + Z.of_nat fuel ∧ r ≤ MAX_MINUTE ∧ _matches spec r = true ∧ no_match spec m r
  | Raise (ValueError _) => no_match spec m (m + Z.of_nat fuel)
  | Raise OverflowError => no_match spec m (MAX_MINUTE + 1) ∧ MAX_MINUTE < m + Z.of_nat fuel
  | Raise _ => False
  end.
Proof.
  revert m. induction fuel as [|fuel IH]; intros m Hm; cbn [search]; [intros k Hk; lia|].
  destruct (_matches spec m) eqn:E; [split_and!; [lia|lia|lia|done|intros k Hk; lia]|].
  unfold add_minutes. destruct ((0 <=? m + 1) && (m + 1 <=? MAX_MINUTE)) eqn:Ho; cbn [mbind res_bind].
  - specialize (IH (m + 1) ltac:(lia)). destruct (search spec fuel (m + 1)) as [r|[]]; try done.
    + destruct IH as (H1 & H2 & H3 & H4). split_and!; [lia|lia|lia|done|by apply no_match_step].
    + apply no_match_step; [done|]. intros k Hk. apply IH. lia.
    + destruct IH as [H1 H2]. split; [by apply no_match_step|lia].
  - assert (m = MAX_MINUTE) as -> by lia. split; [|lia]. apply no_match_step; [done|].
    intros k Hk. lia.
Qed.

(** * The calendar is in range *)

Definition month_day_ok (md : Z * Z) : bool :=
  (1 <=? md.1) && (md.1 <=? 12) && (1 <=? md.2) && (md.2 <=? 31).

(** The last part of [month_day], for a day [n] of a year. *)
Definition month_day_of_year (leap : bool) (n : Z) : Z * Z :=
  let one (b : bool) := if b then 1 else 0 in
  let month := Z.shiftr (n + 50) 5 in
  let preceding := days_before_month month + one ((2 <? month) && leap) in
  if n <? preceding then
    let month := month - 1 in
    let preceding := preceding - (days_in_month month + one ((month =? 2) && leap)) in
    (month, n - preceding + 1)
  else (month, n - preceding + 1).

Lemma month_day_of_year_ok leap n : 0 ≤ n < 365 → month_day_ok (month_day_of_year leap n) = true.
Proof.
  intros Hn.
  assert (∀ b, forallb (λ i, month_day_ok (month_day_of_year b (Z.of_nat i))) (List.seq 0 365) = true) as H
    by (intros []; vm_compute; reflexivity).
  specialize (H leap). rewrite forallb_elem in H. specialize (H (Z.to_nat n)).
  rewrite Z2Nat.id in H by lia. apply H, list_elem_of_In, in_seq. lia.
Qed.

Lemma month_day_range n : month_day_ok (month_day n) = true.
Proof.
  unfold month_day. cbv zeta.
  destruct ((((n mod 146097) mod 36524) mod 1461 / 365 =? 4) || (n mod 146097 / 36524 =? 4)); [done|].
  apply (month_day_of_year_ok (_ && _)). apply Z.mod_pos_bound. lia.
Qed.

(** * Bounds of the parsed fields *)

Definition bounded (X : gset Z) (lo hi : Z) : Prop := ∀ v, v ∈ X → lo ≤ v ≤ hi.

Lemma parse_int_bounds raw lo hi v : _parse_int raw lo hi = Ok v → lo ≤ v ≤ hi.
Proof.
  unfold _parse_int. destruct (int_of_text raw) as [n|[]]; try done.
  destruct ((n <? lo) || (hi <? n)) eqn:E; [done|]. intros [= <-]. lia.
Qed.

Lemma elem_of_range_step v start stop step :
  1 ≤ step → v ∈ range_step start stop step → start ≤ v < stop.
Proof.
  intros Hs. unfold range_step. rewrite list_elem_of_fmap. intros (i & -> & Hi).
  apply list_elem_of_In, in_seq in Hi.
  assert (Z.of_nat i < (stop - start + step - 1) / step) as Hlt by lia.
  assert (0 < stop - start) as Hpos.
  { destruct (decide (0 < stop - start)); [done|].
    assert ((stop - start + step - 1) / step < 1) by (apply Z.div_lt_upper_bound; lia). lia. }
  assert (step * ((stop - start + step - 1) / step) ≤ stop - start + step - 1) by (apply Z.mul_div_le; lia).
  nia.
Qed.

Lemma split_step_positive item base step : _split_step item = Ok (base, step) → 1 ≤ step.
Proof.
  unfold _split_step. destruct (has_char "/"%char item); cbn [negb]; [|intros [= _ <-]; lia].
  destruct (split1 "/"%char item) as [b rest]. intros H.
  apply res_bind_ok in H as (st & H1 & [= _ <-]). apply parse_int_bounds in H1. lia.
Qed.

Lemma parse_segment_bounds item lo hi alias X :
  lo ≤ 0 ∨ alias = false → lo ≤ hi →
  _parse_segment item lo hi alias = Ok X → bounded X lo hi.
Proof.
  intros Hlo Hle. unfold _parse_segment. intros H. apply res_bind_ok in H as ([base step] & Hs & H).
  apply split_step_positive in Hs. destruct (base =s? "*").
  { injection H as <-. intros v Hv. apply elem_of_list_to_set, elem_of_range_step in Hv; lia. }
  destruct (has_char "-"%char base).
  - destruct (split1 "-"%char base) as [a b].
    apply res_bind_ok in H as (x & Hx & H). apply res_bind_ok in H as (y & Hy & H).
    apply parse_int_bounds in Hx, Hy. destruct (y <? x); [done|]. injection H as <-.
    intros v Hv. apply elem_of_list_to_set, elem_of_range_step in Hv; lia.
  - apply res_bind_ok in H as (x & Hx & H). apply parse_int_bounds in Hx. injection H as <-.
    intros v Hv. apply elem_of_singleton in Hv as ->.
    destruct alias; cbn [andb]; [|lia]. destruct (Z.eqb_spec x 7) as [->|]; [|lia]. destruct Hlo; [lia|done].
Qed.

Lemma parse_segments_bounds items lo hi alias acc X :
  lo ≤ 0 ∨ alias = false → lo ≤ hi → bounded acc lo hi →
  parse_segments items lo hi alias acc = Ok X → bounded X lo hi.
Proof.
  intros Hlo Hle. revert acc. induction items as [|i items IH]; intros acc Hacc H; [by injection H as <-|].
  cbn [parse_segments] in H. cbv zeta in H. destruct (strip i =s? ""); [done|].
  apply res_bind_ok in H as (vs & Hv & H). eapply IH; [|exact H].
  pose proof (parse_segment_bounds _ _ _ _ _ Hlo Hle Hv) as Hb.
  intros v [Hin|Hin]%elem_of_union; auto.
Qed.

Lemma parse_field_bounds raw lo hi X :
  lo ≤ hi → _parse_field raw lo hi false = Ok X → bounded X lo hi ∧ X ≠ ∅.
Proof.
  unfold _parse_field. intros Hle H. apply res_bind_ok in H as (Y & HY & H).
  case_bool_decide as He; [done|]. injection H as <-. split; [|done].
  eapply parse_segments_bounds; [by right|done| |exact HY]. intros v Hv. set_solver.
Qed.

Lemma parse_weekdays_bounds raw X :
  _parse_field raw 0 7 true = Ok X → bounded X 0 6 ∧ X ≠ ∅.
Proof.
  unfold _parse_field. intros H. apply res_bind_ok in H as (Y & HY & H).
  case_bool_decide as He; [done|]. injection H as <-.
  assert (bounded Y 0 7) as Hb.
  { eapply parse_segments_bounds; [left; lia|lia| |exact HY]. intros v Hv. set_solver. }
  split; [|set_solver]. intros v (w & -> & Hw)%elem_of_map. apply Hb in Hw.
  unfold fold_sunday. destruct (Z.eqb_spec w 7); lia.
Qed.

(** A well-formed specification: every set is in its range and not empty. *)
Record cron_ok (c : CronSpec) : Prop := {
  co_minutes : bounded (minutes c) 0 59 ∧ minutes c ≠ ∅;
  co_hours : bounded (hours c) 0 23 ∧ hours c ≠ ∅;
  co_days : bounded (days c) 1 31 ∧ days c ≠ ∅;
  co_months : bounded (months c) 1 12 ∧ months c ≠ ∅;
  co_weekdays : bounded (weekdays c) 0 6 ∧ weekdays c ≠ ∅;
}.

Lemma parse_cron_ok expr c : parse_cron expr = Ok c → cron_ok c.
Proof.
  unfold parse_cron. destruct (words expr) as [|p0 [|p1 [|p2 [|p3 [|p4 [|? ?]]]]]]; try done.
  intros H. apply res_bind_ok in H as (mi & H0 & H). apply res_bind_ok in H as (ho & H1 & H).
  apply res_bind_ok in H as (da & H2 & H). apply res_bind_ok in H as (mo & H3 & H).
  apply res_bind_ok in H as (wd & H4 & H). injection H as <-.
  split; cbn [minutes hours days months weekdays].
  1-4: eapply parse_field_bounds; [lia|eassumption]. by eapply parse_weekdays_bounds.
Qed.

(** * An unrestricted day always has a next time *)

Definition any_day (c : CronSpec) : Prop :=
  (∀ d, 1 ≤ d ≤ 31 → d ∈ days c) ∧ (∀ m, 1 ≤ m ≤ 12 → m ∈ months c) ∧ (∀ w, 0 ≤ w ≤ 6 → w ∈ weekdays c).

(** Within a day of any minute there is one whose clock shows [h:mi]. *)
Lemma clock_within_day m h mi :
  0 ≤ h ≤ 23 → 0 ≤ mi ≤ 59 →
  ∃ k, m ≤ k < m + DAY ∧ k mod 60 = mi ∧ k mod DAY / 60 = h.
Proof.
  intros Hh Hm. unfold DAY. set (t := h * 60 + mi).
  exists (m + (t - m) mod 1440). pose proof (Z.mod_pos_bound (t - m) 1440 ltac:(lia)).
  assert ((m + (t - m) mod 1440) mod 1440 = t) as Ht.
  { rewrite Zplus_mod_idemp_r. replace (m + (t - m)) with t by lia. apply Z.mod_small. unfold t. lia. }
  split_and!; [lia..| |].
  - replace (m + (t - m) mod 1440) with
      ((m + (t - m) mod 1440) mod 1440 + 1440 * ((m + (t - m) mod 1440) / 1440)) at 1
      by (rewrite Z.add_comm; symmetry; apply Z.div_mod; lia).
    rewrite Ht. replace (1440 * _) with (24 * ((m + (t - m) mod 1440) / 1440) * 60) by lia.
    rewrite Z.mod_add by lia. unfold t. rewrite Z.add_comm, Z.mod_add by lia. apply Z.mod_small. lia.
  - rewrite Ht. unfold t. rewrite Z.add_comm, Z.div_add by lia. rewrite Z.div_small by lia. lia.
Qed.

Lemma any_day_matches c m :
  cron_ok c → any_day c → ∃ k, m ≤ k < m + DAY ∧ _matches c k = true.
Proof.
  intros [[Bm Nm] [Bh Nh] _ _ _] (Hd & Hmo & Hw).
  destruct (set_choose_L _ Nm) as [mi Hmi]. destruct (set_choose_L _ Nh) as [h Hh].
  destruct (clock_within_day m h mi (Bh _ Hh) (Bm _ Hmi)) as (k & Hk & H1 & H2).
  exists k. split; [done|]. unfold _matches. cbv zeta.
  pose proof (month_day_range (k / DAY)) as Hr. destruct (month_day (k / DAY)) as [mo dom].
  unfold month_day_ok in Hr. cbn [fst snd] in Hr. rewrite H1, H2, !bool_decide_eq_true_2; try done.
  - apply Hw. pose proof (Z.mod_pos_bound ((k / DAY) mod 7 + 1) 7). lia.
  - apply Hmo. lia.
  - apply Hd. lia.
Qed.

(** * The next time *)

Lemma add_minutes_ok m n : 0 ≤ m + n ≤ MAX_MINUTE → add_minutes m n = Ok (m + n).
Proof.
  unfold add_minutes. intros H. by replace ((0 <=? m + n) && (m + n <=? MAX_MINUTE)) with true by lia.
Qed.

Section next.
Context (zone : Type) (ZoneInfo : string → option zone) (to_local from_local : zone → Z → Z).

(** The first minute the search looks at. *)
Definition first_minute (z : zone) (after : Z) : Z := to_local z after / MINUTE_US + 1.

Lemma next_cron_time_unfold expr tz e spec zname z after :
  normalize_cron expr = Ok e → parse_cron e = Ok spec →
  validate_timezone zone ZoneInfo tz = Ok zname → ZoneInfo zname = Some z →
  0 ≤ first_minute z after → first_minute z after + TWO_YEARS ≤ MAX_MINUTE →
  next_cron_time zone ZoneInfo to_local from_local expr tz after
  = (m ← search spec (Z.to_nat (TWO_YEARS + 1)) (first_minute z after);
     Ok (from_local z (m * MINUTE_US))).
Proof.
  intros He Hs Hv Hz H0 H1. unfold next_cron_time. rewrite He. cbn [mbind res_bind].
  rewrite Hs. cbn [mbind res_bind]. rewrite Hv. cbn [mbind res_bind]. rewrite Hz.
  rewrite add_minutes_ok by (unfold first_minute, TWO_YEARS, DAY in *; lia). cbn [mbind res_bind].
  fold (first_minute z after). by rewrite add_minutes_ok by (unfold TWO_YEARS, DAY in *; lia).
Qed.

(** C20: the next time is the first local minute after the given instant that matches the
expression; the call fails exactly when no minute of the next two years matches. *)
Theorem next_time_is_first expr tz e spec zname z after :
  normalize_cron expr = Ok e → parse_cron e = Ok spec →
  validate_timezone zone ZoneInfo tz = Ok zname → ZoneInfo zname = Some z →
  0 ≤ first_minute z after → first_minute z after + TWO_YEARS < MAX_MINUTE →
  match next_cron_time zone ZoneInfo to_local from_local expr tz after with
  | Ok t => ∃ m, t = from_local z (m * MINUTE_US)
              ∧ first_minute z after ≤ m ≤ first_minute z after + TWO_YEARS
              ∧ _matches spec m = true ∧ no_match spec (first_minute z after) m
  | Raise x => (∃ msg, x = ValueError msg)
              ∧ no_match spec (first_minute z after) (first_minute z after + TWO_YEARS + 1)
  end.
Proof.
  intros He Hs Hv Hz H0 H1. rewrite (next_cron_time_unfold _ _ _ _ _ _ _ He Hs Hv Hz H0 ltac:(lia)).
  pose proof (search_outcome spec (Z.to_nat (TWO_YEARS + 1)) (first_minute z after)) as H.
  rewrite Z2Nat.id in H by (unfold TWO_YEARS, DAY; lia).
  destruct (search spec _ _) as [r|[]]; cbn [mbind res_bind];
    (specialize (H ltac:(unfold TWO_YEARS, DAY in *; lia)); try done).
  - destruct H as (Hr & _ & Hm & Hn). exists r. split_and!; [done|lia|lia|done|done].
  - split; [by eexists|]. intros k Hk. apply H. lia.
  - unfold TWO_YEARS, DAY in *. lia.
Qed.

(** C22: an expression that restricts neither days, months nor weekdays always has a next time, at
most one day away. *)
Theorem daily_has_next expr tz e spec zname z after :
  normalize_cron expr = Ok e → parse_cron e = Ok spec → any_day spec →
  validate_timezone zone ZoneInfo tz = Ok zname → ZoneInfo zname = Some z →
  0 ≤ first_minute z after → first_minute z after + TWO_YEARS < MAX_MINUTE →
  ∃ m, next_cron_time zone ZoneInfo to_local from_local expr tz after = Ok (from_local z (m * MINUTE_US))
    ∧ first_minute z after ≤ m < first_minute z after + DAY.
Proof.
  intros He Hs Ha Hv Hz H0 H1. rewrite (next_cron_time_unfold _ _ _ _ _ _ _ He Hs Hv Hz H0 ltac:(lia)).
  destruct (any_day_matches spec (first_minute z after) (parse_cron_ok _ _ Hs) Ha) as (k & Hk & Hm).
  pose proof (search_outcome spec (Z.to_nat (TWO_YEARS + 1)) (first_minute z after)) as H.
  rewrite Z2Nat.id in H by (unfold TWO_YEARS, DAY; lia).
  specialize (H ltac:(unfold TWO_YEARS, DAY in *; lia)).
  assert (∀ n, no_match spec (first_minute z after) n → n ≤ k) as Hb.
  { intros n Hn. destruct (decide (n ≤ k)); [done|]. rewrite Hn in Hm by lia. done. }
  destruct (search spec _ _) as [r|[]]; try done; cbn [mbind res_bind].
  - destruct H as (Hr & _ & _ & Hn). apply Hb in Hn. exists r. split; [done|lia].
  - apply Hb in H. unfold TWO_YEARS, DAY in *. lia.
  - destruct H as [H _]. apply Hb in H. unfold TWO_YEARS, DAY in *. lia.
Qed.
End next.

(** The sets of a parsed expression are not empty and within their ranges: minutes 0-59,
hours 0-23, days 1-31, months 1-12, weekdays 0-6 with 7 folded to 0. *)
Theorem cron_fields_bounded expr c : parse_cron expr = Ok c → cron_ok c.
Proof. apply parse_cron_ok. Qed.

Lemma cron_fields_bounded_witness :
  ∃ c, parse_cron "*/15 9-17 1,15 * 1-5/2" = Ok c ∧ cron_ok c.
Proof.
  destruct (parse_cron "*/15 9-17 1,15 * 1-5/2") as [c|x] eqn:H; [|vm_compute in H; discriminate H].
  exists c. split; [reflexivity|]. exact (cron_fields_bounded _ _ H).
Defined.

(** The zone UTC, for the witnesses. *)
Definition utc (name : string) : option unit := if name =s? "UTC" then Some () else None.
Definition same_instant (_ : unit) (t : Z) : Z := t.

(** 2024-02-28 12:00:30 UTC. *)
Definition leap_eve : Z := (738943 * DAY + 720) * MINUTE_US + 30000000.

(** The only leap day before 2028. *)
Example leap_day_next :
  next_cron_time unit utc same_instant same_instant "0 0 29 2 *" "" leap_eve
  = Ok (738944 * DAY * MINUTE_US).
Proof. vm_compute. reflexivity. Qed.

Lemma next_time_is_first_witness :
  ∃ spec m, parse_cron "30 9 * * *" = Ok spec
    ∧ next_cron_time unit utc same_instant same_instant "30 9 * * *" "UTC" leap_eve = Ok (m * MINUTE_US)
    ∧ _matches spec m = true.
Proof.
  destruct (parse_cron "30 9 * * *") as [spec|x] eqn:Hp; [|vm_compute in Hp; discriminate Hp].
  pose proof (next_time_is_first unit utc same_instant same_instant "30 9 * * *" "UTC" "30 9 * * *" spec
    "UTC" () leap_eve) as H.
  destruct (next_cron_time unit utc same_instant same_instant "30 9 * * *" "UTC" leap_eve) as [t|x] eqn:E;
    [|vm_compute in E; discriminate E].
  destruct H as (m & H1 & _ & H2 & _).
  - vm_compute. reflexivity.
  - exact Hp.
  - vm_compute. reflexivity.
  - reflexivity.
  - vm_compute. discriminate.
  - vm_compute. reflexivity.
  - exists spec, m. split; [reflexivity|]. split; [rewrite H1; reflexivity|exact H2].
Defined.

Lemma any_day_check c :
  forallb (λ i, bool_decide (Z.of_nat i ∈ days c)) (List.seq 1 31)
  && forallb (λ i, bool_decide (Z.of_nat i ∈ months c)) (List.seq 1 12)
  && forallb (λ i, bool_decide (Z.of_nat i ∈ weekdays c)) (List.seq 0 7) = true → any_day c.
Proof.
  rewrite !andb_true_iff, !forallb_elem. intros ((Hd & Hm) & Hw).
  assert (∀ (X : gset Z) a n v, (∀ i, i ∈ List.seq a n → bool_decide (Z.of_nat i ∈ X) = true) →
    Z.of_nat a ≤ v < Z.of_nat (a + n) → v ∈ X) as H.
  { intros X a n v Hx Hv. specialize (Hx (Z.to_nat v)). rewrite Z2Nat.id in Hx by lia.
    apply bool_decide_eq_true in Hx; [done|]. apply list_elem_of_In, in_seq. lia. }
  split_and!; intros v Hv; [apply (H _ _ _ _ Hd)|apply (H _ _ _ _ Hm)|apply (H _ _ _ _ Hw)]; lia.
Qed.

Lemma daily_has_next_witness :
  ∃ m, next_cron_time unit utc same_instant same_instant "@hourly" "UTC" leap_eve = Ok (m * MINUTE_US).
Proof.
  destruct (parse_cron "0 * * * *") as [spec|x] eqn:Hp; [|vm_compute in Hp; discriminate Hp].
  destruct (daily_has_next unit utc same_instant same_instant "@hourly" "UTC" "0 * * * *" spec "UTC" ()
    leap_eve) as (m & H & _).
  - vm_compute. reflexivity.
  - exact Hp.
  - apply any_day_check. vm_compute in Hp. injection Hp as <-. vm_compute. reflexivity.
  - vm_compute. reflexivity.
  - reflexivity.
  - vm_compute. discriminate.
  - vm_compute. reflexivity.
  - exists m. exact H.
Defined.
