(* ===== verification/WritePrefix.v ===== *)
(** Write prefixes and pattern lists (a2a_pack/workspace.py, the helpers).

    A write prefix is cleaned of backslashes and outer slashes; a path is under
    a prefix when it is the prefix or continues it after a slash.  The lemmas
    make that relation usable: it is transitive, and cleaning is idempotent. *)
From Stdlib Require Import Ascii.
From S2P Require Import Prelude PyStr.

(** [str(value).replace("\\", "/").strip("/")]. *)
Definition clean_prefix (value : string) : string :=
  strip_char "/"%char (replace_char "\"%char "/"%char value).

Definition truthy_text (o : option string) : bool :=
  match o with Some s => negb (s =s? "") | None => false end.

(** [x or y] on optional texts. *)
Definition text_or_else (x y : option string) : option string := if truthy_text x then x else y.

Definition add_prefix (out : list string) (value : string) : list string :=
  let clean := clean_prefix value in
  if clean =s? "" then out else add_once (clean +:+ "/") out.

Definition _normalize_write_prefixes (outputs_prefix : option string) (write_prefixes : list string)
    : list string :=
  foldl add_prefix []
    ((if truthy_text outputs_prefix then option_list outputs_prefix else []) ++ write_prefixes).

(** The prefixes that are not empty, without repetition, in order. *)
Definition add_pattern (out : list string) (pattern : string) : list string :=
  if pattern =s? "" then out else add_once pattern out.

Definition _merge_patterns (inherited requested : list string) : list string :=
  foldl add_pattern [] (inherited ++ requested).

(** [clean] is the prefix [normalized] or lies below it. *)
Definition under (clean normalized : string) : bool :=
  (clean =s? normalized) || startswith clean (normalized +:+ "/").

Definition _matches_write_prefix (path : string) (write_prefixes : list string) : bool :=
  let clean := clean_prefix path in
  existsb (λ prefix, let normalized := clean_prefix prefix in
    negb (normalized =s? "") && under clean normalized) write_prefixes.

Example prefixes_1 : _normalize_write_prefixes (Some "outputs") ["outputs/"; "reports\"; "/"; "reports"]
  = ["outputs/"; "reports/"].
Proof. reflexivity. Qed.
Example matches_1 : map (λ p, _matches_write_prefix p ["out/"; ""]) ["out"; "/out/a"; "outer"; "a/out"; ""]
  = [true; true; false; false; false].
Proof. reflexivity. Qed.

(** * Cleaning *)

Lemma chars_clean_prefix v :
  chars (clean_prefix v)
  = strip_list (Ascii.eqb "/"%char) (map (λ c, if Ascii.eqb c "\"%char then "/"%char else c) (chars v)).
Proof.
  unfold clean_prefix, strip_char, strip_by, replace_char. by rewrite !chars_of_chars.
Qed.

Lemma clean_prefix_slash v : clean_prefix (clean_prefix v +:+ "/") = clean_prefix v.
Proof.
  apply (inj chars). rewrite chars_clean_prefix, chars_app, map_app.
  assert (map (λ c, if Ascii.eqb c "\"%char then "/"%char else c) (chars (clean_prefix v))
          = chars (clean_prefix v)) as ->.
  { rewrite <-(map_id (chars (clean_prefix v))) at 2. apply map_ext_in. intros c Hc.
    apply list_elem_of_In in Hc. rewrite chars_clean_prefix in Hc. apply strip_list_sub in Hc.
    apply list_elem_of_fmap in Hc as (d & -> & _).
    destruct (Ascii.eqb_spec d "\"%char) as [->|Hne]; [done|].
    by destruct (Ascii.eqb_spec d "\"%char). }
  rewrite chars_clean_prefix. apply (strip_list_snoc _ _ "/"%char). done.
Qed.

(** Every normalised prefix is a clean, non-empty name followed by a slash. *)
Definition normal_prefix (p : string) : Prop := ∃ v, clean_prefix v ≠ "" ∧ p = clean_prefix v +:+ "/".

Lemma normalized_prefixes o ps p : p ∈ _normalize_write_prefixes o ps → normal_prefix p.
Proof.
  unfold _normalize_write_prefixes. generalize ((if truthy_text o then option_list o else []) ++ ps) as l.
  intros l. assert (∀ acc, (∀ q, q ∈ acc → normal_prefix q) →
    ∀ q, q ∈ foldl add_prefix acc l → normal_prefix q) as H.
  { induction l as [|v l IH]; intros acc Hacc q; [by apply Hacc|]. cbn [foldl]. apply IH.
    intros x. unfold add_prefix. destruct (String.eqb_spec (clean_prefix v) ""); [by apply Hacc|].
    rewrite elem_of_add_once. intros [->|Hx]; [by exists v|by apply Hacc]. }
  apply H. set_solver.
Qed.


(** * Being under a prefix *)

Lemma under_iff p n : under p n = true ↔ p = n ∨ ∃ rest, p = n +:+ "/" +:+ rest.
Proof.
  unfold under. rewrite orb_true_iff, String.eqb_eq, startswith_iff.
  by setoid_rewrite <-(assoc_L String.append).
Qed.

Lemma under_trans p m n : under p m = true → under m n = true → under p n = true.
Proof.
  rewrite !under_iff. intros [->|[r ->]] [->|[r' ->]]; [by left|by right; exists r'|by right; exists r|].
  right. exists (r' +:+ "/" +:+ r). by rewrite <-!(assoc_L String.append).
Qed.

Lemma matches_write_iff path ps : _matches_write_prefix path ps = true ↔
  ∃ p, p ∈ ps ∧ clean_prefix p ≠ "" ∧ under (clean_prefix path) (clean_prefix p) = true.
Proof.
  unfold _matches_write_prefix. cbv zeta. rewrite existsb_elem.
  setoid_rewrite andb_true_iff. setoid_rewrite negb_true_iff. setoid_rewrite String.eqb_neq. done.
Qed.

(** Prefixes that are all under others reach nothing new. *)
Lemma matches_write_trans path ps qs :
  (∀ p, p ∈ ps → _matches_write_prefix p qs = true) →
  _matches_write_prefix path ps = true → _matches_write_prefix path qs = true.
Proof.
  rewrite !matches_write_iff. intros H (p & Hp & _ & Hu). specialize (H p Hp).
  rewrite matches_write_iff in H. destruct H as (q & Hq & Hne & Hu'). eauto using under_trans.
Qed.

Lemma elem_of_merge_patterns x ps qs : x ∈ _merge_patterns ps qs ↔ x ≠ "" ∧ (x ∈ ps ∨ x ∈ qs).
Proof.
  unfold _merge_patterns. rewrite <-elem_of_app. generalize (ps ++ qs) as l. intros l.
  assert (∀ acc, x ∈ foldl add_pattern acc l ↔ x ∈ acc ∨ x ≠ "" ∧ x ∈ l) as H.
  { induction l as [|y l IH]; intros acc; cbn [foldl]; [set_solver|]. rewrite IH. unfold add_pattern.
    destruct (String.eqb_spec y "") as [->|Hy]; [|rewrite elem_of_add_once]; set_solver. }
  rewrite H. set_solver.
Qed.
