(* ===== verification/ScopePolicy.v ===== *)
(** The decision on a scope request (main_agent/scope_policy.py).

    A callee asks for more than its grant gives; the orchestrator approves by
    itself, or asks the user.  The grant is a dict of the documented types: a
    missing key is [None].  The main result: what is approved without asking
    neither upgrades the mode nor reaches a new place to write. *)
From Stdlib Require Import Ascii.
From S2P Require Import Prelude PyStr PyDict WritePrefix.
Open Scope Z_scope.

Record ScopeRequest : Type := mkRequest {
  req_reason : string;
  read_patterns : list string;
  write_prefix : option string;
  req_mode : string;
  ttl_seconds : Z;
  req_write_prefixes : list string;
}.

(** The fields of the original grant the decision reads. *)
Record Original : Type := mkOriginal {
  allow_patterns : option (list string);
  deny_patterns : option (list string);
  outputs_prefix : option string;
  orig_write_prefixes : option (list string);
  orig_mode : option string;
}.

Inductive scope_action : Set := AutoApprove | AskUser | DenyRequest.

#[export] Instance scope_action_eq_dec : EqDecision scope_action.
Proof. solve_decision. Defined.

Record ScopeDecision : Type := mkScope {
  sd_action : scope_action;
  sd_reason : string;
  granted_allow_patterns : list string;
  granted_deny_patterns : list string;
  granted_outputs_prefix : option string;
  granted_write_prefixes : list string;
  granted_mode : string;
  granted_ttl_seconds : Z;
}.

Definition MAX_EXTENSIONS_PER_GRANT : Z := 3.
Definition MAX_TTL_SECONDS : Z := 1800.

Definition _normalize_write_prefixes (outputs : option string) (prefixes : list string) : list string :=
  foldl add_prefix [] ((if truthy_text outputs then option_list outputs else []) ++ prefixes).

Definition _is_prefix_covered (prefix : string) (current : list string) : bool :=
  let clean := clean_prefix prefix in
  existsb (λ existing,
    let parent := clean_prefix existing in
    negb (parent =s? "") && ((clean =s? parent) || startswith clean (parent +:+ "/"))) current.

Definition _dedupe (values : list string) : list string :=
  foldl (λ out v, if v =s? "" then out else add_once v out) [] values.

(** [tuple(dict.fromkeys(values))]. *)
Definition unique (values : list string) : list string := foldl (λ out v, add_once v out) [] values.

Definition _replace (d : ScopeDecision) (action : scope_action) (reason : string) : ScopeDecision :=
  mkScope action reason (granted_allow_patterns d) (granted_deny_patterns d)
    (granted_outputs_prefix d) (granted_write_prefixes d) (granted_mode d) (granted_ttl_seconds d).

Definition upgrades_mode (o : Original) (r : ScopeRequest) : bool :=
  match orig_mode o with Some m => m =s? "read_only" | None => false end
  && negb (req_mode r =s? "read_only").

Definition original_prefixes (o : Original) : list string :=
  _normalize_write_prefixes (outputs_prefix o) (default [] (orig_write_prefixes o)).

Definition requested_prefixes (r : ScopeRequest) : list string :=
  _normalize_write_prefixes (write_prefix r) (req_write_prefixes r).

Definition adds_write_prefix (o : Original) (r : ScopeRequest) : bool :=
  existsb (λ p, negb (_is_prefix_covered p (original_prefixes o))) (requested_prefixes r).

Definition risk_of (o : Original) (r : ScopeRequest) : Z :=
  if upgrades_mode o r || adds_write_prefix o r then 2
  else if 60 <? ttl_seconds r then 1 else 0.

Definition decide_extension (o : Original) (r : ScopeRequest) (approval_mode user_active : bool)
    (extension_count : Z) : ScopeDecision :=
  let granted_prefixes := _dedupe (original_prefixes o ++ requested_prefixes r) in
  let risk := risk_of o r in
  let proposed := {|
    sd_action := AskUser; sd_reason := "";
    granted_allow_patterns := unique (default [] (allow_patterns o) ++ read_patterns r);
    granted_deny_patterns := default [] (deny_patterns o);
    granted_outputs_prefix :=
      text_or_else (outputs_prefix o) (text_or_else (write_prefix r) (head granted_prefixes));
    granted_write_prefixes := granted_prefixes;
    granted_mode := if upgrades_mode o r then req_mode r else default "read_only" (orig_mode o);
    granted_ttl_seconds := Z.min (ttl_seconds r) MAX_TTL_SECONDS |} in
  if MAX_EXTENSIONS_PER_GRANT <=? extension_count then
    _replace proposed AskUser ("creep limit: " +:+ dec extension_count +:+ " prior extensions")
  else if (risk =? 0) && negb approval_mode then
    _replace proposed AutoApprove "risk=0 read-only short ttl"
  else if (risk <=? 1) && negb approval_mode && negb user_active then
    _replace proposed AutoApprove ("risk=" +:+ dec risk +:+ ", AFK")
  else if 2 <=? risk then
    _replace proposed AskUser ("risk=" +:+ dec risk +:+ " write/mode upgrade")
  else _replace proposed AskUser "default ask_user".

(** * Prefixes *)

Lemma normal_prefix_covered p ps : normal_prefix p → p ∈ ps → _is_prefix_covered p ps = true.
Proof.
  intros (v & Hv & ->) Hin. unfold _is_prefix_covered. apply existsb_elem.
  exists (clean_prefix v +:+ "/"). split; [done|]. rewrite clean_prefix_slash, String.eqb_refl.
  by destruct (String.eqb_spec (clean_prefix v) "").
Qed.

Lemma dedupe_subset l p : p ∈ _dedupe l → p ∈ l.
Proof.
  unfold _dedupe. assert (∀ acc, p ∈ foldl (λ out v, if v =s? "" then out else add_once v out) acc l →
    p ∈ acc ∨ p ∈ l) as H.
  { induction l as [|v l IH]; intros acc; cbn [foldl]; [by left|]. intros Hp.
    destruct (IH _ Hp) as [Ha|Hl]; [|right; by right].
    destruct (v =s? ""); [by left|]. apply elem_of_add_once in Ha as [->|Ha]; [right; by left|by left]. }
  intros Hp. destruct (H [] Hp); [by apply not_elem_of_nil in H0|done].
Qed.

Lemma elem_of_unique l p : p ∈ unique l ↔ p ∈ l.
Proof.
  unfold unique. assert (∀ acc, p ∈ foldl (λ out v, add_once v out) acc l ↔ p ∈ acc ∨ p ∈ l) as H.
  { induction l as [|v l IH]; intros acc; cbn [foldl]; [set_solver|].
    rewrite IH, elem_of_add_once, elem_of_cons. naive_solver. }
  rewrite H. set_solver.
Qed.

Lemma no_new_prefix_covered o r p :
  adds_write_prefix o r = false →
  p ∈ _dedupe (original_prefixes o ++ requested_prefixes r) → _is_prefix_covered p (original_prefixes o) = true.
Proof.
  intros Ha [Hp|Hp]%dedupe_subset%elem_of_app.
  - apply normal_prefix_covered; [|done]. by apply normalized_prefixes in Hp.
  - destruct (_is_prefix_covered p (original_prefixes o)) eqn:E; [done|].
    unfold adds_write_prefix in Ha. rewrite <-not_true_iff_false, existsb_elem in Ha.
    destruct Ha. exists p. by rewrite E.
Qed.

(** * The decision *)

(** C23: the orchestrator approves by itself exactly when the creep limit is not reached, the
approval mode is off, and the request is a short read, or any read while the user is away. *)
Theorem auto_approve_iff o r am ua n :
  sd_action (decide_extension o r am ua n) = AutoApprove ↔
    n < MAX_EXTENSIONS_PER_GRANT ∧ am = false
    ∧ upgrades_mode o r = false ∧ adds_write_prefix o r = false ∧ (ttl_seconds r ≤ 60 ∨ ua = false).
Proof.
  unfold decide_extension, risk_of. cbv zeta.
  destruct (Z.leb_spec MAX_EXTENSIONS_PER_GRANT n); [cbn; split; [done|lia]|].
  destruct (upgrades_mode o r), (adds_write_prefix o r); cbn [orb];
    try (destruct am; cbn; naive_solver).
  destruct (Z.ltb_spec 60 (ttl_seconds r)), am, ua; cbn; split; try done; try lia; naive_solver lia.
Qed.

(** What is approved without asking keeps the mode of the grant and its denials, writes
only under prefixes the grant already covers, and lasts at most half an hour. *)
Theorem auto_approve_no_escalation o r am ua n :
  let d := decide_extension o r am ua n in
  sd_action d = AutoApprove →
  granted_mode d = default "read_only" (orig_mode o)
  ∧ (∀ p, p ∈ granted_write_prefixes d → _is_prefix_covered p (original_prefixes o) = true)
  ∧ granted_deny_patterns d = default [] (deny_patterns o)
  ∧ granted_ttl_seconds d ≤ MAX_TTL_SECONDS
  ∧ (∀ p, p ∈ granted_allow_patterns d ↔ p ∈ default [] (allow_patterns o) ∨ p ∈ read_patterns r).
Proof.
  intros d Hd.
  assert (upgrades_mode o r = false ∧ adds_write_prefix o r = false) as [Hu Ha].
  { revert Hd. unfold d, decide_extension, risk_of. cbv zeta.
    destruct (MAX_EXTENSIONS_PER_GRANT <=? n); [done|].
    destruct (upgrades_mode o r), (adds_write_prefix o r); cbn [orb]; try done;
      by destruct am. }
  assert (granted_mode d = default "read_only" (orig_mode o)
    ∧ granted_write_prefixes d = _dedupe (original_prefixes o ++ requested_prefixes r)
    ∧ granted_deny_patterns d = default [] (deny_patterns o)
    ∧ granted_ttl_seconds d = Z.min (ttl_seconds r) MAX_TTL_SECONDS
    ∧ granted_allow_patterns d = unique (default [] (allow_patterns o) ++ read_patterns r))
    as (-> & -> & -> & -> & ->).
  { unfold d, decide_extension. cbv zeta. rewrite Hu. by repeat case_match. }
  split_and!; [done|intros p; by apply no_new_prefix_covered|done|lia|].
  intros p. rewrite elem_of_unique, elem_of_app. done.
Qed.

Definition reader : Original :=
  mkOriginal (Some ["docs/*"]) (Some ["docs/private/*"]) (Some "out\") None (Some "read_only").
Definition short_read : ScopeRequest := mkRequest "more" ["src/*"] None "read_only" 30 ["out/logs"].

Lemma auto_approve_no_escalation_witness :
  let d := decide_extension reader short_read false true 0 in
  granted_write_prefixes d = ["out/"; "out/logs/"]
  ∧ ∀ p, p ∈ granted_write_prefixes d → _is_prefix_covered p ["out/"] = true.
Proof.
  intros d. split; [reflexivity|].
  destruct (auto_approve_no_escalation reader short_read false true 0) as (_ & H & _); [reflexivity|].
  exact H.
Defined.
