(* ===== verification/Grants.v ===== *)
(** Signed workspace grants (a2a_pack/grants.py of the SDK).

    [Grant] is the payload; [mint_grant] builds one, [delegate_grant] builds a
    child bounded by its parent, [sign_grant] and [verify_grant] turn a grant
    into a token and back.  The field constraints of the class are [checked];
    the clock, the random identifiers, the keys with the Ed25519 operations,
    and the validation of untyped data are parameters.  A call that reads the
    clock twice takes two times. *)
From Stdlib Require Import Ascii.
From S2P Require Import Prelude PyStr PyDict PyFloat PyJson PyJsonText PyHash FnMatch WritePrefix.
Open Scope Z_scope.

Definition DEFAULT_TTL_SECONDS : Z := 5 * 60.
Definition DEFAULT_MAX_DELEGATION_DEPTH : Z := 40.

Inductive WorkspaceMode : Set := READ_ONLY | READ_WRITE_OVERLAY | READ_WRITE_DIRECT.

#[export] Instance mode_eq_dec : EqDecision WorkspaceMode.
Proof. solve_decision. Defined.

Definition mode_value (m : WorkspaceMode) : string :=
  match m with
  | READ_ONLY => "read_only"
  | READ_WRITE_OVERLAY => "read_write_overlay"
  | READ_WRITE_DIRECT => "read_write_direct"
  end.

Definition _MODE_RANK (m : WorkspaceMode) : Z :=
  match m with READ_ONLY => 0 | READ_WRITE_OVERLAY => 1 | READ_WRITE_DIRECT => 2 end.

Inductive source_scope : Set := ReadSource | WriteSource.

#[export] Instance source_scope_eq_dec : EqDecision source_scope.
Proof. solve_decision. Defined.

Definition scope_value (s : source_scope) : string :=
  match s with ReadSource => "read" | WriteSource => "write" end.

Record SourceGrant : Type := mkSource { sg_agent : string; sg_scope : source_scope }.

#[export] Instance source_grant_eq_dec : EqDecision SourceGrant.
Proof. solve_decision. Defined.

Record Grant : Type := mkGrant {
  grant_id : string;
  issuer : string;
  audience : string;
  bucket : string;
  mode : WorkspaceMode;
  allow_patterns : list string;
  deny_patterns : list string;
  outputs_prefix : option string;
  write_prefixes : list string;
  llm_models : list string;
  llm_max_budget_usd : option pyfloat;
  llm_rpm_limit : option Z;
  llm_tpm_limit : option Z;
  source_grants : list SourceGrant;
  parent_grant_id : option string;
  delegation_depth : Z;
  max_delegation_depth : Z;
  expires_at : Z;
  issued_at : Z;
  nonce : string;
}.

#[export] Instance grant_eq_dec : EqDecision Grant.
Proof. solve_decision. Defined.

(** The constraints the class declares on its fields. *)
Definition opt_all {A} (P : A → bool) (o : option A) : bool :=
  match o with Some x => P x | None => true end.

Definition grant_valid (g : Grant) : bool :=
  opt_all (λ x, SpecFloat.SFleb fzero x) (llm_max_budget_usd g)
  && opt_all (λ n, 0 <? n) (llm_rpm_limit g) && opt_all (λ n, 0 <? n) (llm_tpm_limit g)
  && (0 <=? delegation_depth g) && (0 <? max_delegation_depth g)
  && (0 <=? expires_at g) && (0 <=? issued_at g).

Definition checked (g : Grant) : res Grant :=
  if grant_valid g then Ok g else Raise (ValueError "validation error for Grant").

(** The copy [model_copy(update={"write_prefixes": ...})], which is not checked. *)
Definition with_write_prefixes (g : Grant) (ps : list string) : Grant :=
  mkGrant (grant_id g) (issuer g) (audience g) (bucket g) (mode g) (allow_patterns g)
    (deny_patterns g) (outputs_prefix g) ps (llm_models g) (llm_max_budget_usd g)
    (llm_rpm_limit g) (llm_tpm_limit g) (source_grants g) (parent_grant_id g)
    (delegation_depth g) (max_delegation_depth g) (expires_at g) (issued_at g) (nonce g).

(** * The payload *)

Definition jopt_with {A} (f : A → json) (o : option A) : json :=
  match o with Some x => f x | None => JNull end.

Definition source_dump (s : SourceGrant) : json :=
  JObj [("agent", JStr (sg_agent s)); ("scope", JStr (scope_value (sg_scope s)))].

(** [grant.model_dump(mode="json")]: the fields in the order of the class. *)
Definition model_dump (g : Grant) : jobject := [
  ("grant_id", JStr (grant_id g)); ("issuer", JStr (issuer g)); ("audience", JStr (audience g));
  ("bucket", JStr (bucket g)); ("mode", JStr (mode_value (mode g)));
  ("allow_patterns", jstrs (allow_patterns g)); ("deny_patterns", jstrs (deny_patterns g));
  ("outputs_prefix", jopt (outputs_prefix g)); ("write_prefixes", jstrs (write_prefixes g));
  ("llm_models", jstrs (llm_models g));
  ("llm_max_budget_usd", jopt_with JFloat (llm_max_budget_usd g));
  ("llm_rpm_limit", jopt_with JInt (llm_rpm_limit g));
  ("llm_tpm_limit", jopt_with JInt (llm_tpm_limit g));
  ("source_grants", JList (map source_dump (source_grants g)));
  ("parent_grant_id", jopt (parent_grant_id g));
  ("delegation_depth", JInt (delegation_depth g));
  ("max_delegation_depth", JInt (max_delegation_depth g));
  ("expires_at", JInt (expires_at g)); ("issued_at", JInt (issued_at g)); ("nonce", JStr (nonce g))].

(** * Base64 of tokens *)

Definition rstrip_char (c : ascii) (s : string) : string :=
  of_chars (rev (drop_while (Ascii.eqb c) (rev (chars s)))).

Definition _b64encode (b : string) : string := rstrip_char "="%char (urlsafe_b64encode b).

(** The padding for a text of [n] characters. *)
Definition b64_pad (n : nat) : string :=
  of_chars (replicate (Z.to_nat ((- Z.of_nat n) mod 4)) "="%char).

Definition _b64decode (s : string) : res string :=
  let clean := strip s in
  decoded ← urlsafe_b64decode (clean +:+ b64_pad (length (chars clean)));
  if negb (_b64encode decoded =s? rstrip_char "="%char clean)
  then Raise (ValueError "non-canonical base64url encoding") else Ok decoded.

(** [s.rsplit(".", 1)] for a text with a dot: before and after the last one. *)
Definition rsplit_dot (s : string) : string * string :=
  let '(b, a) := split1_chars "."%char [] (rev (chars s)) in
  (of_chars (rev (default [] a)), of_chars (rev b)).

(** * Checks of a delegation *)

Definition denied (b : bool) (msg : string) : res unit :=
  if b then Raise (GrantDelegationDenied msg) else Ok ().

(** A loop whose body may raise. *)
Definition for_all {A} (f : A → res unit) (l : list A) : res unit := _ ← res_map f l; Ok ().

Definition _pattern_covered (pattern : string) (parent_patterns : list string) : bool :=
  existsb (λ parent, (parent =s? "**") || (parent =s? pattern) || fnmatch pattern parent)
    parent_patterns.

Definition outside (prefix : string) : string :=
  "child write prefix " +:+ repr_str prefix +:+ " is outside parent grant".

Definition _assert_write_scope_within_parent (parent : Grant) (child_write_prefixes : list string)
    : res unit :=
  match child_write_prefixes with
  | [] => Ok ()
  | _ =>
      _ ← denied (bool_decide (mode parent = READ_ONLY)) "read-only parent grant cannot delegate writes";
      match _normalize_write_prefixes (outputs_prefix parent) (write_prefixes parent) with
      | [] => for_all (λ prefix,
                let probe := rstrip_char "/"%char prefix +:+ "/__a2a_probe__" in
                denied (negb (_pattern_covered probe (allow_patterns parent))) (outside prefix))
                child_write_prefixes
      | parents => for_all (λ prefix,
                denied (negb (_matches_write_prefix prefix parents)) (outside prefix))
                child_write_prefixes
      end
  end.

(** One numeric allowance of the language model: [gt x y] is [x > y]. *)
Definition within {A} (gt : A → A → bool) (name : string) (parent child : option A) : res unit :=
  match child, parent with
  | None, _ => Ok ()
  | Some _, None => Raise (GrantDelegationDenied ("parent grant has no LLM " +:+ name +:+ " allowance"))
  | Some c, Some p => denied (gt c p) ("child LLM " +:+ name +:+ " exceeds parent grant")
  end.

Definition missing_models (child parent : list string) : list string :=
  sorted_set (list_to_set child ∖ list_to_set parent).

Definition _assert_llm_scope_within_parent (parent : Grant) (models : list string)
    (budget : option pyfloat) (rpm tpm : option Z) : res unit :=
  _ ← match models with
      | [] => Ok ()
      | _ =>
          match llm_models parent with
          | [] => Raise (GrantDelegationDenied "parent grant has no LLM model allowance")
          | allowed =>
              let missing := missing_models models allowed in
              denied (negb (bool_decide (missing = [])))
                ("child LLM models outside parent grant: " +:+ py_repr (jstrs missing))
          end
      end;
  _ ← within (λ c p, flt p c) "budget" (llm_max_budget_usd parent) budget;
  _ ← within Z.gtb "RPM" (llm_rpm_limit parent) rpm;
  within Z.gtb "TPM" (llm_tpm_limit parent) tpm.

(** [{item.agent: item.scope for item in parent.source_grants}]. *)
Definition scopes_of (l : list SourceGrant) : dict source_scope :=
  foldl (λ (d : dict source_scope) s, <[sg_agent s := sg_scope s]> d) [] l.

Definition check_source (scopes : dict source_scope) (child : SourceGrant) : res unit :=
  match scopes !! sg_agent child with
  | None => Raise (GrantDelegationDenied
      ("child source grant " +:+ repr_str (sg_agent child) +:+ " is outside parent grant"))
  | Some scope =>
      denied (bool_decide (scope = ReadSource) && bool_decide (sg_scope child = WriteSource))
        ("child source grant " +:+ repr_str (sg_agent child) +:+ " exceeds parent source scope")
  end.

Definition _assert_source_scope_within_parent (parent : Grant) (child : list SourceGrant) : res unit :=
  for_all (check_source (scopes_of (source_grants parent))) child.

Definition _bounded_ttl (now : Z) (parent : Grant) (requested_ttl_seconds : Z) : res Z :=
  if expires_at parent =? 0 then Ok requested_ttl_seconds
  else
    let remaining := expires_at parent - now in
    _ ← denied (remaining <=? 0) "parent grant is expired";
    Ok (Z.max 0 (Z.min requested_ttl_seconds remaining)).

(** * Minting, delegating, signing, verifying *)

(** An element of [source_grants]: already a [SourceGrant], or a dict. *)
Definition source_item : Type := SourceGrant + jobject.

(** The keyword arguments [mint_grant] and [delegate_grant] share. *)
Record Ask : Type := mkAsk {
  ask_issuer : string;
  ask_audience : string;
  ask_bucket : option string;
  ask_mode : WorkspaceMode;
  ask_allow : list string;
  ask_deny : list string;
  ask_outputs : option string;
  ask_writes : list string;
  ask_models : list string;
  ask_budget : option pyfloat;
  ask_rpm : option Z;
  ask_tpm : option Z;
  ask_sources : list source_item;
  ask_ttl : Z;
}.

(** What a delegation adds: the parent and the depths. *)
Record Lineage : Type := mkLineage {
  lin_parent : option string;
  lin_depth : Z;
  lin_max : Z;
}.

Definition no_lineage : Lineage := mkLineage None 0 DEFAULT_MAX_DELEGATION_DEPTH.

Section tokens.
(** The Ed25519 keys: read from their text, and used. *)
Context {private public : Type}.
Context (_ed25519_private_key : string → res private) (_ed25519_public_key : string → res public).
Context (public_key : private → public) (sign : private → string → string).
Context (verify : public → string → string → bool).

(** The environment variables with the keys. *)
Context (signing_env verifying_env : string).

(** Pydantic's validation of a dict: a [SourceGrant], and a whole [Grant]. *)
Context (validate_source : jobject → res SourceGrant) (model_validate : json → res Grant).

Definition _grant_signing_key_env : string := strip signing_env.
Definition _grant_verifying_key_env : string := strip verifying_env.

Definition _ed25519_verifying_key : res (option public) :=
  if negb (_grant_verifying_key_env =s? "") then Some <$> _ed25519_public_key _grant_verifying_key_env
  else if negb (_grant_signing_key_env =s? "")
  then (Some ∘ public_key) <$> _ed25519_private_key _grant_signing_key_env
  else Ok None.

Definition _required_signing_key : res private :=
  if _grant_signing_key_env =s? "" then Raise (RuntimeError "A2A_GRANT_SIGNING_KEY is required")
  else _ed25519_private_key _grant_signing_key_env.

Definition _required_verifying_key : res public :=
  key ← _ed25519_verifying_key;
  match key with
  | Some k => Ok k
  | None => Raise (GrantInvalid "A2A_GRANT_VERIFYING_KEY is required")
  end.

Definition normalized (g : Grant) : Grant :=
  let ps := _normalize_write_prefixes (outputs_prefix g) (write_prefixes g) in
  if bool_decide (write_prefixes g = ps) then g else with_write_prefixes g ps.

Definition sign_grant (grant : Grant) : res string :=
  let payload := dumps false (JObj (model_dump (normalized grant))) in
  key ← _required_signing_key;
  Ok (_b64encode payload +:+ "." +:+ _b64encode (sign key payload)).

Definition source_of (i : source_item) : res SourceGrant :=
  match i with inl s => Ok s | inr d => validate_source d end.

(** [now] is the clock, [new_id] and [new_nonce] the random identifiers. *)
Definition mint_grant (now : Z) (new_id new_nonce : string) (a : Ask) (bucket : string) (l : Lineage)
    : res (Grant * string) :=
  sources ← res_map source_of (ask_sources a);
  grant ← checked {|
    grant_id := new_id; issuer := ask_issuer a; audience := ask_audience a; bucket := bucket;
    mode := ask_mode a; allow_patterns := ask_allow a; deny_patterns := ask_deny a;
    outputs_prefix := ask_outputs a;
    write_prefixes := _normalize_write_prefixes (ask_outputs a) (ask_writes a);
    llm_models := ask_models a; llm_max_budget_usd := ask_budget a; llm_rpm_limit := ask_rpm a;
    llm_tpm_limit := ask_tpm a; source_grants := sources;
    parent_grant_id := lin_parent l; delegation_depth := lin_depth l;
    max_delegation_depth := lin_max l; expires_at := now + ask_ttl a; issued_at := now;
    nonce := new_nonce |};
  token ← sign_grant grant;
  Ok (grant, token).

Definition check_mode (parent : Grant) (m : WorkspaceMode) : res unit :=
  denied (_MODE_RANK (mode parent) <? _MODE_RANK m)
    ("child grant mode " +:+ repr_str (mode_value m) +:+ " exceeds parent mode "
     +:+ repr_str (mode_value (mode parent))).

Definition check_pattern (parent : Grant) (pattern : string) : res unit :=
  denied (negb (_pattern_covered pattern (allow_patterns parent)))
    ("child read pattern " +:+ repr_str pattern +:+ " is outside parent grant").

(** [allow_patterns or ("**",)]. *)
Definition allow_or_all (l : list string) : list string := match l with [] => ["**"] | _ => l end.

(** The checks, and the arguments for [mint_grant].  [now] is the clock of
[_bounded_ttl]. *)
Definition delegation (now : Z) (parent : Grant) (a : Ask) : res (Ask * Lineage) :=
  let child_bucket := if truthy_text (ask_bucket a) then default "" (ask_bucket a) else bucket parent in
  _ ← denied (negb (child_bucket =s? bucket parent)) "child grant bucket must match parent grant";
  _ ← denied (max_delegation_depth parent <=? delegation_depth parent)
        "maximum grant delegation depth reached";
  _ ← check_mode parent (ask_mode a);
  let child_allow := allow_or_all (ask_allow a) in
  _ ← for_all (check_pattern parent) child_allow;
  let child_write_prefixes := _normalize_write_prefixes (ask_outputs a) (ask_writes a) in
  _ ← _assert_write_scope_within_parent parent child_write_prefixes;
  _ ← _assert_llm_scope_within_parent parent (ask_models a) (ask_budget a) (ask_rpm a) (ask_tpm a);
  child_source_grants ← res_map source_of (ask_sources a);
  _ ← _assert_source_scope_within_parent parent child_source_grants;
  ttl ← _bounded_ttl now parent (ask_ttl a);
  Ok ({| ask_issuer := ask_issuer a; ask_audience := ask_audience a; ask_bucket := Some child_bucket;
         ask_mode := ask_mode a; ask_allow := child_allow;
         ask_deny := _merge_patterns (deny_patterns parent) (ask_deny a);
         ask_outputs := ask_outputs a; ask_writes := child_write_prefixes;
         ask_models := ask_models a; ask_budget := ask_budget a; ask_rpm := ask_rpm a;
         ask_tpm := ask_tpm a; ask_sources := map inl child_source_grants; ask_ttl := ttl |},
      {| lin_parent := Some (grant_id parent); lin_depth := delegation_depth parent + 1;
         lin_max := max_delegation_depth parent |}).

(** [now] is read before [now'], when the child is minted. *)
Definition delegate_grant (now now' : Z) (new_id new_nonce : string) (parent : Grant) (a : Ask)
    : res (Grant * string) :=
  '(b, l) ← delegation now parent a;
  mint_grant now' new_id new_nonce b (default "" (ask_bucket b)) l.

(** The signed payload of a token, or the failure. *)
Definition decode_token (token : string) : res (string * string) :=
  if (token =s? "") || negb (contains "." token) then Raise (GrantInvalid "malformed grant token")
  else
    let '(payload_b64, sig_b64) := rsplit_dot token in
    match (payload ← _b64decode payload_b64; sig ← _b64decode sig_b64; Ok (payload, sig)) with
    | Ok p => Ok p
    | Raise _ => Raise (GrantInvalid "grant decode failed")
    end.

Definition after_validation (grant : Grant) : Grant :=
  match write_prefixes grant with
  | [] => if truthy_text (outputs_prefix grant)
          then with_write_prefixes grant (_normalize_write_prefixes (outputs_prefix grant) [])
          else grant
  | _ => grant
  end.

Definition verify_grant (now : Z) (token : string) : res Grant :=
  '(payload, sig) ← decode_token token;
  key ← _required_verifying_key;
  if negb (verify key sig payload) then Raise (GrantInvalid "grant signature mismatch")
  else
    match (data ← json_loads_bytes payload; model_validate data) with
    | Raise _ => Raise (GrantInvalid "grant payload invalid")
    | Ok g =>
        let grant := after_validation g in
        if negb (expires_at grant =? 0) && (expires_at grant <? now)
        then Raise (GrantInvalid ("grant expired at " +:+ dec (expires_at grant)))
        else Ok grant
    end.
End tokens.
