(* ===== verification/GrantTokens.v ===== *)
(** Grant tokens on the control plane (control_plane/grants.py).

    The control plane keeps its own small version of the SDK's grants: a
    payload is a dict, which is signed and, when verified, handed to the file
    routes as it is.  Keys and signatures are parameters, as in [Grants]. *)
From Stdlib Require Import Ascii.
From S2P Require Import Prelude PyStr PyDict PyFloat PyJson PyJsonText PyHash WritePrefix Grants.
Open Scope Z_scope.

Definition normalize_write_prefixes : option string → list string → list string :=
  _normalize_write_prefixes.

(** [item.get("agent") or item.get("repo") or item.get("name") or ""], as text. *)
Definition named_agent (item : jobject) : string :=
  strip (py_str (py_or (jget item "agent") (py_or (jget item "repo") (py_or (jget item "name") (JStr ""))))).

Definition named_scope (item : jobject) : string :=
  lower (strip (py_str (py_or (jget item "scope") (JStr "read")))).

Definition add_source (grants : list (string * string)) (item : json) : list (string * string) :=
  match item with
  | JObj d =>
      let agent := named_agent d in
      let scope := named_scope d in
      if (agent =s? "") || negb ((scope =s? "read") || (scope =s? "write")) then grants
      else if bool_decide ((agent, scope) ∈ grants) then grants else grants ++ [(agent, scope)]
  | _ => grants
  end.

Definition normalize_source_grants (source_grants : list json) : list (string * string) :=
  foldl add_source [] source_grants.

(** [x < n] for a JSON value and an integer. *)
Definition json_lt (x : json) (n : Z) : res bool :=
  match x with
  | JInt m => Ok (m <? n)
  | JBool b => Ok ((if b then 1 else 0) <? n)
  | JFloat f => Ok (flt f (f_round n))
  | _ => Raise TypeError
  end.

(** The arguments of [mint_grant_token]. *)
Record MintToken : Type := mkMint {
  mt_issuer : string;
  mt_audience : string;
  mt_bucket : string;
  mt_mode : string;
  mt_allow : list string;
  mt_deny : list string;
  mt_outputs : option string;
  mt_writes : list string;
  mt_models : list string;
  mt_budget : option pyfloat;
  mt_rpm : option Z;
  mt_tpm : option Z;
  mt_sources : list json;
  mt_ttl : Z;
}.

Definition mint_payload (now : Z) (new_id new_nonce : string) (a : MintToken) : jobject := [
  ("grant_id", JStr new_id); ("issuer", JStr (mt_issuer a)); ("audience", JStr (mt_audience a));
  ("bucket", JStr (mt_bucket a)); ("mode", JStr (mt_mode a));
  ("allow_patterns", jstrs (mt_allow a)); ("deny_patterns", jstrs (mt_deny a));
  ("outputs_prefix", jopt (mt_outputs a));
  ("write_prefixes", jstrs (normalize_write_prefixes (mt_outputs a) (mt_writes a)));
  ("llm_models", jstrs (mt_models a)); ("llm_max_budget_usd", jopt_with JFloat (mt_budget a));
  ("llm_rpm_limit", jopt_with JInt (mt_rpm a)); ("llm_tpm_limit", jopt_with JInt (mt_tpm a));
  ("expires_at", JInt (now + mt_ttl a)); ("issued_at", JInt now); ("nonce", JStr new_nonce);
  ("source_grants", JList (map (λ '(agent, scope),
     JObj [("agent", JStr agent); ("scope", JStr scope)]) (normalize_source_grants (mt_sources a))))].

Definition _b64d (s : string) : res string :=
  urlsafe_b64decode (s +:+ b64_pad (length (chars s))).

(** The payload and the signature of a token. *)
Definition token_parts (token : string) : res (string * string) :=
  if (token =s? "") || negb (contains "." token) then Raise (GrantInvalid "malformed grant token")
  else
    let '(payload_b64, sig_b64) := rsplit_dot token in
    match (payload ← _b64d payload_b64; sig ← _b64d sig_b64; Ok (payload, sig)) with
    | Raise _ => Raise (GrantInvalid "grant decode failed")
    | Ok p => Ok p
    end.

(** [data["write_prefixes"] = ...] when there is none but an output prefix. *)
Definition fill_write_prefixes (data : jobject) : jobject :=
  let outputs := jget data "outputs_prefix" in
  if negb (truthy (jget data "write_prefixes")) && truthy outputs
  then <["write_prefixes" := jstrs (normalize_write_prefixes (Some (py_str outputs)) [])]> data
  else data.

(** [expires_at and expires_at < now]. *)
Definition is_expired (now : Z) (expires : json) : res bool :=
  if truthy expires then json_lt expires now else Ok false.

Section tokens.
Context {private public : Type}.
Context (_ed25519_private_key : string → res private) (_ed25519_public_key : string → res public).
Context (public_key : private → public) (sign : private → string → string).
Context (verify : public → string → string → bool).
Context (signing_env verifying_env : string).

Definition mint_grant_token (now : Z) (new_id new_nonce : string) (a : MintToken)
    : res (string * jobject) :=
  let payload := mint_payload now new_id new_nonce a in
  let body := dumps true (JObj payload) in
  key ← _required_signing_key _ed25519_private_key signing_env;
  Ok (_b64encode body +:+ "." +:+ _b64encode (sign key body), payload).

Definition verify_grant_token (now : Z) (token : string) : res jobject :=
  '(payload, sig) ← token_parts token;
  key ← _required_verifying_key _ed25519_private_key _ed25519_public_key public_key
          signing_env verifying_env;
  if negb (verify key sig payload) then Raise (GrantInvalid "grant signature mismatch")
  else
    match json_loads_bytes payload with
    | Raise (ValueError "JSONDecodeError") => Raise (GrantInvalid "grant payload invalid")
    | Raise e => Raise e
    | Ok (JObj data) =>
        expired ← is_expired now (jget data "expires_at");
        if (expired : bool)
        then Raise (GrantInvalid ("grant expired at " +:+ py_str (jget data "expires_at")))
        else Ok (fill_write_prefixes data)
    | Ok _ => Raise AttributeError
    end.
End tokens.
