(* ===== verification/GrantService.v ===== *)
(** The grant-scoped file routes (control_plane/routes/workspace_grants.py).

    A handler verifies the grant of the request, checks the path, and calls the
    services behind it: the object store, the source repositories, the
    database.  [prog] is a program that makes such calls, one constructor of
    [call] per function; whatever a service answers is possible, so what holds
    of every call of a program holds whatever the services do.  The wait
    between two attempts of a write is left out. *)
From Stdlib Require Import Ascii.
From S2P Require Import Prelude PyStr PyDict PyFloat PyJson PyHash FnMatch WritePrefix.
From S2P Require Import Grants GrantTokens.
Open Scope Z_scope.

Definition http {A} (status : Z) (detail : string) : res A := Raise (HTTPException status detail).

(** * The decisions on a grant, which is the dict of a verified token *)

Definition _GRANT_FILE_LIST_DEFAULT_LIMIT : Z := 500.
Definition _GRANT_FILE_LIST_MAX_LIMIT : Z := 1000.

Definition _clean_file_list_limit (limit : option Z) : Z :=
  let value := match limit with
               | Some n => if n =? 0 then _GRANT_FILE_LIST_DEFAULT_LIMIT else n
               | None => _GRANT_FILE_LIST_DEFAULT_LIMIT
               end in
  Z.max 1 (Z.min value _GRANT_FILE_LIST_MAX_LIMIT).

Definition lstrip_char (c : ascii) (s : string) : string := of_chars (drop_while (Ascii.eqb c) (chars s)).

Definition join_slash (parts : list string) : string := String.concat "/" parts.

Definition path_parts (raw : string) : list string :=
  List.filter (λ p, negb (p =s? "") && negb (p =s? "."))
    (split "/"%char (lstrip_char "/"%char (replace_char "\"%char "/"%char (strip raw)))).

Definition _sanitize_key (raw : string) : res string :=
  let parts := path_parts raw in
  if match parts with [] => true | _ => existsb (λ p, p =s? "..") parts end
  then http 400 "invalid workspace path" else Ok (join_slash parts).

(** [s[len(pre):]] when [s] begins with [pre]. *)
Definition after (pre s : string) : string := of_chars (drop (String.length pre) (chars s)).

Definition is_bookkeeping (inner : string) : bool :=
  (inner =s? ".a2a-builder-state.json") || startswith inner ".agent-builder/".

Definition _workspace_route (path : string) : option (string * string) :=
  if negb (startswith path "agents/") then None
  else
    let '(repo, rest) := split1 "/"%char (after "agents/" path) in
    let inner := default "" rest in
    if (repo =s? "") || is_bookkeeping inner then None else Some (repo, inner).

(** The digits of a bucket named [user-<digits>-files]; the pattern's end also
matches before a final newline. *)
Definition user_bucket (bucket : string) : option string :=
  let body := if endswith bucket (String (ascii_of_N 10) "") then drop_last bucket else bucket in
  let mid := take (String.length body - 11) (chars (after "user-" body)) in
  if startswith body "user-" && endswith body "-files" && (11 <? Z.of_nat (String.length body))
     && forallb is_digit mid
  then Some (of_chars mid) else None.

Definition _grant_user_id (grant : jobject) : res (option Z) :=
  user_id ← match py_int (jget grant "user_id") with
            | Ok n => Ok n
            | Raise TypeError | Raise (ValueError _) => Ok 0
            | Raise e => Raise e
            end;
  if 0 <? user_id then Ok (Some user_id)
  else match user_bucket (py_str (py_or (jget grant "bucket") (JStr ""))) with
       | Some digits => Some <$> int_of_text digits
       | None => Ok None
       end.

(** [tuple(str(p) for p in grant.get(k) or dflt)]. *)
Definition texts_of (grant : jobject) (k : string) (dflt : list string) : res (list string) :=
  py_str_list (py_or (jget grant k) (jstrs dflt)).

Definition _allowed (grant : jobject) (path : string) : res bool :=
  allow_patterns ← texts_of grant "allow_patterns" ["**"];
  deny_patterns ← texts_of grant "deny_patterns" [];
  Ok (existsb (fnmatch path) allow_patterns && negb (existsb (fnmatch path) deny_patterns)).

Definition text_only (j : json) : option string := match j with JStr s => Some s | _ => None end.

(** A path under one of the prefixes, both without outer slashes. *)
Definition under_prefixes (path : string) (prefixes : list string) : bool :=
  let clean := strip_char "/"%char path in
  existsb (λ prefix, let p := strip_char "/"%char prefix in negb (p =s? "") && under clean p) prefixes.

Definition _writable (grant : jobject) (path : string) : res bool :=
  if py_str (py_or (jget grant "mode") (JStr "read_only")) =s? "read_only" then Ok false
  else
    given ← texts_of grant "write_prefixes" [];
    match normalize_write_prefixes (text_only (jget grant "outputs_prefix")) given with
    | [] => _allowed grant path
    | prefixes => Ok (under_prefixes path prefixes)
    end.

(** The items of a list of source grants; a dict gives its keys, a text its
characters, and neither is a dict. *)
Definition source_items (grant : jobject) : res (list json) :=
  match py_or (jget grant "source_grants") (JList []) with
  | JList l => Ok l
  | JObj _ | JStr _ => Ok []
  | _ => Raise TypeError
  end.

(** The explicit scope of a repository: the strongest one listed for it. *)
Fixpoint best_scope (repo : string) (best : option string) (items : list json) : option string :=
  match items with
  | [] => best
  | JObj d :: items' =>
      if negb (named_agent d =s? repo) then best_scope repo best items'
      else if named_scope d =s? "write" then Some "write"
      else best_scope repo (if named_scope d =s? "read" then Some "read" else best) items'
  | _ :: items' => best_scope repo best items'
  end.

Definition _source_grant_scope (grant : jobject) (repo : string) : res (option string) :=
  items ← source_items grant; Ok (best_scope repo None items).

(** * What a listing looks into *)

Definition is_wild (c : ascii) : bool := Ascii.eqb c "*" || Ascii.eqb c "?" || Ascii.eqb c "[".

Definition has_any (p : ascii → bool) (s : string) : bool := existsb p (chars s).

Fixpoint take_while (p : ascii → bool) (l : list ascii) : list ascii :=
  match l with c :: l' => if p c then c :: take_while p l' else [] | [] => [] end.

(** [s.rsplit("/", 1)[0]] for a text with a slash. *)
Definition before_last_slash (s : string) : string :=
  of_chars (rev (default [] (split1_chars "/"%char [] (rev (chars s))).2)).

Definition _pattern_literal_prefix (directory_for_wildcard : bool) (pattern : string) : string :=
  let clean := clean_prefix pattern in
  if negb (has_any is_wild clean) then clean
  else
    let prefix := of_chars (take_while (λ c, negb (is_wild c)) (chars clean)) in
    if directory_for_wildcard && negb (prefix =s? "") && negb (endswith prefix "/") then
      if negb (contains "/" prefix) then ""
      else strip_char "/"%char (before_last_slash prefix +:+ "/")
    else strip_char "/"%char prefix.

(** Shorter first, then by text. *)
Definition prefix_le (x y : string) : Prop :=
  (String.length x < String.length y)%nat ∨ (String.length x = String.length y ∧ str_le x y).

#[export] Instance prefix_le_dec x y : Decision (prefix_le x y).
Proof. unfold prefix_le, str_le. apply _. Defined.

Definition add_collapsed (collapsed : list string) (prefix : string) : list string :=
  if existsb (λ existing, (existing =s? "") || (prefix =s? existing)
       || startswith prefix (rstrip_char "/"%char existing +:+ "/")) collapsed
  then collapsed else collapsed ++ [prefix].

Definition _collapse_prefixes (prefixes : list string) : list string :=
  foldl add_collapsed []
    (merge_sort prefix_le (elements (list_to_set (map (strip_char "/"%char) prefixes) : gset string))).

Definition _grant_minio_prefixes (grant : jobject) : res (list string) :=
  allow_patterns ← texts_of grant "allow_patterns" ["**"];
  Ok (_collapse_prefixes (map (_pattern_literal_prefix false) allow_patterns)).

Definition is_wild_or_close (c : ascii) : bool := is_wild c || Ascii.eqb c "]".

Definition add_repo (repos : list string) (repo : string) : list string :=
  if (repo =s? "") || has_any is_wild_or_close repo then repos else add_once repo repos.

Definition repo_of_value (value : string) : option string :=
  let clean := clean_prefix value in
  if negb (startswith clean "agents/") then None
  else Some (strip (split1 "/"%char (after "agents/" clean)).1).

Definition _agent_repos_from_grant (grant : jobject) : res (list string) :=
  allow ← texts_of grant "allow_patterns" [];
  writes ← texts_of grant "write_prefixes" [];
  let values := allow ++ writes ++ option_list (text_only (jget grant "outputs_prefix")) in
  items ← source_items grant;
  let named := omap (λ j, match j with JObj d => Some (named_agent d) | _ => None end) items in
  Ok (foldl add_repo (foldl add_repo [] named) (omap repo_of_value values)).

Definition _repo_wildcard_inner_prefix (pattern repo : string) : option string :=
  let clean := clean_prefix pattern in
  if negb (startswith clean "agents/") then None
  else
    let '(repo_pattern, inner_pattern) := split1 "/"%char (after "agents/" clean) in
    if (repo_pattern =s? "") || negb (fnmatch repo repo_pattern) then None
    else match inner_pattern with
         | None => Some ""
         | Some inner => Some (_pattern_literal_prefix true inner)
         end.

Definition inner_prefix_of (repo pattern : string) : option string :=
  let prefix := _pattern_literal_prefix true pattern in
  let repo_root := "agents/" +:+ repo in
  if (prefix =s? "") || (prefix =s? repo_root) then Some ""
  else if startswith prefix (repo_root +:+ "/") then Some (after (repo_root +:+ "/") prefix)
  else if has_any is_wild pattern then _repo_wildcard_inner_prefix pattern repo
  else None.

Definition _grant_repo_inner_prefixes (grant : jobject) (repo : string) : res (list string) :=
  allow_patterns ← texts_of grant "allow_patterns" ["**"];
  Ok (_collapse_prefixes (omap (inner_prefix_of repo) allow_patterns)).

Example allowed_1 : map (_allowed [("allow_patterns", jstrs ["data/*"]); ("deny_patterns", jstrs ["*/secret*"])])
    ["data/a/b"; "data/secret.txt"; "other"] = [Ok true; Ok false; Ok false].
Proof. vm_compute. reflexivity. Qed.
Example sanitize_1 : map _sanitize_key [" /a//./b\c "; "a/../b"; "/"; "..a"]
  = [Ok "a/b/c"; http 400 "invalid workspace path"; http 400 "invalid workspace path"; Ok "..a"].
Proof. vm_compute. reflexivity. Qed.
Example route_1 : map _workspace_route ["agents/demo/src/x.py"; "agents/demo"; "data"; "agents/d/.agent-builder/x"]
  = [Some ("demo", "src/x.py"); Some ("demo", ""); None; None].
Proof. vm_compute. reflexivity. Qed.
Example user_1 : map (λ b, _grant_user_id [("bucket", JStr b)]) ["user-17-files"; "user--files"; "x"]
  = [Ok (Some 17); Ok None; Ok None].
Proof. vm_compute. reflexivity. Qed.
Example minio_1 : _grant_minio_prefixes [("allow_patterns", jstrs ["data/*"; "data/x/**"; "docs/a?"])]
  = Ok ["data"; "docs/a"].
Proof. vm_compute. reflexivity. Qed.
Example repos_1 : let g := [("allow_patterns", jstrs ["agents/*/src/*"; "agents/demo/lib/f*"]);
    ("source_grants", JList [JObj [("agent", JStr " site "); ("scope", JStr "WRITE")]])] in
  (_agent_repos_from_grant g, _grant_repo_inner_prefixes g "demo", _source_grant_scope g "site")
  = (Ok ["site"; "demo"], Ok ["lib"; "src"], Ok (Some "write")).
Proof. vm_compute. reflexivity. Qed.

(** * Calls of the services *)

(** What a source repository answers. *)
Inductive gitea (A : Type) : Type :=
  | GOk (a : A)
  | GiteaAuthError
  | GiteaError (msg : string).
Arguments GOk {A} a.
Arguments GiteaAuthError {A}.
Arguments GiteaError {A} msg.

(** The columns of an agent's row that are read, and the backend of a repository. *)
Record AgentRow : Type := mkAgent { row_name : string; owner_id : Z; gitea_owner : option string }.
Record GiteaBackend : Type := mkBackend { gb_owner : string; gb_repo : string; gb_token : string }.

Inductive call : Type → Type :=
  | get_file (bucket key : string) : call (option (string * string))
  | stat_file (bucket key : string) : call (option jobject)
  | upload_file (bucket key body : string) (content_type : option string) : call jobject
  | delete_file (bucket key : string) : call (option unit)
  | list_files (bucket prefix : string) : call (list jobject)
  | find_agent (name : string) : call (option AgentRow)
  | get_user (id : Z) : call bool
  | resolve_workspace (id : Z) : call (option string + string)
  | ensure_repo (repo owner : string) : call unit
  | repo_exists (repo owner : string) : call bool
  | require_access (user_id : Z) (a : AgentRow) (action : string) : call (option string)
  | mint_scoped_token (scope owner repo : string) (ttl_seconds user_id : Z) (purpose : string)
      : call (string + string)
  | repo_read (b : GiteaBackend) (path : string) : call (gitea string)
  | repo_write (b : GiteaBackend) (path body : string) : call (gitea unit)
  | repo_delete (b : GiteaBackend) (path : string) : call (gitea unit)
  | repo_files (b : GiteaBackend) (prefix : string) (limit : Z) : call (gitea (list jobject)).

(** A program: its result, an exception, or a call and what follows the answer. *)
Inductive prog (A : Type) : Type :=
  | Ret (a : A)
  | Fail (e : exc)
  | Do {X : Type} (c : call X) (k : X → prog A).
Arguments Ret {A} a.
Arguments Fail {A} e.
Arguments Do {A X} c k.

Fixpoint prog_bind {A B} (f : A → prog B) (m : prog A) : prog B :=
  match m with
  | Ret a => f a
  | Fail e => Fail e
  | Do c k => Do c (λ x, prog_bind f (k x))
  end.
#[export] Instance prog_mbind : MBind prog := @prog_bind.
#[export] Instance prog_mret : MRet prog := @Ret.

Definition ask {X} (c : call X) : prog X := Do c Ret.
Definition pure {A} (m : res A) : prog A := match m with Ok a => Ret a | Raise e => Fail e end.
Definition fail_http {A} (status : Z) (detail : string) : prog A := Fail (HTTPException status detail).

(** [try: m except HTTPException as exc: h]. *)
Fixpoint catch_http {A} (m : prog A) (h : Z → string → prog A) : prog A :=
  match m with
  | Ret a => Ret a
  | Fail (HTTPException s d) => h s d
  | Fail e => Fail e
  | Do c k => Do c (λ x, catch_http (k x) h)
  end.

Inductive response : Type :=
  | RFile (content media_type : string)
  | RStat (headers : jobject)
  | RJson (j : json)
  | RNone.

Definition text_plain : string := "text/plain; charset=utf-8".

(** The body of a delegation request, and the constraints its class declares. *)
Record WorkspaceGrantDelegateIn : Type := mkDelegateIn {
  in_audience : string;
  in_allow : list string;
  in_deny : list string;
  in_mode : string;
  in_outputs : option string;
  in_writes : list string;
  in_sources : list jobject;
  in_models : list string;
  in_budget : option pyfloat;
  in_rpm : option Z;
  in_tpm : option Z;
  in_ttl : Z;
}.

Definition delegate_in_valid (b : WorkspaceGrantDelegateIn) : bool :=
  let n := Z.of_nat (String.length (in_audience b)) in
  (1 <=? n) && (n <=? 255) && opt_all (λ x, SpecFloat.SFleb fzero x) (in_budget b)
  && opt_all (λ k, 1 <=? k) (in_rpm b) && opt_all (λ k, 1 <=? k) (in_tpm b)
  && (1 <=? in_ttl b) && (in_ttl b <=? 7200).

Definition mode_of (v : string) : res WorkspaceMode :=
  if v =s? "read_only" then Ok READ_ONLY
  else if v =s? "read_write_overlay" then Ok READ_WRITE_OVERLAY
  else if v =s? "read_write_direct" then Ok READ_WRITE_DIRECT
  else Raise (ValueError "not a valid WorkspaceMode").

Definition ask_of (parent : Grant) (mode : WorkspaceMode) (b : WorkspaceGrantDelegateIn) : Ask := {|
  ask_issuer := audience parent; ask_audience := in_audience b; ask_bucket := None;
  ask_mode := mode; ask_allow := in_allow b; ask_deny := in_deny b; ask_outputs := in_outputs b;
  ask_writes := in_writes b; ask_models := in_models b; ask_budget := in_budget b;
  ask_rpm := in_rpm b; ask_tpm := in_tpm b; ask_sources := map inr (in_sources b);
  ask_ttl := in_ttl b |}.

(** [str(x or GITEA_USER)]. *)
Definition owner_or (gitea_user : string) (o : option string) : string :=
  if truthy_text o then default "" o else gitea_user.

Section routes.
(** The verifier of tokens, the configured account, the clock. *)
Context (verify_token : string → res jobject) (GITEA_USER : string) (now : Z).

Definition _grant_from_header (x_a2a_grant : option string) : res jobject :=
  if truthy_text x_a2a_grant then
    match verify_token (default "" x_a2a_grant) with
    | Raise (GrantInvalid msg) => http 403 ("invalid grant: " +:+ msg)
    | Raise e => Raise e
    | Ok grant =>
        if py_str (py_or (jget grant "bucket") (JStr "")) =s? ""
        then http 403 "invalid grant: missing bucket" else Ok grant
    end
  else http 401 "missing X-A2A-Grant".

Definition bucket_of (grant : jobject) : string := py_str (jget grant "bucket").

Definition _assert_grant_user_can_access_agent_source (user_id : Z) (a : AgentRow) (scope : string)
    : prog unit :=
  if owner_id a =? user_id then mret ()
  else
    refused ← ask (require_access user_id a (if scope =s? "write" then "edit_existing" else "fork"));
    match refused with
    | None => mret ()
    | Some reason =>
        fail_http 403 ("grant user is not permitted to access this agent source: " +:+ reason)
    end.

(** The owner of a repository no agent has a row for: the workspace of the user. *)
Definition workspace_owner (user_id : Z) (repo scope : string) : prog string :=
  known ← ask (get_user user_id);
  if negb known then fail_http 403 "grant workspace owner not found"
  else
    workspace ← ask (resolve_workspace user_id);
    match workspace with
    | inr msg => fail_http 403 msg
    | inl org =>
        let owner := owner_or GITEA_USER org in
        if scope =s? "write" then _ ← ask (ensure_repo repo owner); mret owner
        else
          exists_ ← ask (repo_exists repo owner);
          if exists_ : bool then mret owner
          else fail_http 404 ("agent source repo not found: " +:+ repo)
    end.

Definition token_ttl (expires_at : Z) : Z :=
  if expires_at =? 0 then 300 else Z.max 60 (Z.min 900 (expires_at - now)).

Definition _gitea_backend_for_grant (grant : jobject) (repo scope : string) : prog GiteaBackend :=
  agent ← ask (find_agent repo);
  issued_by ← pure (_grant_user_id grant);
  source_scope ← pure (_source_grant_scope grant repo);
  match source_scope with
  | None => fail_http 403 "grant does not include agent source access"
  | Some s =>
      if (scope =s? "write") && negb (s =s? "write")
      then fail_http 403 "grant does not include write access to agent source"
      else
        match issued_by with
        | None => fail_http 403 "grant does not identify a workspace owner"
        | Some user_id =>
            owner ← match agent with
                    | None => workspace_owner user_id repo scope
                    | Some a =>
                        _ ← _assert_grant_user_can_access_agent_source user_id a scope;
                        mret (owner_or GITEA_USER (gitea_owner a))
                    end;
            expires_at ← pure (int_field grant "expires_at");
            minted ← ask (mint_scoped_token (if scope =s? "write" then "write" else "read") owner repo
              (token_ttl expires_at) user_id
              ("workspace-grants:" +:+ py_str (py_or (jget grant "audience") (JStr ""))));
            match minted with
            | inl secret => mret (mkBackend owner repo secret)
            | inr msg => fail_http 502 ("gitea token mint failed: " +:+ msg)
            end
        end
  end.

(** At most [attempts] tries; a refused token stops at once. *)
Fixpoint _write_gitea_bytes_with_retry (attempts : nat) (b : GiteaBackend) (path body : string)
    : prog (gitea unit) :=
  match attempts with
  | O => mret (GOk ())
  | S n =>
      r ← ask (repo_write b path body);
      match r with
      | GiteaError msg =>
          match n with
          | O => mret (GiteaError msg)
          | _ => _write_gitea_bytes_with_retry n b path body
          end
      | _ => mret r
      end
  end.

(** What the file handlers do with a repository's answer. *)
Definition on_gitea {A} (r : gitea A) (ok : A → prog response) (status : Z) (detail : string → string)
    : prog response :=
  match r with
  | GOk a => ok a
  | GiteaAuthError => fail_http 403 "gitea token denied"
  | GiteaError msg => fail_http status (detail msg)
  end.

Definition not_found : string → string := λ _, "not found".

Definition read_grant_file (path : string) (header : option string) : prog response :=
  grant ← pure (_grant_from_header header);
  key ← pure (_sanitize_key path);
  ok ← pure (_allowed grant key);
  if negb ok then fail_http 403 "path denied by grant"
  else
    match _workspace_route key with
    | Some (repo, inner) =>
        if inner =s? "" then fail_http 404 "not found"
        else
          backend ← _gitea_backend_for_grant grant repo "read";
          data ← ask (repo_read backend inner);
          on_gitea data (λ d, mret (RFile d text_plain)) 404 not_found
    | None =>
        r ← ask (get_file (bucket_of grant) key);
        match r with
        | Some (data, content_type) => mret (RFile data content_type)
        | None => fail_http 404 "not found"
        end
    end.

(** [quote(text, safe="/")]: the UTF-8 bytes that are not letters, digits or one
of a few marks are escaped. *)
Definition quote_byte (n : N) : string :=
  let c := ascii_of_N n in
  if ((65 <=? n) && (n <=? 90) || (97 <=? n) && (n <=? 122))%N || is_digit c
     || existsb (Ascii.eqb c) (chars "_.-~/")
  then String c ""
  else String "%" (of_chars (map (λ h, if (97 <=? code h)%N then ascii_of_N (code h - 32) else h)
         (chars (hex2 n)))).

Definition quote (s : string) : string := String.concat "" (map quote_byte (utf8 s)).

Definition stat_headers (key : string) (size content_type : json) : response :=
  RStat [("X-A2A-File-Path", JStr (quote key)); ("X-A2A-File-Size", JStr (py_str size));
         ("X-A2A-Content-Type", JStr (py_str content_type))].

Definition stat_grant_file (path : string) (header : option string) : prog response :=
  grant ← pure (_grant_from_header header);
  key ← pure (_sanitize_key path);
  ok ← pure (_allowed grant key);
  if negb ok then fail_http 403 "path denied by grant"
  else
    match _workspace_route key with
    | Some (repo, inner) =>
        if inner =s? "" then fail_http 404 "not found"
        else
          backend ← _gitea_backend_for_grant grant repo "read";
          data ← ask (repo_read backend inner);
          on_gitea data (λ d, mret (stat_headers key (JInt (Z.of_nat (String.length d)))
            (JStr text_plain))) 404 not_found
    | None =>
        r ← ask (stat_file (bucket_of grant) key);
        match r with
        | Some meta => mret (stat_headers key (py_or (jget meta "size") (JInt 0))
                               (py_or (jget meta "content_type") (JStr "")))
        | None => fail_http 404 "not found"
        end
    end.

Definition write_grant_file (path body : string) (content_type header : option string) : prog response :=
  grant ← pure (_grant_from_header header);
  key ← pure (_sanitize_key path);
  ok ← pure (_writable grant key);
  if negb ok then fail_http 403 "path is not writable by grant"
  else
    match _workspace_route key with
    | Some (repo, inner) =>
        if inner =s? "" then fail_http 400 "agents/ paths must point to a file"
        else
          backend ← _gitea_backend_for_grant grant repo "write";
          r ← _write_gitea_bytes_with_retry 8 backend inner body;
          on_gitea r (λ _, mret (RJson (JObj [("ok", JBool true); ("path", JStr key);
            ("size", JInt (Z.of_nat (String.length body))); ("backend", JStr "gitea")]))) 502 id
    | None =>
        meta ← ask (upload_file (bucket_of grant) key body content_type);
        mret (RJson (JObj meta))
    end.

Definition delete_grant_file (path : string) (header : option string) : prog response :=
  grant ← pure (_grant_from_header header);
  key ← pure (_sanitize_key path);
  ok ← pure (_writable grant key);
  if negb ok then fail_http 403 "path is not writable by grant"
  else
    match _workspace_route key with
    | Some (repo, inner) =>
        if inner =s? "" then fail_http 400 "agents/ paths must point to a file"
        else
          backend ← _gitea_backend_for_grant grant repo "write";
          r ← ask (repo_delete backend inner);
          on_gitea r (λ _, mret RNone) 404 not_found
    | None =>
        r ← ask (delete_file (bucket_of grant) key);
        match r with
        | Some _ => mret RNone
        | None => fail_http 404 "not found"
        end
    end.

(** Listing: the items are kept while they are allowed, new, and few enough.
[key_of] gives the path of an item, [row_of] the row. *)
Fixpoint take_rows (limit : Z) (grant : jobject) (key_of : jobject → option string)
    (row_of : string → jobject → res jobject) (items rows : list jobject) (seen : list string)
    : res (list jobject * list string) :=
  match items with
  | [] => Ok (rows, seen)
  | item :: items' =>
      match key_of item with
      | None => take_rows limit grant key_of row_of items' rows seen
      | Some key =>
          ok ← (if str_in key seen then Ok false else _allowed grant key);
          if negb ok then take_rows limit grant key_of row_of items' rows seen
          else
            row ← row_of key item;
            let rows' := rows ++ [row] in
            if limit <=? Z.of_nat (length rows') then Ok (rows', seen ++ [key])
            else take_rows limit grant key_of row_of items' rows' (seen ++ [key])
      end
  end.

Definition item_path (item : jobject) : string := py_str (py_or (jget item "path") (JStr "")).

Definition bucket_key (item : jobject) : option string :=
  let path := item_path item in if path =s? "" then None else Some path.

Definition repo_key (repo : string) (item : jobject) : option string :=
  let rel := strip_char "/"%char (item_path item) in
  if rel =s? "" then None else Some ("agents/" +:+ repo +:+ "/" +:+ rel).

Definition repo_row (key : string) (item : jobject) : res jobject :=
  size ← int_field item "size";
  Ok [("path", JStr key); ("size", JInt size); ("modified_at", JStr ""); ("content_type", JStr "")].

Fixpoint list_buckets (limit : Z) (grant : jobject) (prefixes : list string)
    (rows : list jobject) (seen : list string) : prog (list jobject * list string) :=
  match prefixes with
  | [] => mret (rows, seen)
  | prefix :: prefixes' =>
      if limit <=? Z.of_nat (length rows) then mret (rows, seen)
      else
        items ← ask (list_files (bucket_of grant) prefix);
        '(rows', seen') ← pure (take_rows limit grant bucket_key (λ _ item, Ok item) items rows seen);
        list_buckets limit grant prefixes' rows' seen'
  end.

(** The files of a repository below the given prefixes, as far as [room] goes. *)
Fixpoint collect_repo (b : GiteaBackend) (room : Z) (prefixes : list string) (acc : list jobject)
    : prog (gitea (list jobject)) :=
  match prefixes with
  | [] => mret (GOk acc)
  | p :: prefixes' =>
      let remaining := room - Z.of_nat (length acc) in
      if remaining <=? 0 then mret (GOk acc)
      else
        r ← ask (repo_files b p remaining);
        match r with
        | GOk found => collect_repo b room prefixes' (acc ++ found)
        | e => mret e
        end
  end.

Definition repo_rows (limit : Z) (grant : jobject) (repo : string) (inner_prefixes : list string)
    (rows : list jobject) : prog (list jobject) :=
  found ← catch_http
    (backend ← _gitea_backend_for_grant grant repo "read";
     collect_repo backend (limit - Z.of_nat (length rows)) inner_prefixes [])
    (λ status detail, if status =? 404 then mret (GOk []) else fail_http status detail);
  match found with
  | GOk l => mret l
  | GiteaAuthError => fail_http 403 "gitea token denied"
  | GiteaError _ => mret []
  end.

Fixpoint list_repos (limit : Z) (grant : jobject) (repos : list string)
    (rows : list jobject) (seen : list string) : prog (list jobject) :=
  match repos with
  | [] => mret rows
  | repo :: repos' =>
      if limit <=? Z.of_nat (length rows) then mret rows
      else
        inner_prefixes ← pure (_grant_repo_inner_prefixes grant repo);
        match inner_prefixes with
        | [] => list_repos limit grant repos' rows seen
        | _ =>
            items ← repo_rows limit grant repo inner_prefixes rows;
            '(rows', seen') ← pure (take_rows limit grant (repo_key repo) repo_row items rows seen);
            list_repos limit grant repos' rows' seen'
        end
  end.

Definition row_le (x y : jobject) : Prop := str_le (item_path x) (item_path y).

#[export] Instance row_le_dec x y : Decision (row_le x y).
Proof. unfold row_le, str_le. apply _. Defined.

Definition list_grant_files (limit : option Z) (header : option string) : prog response :=
  grant ← pure (_grant_from_header header);
  let clean_limit := _clean_file_list_limit limit in
  prefixes ← pure (_grant_minio_prefixes grant);
  '(rows, seen) ← list_buckets clean_limit grant prefixes [] [];
  repos ← pure (_agent_repos_from_grant grant);
  rows ← list_repos clean_limit grant repos rows seen;
  mret (RJson (JList (map JObj (merge_sort row_le rows)))).
End routes.

(** The delegation route: [delegate] is the SDK's [delegate_grant] with its keys
and clock.  The framework has checked the body. *)
Definition delegate_workspace_grant (verify_token : string → res jobject)
    (model_validate : json → res Grant) (delegate : Grant → Ask → res (Grant * string))
    (body : WorkspaceGrantDelegateIn) (header : option string) : res json :=
  parent_payload ← _grant_from_header verify_token header;
  match (parent ← model_validate (JObj parent_payload);
         mode ← mode_of (in_mode body);
         delegate parent (ask_of parent mode body)) with
  | Ok (child, token) =>
      Ok (JObj [("grant", JStr token); ("grant_id", JStr (grant_id child));
                ("expires_at", JInt (expires_at child))])
  | Raise (ValueError msg) | Raise (GrantDelegationDenied msg) => http 403 ("child grant denied: " +:+ msg)
  | Raise e => Raise e
  end.
