(* ===== verification/GrantFacts.v ===== *)
(** What a grant permits, and that a delegated grant permits no more.

    [reads] and [writes] are the authority of a grant over sanitised paths;
    [below] compares two grants in every dimension.  Delegation yields a grant
    below its parent when the patterns are [plain] (no [?] and no bracket) and
    the write scope is [explicit]; [KernelDivergence]'s counterpart for grants,
    at the end of [GrantProperties], shows both conditions to be needed. *)
From Stdlib Require Import Ascii SpecFloat.
From S2P Require Import Prelude PyStr PyDict PyFloat PyJson PyJsonText PyHash FnMatch WritePrefix.
From S2P Require Import Grants.
Open Scope Z_scope.

(** * Patterns *)

(** No character of a single place: what is not a star stands for itself. *)
Definition plain_char (c : ascii) : bool := negb (Ascii.eqb c "?" || Ascii.eqb c "[").
Definition plain (p : string) : bool := forallb plain_char (chars p).

Lemma plain_no_bracket l : forallb plain_char l = true → no_bracket l = true.
Proof.
  unfold no_bracket. induction l as [|c l IH]; [done|]. cbn [existsb forallb].
  unfold plain_char at 1. rewrite andb_true_iff, negb_true_iff, orb_false_iff.
  intros [[_ Hc] Hl]. rewrite Ascii.eqb_sym, Hc. by apply IH.
Qed.

(** A plain pattern is stars and literals. *)
Definition plain_token (t : token) : bool :=
  match t with TStar => true | TLit c => plain_char c && negb (Ascii.eqb c "*") | _ => false end.

Lemma compile_plain l : forallb plain_char l = true → forallb plain_token (compile 0 l) = true.
Proof.
  induction l as [|c l IH]; [done|]. cbn [forallb]. intros [Hc Hl]%andb_true_iff.
  specialize (IH Hl). pose proof Hc as Hc'. unfold plain_char in Hc.
  rewrite negb_true_iff, orb_false_iff in Hc. destruct Hc as [Hq Hb]. cbn [compile].
  destruct (Ascii.eqb c "*") eqn:Hs; [exact IH|]. rewrite Hq, Hb. cbn. by rewrite Hc', Hs.
Qed.

(** If the text of a pattern matches the plain tokens [ts], every name the
pattern matches does too. *)
Lemma tokens_match_compose ts child name :
  forallb plain_token ts = true → no_bracket child = true →
  tokens_match ts child = true → tokens_match (compile 0 child) name = true →
  tokens_match ts name = true.
Proof.
  revert child name. induction ts as [|t ts IH]; intros child name Hp Hb Hm Hn.
  { destruct child; [exact Hn|done]. }
  cbn [forallb] in Hp. apply andb_true_iff in Hp as [Ht Hp]. destruct t as [| |c| |]; try done.
  - apply star_match_iff in Hm as (c1 & c2 & -> & Hm).
    assert (no_bracket c1 = true ∧ no_bracket c2 = true) as [Hb1 Hb2].
    { unfold no_bracket in *. rewrite existsb_app, negb_orb, andb_true_iff in Hb. done. }
    rewrite compile_app in Hn by done.
    apply tokens_match_app in Hn as (n1 & n2 & -> & _ & Hn2).
    apply star_match_iff. eauto.
  - destruct child as [|d child]; [done|]. cbn [tokens_match token_match] in Hm.
    apply andb_true_iff in Hm as [Hd Hm]. apply Ascii.eqb_eq in Hd as <-.
    cbn [plain_token] in Ht. unfold plain_char in Ht.
    rewrite andb_true_iff, !negb_true_iff, orb_false_iff in Ht. destruct Ht as [[Hq Hbr] Hs].
    cbn [compile] in Hn. rewrite Hs, Hq, Hbr in Hn.
    destruct name as [|e name]; [done|]. cbn [tokens_match token_match] in Hn |- *.
    apply andb_true_iff in Hn as [He Hn]. rewrite He. cbn. eapply IH; [done| |done|done].
    unfold no_bracket in *. cbn [existsb] in Hb. rewrite negb_orb in Hb. apply andb_true_iff in Hb as [_ Hb]. exact Hb.
Qed.

Lemma fnmatch_compose child parent name :
  plain parent = true → plain child = true →
  fnmatch child parent = true → fnmatch name child = true → fnmatch name parent = true.
Proof.
  unfold plain, fnmatch. intros Hp Hc. apply tokens_match_compose.
  - by apply compile_plain.
  - by apply plain_no_bracket.
Qed.

Lemma fnmatch_double_star name : fnmatch name "**" = true.
Proof.
  unfold fnmatch. cbn [compile chars]. apply star_match_iff.
  exists [], (chars name). split; [done|]. apply tokens_match_star_nil.
Qed.

(** A covered pattern matches no name its parents leave out. *)
Lemma pattern_covered_sound pattern parents name :
  forallb plain parents = true → plain pattern = true → _pattern_covered pattern parents = true →
  fnmatch name pattern = true → existsb (fnmatch name) parents = true.
Proof.
  intros Hps Hp Hc Hn. apply existsb_elem in Hc as (q & Hq & Hc). apply existsb_elem.
  exists q. split; [done|]. apply (proj1 (forallb_elem _ _) Hps) in Hq.
  rewrite !orb_true_iff, !String.eqb_eq in Hc. destruct Hc as [[->| ->]|Hc].
  - apply fnmatch_double_star.
  - done.
  - exact (fnmatch_compose pattern q name Hq Hp Hc Hn).
Qed.

Lemma fnmatch_empty name : fnmatch name "" = true → name = "".
Proof. unfold fnmatch. cbn. intros H. apply (inj chars). by destruct (chars name). Qed.

(** * The authority of a grant *)

Definition reads (g : Grant) (path : string) : bool :=
  existsb (fnmatch path) (allow_or_all (allow_patterns g))
  && negb (existsb (fnmatch path) (deny_patterns g)).

Definition write_scope (g : Grant) : list string :=
  _normalize_write_prefixes (outputs_prefix g) (write_prefixes g).

Definition writes (g : Grant) (path : string) : bool :=
  negb (bool_decide (mode g = READ_ONLY)) &&
  match write_scope g with
  | [] => reads g path
  | prefixes => _matches_write_prefix path prefixes
  end.

(** The source scope of a repository: the strongest listed for it. *)
Definition sources (g : Grant) (repo : string) (s : source_scope) : bool :=
  existsb (λ x, (strip (sg_agent x) =s? repo)
    && (bool_decide (sg_scope x = WriteSource) || bool_decide (s = ReadSource))) (source_grants g).

(** [child] is an allowance within [parent]'s; no allowance is within any. *)
Definition opt_within {A} (le : A → A → Prop) (child parent : option A) : Prop :=
  ∀ x, child = Some x → ∃ y, parent = Some y ∧ le x y.

(** Every authority of [c] is one of [p]. *)
Record below (c p : Grant) : Prop := {
  below_bucket : bucket c = bucket p;
  below_mode : _MODE_RANK (mode c) ≤ _MODE_RANK (mode p);
  below_reads path : path ≠ "" → reads c path = true → reads p path = true;
  below_writes path : path ≠ "" → writes c path = true → writes p path = true;
  below_sources repo s : sources c repo s = true → sources p repo s = true;
  below_models m : m ∈ llm_models c → m ∈ llm_models p;
  below_budget : opt_within (λ x y, flt y x = false) (llm_max_budget_usd c) (llm_max_budget_usd p);
  below_rpm : opt_within Z.le (llm_rpm_limit c) (llm_rpm_limit p);
  below_tpm : opt_within Z.le (llm_tpm_limit c) (llm_tpm_limit p);
  below_depth : delegation_depth p ≤ delegation_depth c;
  below_max : max_delegation_depth c = max_delegation_depth p;
}.

Lemma opt_within_refl {A} (le : A → A → Prop) o : (∀ x, le x x) → opt_within le o o.
Proof. intros H x ->. eauto. Qed.

Lemma opt_within_trans {A} (le : A → A → Prop) o1 o2 o3 :
  (∀ x y z, o2 = Some y → le x y → le y z → le x z) →
  opt_within le o1 o2 → opt_within le o2 o3 → opt_within le o1 o3.
Proof.
  intros Ht H1 H2 x Hx. destruct (H1 x Hx) as (y & Hy & Hxy). destruct (H2 y Hy) as (z & Hz & Hyz).
  eauto.
Qed.

(** A budget that passed validation is a number. *)
Lemma valid_budget g x : grant_valid g = true → llm_max_budget_usd g = Some x → is_nan x = false.
Proof.
  unfold grant_valid. rewrite !andb_true_iff. intros [[[[[[H _] _] _] _] _] _] E. rewrite E in H.
  by destruct x.
Qed.

Lemma below_refl g : below g g.
Proof.
  split; try done; try lia; apply opt_within_refl; try (intros; lia). intros x. apply flt_irrefl.
Qed.

Lemma below_trans a b c : grant_valid b = true → below a b → below b c → below a c.
Proof.
  intros Hv H1 H2. split.
  - by rewrite (below_bucket _ _ H1), (below_bucket _ _ H2).
  - pose proof (below_mode _ _ H1). pose proof (below_mode _ _ H2). lia.
  - intros path Hp H. eauto using below_reads.
  - intros path Hp H. eauto using below_writes.
  - eauto using below_sources.
  - eauto using below_models.
  - eapply opt_within_trans; [|exact (below_budget _ _ H1)|exact (below_budget _ _ H2)].
    intros x y z Hy. apply flt_not_trans. by eapply valid_budget.
  - eapply opt_within_trans; [|exact (below_rpm _ _ H1)|exact (below_rpm _ _ H2)]. lia.
  - eapply opt_within_trans; [|exact (below_tpm _ _ H1)|exact (below_tpm _ _ H2)]. lia.
  - pose proof (below_depth _ _ H1). pose proof (below_depth _ _ H2). lia.
  - by rewrite (below_max _ _ H1), (below_max _ _ H2).
Qed.

(** * What the checks establish *)

Lemma denied_ok b msg u : denied b msg = Ok u → b = false.
Proof. unfold denied. by destruct b. Qed.

Lemma for_all_ok {A} (f : A → res unit) l u : for_all f l = Ok u → ∀ x, x ∈ l → f x = Ok ().
Proof.
  unfold for_all. intros (us & H & _)%res_bind_ok x Hx. apply res_map_ok in H.
  induction H as [|y v l vs Hy _ IH]; [by apply not_elem_of_nil in Hx|].
  apply elem_of_cons in Hx as [->|Hx]; [by destruct v|auto].
Qed.

Lemma within_ok {A} (gt : A → A → bool) name parent child u :
  within gt name parent child = Ok u → opt_within (λ x y, gt x y = false) child parent.
Proof.
  unfold within. intros H x ->. destruct parent as [y|]; [|done].
  exists y. split; [done|]. by eapply denied_ok.
Qed.

Lemma models_ok parent models budget rpm tpm u :
  _assert_llm_scope_within_parent parent models budget rpm tpm = Ok u →
  (∀ m, m ∈ models → m ∈ llm_models parent)
  ∧ opt_within (λ x y, flt y x = false) budget (llm_max_budget_usd parent)
  ∧ opt_within Z.le rpm (llm_rpm_limit parent) ∧ opt_within Z.le tpm (llm_tpm_limit parent).
Proof.
  unfold _assert_llm_scope_within_parent. intros H. inv_res. split_and!.
  - intros m Hm. destruct models as [|m0 ms]; [by apply not_elem_of_nil in Hm|].
    destruct (llm_models parent) as [|p ps] eqn:E; [done|].
    apply denied_ok in Ha. apply negb_false_iff, bool_decide_eq_true in Ha.
    destruct (decide (m ∈ p :: ps)) as [|Hn]; [done|]. exfalso.
    assert (m ∈ missing_models (m0 :: ms) (p :: ps)) as Hmm.
    { unfold missing_models. apply elem_of_sorted_set. rewrite elem_of_difference, !elem_of_list_to_set.
      done. }
    rewrite Ha in Hmm. by apply not_elem_of_nil in Hmm.
  - by eapply within_ok.
  - intros x Hx. destruct (within_ok _ _ _ _ _ Ha1 x Hx) as (y & Hy & Hg).
    exists y. split; [done|]. rewrite Z.gtb_ltb, Z.ltb_ge in Hg. lia.
  - intros x Hx. destruct (within_ok _ _ _ _ _ H x Hx) as (y & Hy & Hg).
    exists y. split; [done|]. rewrite Z.gtb_ltb, Z.ltb_ge in Hg. lia.
Qed.

(** A scope in the dict of scopes is that of one of the grants. *)
Lemma scopes_of_lookup l a s : scopes_of l !! a = Some s → mkSource a s ∈ l.
Proof.
  unfold scopes_of. induction l as [|[b t] l IH] using rev_ind; [done|].
  rewrite foldl_app. cbn [foldl sg_agent sg_scope]. intros H. destruct (decide (b = a)) as [->|Hne].
  - rewrite dict_lookup_insert in H. simplify_eq. apply elem_of_app. right. by apply list_elem_of_singleton.
  - rewrite dict_lookup_insert_ne in H by done. apply elem_of_app. left. by apply IH.
Qed.

Lemma sources_ok parent child u :
  _assert_source_scope_within_parent parent child = Ok u →
  ∀ c, c ∈ child → ∃ s, mkSource (sg_agent c) s ∈ source_grants parent
                        ∧ (sg_scope c = WriteSource → s = WriteSource).
Proof.
  intros H c Hc. pose proof (for_all_ok _ _ _ H c Hc) as Hok. unfold check_source in Hok.
  destruct (scopes_of (source_grants parent) !! sg_agent c) as [s|] eqn:E; [|done].
  exists s. split; [by apply scopes_of_lookup|]. intros Hw. apply denied_ok in Hok.
  rewrite Hw in Hok. destruct s; [done|done].
Qed.

Lemma write_scope_ok parent prefixes u :
  _assert_write_scope_within_parent parent prefixes = Ok u →
  prefixes = [] ∨
  mode parent ≠ READ_ONLY ∧
  (write_scope parent ≠ [] → ∀ p, p ∈ prefixes → _matches_write_prefix p (write_scope parent) = true).
Proof.
  unfold _assert_write_scope_within_parent. destruct prefixes as [|p ps]; [by left|]. intros H. inv_res.
  apply denied_ok, bool_decide_eq_false in Ha. right. split; [done|]. intros Hne q Hq.
  fold (write_scope parent) in H. destruct (write_scope parent) as [|w ws]; [done|].
  pose proof (for_all_ok _ _ _ H q Hq) as Hok. cbv beta in Hok. apply denied_ok in Hok.
  by apply negb_false_iff.
Qed.

Lemma bounded_ttl_ok now parent ttl t : _bounded_ttl now parent ttl = Ok t →
  (expires_at parent = 0 ∧ t = ttl)
  ∨ expires_at parent ≠ 0 ∧ now < expires_at parent ∧ 0 ≤ t ≤ expires_at parent - now ∧ t ≤ Z.max 0 ttl.
Proof.
  unfold _bounded_ttl. destruct (Z.eqb_spec (expires_at parent) 0) as [E|E]; [intros [= <-]; by left|].
  intros (u & Ha & [= <-])%res_bind_ok. apply denied_ok, Z.leb_gt in Ha. lia.
Qed.

(** The normalised prefixes reach what the given ones reach. *)
Lemma elem_of_normalized o ps p : p ∈ _normalize_write_prefixes o ps ↔
  ∃ v, v ∈ (if truthy_text o then option_list o else []) ++ ps
       ∧ clean_prefix v ≠ "" ∧ p = clean_prefix v +:+ "/".
Proof.
  unfold _normalize_write_prefixes. generalize ((if truthy_text o then option_list o else []) ++ ps) as l.
  intros l. assert (∀ acc, p ∈ foldl add_prefix acc l ↔
    p ∈ acc ∨ ∃ v, v ∈ l ∧ clean_prefix v ≠ "" ∧ p = clean_prefix v +:+ "/") as H.
  { induction l as [|w l IH]; intros acc; cbn [foldl].
    { split; [by left|]. intros [?|(v & Hv & _)]; [done|by apply not_elem_of_nil in Hv]. }
    rewrite IH. unfold add_prefix.
    setoid_rewrite elem_of_cons. destruct (String.eqb_spec (clean_prefix w) "") as [E|E].
    - split; [intros [?|(v & ? & ?)]; eauto 6|].
      intros [?|(v & [->|?] & ? & ?)]; [by left|done|right; eauto].
    - rewrite elem_of_add_once. split.
      + intros [[->|?]|(v & ? & ?)]; [right; exists w; auto|by left|right; exists v; tauto].
      + intros [?|(v & [->|?] & ? & ?)]; [left; by right|left; by left|right; eauto]. }
  rewrite H. split; [intros [Hp|?]; [by apply not_elem_of_nil in Hp|done]|by right].
Qed.

Lemma matches_normalized path o ps :
  _matches_write_prefix path (_normalize_write_prefixes o ps)
  = _matches_write_prefix path ((if truthy_text o then option_list o else []) ++ ps).
Proof.
  apply eq_true_iff_eq. rewrite !matches_write_iff. setoid_rewrite elem_of_normalized. split.
  - intros (p & (v & Hv & Hne & ->) & _ & Hu). rewrite clean_prefix_slash in Hu. eauto.
  - intros (v & Hv & Hne & Hu). exists (clean_prefix v +:+ "/"). rewrite clean_prefix_slash.
    split; [by exists v|done].
Qed.

(** Normalising once more, with the same output prefix, reaches the same paths. *)
Lemma matches_renormalized path o ps :
  _matches_write_prefix path (_normalize_write_prefixes o (_normalize_write_prefixes o ps))
  = _matches_write_prefix path (_normalize_write_prefixes o ps).
Proof.
  rewrite !matches_normalized. apply eq_true_iff_eq. rewrite !matches_write_iff.
  setoid_rewrite elem_of_app. split.
  - intros (p & [Hp|Hp] & Hne & Hu); [eauto|]. apply elem_of_normalized in Hp as (v & Hv & Hv' & ->).
    rewrite clean_prefix_slash in *. apply elem_of_app in Hv. eauto.
  - intros (p & Hp & Hne & Hu). exists (clean_prefix p +:+ "/"). rewrite clean_prefix_slash.
    split_and!; [|done..]. right. apply elem_of_normalized. exists p. by rewrite elem_of_app.
Qed.

Lemma normalized_empty o ps : _normalize_write_prefixes o (_normalize_write_prefixes o ps) = [] →
  _normalize_write_prefixes o ps = [].
Proof.
  intros H. destruct (_normalize_write_prefixes o ps) as [|p l] eqn:E; [done|]. exfalso.
  assert (p ∈ _normalize_write_prefixes o ps) as Hp by (rewrite E; by left).
  apply elem_of_normalized in Hp as (v & _ & Hv & ->).
  assert (clean_prefix v +:+ "/" ∈ _normalize_write_prefixes o ((clean_prefix v +:+ "/") :: l)) as Hin.
  { apply elem_of_normalized. exists (clean_prefix v +:+ "/"). rewrite clean_prefix_slash.
    split_and!; [|done..]. apply elem_of_app. right. by left. }
  rewrite H in Hin. by apply not_elem_of_nil in Hin.
Qed.

(** * A delegation that succeeds *)

Section delegation.
Context {private public : Type}.
Context (priv : string → res private) (sign : private → string → string) (env : string).
Context (validate_source : jobject → res SourceGrant).

Abbreviation delegate := (delegate_grant priv sign env validate_source).

(** The child that is minted, and every check it passed. *)
Record delegated (now now' : Z) (parent : Grant) (a : Ask) (child : Grant) : Prop := {
  del_bucket : bucket child = bucket parent;
  del_depth : delegation_depth parent < max_delegation_depth parent
              ∧ delegation_depth child = delegation_depth parent + 1
              ∧ max_delegation_depth child = max_delegation_depth parent;
  del_parent : parent_grant_id child = Some (grant_id parent);
  del_mode : mode child = ask_mode a ∧ _MODE_RANK (mode child) ≤ _MODE_RANK (mode parent);
  del_allow : allow_patterns child = allow_or_all (ask_allow a)
              ∧ ∀ p, p ∈ allow_patterns child → _pattern_covered p (allow_patterns parent) = true;
  del_deny : ∀ p, p ∈ deny_patterns child ↔ p ≠ "" ∧ (p ∈ deny_patterns parent ∨ p ∈ ask_deny a);
  del_writes : outputs_prefix child = ask_outputs a
    ∧ write_prefixes child = _normalize_write_prefixes (ask_outputs a)
        (_normalize_write_prefixes (ask_outputs a) (ask_writes a))
    ∧ (_normalize_write_prefixes (ask_outputs a) (ask_writes a) = [] ∨
       mode parent ≠ READ_ONLY ∧ (write_scope parent ≠ [] →
         ∀ p, p ∈ _normalize_write_prefixes (ask_outputs a) (ask_writes a) →
              _matches_write_prefix p (write_scope parent) = true));
  del_models : ∀ m, m ∈ llm_models child → m ∈ llm_models parent;
  del_budget : opt_within (λ x y, flt y x = false) (llm_max_budget_usd child) (llm_max_budget_usd parent);
  del_rpm : opt_within Z.le (llm_rpm_limit child) (llm_rpm_limit parent);
  del_tpm : opt_within Z.le (llm_tpm_limit child) (llm_tpm_limit parent);
  del_sources : ∀ c, c ∈ source_grants child → ∃ s, mkSource (sg_agent c) s ∈ source_grants parent
                        ∧ (sg_scope c = WriteSource → s = WriteSource);
  del_valid : grant_valid child = true;
  del_expiry : issued_at child = now' ∧
    (expires_at parent = 0 ∧ expires_at child = now' + ask_ttl a
     ∨ expires_at parent ≠ 0 ∧ now < expires_at parent
       ∧ now' ≤ expires_at child ≤ expires_at parent + (now' - now));
}.

Lemma res_map_inl (l : list SourceGrant) : res_map (source_of validate_source) (map inl l) = Ok l.
Proof. induction l as [|x l IH]; cbn; [done|]. by rewrite IH. Qed.

Lemma delegate_ok now now' i n parent a child token :
  delegate now now' i n parent a = Ok (child, token) → delegated now now' parent a child.
Proof.
  intros ([b l] & Hd & Hm)%res_bind_ok. unfold delegation in Hd. cbv zeta in Hd.
  apply res_bind_ok in Hd as (? & Hbucket%denied_ok & Hd).
  apply res_bind_ok in Hd as (? & Hdepth%denied_ok%Z.leb_gt & Hd).
  apply res_bind_ok in Hd as (? & Hmode%denied_ok%Z.ltb_ge & Hd).
  apply res_bind_ok in Hd as (? & Hallow & Hd).
  apply res_bind_ok in Hd as (? & Hwrite%write_scope_ok & Hd).
  apply res_bind_ok in Hd as (? & (Hmodels & Hbudget & Hrpm & Htpm)%models_ok & Hd).
  apply res_bind_ok in Hd as (src & _ & Hd).
  apply res_bind_ok in Hd as (? & Hsrc & Hd). pose proof (sources_ok _ _ _ Hsrc) as Hsources.
  apply res_bind_ok in Hd as (ttl & Httl%bounded_ttl_ok & Hd). injection Hd as <- <-.
  unfold mint_grant in Hm. cbn [ask_sources] in Hm. rewrite res_map_inl in Hm.
  cbn [mbind res_bind] in Hm. apply res_bind_ok in Hm as (g & Hg & Hm).
  apply res_bind_ok in Hm as (t & _ & [= <- <-]). unfold checked in Hg.
  destruct (grant_valid _) eqn:Hv in Hg; [|done]. injection Hg as <-.
  apply negb_false_iff, String.eqb_eq in Hbucket.
  split; cbn; try done; try lia.
  - split; [done|]. intros p Hp. pose proof (for_all_ok _ _ _ Hallow p Hp) as Hok.
    by apply denied_ok, negb_false_iff in Hok.
  - intros p. apply elem_of_merge_patterns.
Qed.
End delegation.

(** * A delegated grant is below its parent *)

(** The patterns the order is sound for, and a write scope that is spelled out. *)
Definition plain_grant (g : Grant) : bool := forallb plain (allow_patterns g).
Definition explicit (g : Grant) : bool :=
  bool_decide (mode g = READ_ONLY) || negb (bool_decide (write_scope g = [])).

Lemma mode_rank_read_only m : _MODE_RANK m ≤ 0 → m = READ_ONLY.
Proof. destruct m; cbn; [done|lia..]. Qed.

Section below.
Context (now now' : Z) (parent child : Grant) (a : Ask).
Context (Hd : delegated now now' parent a child).

Lemma delegated_reads path : plain_grant parent = true → plain_grant child = true → path ≠ "" →
  reads child path = true → reads parent path = true.
Proof.
  intros Hp Hc Hpath. unfold reads. rewrite !andb_true_iff, !negb_true_iff. intros [Ha Hn].
  destruct (del_allow _ _ _ _ _ Hd) as [He Hcov]. split.
  - assert (allow_or_all (allow_patterns child) = allow_patterns child) as Hall.
    { rewrite He. by destruct (ask_allow a). }
    rewrite Hall in Ha. apply existsb_elem in Ha as (p & Hin & Hm).
    pose proof (Hcov p Hin) as Hcp.
    assert (existsb (fnmatch path) (allow_patterns parent) = true) as H.
    { eapply pattern_covered_sound; [exact Hp| |exact Hcp|exact Hm].
      by apply (proj1 (forallb_elem _ _) Hc). }
    unfold allow_or_all. by destruct (allow_patterns parent).
  - destruct (existsb (fnmatch path) (deny_patterns parent)) eqn:E; [|done]. exfalso.
    apply existsb_elem in E as (p & Hin & Hm). apply not_true_iff_false in Hn. apply Hn.
    apply existsb_elem. exists p. split; [|done]. apply (del_deny _ _ _ _ _ Hd). split; [|by left].
    intros ->. by apply fnmatch_empty in Hm.
Qed.

Lemma delegated_write_scope path :
  _matches_write_prefix path (write_scope child)
  = _matches_write_prefix path (_normalize_write_prefixes (ask_outputs a) (ask_writes a)).
Proof.
  destruct (del_writes _ _ _ _ _ Hd) as (Ho & Hw & _). unfold write_scope. rewrite Ho, Hw.
  by rewrite !matches_renormalized.
Qed.

Lemma delegated_writes path : explicit parent = true → explicit child = true →
  writes child path = true → writes parent path = true.
Proof.
  unfold explicit, writes. intros Hp Hc [Hm Hw]%andb_true_iff.
  rewrite negb_true_iff, bool_decide_eq_false in Hm.
  rewrite orb_true_iff, bool_decide_eq_true, negb_true_iff, bool_decide_eq_false in Hc.
  destruct Hc as [|Hc]; [done|].
  destruct (decide (mode parent = READ_ONLY)) as [Hr|Hr].
  { destruct Hm. apply mode_rank_read_only. destruct (del_mode _ _ _ _ _ Hd) as [_ Hrank].
    rewrite Hr in Hrank. exact Hrank. }
  rewrite (bool_decide_eq_false_2 _ Hr) in *. cbn [negb andb orb] in *.
  apply negb_true_iff, bool_decide_eq_false in Hp.
  assert (_matches_write_prefix path (write_scope child) = true) as Hmatch
    by (by destruct (write_scope child)).
  enough (_matches_write_prefix path (write_scope parent) = true) as H
    by (by destruct (write_scope parent)).
  rewrite delegated_write_scope in Hmatch. destruct (del_writes _ _ _ _ _ Hd) as (Ho & Hw' & [E|[_ H]]).
  - by rewrite E in Hmatch.
  - by eapply matches_write_trans; [apply H|].
Qed.

Lemma delegated_source repo s : sources child repo s = true → sources parent repo s = true.
Proof.
  unfold sources. rewrite !existsb_elem. intros (c & Hc & H). rewrite andb_true_iff, orb_true_iff in H.
  rewrite !bool_decide_eq_true in H. destruct H as [Ha Hs].
  destruct (del_sources _ _ _ _ _ Hd c Hc) as (t & Hin & Hw). exists (mkSource (sg_agent c) t).
  split; [done|]. cbn [sg_agent sg_scope]. rewrite Ha. cbn [andb]. rewrite orb_true_iff, !bool_decide_eq_true.
  destruct Hs as [Hs|Hs]; auto.
Qed.

Lemma delegated_below : plain_grant parent = true → plain_grant child = true →
  explicit parent = true → explicit child = true → below child parent.
Proof.
  intros Hp Hc Hep Hec. split.
  - apply (del_bucket _ _ _ _ _ Hd).
  - apply (del_mode _ _ _ _ _ Hd).
  - eauto using delegated_reads.
  - eauto using delegated_writes.
  - apply delegated_source.
  - apply (del_models _ _ _ _ _ Hd).
  - apply (del_budget _ _ _ _ _ Hd).
  - apply (del_rpm _ _ _ _ _ Hd).
  - apply (del_tpm _ _ _ _ _ Hd).
  - destruct (del_depth _ _ _ _ _ Hd). lia.
  - apply (del_depth _ _ _ _ _ Hd).
Qed.
End below.
