(* ===== verification/GrantTokenFacts.v ===== *)
(** Tokens carry their payload, and payloads the authority of their grant.

    A token built from a payload decodes to it, in the SDK and on the control
    plane; a payload that is read back is the dump of the grant; and what the
    file routes decide on that dump is [reads], [writes] and [sources] of
    [GrantFacts]. *)
From Stdlib Require Import Ascii SpecFloat.
From S2P Require Import Prelude PyStr PyDict PyFloat PyJson PyJsonText PyHash FnMatch WritePrefix.
From S2P Require Import Grants GrantTokens GrantService GrantFacts.
Open Scope Z_scope.

(** * Base64 parts *)

Lemma rev_replicate {A} n (x : A) : rev (replicate n x) = replicate n x.
Proof.
  induction n as [|n IH]; [done|]. cbn. rewrite IH. clear. induction n as [|n IH]; [done|].
  cbn. by rewrite IH.
Qed.

Lemma drop_while_replicate p n (x : ascii) l : p x = true → drop_while p (replicate n x ++ l) = drop_while p l.
Proof. intros H. induction n as [|n IH]; [done|]. cbn. by rewrite H. Qed.

Lemma body_no_pad b : forallb (λ c, negb (Ascii.eqb "=" c)) (rev (b64_body b)) = true.
Proof.
  apply forallb_forall. intros c Hc%in_rev. apply b64_body_ok in Hc as (Hc & _).
  by rewrite Ascii.eqb_sym, Hc.
Qed.

Lemma b64encode_body b : _b64encode b = of_chars (b64_body b).
Proof.
  unfold _b64encode, rstrip_char. rewrite urlsafe_b64encode_body, chars_of_chars, rev_app_distr.
  rewrite rev_replicate, drop_while_replicate by done.
  by rewrite drop_while_none, rev_involutive by apply body_no_pad.
Qed.

Lemma b64encode_clean b : strip (_b64encode b) = _b64encode b.
Proof.
  apply strip_by_id. rewrite b64encode_body, chars_of_chars. apply forallb_forall.
  intros c Hc%b64_body_ok. by destruct Hc as (_ & -> & _).
Qed.

Lemma b64encode_padded b :
  _b64encode b +:+ b64_pad (length (chars (_b64encode b))) = urlsafe_b64encode b.
Proof.
  apply (inj chars). rewrite chars_app. unfold b64_pad.
  by rewrite b64encode_body, urlsafe_b64encode_body, !chars_of_chars.
Qed.

Lemma b64decode_encode b : _b64decode (_b64encode b) = Ok b.
Proof.
  unfold _b64decode. rewrite b64encode_clean. cbv zeta. rewrite b64encode_padded, urlsafe_b64_roundtrip.
  cbn [mbind res_bind]. assert (rstrip_char "=" (_b64encode b) = _b64encode b) as ->.
  { unfold rstrip_char. rewrite b64encode_body, chars_of_chars.
    by rewrite drop_while_none, rev_involutive by apply body_no_pad. }
  by rewrite String.eqb_refl.
Qed.

Lemma b64d_encode b : _b64d (_b64encode b) = Ok b.
Proof. unfold _b64d. by rewrite b64encode_padded, urlsafe_b64_roundtrip. Qed.

(** * Tokens *)

Definition token_of (payload sig : string) : string := _b64encode payload +:+ "." +:+ _b64encode sig.

Lemma contains_dot x y : contains "." (x +:+ "." +:+ y) = true.
Proof.
  induction x as [|c x IH]; [by destruct y|].
  change (contains "." (String c x +:+ "." +:+ y)) with
    (String.prefix "." (String c (x +:+ "." +:+ y)) || contains "." (x +:+ "." +:+ y)).
  rewrite IH. apply orb_true_r.
Qed.

Lemma split1_none sep acc l k : forallb (λ c, negb (Ascii.eqb c sep)) l = true →
  split1_chars sep acc (l ++ sep :: k) = (rev acc ++ l, Some k).
Proof.
  revert acc. induction l as [|c l IH]; intros acc; cbn [forallb app split1_chars].
  - intros _. by rewrite Ascii.eqb_refl, app_nil_r.
  - intros [Hc Hl]%andb_true_iff. apply negb_true_iff in Hc. rewrite Hc, IH by done.
    cbn. by rewrite <-app_assoc.
Qed.

Lemma rsplit_token p s : rsplit_dot (token_of p s) = (_b64encode p, _b64encode s).
Proof.
  unfold rsplit_dot, token_of. rewrite !chars_app, !rev_app_distr, <-!app_assoc.
  change (rev (chars ".") ++ ?k) with ("."%char :: k).
  rewrite split1_none.
  - cbn [rev app default]. unfold id. by rewrite !rev_involutive, !of_chars_chars.
  - rewrite b64encode_body, chars_of_chars. apply forallb_forall. intros c Hc%in_rev.
    apply b64_body_ok in Hc as (_ & _ & _ & Hc). by rewrite Hc.
Qed.

Lemma token_not_empty p s : (token_of p s =s? "") = false.
Proof. unfold token_of. rewrite b64encode_body. by destruct (b64_body p). Qed.

Lemma decode_token_of p s : decode_token (token_of p s) = Ok (p, s).
Proof.
  unfold decode_token. rewrite token_not_empty. unfold token_of at 1. rewrite contains_dot. cbn [orb negb].
  by rewrite rsplit_token, !b64decode_encode.
Qed.

Lemma token_parts_of p s : token_parts (token_of p s) = Ok (p, s).
Proof.
  unfold token_parts. rewrite token_not_empty. unfold token_of at 1. rewrite contains_dot. cbn [orb negb].
  by rewrite rsplit_token, !b64d_encode.
Qed.

(** * The payload of a grant

[payload_of g] is the dict a route works on for a token of [g]. *)

Definition readable (g : Grant) : bool := reads_back (JObj (model_dump (normalized g))).

Definition payload_of (g : Grant) : jobject := fill_write_prefixes (model_dump (normalized g)).

(** Fields that normalising leaves alone. *)
Lemma normalized_eq g : normalized g = with_write_prefixes g (write_scope g).
Proof.
  unfold normalized, write_scope. cbv zeta. case_bool_decide as H; [|done].
  rewrite <-H. by destruct g.
Qed.

Lemma payload_get g k : k ≠ "write_prefixes" → jget (payload_of g) k = jget (model_dump g) k.
Proof.
  intros Hk. unfold payload_of, fill_write_prefixes. rewrite normalized_eq.
  assert (jget (model_dump (with_write_prefixes g (write_scope g))) k = jget (model_dump g) k) as E.
  { unfold jget, model_dump, with_write_prefixes. cbn [grant_id issuer audience bucket mode allow_patterns
      deny_patterns outputs_prefix write_prefixes llm_models llm_max_budget_usd llm_rpm_limit
      llm_tpm_limit source_grants parent_grant_id delegation_depth max_delegation_depth expires_at
      issued_at nonce]. rewrite !dict_lookup_cons.
    destruct (String.eqb_spec k "write_prefixes"); [done|]. done. }
  destruct (negb _ && _); [|done]. by rewrite jget_insert_ne.
Qed.

Lemma truthy_jstrs l : truthy (jstrs l) = negb (bool_decide (l = [])).
Proof. by destruct l. Qed.

Lemma texts_of_jstrs d k l dflt : jget d k = jstrs l →
  texts_of d k dflt = Ok (match l with [] => dflt | _ => l end).
Proof.
  unfold texts_of, py_or. intros ->. rewrite truthy_jstrs.
  assert (∀ l, py_str_list (jstrs l) = Ok l) as H.
  { intros m. cbn. f_equal. rewrite map_map. apply map_id. }
  destruct l; apply H.
Qed.

Lemma texts_of_jstrs_nil d k l : jget d k = jstrs l → texts_of d k [] = Ok l.
Proof. intros H. rewrite (texts_of_jstrs d k l) by done. by destruct l. Qed.

(** The write prefixes of the payload are the grant's write scope. *)
Lemma payload_write_prefixes g : jget (payload_of g) "write_prefixes" = jstrs (write_scope g).
Proof.
  unfold payload_of, fill_write_prefixes. rewrite normalized_eq.
  change (jget (model_dump (with_write_prefixes g (write_scope g))) "write_prefixes")
    with (jstrs (write_scope g)).
  change (jget (model_dump (with_write_prefixes g (write_scope g))) "outputs_prefix")
    with (jopt (outputs_prefix g)). rewrite truthy_jstrs.
  destruct (decide (write_scope g = [])) as [E|E].
  - rewrite E, bool_decide_eq_true_2 by done. cbn [negb andb].
    destruct (truthy (jopt (outputs_prefix g))) eqn:T; [|done].
    rewrite jget_insert. f_equal. f_equal. destruct (outputs_prefix g) as [o|] eqn:Ho; [|done].
    cbn [jopt py_str]. unfold write_scope in E. rewrite Ho in E.
    destruct (normalize_write_prefixes (Some o) []) as [|p l] eqn:En; [done|]. exfalso.
    assert (p ∈ _normalize_write_prefixes (Some o) (write_prefixes g)) as Hp.
    { apply elem_of_normalized. assert (p ∈ normalize_write_prefixes (Some o) []) as Hp by (rewrite En; by left).
      apply elem_of_normalized in Hp as (v & Hv & Hr). exists v. rewrite app_nil_r in Hv.
      by rewrite elem_of_app; auto. }
    rewrite E in Hp. by apply not_elem_of_nil in Hp.
  - rewrite bool_decide_eq_false_2 by done. done.
Qed.

(** * The decisions of the routes *)

Lemma allowed_payload g path : _allowed (payload_of g) path = Ok (reads g path).
Proof.
  unfold _allowed. rewrite (texts_of_jstrs _ "allow_patterns" (allow_patterns g)) by by apply payload_get.
  cbn [mbind res_bind]. rewrite (texts_of_jstrs _ "deny_patterns" (deny_patterns g)) by by apply payload_get.
  cbn [mbind res_bind]. unfold reads, allow_or_all.
  by destruct (allow_patterns g), (deny_patterns g).
Qed.

(** A path as [_sanitize_key] returns it: no outer slash, no backslash. *)
Definition sanitised (path : string) : Prop := path ≠ "" ∧ clean_prefix path = path.

Lemma strip_slash_clean v : strip_char "/"%char (clean_prefix v) = clean_prefix v.
Proof.
  apply (inj chars). unfold strip_char, strip_by. rewrite chars_of_chars.
  fold (strip_list (Ascii.eqb "/"%char) (chars (clean_prefix v))).
  pose proof (strip_list_front (Ascii.eqb "/"%char)
    (map (λ c, if Ascii.eqb c "\"%char then "/"%char else c) (chars v))) as Hf.
  pose proof (strip_list_back (Ascii.eqb "/"%char)
    (map (λ c, if Ascii.eqb c "\"%char then "/"%char else c) (chars v))) as Hb.
  rewrite <-chars_clean_prefix in Hf, Hb. unfold strip_list.
  by rewrite (drop_while_front_id _ _ Hf), (drop_while_front_id _ _ Hb), rev_involutive.
Qed.

Lemma strip_slash_normal v : strip_char "/"%char (clean_prefix v +:+ "/") = clean_prefix v.
Proof.
  apply (inj chars). unfold strip_char at 1, strip_by. rewrite chars_of_chars, chars_app.
  change (chars "/") with ["/"%char].
  assert (chars (clean_prefix v) = strip_list (Ascii.eqb "/"%char) (chars (clean_prefix v))) as E.
  { rewrite <-(strip_slash_clean v) at 1. unfold strip_char, strip_by, strip_list. by rewrite chars_of_chars. }
  rewrite E. exact (strip_list_snoc (Ascii.eqb "/"%char) (chars (clean_prefix v)) "/"%char eq_refl).
Qed.

Lemma under_prefixes_matches path ps : sanitised path → (∀ p, p ∈ ps → normal_prefix p) →
  under_prefixes path ps = _matches_write_prefix path ps.
Proof.
  intros [_ Hpath] Hps. unfold under_prefixes, _matches_write_prefix.
  assert (strip_char "/"%char path = path) as -> by (rewrite <-Hpath; apply strip_slash_clean).
  rewrite Hpath. apply eq_true_iff_eq. rewrite !existsb_elem.
  split; intros (p & Hp & H); exists p; (split; [done|]);
    destruct (Hps p Hp) as (v & _ & ->); rewrite strip_slash_normal, clean_prefix_slash in *; exact H.
Qed.

(** Normalising the write scope once more: empty when it is, and as far reaching. *)
Lemma renormalized_nil o ps :
  _normalize_write_prefixes o (_normalize_write_prefixes o ps) = [] ↔ _normalize_write_prefixes o ps = [].
Proof.
  split; [apply normalized_empty|]. intros E. rewrite E.
  destruct (_normalize_write_prefixes o []) as [|p l] eqn:En; [done|]. exfalso.
  assert (p ∈ _normalize_write_prefixes o []) as Hp by (rewrite En; by left).
  apply elem_of_normalized in Hp as (v & Hv & Hr). rewrite app_nil_r in Hv.
  assert (p ∈ _normalize_write_prefixes o ps) as Hin.
  { apply elem_of_normalized. exists v. rewrite elem_of_app. auto. }
  rewrite E in Hin. by apply not_elem_of_nil in Hin.
Qed.

Lemma writable_payload g path : sanitised path → _writable (payload_of g) path = Ok (writes g path).
Proof.
  intros Hs. unfold _writable, writes. rewrite payload_get by done.
  change (jget (model_dump g) "mode") with (JStr (mode_value (mode g))).
  rewrite (texts_of_jstrs_nil _ "write_prefixes" (write_scope g)) by apply payload_write_prefixes.
  rewrite payload_get by done.
  assert (text_only (jget (model_dump g) "outputs_prefix") = outputs_prefix g) as ->.
  { change (jget (model_dump g) "outputs_prefix") with (jopt (outputs_prefix g)).
    by destruct (outputs_prefix g). }
  pose proof (renormalized_nil (outputs_prefix g) (write_prefixes g)) as Hnil.
  pose proof (matches_renormalized path (outputs_prefix g) (write_prefixes g)) as Hm.
  fold (write_scope g) in Hnil, Hm. cbn [mbind res_bind].
  change (normalize_write_prefixes (outputs_prefix g) (write_scope g))
    with (_normalize_write_prefixes (outputs_prefix g) (write_scope g)).
  assert (match _normalize_write_prefixes (outputs_prefix g) (write_scope g) with
          | [] => _allowed (payload_of g) path
          | prefixes => Ok (under_prefixes path prefixes) end
        = Ok (match write_scope g with [] => reads g path | ps => _matches_write_prefix path ps end)) as H.
  { destruct (_normalize_write_prefixes (outputs_prefix g) (write_scope g)) as [|p l] eqn:E.
    - rewrite (proj1 Hnil eq_refl). apply allowed_payload.
    - rewrite under_prefixes_matches; [|done|].
      + rewrite Hm. destruct (write_scope g) as [|w ws]; [discriminate (proj2 Hnil eq_refl)|done].
      + intros q Hq. rewrite <-E in Hq. by eapply normalized_prefixes. }
  destruct (mode g); cbn [mode_value py_or truthy py_str]; [done|exact H..].
Qed.

(** ** Source scopes *)

Lemma named_agent_source s : named_agent (match source_dump s with JObj d => d | _ => [] end)
  = strip (sg_agent s).
Proof. destruct s as [[|c a] t]; reflexivity. Qed.

Lemma best_scope_sources repo best l :
  best_scope repo best (map source_dump l)
  = if existsb (λ x, (strip (sg_agent x) =s? repo) && bool_decide (sg_scope x = WriteSource)) l
    then Some "write"
    else if existsb (λ x, strip (sg_agent x) =s? repo) l then Some "read" else best.
Proof.
  revert best. induction l as [|[a t] l IH]; intros best; [done|]. cbn [map best_scope existsb].
  pose proof (named_agent_source (mkSource a t)) as Hn. cbn [source_dump sg_agent] in Hn |- *.
  rewrite Hn. destruct (strip a =s? repo) eqn:E; cbn [negb andb orb]; [|apply IH].
  destruct t; cbn -[existsb]; [|done].
  rewrite IH. destruct (existsb _ l); [done|]. by destruct (existsb _ l).
Qed.

Lemma source_scope_payload g repo : _source_grant_scope (payload_of g) repo =
  Ok (if sources g repo WriteSource then Some "write"
      else if sources g repo ReadSource then Some "read" else None).
Proof.
  unfold _source_grant_scope, source_items. rewrite payload_get by done.
  change (jget (model_dump g) "source_grants") with (JList (map source_dump (source_grants g))).
  assert (py_or (JList (map source_dump (source_grants g))) (JList [])
          = JList (map source_dump (source_grants g))) as -> by by destruct (source_grants g).
  cbn [mbind res_bind]. rewrite best_scope_sources. unfold sources. do 2 f_equal.
  assert (∀ f h : SourceGrant → bool, (∀ x, f x = h x) →
    existsb f (source_grants g) = existsb h (source_grants g)) as Hext.
  { intros f h H. induction (source_grants g) as [|x l IH]; [done|]. cbn. by rewrite H, IH. }
  rewrite (Hext (λ x, (strip (sg_agent x) =s? repo) && bool_decide (sg_scope x = WriteSource))
    (λ x, (strip (sg_agent x) =s? repo)
      && (bool_decide (sg_scope x = WriteSource) || bool_decide (WriteSource = ReadSource))));
    [|intros x; by rewrite orb_false_r].
  rewrite (Hext (λ x, strip (sg_agent x) =s? repo) (λ x, (strip (sg_agent x) =s? repo)
    && (bool_decide (sg_scope x = WriteSource) || bool_decide (ReadSource = ReadSource)))); [done|].
  intros x. by rewrite orb_true_r, andb_true_r.
Qed.

(** ** Sanitised paths *)

(** A part of a path: not empty, without slashes of either kind. *)
Definition good_part (p : string) : Prop :=
  chars p ≠ [] ∧ Forall (λ c, c ≠ "/"%char ∧ c ≠ "\"%char) (chars p).

Lemma split_chars_parts sep cur l p : p ∈ split_chars sep cur l →
  ∀ c, c ∈ p → (c ∈ cur ∨ c ∈ l ∧ c ≠ sep).
Proof.
  revert cur. induction l as [|d l IH]; intros cur; cbn.
  - intros ->%list_elem_of_singleton c Hc. left. by apply list_elem_of_In, in_rev, list_elem_of_In.
  - destruct (Ascii.eqb_spec d sep) as [->|Hne].
    + intros [->|Hp]%elem_of_cons c Hc.
      * left. by apply list_elem_of_In, in_rev, list_elem_of_In.
      * destruct (IH _ Hp c Hc) as [H|[H ?]]; [by apply not_elem_of_nil in H|right; split; [by right|done]].
    + intros Hp c Hc. destruct (IH _ Hp c Hc) as [[->|H]%elem_of_cons|[H ?]];
        [right; split; [by left|done]|by left|right; split; [by right|done]].
Qed.

Lemma path_parts_good raw p : p ∈ path_parts raw → good_part p.
Proof.
  unfold path_parts. rewrite list_elem_of_In, filter_In. intros [Hp Hne].
  rewrite andb_true_iff, !negb_true_iff, String.eqb_neq in Hne. destruct Hne as [Hne _].
  split; [intros H; apply Hne; apply (inj chars); done|].
  unfold split in Hp. apply in_map_iff in Hp as (l & <- & Hl). rewrite chars_of_chars.
  apply Forall_forall. intros c Hc. apply list_elem_of_In in Hl.
  destruct (split_chars_parts _ _ _ _ Hl c Hc) as [H|[H Hs]]; [by apply not_elem_of_nil in H|].
  split; [done|]. unfold lstrip_char in H. rewrite chars_of_chars in H.
  destruct (drop_while_suffix (Ascii.eqb "/"%char)
    (chars (replace_char "\"%char "/"%char (strip raw)))) as [pre Hpre].
  assert (c ∈ chars (replace_char "\"%char "/"%char (strip raw))) as Hin
    by (rewrite Hpre; apply elem_of_app; by right).
  unfold replace_char in Hin. rewrite chars_of_chars in Hin.
  apply list_elem_of_fmap in Hin as (d & -> & _). destruct (Ascii.eqb_spec d "\"%char); [done|done].
Qed.

Lemma joined_chars parts : parts ≠ [] → Forall good_part parts →
  front_ok (Ascii.eqb "/"%char) (chars (join_slash parts))
  ∧ front_ok (Ascii.eqb "/"%char) (rev (chars (join_slash parts)))
  ∧ Forall (λ c, c ≠ "\"%char) (chars (join_slash parts)) ∧ chars (join_slash parts) ≠ [].
Proof.
  assert (∀ c, c ≠ "/"%char → Ascii.eqb "/" c = false) as Hs.
  { intros c Hc. by destruct (Ascii.eqb_spec "/" c). }
  unfold join_slash. induction parts as [|p l IH]; [done|]. intros _ Hl.
  inversion Hl as [|? ? [Hp Hc] Hl']; subst.
  assert (front_ok (Ascii.eqb "/"%char) (chars p) ∧ front_ok (Ascii.eqb "/"%char) (rev (chars p))
          ∧ Forall (λ c, c ≠ "\"%char) (chars p)) as (Hf & Hb & Hn).
  { split_and!.
    - destruct (chars p) as [|c k]; [done|]. inversion Hc; subst. cbn. naive_solver.
    - apply Forall_rev in Hc. destruct (rev (chars p)) as [|c k]; [done|]. inversion Hc; subst.
      cbn. naive_solver.
    - eapply Forall_impl; [exact Hc|]. naive_solver. }
  destruct l as [|q l]; [done|]. destruct IH as (_ & IHb & IHn & IHe); [done|done|].
  change (String.concat "/" (p :: q :: l)) with (p +:+ ("/" +:+ String.concat "/" (q :: l))).
  rewrite !chars_app. split_and!.
  - destruct (chars p) as [|c k]; [done|]. exact Hf.
  - rewrite !rev_app_distr. destruct (rev (chars (String.concat "/" (q :: l)))) as [|c k] eqn:E; [|exact IHb].
    apply (f_equal (@rev ascii)) in E. rewrite rev_involutive in E. done.
  - apply Forall_app. split; [done|]. apply Forall_app. split; [by repeat constructor|done].
  - by destruct (chars p).
Qed.

Lemma sanitize_key_ok raw key : _sanitize_key raw = Ok key → sanitised key.
Proof.
  unfold _sanitize_key. cbv zeta. destruct (path_parts raw) as [|p l] eqn:E; [done|].
  destruct (existsb _ (p :: l)); [done|]. intros [= <-].
  destruct (joined_chars (p :: l)) as (Hf & Hb & Hn & Hne); [done| |].
  { apply Forall_forall. intros x Hx. apply (path_parts_good raw). by rewrite E. }
  split; [intros H; by rewrite H in Hne|]. apply (inj chars). rewrite chars_clean_prefix.
  assert (map (λ c, if Ascii.eqb c "\"%char then "/"%char else c) (chars (join_slash (p :: l)))
          = chars (join_slash (p :: l))) as ->.
  { rewrite <-(map_id (chars (join_slash (p :: l)))) at 2. apply map_ext_in. intros c Hc.
    rewrite Forall_forall in Hn. apply list_elem_of_In, Hn in Hc.
    by destruct (Ascii.eqb_spec c "\"%char). }
  unfold strip_list. by rewrite (drop_while_front_id _ _ Hf), (drop_while_front_id _ _ Hb), rev_involutive.
Qed.

(** * Grants through the wire *)

(** Filling in the write prefixes changes nothing. *)
Lemma payload_of_eq g : payload_of g = model_dump (normalized g).
Proof.
  pose proof (payload_write_prefixes g) as H. unfold payload_of, fill_write_prefixes in *.
  destruct (negb _ && _); [|done]. rewrite jget_insert in H. rewrite H.
  apply dict_insert_id. by rewrite normalized_eq.
Qed.

Lemma write_scope_normalized g path :
  _matches_write_prefix path (write_scope (normalized g)) = _matches_write_prefix path (write_scope g)
  ∧ (write_scope (normalized g) = [] ↔ write_scope g = []).
Proof.
  rewrite normalized_eq. unfold write_scope at 1 3. cbn [outputs_prefix write_prefixes with_write_prefixes].
  split; [apply matches_renormalized|apply renormalized_nil].
Qed.

Lemma writes_normalized g path : writes (normalized g) path = writes g path.
Proof.
  destruct (write_scope_normalized g path) as [Hm Hn]. unfold writes.
  assert (mode (normalized g) = mode g) as -> by by rewrite normalized_eq. f_equal.
  assert (reads (normalized g) path = reads g path) as -> by by rewrite normalized_eq.
  destruct (write_scope (normalized g)) as [|x l] eqn:E, (write_scope g) as [|y k] eqn:E'; try done.
  - discriminate (proj1 Hn eq_refl).
  - discriminate (proj2 Hn eq_refl).
Qed.

Lemma below_normalized g : below (normalized g) g.
Proof.
  split; rewrite ?normalized_eq; try done; try lia;
    try (apply opt_within_refl; try (intros; lia)).
  - intros path _. by rewrite <-normalized_eq, writes_normalized.
  - intros x. apply flt_irrefl.
Qed.

Lemma normalized_facts g :
  plain_grant (normalized g) = plain_grant g ∧ explicit (normalized g) = explicit g
  ∧ grant_valid (normalized g) = grant_valid g.
Proof.
  split_and!; [by rewrite normalized_eq| |by rewrite normalized_eq].
  destruct (write_scope_normalized g "") as [_ Hn]. unfold explicit.
  assert (mode (normalized g) = mode g) as -> by by rewrite normalized_eq.
  do 2 f_equal. by apply bool_decide_ext.
Qed.

(** A grant that was normalised needs nothing filled in. *)
Lemma after_validation_normalized g : after_validation (normalized g) = normalized g.
Proof.
  rewrite normalized_eq. unfold after_validation. cbn [write_prefixes outputs_prefix with_write_prefixes].
  destruct (write_scope g) as [|p l] eqn:E; [|done]. destruct (truthy_text (outputs_prefix g)); [|done].
  pose proof (proj2 (renormalized_nil (outputs_prefix g) (write_prefixes g)) E) as H.
  unfold write_scope in E. rewrite E in H. rewrite H. done.
Qed.
