(* ===== verification/GrantMachine.v ===== *)
(** The grant service as a machine, and the authority it refines.

    The concrete machine holds the grants that were signed; a step serves a
    request with any token at all, or delegates.  The calls of the services a
    run makes are its trace.  The abstract machine knows one grant, the root,
    and makes the calls that grant permits ([permitted]).  The simulation
    relation says that every signed grant is [below] the root. *)
From Stdlib Require Import Ascii.
From S2P Require Import Prelude PyStr PyDict PyFloat PyJson PyJsonText FnMatch WritePrefix.
From S2P Require Import Grants GrantTokens GrantService GrantFacts GrantTokenFacts.
Open Scope Z_scope.

(** * Calls of a program *)

(** Every call [m] can make, whatever the answers, satisfies [P], and every
result it can return satisfies [Q]. *)
Fixpoint safe {A} (P : ∀ X, call X → Prop) (Q : A → Prop) (m : prog A) : Prop :=
  match m with
  | Ret a => Q a
  | Fail _ => True
  | Do c k => P _ c ∧ ∀ x, safe P Q (k x)
  end.

Definition anything {A} (_ : A) : Prop := True.

Section safe_rules.
Context (P : ∀ X, call X → Prop).

Lemma safe_bind {A B} (Q : A → Prop) (R : B → Prop) (m : prog A) (f : A → prog B) :
  safe P Q m → (∀ a, Q a → safe P R (f a)) → safe P R (m ≫= f).
Proof.
  intros Hm Hf. induction m as [a|e|X c k IH]; cbn in *; [by apply Hf|done|].
  destruct Hm as [Hc Hk]. split; [done|]. intros x. by apply IH.
Qed.

Lemma safe_pure {A B} (R : B → Prop) (m : res A) (f : A → prog B) :
  (∀ a, m = Ok a → safe P R (f a)) → safe P R (pure m ≫= f).
Proof. destruct m as [a|e]; [|done]. intros H. by apply H. Qed.

Lemma safe_ask {X B} (R : B → Prop) (c : call X) (f : X → prog B) :
  P X c → (∀ x, safe P R (f x)) → safe P R (ask c ≫= f).
Proof. intros Hc Hf. split; [done|]. exact Hf. Qed.

Lemma safe_catch {A} (Q : A → Prop) (m : prog A) h :
  safe P Q m → (∀ s d, safe P Q (h s d)) → safe P Q (catch_http m h).
Proof.
  intros Hm Hh. induction m as [a|e|X c k IH]; cbn in *; [done|by destruct e|].
  destruct Hm as [Hc Hk]. split; [done|]. intros x. by apply IH.
Qed.
End safe_rules.

(** A call that has been made. *)
Definition label : Type := { X : Type & call X }.

(** The calls made on the way to some point of [m], for some answers. *)
Inductive runs {A} : prog A → list label → Prop :=
  | runs_stop m : runs m []
  | runs_unanswered X (c : call X) k : runs (Do c k) [existT X c]
  | runs_call X (c : call X) k x ls : runs (k x) ls → runs (Do c k) (existT X c :: ls).

Lemma safe_runs {A} P (Q : A → Prop) (m : prog A) ls :
  safe P Q m → runs m ls → Forall (λ l, P (projT1 l) (projT2 l)) ls.
Proof.
  intros Hm H. induction H as [m|X c k|X c k x ls Hr IH]; [constructor| |].
  { destruct Hm as [Hc _]. constructor; [exact Hc|constructor]. }
  destruct Hm as [Hc Hk]. constructor; [exact Hc|]. apply IH, Hk.
Qed.

(** * What a grant permits *)

Definition repo_path (repo inner : string) : string := "agents/" +:+ repo +:+ "/" +:+ inner.

Definition scope_named (scope : string) : source_scope :=
  if scope =s? "write" then WriteSource else ReadSource.

(** Reading the database is not restricted; everything else is. *)
Definition permitted (g : Grant) (X : Type) (c : call X) : Prop :=
  match c with
  | get_file b k | stat_file b k => b = bucket g ∧ k ≠ "" ∧ reads g k = true
  | upload_file b k _ _ | delete_file b k => b = bucket g ∧ k ≠ "" ∧ writes g k = true
  | list_files b _ => b = bucket g
  | ensure_repo repo _ => sources g repo WriteSource = true
  | mint_scoped_token scope _ repo _ _ _ => sources g repo (scope_named scope) = true
  | repo_read be p => sources g (gb_repo be) ReadSource = true ∧ reads g (repo_path (gb_repo be) p) = true
  | repo_write be p _ | repo_delete be p =>
      sources g (gb_repo be) WriteSource = true ∧ writes g (repo_path (gb_repo be) p) = true
  | repo_files be _ _ => sources g (gb_repo be) ReadSource = true
  | repo_exists repo _ => sources g repo ReadSource = true
  | find_agent _ | get_user _ | resolve_workspace _ | require_access _ _ _ => True
  end.

Lemma repo_path_not_empty repo inner : repo_path repo inner ≠ "".
Proof. done. Qed.

Lemma permitted_below c p X (k : call X) : below c p → permitted c X k → permitted p X k.
Proof.
  intros Hb. pose proof (below_bucket _ _ Hb) as Eb.
  destruct k; cbn; try rewrite Eb; try done; try (intros (-> & Hk & H); eauto using below_reads, below_writes);
    try apply (below_sources _ _ Hb);
    intros [Hs H]; split; eauto using below_sources, below_reads, below_writes, repo_path_not_empty.
Qed.

(** * The handlers make permitted calls *)

Lemma source_write_read g repo s : sources g repo s = true → sources g repo ReadSource = true.
Proof.
  unfold sources. rewrite !existsb_elem. intros (x & Hx & [Hr _]%andb_true_iff). exists x.
  split; [done|]. rewrite Hr, (bool_decide_eq_true_2 (ReadSource = ReadSource)) by done.
  by rewrite orb_true_r.
Qed.

Lemma after_app pre s : after pre (pre +:+ s) = s.
Proof.
  unfold after. rewrite chars_app. apply (inj chars). rewrite chars_of_chars.
  assert (String.length pre = length (chars pre)) as -> by by (induction pre; cbn; congruence).
  by rewrite drop_app_length.
Qed.

Lemma split1_join sep l acc x r : split1_chars sep acc l = (x, Some r) → rev acc ++ l = x ++ sep :: r.
Proof.
  revert acc. induction l as [|c l IH]; intros acc; cbn; [done|].
  destruct (Ascii.eqb_spec c sep) as [->|]; [by intros [= <- <-]|].
  intros H%IH. cbn in H. by rewrite <-app_assoc in H.
Qed.

Lemma workspace_route_path key repo inner : _workspace_route key = Some (repo, inner) → inner ≠ "" →
  key = repo_path repo inner.
Proof.
  unfold _workspace_route. destruct (startswith key "agents/") eqn:Hs; cbn [negb]; [|done].
  apply startswith_iff in Hs as [rest ->]. rewrite after_app. unfold split1.
  destruct (split1_chars "/" [] (chars rest)) as [a b] eqn:E.
  destruct b as [b|]; cbn [fmap option_fmap default].
  - destruct (_ || _); [done|]. intros [= <- <-] _. apply split1_join in E. unfold repo_path.
    do 1 f_equal. apply (inj chars). rewrite !chars_app, !chars_of_chars. exact E.
  - destruct (_ || _); [done|]. by intros [= _ <-].
Qed.

Lemma header_verified (verify_token : string → res jobject) token d :
  _grant_from_header verify_token (Some token) = Ok d → verify_token token = Ok d.
Proof.
  unfold _grant_from_header, http. change (default "" (Some token)) with token.
  destruct (truthy_text (Some token)); [|done]. destruct (verify_token token) as [d'|e]; [|by destruct e].
  destruct (_ =s? ""); [done|]. by intros [= <-].
Qed.

Section handlers.
Context (g : Grant) (verify_token : string → res jobject) (GITEA_USER : string) (now : Z).

Abbreviation ok := (permitted g).

Lemma source_scope_ok repo s : _source_grant_scope (payload_of g) repo = Ok (Some s) →
  sources g repo ReadSource = true ∧ (s = "write" → sources g repo WriteSource = true).
Proof.
  rewrite source_scope_payload. destruct (sources g repo WriteSource) eqn:Hw.
  - intros _. split; [by eapply source_write_read|done].
  - destruct (sources g repo ReadSource); [|done]. by intros [= <-].
Qed.

Lemma workspace_owner_safe uid repo scope :
  sources g repo ReadSource = true → sources g repo (scope_named scope) = true →
  safe ok anything (workspace_owner GITEA_USER uid repo scope).
Proof.
  intros Hr Hs. apply safe_ask; [done|]. intros known. destruct (negb known); [done|].
  apply safe_ask; [done|]. intros [org|msg]; [|done]. unfold scope_named in Hs.
  destruct (scope =s? "write"); (apply safe_ask; [done|]); intros; [done|by case_match].
Qed.

Lemma backend_safe repo scope : scope = "read" ∨ scope = "write" →
  safe ok (λ b, gb_repo b = repo ∧ sources g repo (scope_named scope) = true)
    (_gitea_backend_for_grant GITEA_USER now (payload_of g) repo scope).
Proof.
  intros Hscope. apply safe_ask; [done|]. intros agent. apply safe_pure. intros uid _.
  apply safe_pure. intros [s|] Hs; [|done]. apply source_scope_ok in Hs as [Hr Hw].
  destruct ((scope =s? "write") && negb (s =s? "write")) eqn:E; [done|].
  assert (sources g repo (scope_named scope) = true) as Hn.
  { unfold scope_named. destruct (scope =s? "write"); [|done]. apply Hw.
    cbn [andb] in E. apply negb_false_iff in E. by apply String.eqb_eq. }
  destruct uid as [uid|]; [|done]. apply (safe_bind _ anything).
  { destruct agent as [a|]; [|by apply workspace_owner_safe].
    apply (safe_bind _ anything); [|done]. unfold _assert_grant_user_can_access_agent_source.
    destruct (owner_id a =? uid); [done|]. apply safe_ask; [done|]. by intros []. }
  intros owner _. apply safe_pure. intros e _. apply safe_ask.
  - cbn. by destruct Hscope as [->| ->].
  - by intros [].
Qed.

(** ** The four file handlers *)

Context (token : string) (Hverify : verify_token token = Ok (payload_of g)).

Lemma header_grant d : _grant_from_header verify_token (Some token) = Ok d → d = payload_of g.
Proof. intros H%header_verified. rewrite Hverify in H. by injection H. Qed.

Lemma bucket_payload : bucket_of (payload_of g) = bucket g.
Proof. unfold bucket_of. by rewrite payload_get. Qed.

(** What the three guards of a handler establish. *)
Lemma guarded {B} (allowed : jobject → string → res bool) (authority : string → bool) path status detail
    (f : jobject → string → prog B) (Q : B → Prop) :
  (∀ key, sanitised key → allowed (payload_of g) key = Ok (authority key)) →
  (∀ key, sanitised key → authority key = true → safe ok Q (f (payload_of g) key)) →
  safe ok Q (grant ← pure (_grant_from_header verify_token (Some token));
             key ← pure (_sanitize_key path);
             allow ← pure (allowed grant key);
             if negb allow then fail_http status detail else f grant key).
Proof.
  intros Ha Hf. apply safe_pure. intros d ->%header_grant. apply safe_pure.
  intros key Hk%sanitize_key_ok. apply safe_pure. rewrite Ha by done. intros a [= <-].
  destruct (authority key) eqn:E; [by apply Hf|done].
Qed.

Lemma read_safe path : safe ok anything (read_grant_file verify_token GITEA_USER now path (Some token)).
Proof.
  apply (guarded _allowed (reads g)); [intros; apply allowed_payload|]. intros key Hk Hr.
  destruct (_workspace_route key) as [[repo inner]|] eqn:Er.
  - destruct (String.eqb_spec inner "") as [|Hne]; [done|]. apply workspace_route_path in Er; [|done].
    eapply safe_bind; [by apply backend_safe; left|]. intros b [Hb Hs]. apply safe_ask.
    + cbn. rewrite Hb, <-Er. done.
    + by intros [].
  - apply safe_ask; [|by intros [[]|]]. cbn. rewrite bucket_payload. destruct Hk. done.
Qed.

Lemma stat_safe path : safe ok anything (stat_grant_file verify_token GITEA_USER now path (Some token)).
Proof.
  apply (guarded _allowed (reads g)); [intros; apply allowed_payload|]. intros key Hk Hr.
  destruct (_workspace_route key) as [[repo inner]|] eqn:Er.
  - destruct (String.eqb_spec inner "") as [|Hne]; [done|]. apply workspace_route_path in Er; [|done].
    eapply safe_bind; [by apply backend_safe; left|]. intros b [Hb Hs]. apply safe_ask.
    + cbn. rewrite Hb, <-Er. done.
    + by intros [].
  - apply safe_ask; [|by intros [|]]. cbn. rewrite bucket_payload. destruct Hk. done.
Qed.

Lemma retry_safe n b path body Q : ok _ (repo_write b path body) →
  (∀ r, Q r) → safe ok Q (_write_gitea_bytes_with_retry n b path body).
Proof.
  intros Hok HQ. induction n as [|n IH]; [apply HQ|]. apply safe_ask; [done|].
  intros [a| |msg]; [apply HQ..|]. destruct n; [apply HQ|exact IH].
Qed.

Lemma write_safe path body ct :
  safe ok anything (write_grant_file verify_token GITEA_USER now path body ct (Some token)).
Proof.
  apply (guarded _writable (writes g)); [apply writable_payload|]. intros key Hk Hw.
  destruct (_workspace_route key) as [[repo inner]|] eqn:Er.
  - destruct (String.eqb_spec inner "") as [|Hne]; [done|]. apply workspace_route_path in Er; [|done].
    eapply safe_bind; [by apply backend_safe; right|]. intros b [Hb Hs].
    apply (safe_bind _ anything); [|by intros []]. apply retry_safe; [|done].
    cbn. rewrite Hb, <-Er. done.
  - apply safe_ask; [|done]. cbn. rewrite bucket_payload. destruct Hk. done.
Qed.

Lemma delete_safe path :
  safe ok anything (delete_grant_file verify_token GITEA_USER now path (Some token)).
Proof.
  apply (guarded _writable (writes g)); [apply writable_payload|]. intros key Hk Hw.
  destruct (_workspace_route key) as [[repo inner]|] eqn:Er.
  - destruct (String.eqb_spec inner "") as [|Hne]; [done|]. apply workspace_route_path in Er; [|done].
    eapply safe_bind; [by apply backend_safe; right|]. intros b [Hb Hs]. apply safe_ask.
    + cbn. rewrite Hb, <-Er. done.
    + by intros [].
  - apply safe_ask; [|by intros [|]]. cbn. rewrite bucket_payload. destruct Hk. done.
Qed.

(** ** Listing *)

Lemma list_buckets_safe limit prefixes rows seen :
  safe ok anything (list_buckets limit (payload_of g) prefixes rows seen).
Proof.
  revert rows seen. induction prefixes as [|p l IH]; intros rows seen; [done|]. cbn [list_buckets].
  destruct (_ <=? _); [done|]. apply safe_ask; [apply bucket_payload|]. intros items.
  apply safe_pure. intros [rows' seen'] _. apply IH.
Qed.

Lemma collect_repo_safe b room prefixes acc : sources g (gb_repo b) ReadSource = true →
  safe ok anything (collect_repo b room prefixes acc).
Proof.
  intros Hb. revert acc. induction prefixes as [|p l IH]; intros acc; [done|]. cbn [collect_repo].
  destruct (_ <=? _); [done|]. apply safe_ask; [done|]. intros [found| |msg]; [apply IH|done..].
Qed.

Lemma list_repos_safe limit repos rows seen :
  safe ok anything (list_repos GITEA_USER now limit (payload_of g) repos rows seen).
Proof.
  revert rows seen. induction repos as [|r l IH]; intros rows seen; [done|]. cbn [list_repos].
  destruct (_ <=? _); [done|]. apply safe_pure. intros [|p ps] _; [apply IH|].
  apply (safe_bind _ anything).
  - apply (safe_bind _ anything); [|by intros [| |]].
    apply safe_catch; [|by intros s d; destruct (s =? 404)].
    eapply safe_bind; [by apply backend_safe; left|]. intros b [Hb Hs].
    apply collect_repo_safe. by rewrite Hb.
  - intros items _. apply safe_pure. intros [rows' seen'] _. apply IH.
Qed.

Lemma list_safe limit : safe ok anything (list_grant_files verify_token GITEA_USER now limit (Some token)).
Proof.
  apply safe_pure. intros d ->%header_grant. apply safe_pure. intros prefixes _.
  apply (safe_bind _ anything); [apply list_buckets_safe|]. intros [rows seen] _.
  apply safe_pure. intros repos _. apply (safe_bind _ anything); [apply list_repos_safe|done].
Qed.
End handlers.

(** * The machines *)

Inductive request : Type :=
  | ReadFile (path : string)
  | StatFile (path : string)
  | WriteFile (path body : string) (content_type : option string)
  | DeleteFile (path : string)
  | ListFiles (limit : option Z).

Definition handle (verify_token : string → res jobject) (GITEA_USER : string) (now : Z)
    (r : request) (token : string) : prog response :=
  match r with
  | ReadFile p => read_grant_file verify_token GITEA_USER now p (Some token)
  | StatFile p => stat_grant_file verify_token GITEA_USER now p (Some token)
  | WriteFile p body ct => write_grant_file verify_token GITEA_USER now p body ct (Some token)
  | DeleteFile p => delete_grant_file verify_token GITEA_USER now p (Some token)
  | ListFiles limit => list_grant_files verify_token GITEA_USER now limit (Some token)
  end.

Lemma handle_safe g verify_token GITEA_USER now r token : verify_token token = Ok (payload_of g) →
  safe (permitted g) anything (handle verify_token GITEA_USER now r token).
Proof.
  intros H. destruct r;
    [apply read_safe|apply stat_safe|apply write_safe|apply delete_safe|apply list_safe]; exact H.
Qed.

(** Without a verified grant a handler makes no call. *)
Lemma handle_refused verify_token GITEA_USER now r token :
  ¬ is_Some (match verify_token token with Ok d => Some d | Raise _ => None end) →
  ∃ e, handle verify_token GITEA_USER now r token = Fail e.
Proof.
  intros H. assert (∃ e, _grant_from_header verify_token (Some token) = Raise e) as [e He].
  { unfold _grant_from_header. change (default "" (Some token)) with token.
    destruct (truthy_text (Some token)); [|by eexists].
    destruct (verify_token token) as [d|e]; [by destruct H|]. by destruct e; eexists. }
  exists e. by destruct r; cbn [handle];
    unfold read_grant_file, stat_grant_file, write_grant_file, delete_grant_file, list_grant_files;
    rewrite He.
Qed.

(** What a root grant allows, as a machine: any sequence of permitted calls. *)
Inductive spec (root : Grant) : list label → Prop :=
  | spec_done : spec root []
  | spec_call l ls : permitted root (projT1 l) (projT2 l) → spec root ls → spec root (l :: ls).

Lemma spec_app root ls ks : spec root ls → spec root ks → spec root (ls ++ ks).
Proof. induction 1; [done|]. intros Hk. cbn. constructor; auto. Qed.

Lemma spec_below g root ls : below g root →
  Forall (λ l, permitted g (projT1 l) (projT2 l)) ls → spec root ls.
Proof. intros Hb. induction 1; constructor; [by eapply permitted_below|done]. Qed.

(** The payload that is signed for a grant. *)
Definition wire_payload (g : Grant) : string := dumps false (JObj (model_dump (normalized g))).

(** What the refinement asks of a grant: plain patterns, a spelled-out write
scope, values the JSON text reads back. *)
Definition careful (g : Grant) : bool := plain_grant g && explicit g && readable g.

Section machine.
Context {private public : Type}.
Context (priv : string → res private) (pub : string → res public) (public_key : private → public).
Context (sign : private → string → string) (verify : public → string → string → bool).
Context (signing_env verifying_env : string).
Context (validate_source : jobject → res SourceGrant) (model_validate : json → res Grant).

(** Validating the dump of a grant gives the grant back. *)
Context (Hvalidate : ∀ g, grant_valid g = true → model_validate (JObj (model_dump g)) = Ok g).

Abbreviation verify_token := (verify_grant_token priv pub public_key verify signing_env verifying_env).
Abbreviation verifying_key := (_required_verifying_key priv pub public_key signing_env verifying_env).

(** No forgery: if the token's signature is accepted, its payload was signed for
one of the grants. *)
Definition genuine (signed : list Grant) (token : string) : Prop :=
  ∀ payload sig key, token_parts token = Ok (payload, sig) → verifying_key = Ok key →
    verify key sig payload = true → ∃ g, g ∈ signed ∧ payload = wire_payload g.

(** One step of the service, with the calls it makes: a request under any token,
stopped at any point, or a delegation through the route. *)
Inductive sstep (signed : list Grant) : list label → list Grant → Prop :=
  | serves token now gitea_user r ls :
      genuine signed token → runs (handle (verify_token now) gitea_user now r token) ls →
      sstep signed ls signed
  | delegates token now now' i n body d parent m child out :
      genuine signed token →
      _grant_from_header (verify_token now) (Some token) = Ok d →
      model_validate (JObj d) = Ok parent → mode_of (in_mode body) = Ok m →
      delegate_grant priv sign signing_env validate_source now now' i n parent (ask_of parent m body)
        = Ok (child, out) →
      careful child = true →
      sstep signed [] (child :: signed).

Inductive ssteps : list Grant → list label → list Grant → Prop :=
  | ssteps_refl s : ssteps s [] s
  | ssteps_step s1 ls s2 ks s3 : ssteps s1 ls s2 → sstep s2 ks s3 → ssteps s1 (ls ++ ks) s3.

(** A token that verifies carries the payload of a signed grant. *)
Lemma verified_payload signed token now d :
  genuine signed token → Forall (λ g, readable g = true) signed →
  verify_token now token = Ok d → ∃ g, g ∈ signed ∧ d = payload_of g.
Proof.
  intros Hg Hread. unfold verify_grant_token. intros ([payload sig] & Hp & H)%res_bind_ok.
  apply res_bind_ok in H as (key & Hk & H). destruct (verify key sig payload) eqn:Hv; [|done].
  destruct (Hg _ _ _ Hp Hk Hv) as (g & Hin & ->). exists g. split; [done|].
  rewrite Forall_forall in Hread. cbn [negb] in H. unfold wire_payload in H.
  rewrite json_loads_bytes_dumps in H by by apply Hread.
  apply res_bind_ok in H as ([] & _ & H); [done|]. by injection H as <-.
Qed.

Definition simulates (root : Grant) (signed : list Grant) : Prop :=
  Forall (λ g, below g root ∧ careful g = true ∧ grant_valid g = true) signed.

Lemma simulates_readable root signed : simulates root signed → Forall (λ g, readable g = true) signed.
Proof.
  intros H. eapply Forall_impl; [exact H|]. intros g (_ & Hc & _). unfold careful in Hc.
  by apply andb_true_iff in Hc as [_ ?].
Qed.

(** The simulation: a step makes permitted calls and keeps the relation. *)
Lemma sstep_simulated root signed ls signed' : simulates root signed → sstep signed ls signed' →
  spec root ls ∧ simulates root signed'.
Proof.
  intros Hsim Hstep. pose proof (simulates_readable _ _ Hsim) as Hread.
  destruct Hstep as [token now gu r ls Hg Hr|token now now' i n body d parent m child out Hg Hd Hp Hm Hdel Hc].
  - split; [|done]. destruct (verify_token now token) as [d|e] eqn:Hv.
    + destruct (verified_payload _ _ _ _ Hg Hread Hv) as (g & Hin & ->).
      destruct (proj1 (Forall_forall _ _) Hsim g Hin) as (Hb & _).
      pose proof (safe_runs _ _ _ _ (handle_safe g _ gu now r token Hv) Hr) as Hall.
      by apply (spec_below g).
    + destruct (handle_refused (verify_token now) gu now r token) as [e' He]; [by rewrite Hv; intros []|].
      rewrite He in Hr. inversion Hr; constructor.
  - split; [constructor|]. constructor; [|done].
    apply header_verified in Hd. destruct (verified_payload _ _ _ _ Hg Hread Hd) as (g & Hin & ->).
    destruct (proj1 (Forall_forall _ _) Hsim g Hin) as (Hb & Hcg & Hvg).
    rewrite payload_of_eq in Hp. destruct (normalized_facts g) as (Hnp & Hne & Hnv).
    rewrite Hvalidate in Hp by by rewrite Hnv. injection Hp as <-.
    apply delegate_ok in Hdel. pose proof (del_valid _ _ _ _ _ Hdel) as Hcv.
    split_and!; [|done|done]. unfold careful in Hc, Hcg. rewrite !andb_true_iff in Hc, Hcg.
    destruct Hc as [[Hc1 Hc2] _], Hcg as [[Hg1 Hg2] _].
    eapply below_trans; [|eapply delegated_below; [exact Hdel|by rewrite Hnp|done|by rewrite Hne|done]|].
    + by rewrite Hnv.
    + eapply below_trans; [exact Hvg|apply below_normalized|exact Hb].
Qed.
End machine.
