(* ===== verification/GrantProperties.v ===== *)
(** The properties of signed grants and of the service that honours them. *)
From Stdlib Require Import Ascii.
From S2P Require Import Prelude PyStr PyDict PyFloat PyJson PyJsonText PyHash FnMatch WritePrefix.
From S2P Require Import Grants GrantTokens GrantService GrantFacts GrantTokenFacts GrantMachine.
Open Scope Z_scope.

(** * Concrete keys for the witnesses

A shared secret stands for the key pair: signing is HMAC, verifying recomputes
it.  Validation reads the fields back. *)
Definition toy_sign (key payload : string) : string := hmac_sha256_hex key payload.
Definition toy_verify (key sig payload : string) : bool := sig =s? hmac_sha256_hex key payload.

Definition text_field (d : jobject) (k : string) : res string :=
  match jget d k with JStr s => Ok s | _ => Raise TypeError end.
Definition int_of (d : jobject) (k : string) : res Z :=
  match jget d k with JInt n => Ok n | _ => Raise TypeError end.
Definition opt_of {A} (f : json → option A) (d : jobject) (k : string) : res (option A) :=
  match jget d k with
  | JNull => Ok None
  | j => match f j with Some x => Ok (Some x) | None => Raise TypeError end
  end.
Definition texts_field (d : jobject) (k : string) : res (list string) :=
  match jget d k with
  | JList l => res_map (λ j, match j with JStr s => Ok s | _ => Raise TypeError end) l
  | _ => Raise TypeError
  end.
Definition toy_source (d : jobject) : res SourceGrant :=
  a ← text_field d "agent"; s ← text_field d "scope";
  if s =s? "read" then Ok (mkSource a ReadSource)
  else if s =s? "write" then Ok (mkSource a WriteSource) else Raise TypeError.

Definition toy_validate (j : json) : res Grant :=
  match j with
  | JObj d =>
      i ← text_field d "grant_id"; iss ← text_field d "issuer"; aud ← text_field d "audience";
      b ← text_field d "bucket"; mt ← text_field d "mode"; m ← mode_of mt;
      al ← texts_field d "allow_patterns"; de ← texts_field d "deny_patterns";
      out ← opt_of text_only d "outputs_prefix"; wr ← texts_field d "write_prefixes";
      mo ← texts_field d "llm_models";
      bu ← opt_of (λ j, match j with JFloat x => Some x | _ => None end) d "llm_max_budget_usd";
      rp ← opt_of (λ j, match j with JInt n => Some n | _ => None end) d "llm_rpm_limit";
      tp ← opt_of (λ j, match j with JInt n => Some n | _ => None end) d "llm_tpm_limit";
      so ← match jget d "source_grants" with
           | JList l => res_map (λ j, match j with JObj o => toy_source o | _ => Raise TypeError end) l
           | _ => Raise TypeError end;
      pa ← opt_of text_only d "parent_grant_id"; dd ← int_of d "delegation_depth";
      md ← int_of d "max_delegation_depth"; ex ← int_of d "expires_at"; is_ ← int_of d "issued_at";
      no ← text_field d "nonce";
      checked (mkGrant i iss aud b m al de out wr mo bu rp tp so pa dd md ex is_ no)
  | _ => Raise TypeError
  end.

Lemma res_map_id {A B} (f : A → B) (g : B → res A) l :
  (∀ x, g (f x) = Ok x) → res_map g (map f l) = Ok l.
Proof. intros H. induction l as [|x l IH]; cbn; [done|]. by rewrite H, IH. Qed.

Lemma toy_validate_dump g : grant_valid g = true → toy_validate (JObj (model_dump g)) = Ok g.
Proof.
  intros Hv. destruct g as [i iss aud b m al de out wr mo bu rp tp so pa dd md ex is_ no].
  set (r := mkGrant i iss aud b m al de out wr mo bu rp tp so pa dd md ex is_ no) in *.
  assert (∀ k l, jget (model_dump r) k = jstrs l → texts_field (model_dump r) k = Ok l) as Ht.
  { intros k l H. unfold texts_field. rewrite H. by apply (res_map_id JStr). }
  assert (∀ A (f : A → json) (h : json → option A) k o, (∀ x, h (f x) = Some x ∧ f x ≠ JNull) →
    jget (model_dump r) k = jopt_with f o → opt_of h (model_dump r) k = Ok o) as Ho.
  { intros A f h k o Hf H. unfold opt_of. rewrite H. destruct o as [x|]; [|done].
    destruct (Hf x) as [Hx Hn]. cbn. by destruct (f x) eqn:E; rewrite ?Hx. }
  unfold toy_validate.
  rewrite (Ht "allow_patterns" al), (Ht "deny_patterns" de), (Ht "write_prefixes" wr), (Ht "llm_models" mo)
    by done.
  rewrite (Ho string JStr _ "outputs_prefix" out) by done.
  rewrite (Ho string JStr _ "parent_grant_id" pa) by done.
  rewrite (Ho pyfloat JFloat _ "llm_max_budget_usd" bu) by done.
  rewrite (Ho Z JInt _ "llm_rpm_limit" rp), (Ho Z JInt _ "llm_tpm_limit" tp) by done.
  change (jget (model_dump r) "source_grants") with (JList (map source_dump so)).
  assert (mode_of (mode_value m) = Ok m) as Hm by by destruct m.
  change (text_field (model_dump r) "mode") with (Ok (mode_value m)).
  cbn [mbind res_bind text_field]. rewrite Hm. cbn [mbind res_bind].
  rewrite (res_map_id source_dump) by by intros [a []].
  transitivity (checked r); [reflexivity|]. unfold checked. by rewrite Hv.
Qed.

(** * The service refines the authority of the root *)

Section refinement.
Context {private public : Type}.
Context (priv : string → res private) (pub : string → res public) (public_key : private → public).
Context (sign : private → string → string) (verify : public → string → string → bool).
Context (signing_env verifying_env : string).
Context (validate_source : jobject → res SourceGrant) (model_validate : json → res Grant).

Abbreviation service_steps := (ssteps priv pub public_key sign verify signing_env verifying_env
  validate_source model_validate).

(** C35: whatever requests are served and whatever grants are delegated from a root grant, one
after the other and by anyone, every call the service makes is one the root grant permits: the
service refines the machine that knows the root alone.  Signatures are not forged, and the root and
each delegated grant is careful: its allow patterns hold no question mark and no bracket, it is
read-only or names its write prefixes, and the text of its fields is read back as it was written. *)
Theorem service_refines_root (root : Grant) ls signed :
  (∀ g, grant_valid g = true → model_validate (JObj (model_dump g)) = Ok g) →
  grant_valid root = true → careful root = true →
  service_steps [root] ls signed →
  spec root ls ∧ simulates root signed.
Proof.
  intros Hval Hv Hc Hs. remember [root] as s0 eqn:E. revert E.
  induction Hs as [s|s1 ls s2 ks s3 Hs IH Hstep]; intros ->.
  - split; [constructor|]. constructor; [|constructor]. split; [apply below_refl|done].
  - destruct (IH eq_refl) as [Hls Hsim].
    destruct (sstep_simulated _ _ _ _ _ _ _ _ _ Hval _ _ _ _ Hsim Hstep) as [Hks Hsim'].
    split; [by apply spec_app|done].
Qed.
End refinement.

(** * Chains of delegations *)

Section chain.
Context {private : Type} (priv : string → res private) (sign : private → string → string).
Context (env : string) (validate_source : jobject → res SourceGrant).

(** [g] is [n] delegations away from [root]; [drift] is the time that passed, in
total, between the check of a lifetime and the minting with it. *)
Inductive descends (root : Grant) : Z → Z → Grant → Prop :=
  | descends_root : descends root 0 0 root
  | descends_next n drift parent now now' i nonce a child token :
      descends root n drift parent → 0 < now ≤ now' →
      delegate_grant priv sign env validate_source now now' i nonce parent a = Ok (child, token) →
      descends root (n + 1) (drift + (now' - now)) child.

(** C36: a chain of delegations is no longer than the depth left in the root grant, the depth
counts its links, the mode never rises, and no grant of the chain of an expiring root lasts
for ever, or longer than the root by more than the clock moved inside the calls. *)
Theorem delegation_chain_bounded root n drift g : grant_valid root = true →
  descends root n drift g →
  0 ≤ n ∧ delegation_depth g = delegation_depth root + n
  ∧ (0 < n → delegation_depth g ≤ max_delegation_depth root)
  ∧ _MODE_RANK (mode g) ≤ _MODE_RANK (mode root)
  ∧ (expires_at root ≠ 0 → 0 < expires_at g ≤ expires_at root + drift).
Proof.
  intros Hv H.
  assert (0 ≤ n ∧ 0 ≤ drift ∧ delegation_depth g = delegation_depth root + n
    ∧ max_delegation_depth g = max_delegation_depth root
    ∧ (0 < n → delegation_depth g ≤ max_delegation_depth root)
    ∧ _MODE_RANK (mode g) ≤ _MODE_RANK (mode root)
    ∧ (expires_at root ≠ 0 → 0 < expires_at g ≤ expires_at root + drift)) as Hall; [|tauto].
  induction H as [|n drift parent now now' i nonce a child token _ IH Hnow Hd%delegate_ok].
  - split_and!; try lia. intros He. unfold grant_valid in Hv. rewrite !andb_true_iff in Hv.
    destruct Hv as [[_ He'%Z.leb_le] _]. lia.
  - destruct IH as (H1 & H2 & H3 & H4 & H5 & H6 & H7).
    destruct (del_depth _ _ _ _ _ Hd) as (D1 & D2 & D3), (del_mode _ _ _ _ _ Hd) as [_ Hm].
    split_and!; try lia. intros He. specialize (H7 He).
    destruct (del_expiry _ _ _ _ _ Hd) as [_ [[E _]|(_ & _ & E)]]; lia.
Qed.
End chain.

(** * Sign, then verify *)

Section roundtrip.
Context {private public : Type}.
Context (priv : string → res private) (pub : string → res public) (public_key : private → public).
Context (sign : private → string → string) (verify : public → string → string → bool).
Context (signing_env verifying_env : string) (model_validate : json → res Grant).

(** C37: a grant that was signed verifies, until it expires, to the same grant with its write
prefixes normalised, by the SDK; the control plane reads its fields from the same token. *)
Theorem signed_grant_verifies g key vkey token now :
  (∀ g, grant_valid g = true → model_validate (JObj (model_dump g)) = Ok g) →
  _required_signing_key priv signing_env = Ok key →
  _required_verifying_key priv pub public_key signing_env verifying_env = Ok vkey →
  (∀ m, verify vkey (sign key m) m = true) →
  grant_valid g = true → readable g = true → (expires_at g = 0 ∨ now ≤ expires_at g) →
  sign_grant priv sign signing_env g = Ok token →
  verify_grant priv pub public_key verify signing_env verifying_env model_validate now token
    = Ok (normalized g)
  ∧ verify_grant_token priv pub public_key verify signing_env verifying_env now token
    = Ok (model_dump (normalized g)).
Proof.
  intros Hval Hkey Hvkey Hsig Hv Hr Hexp. unfold sign_grant. rewrite Hkey. cbn [mbind res_bind].
  intros Ht. assert (token = token_of (wire_payload g) (sign key (wire_payload g))) as ->
    by by injection Ht.
  assert (json_loads_bytes (wire_payload g) = Ok (JObj (model_dump (normalized g)))) as Hj
    by by apply json_loads_bytes_dumps.
  assert (expires_at (normalized g) = expires_at g) as He by by rewrite normalized_eq.
  split.
  - unfold verify_grant. rewrite decode_token_of. cbn [mbind res_bind]. rewrite Hvkey. cbn [mbind res_bind].
    rewrite Hsig, Hj. cbn [negb mbind res_bind]. destruct (normalized_facts g) as (_ & _ & Hnv).
    rewrite Hval by by rewrite Hnv. rewrite after_validation_normalized, He. cbv zeta.
    destruct (Z.eqb_spec (expires_at g) 0), (Z.ltb_spec (expires_at g) now); cbn [negb andb]; try done; lia.
  - unfold verify_grant_token. rewrite token_parts_of. cbn [mbind res_bind]. rewrite Hvkey.
    cbn [mbind res_bind]. rewrite Hsig, Hj. cbn [negb].
    change (jget (model_dump (normalized g)) "expires_at") with (JInt (expires_at (normalized g))).
    rewrite He. unfold is_expired. cbn [truthy json_lt].
    pose proof (payload_of_eq g) as Hf. unfold payload_of in Hf. rewrite Hf.
    destruct (Z.eqb_spec (expires_at g) 0), (Z.ltb_spec (expires_at g) now);
      cbn [negb mbind res_bind]; try done; lia.
Qed.
End roundtrip.

(** * Concrete grants *)

Definition root_grant : Grant :=
  mkGrant "g0" "user" "meta" "user-7-files" READ_WRITE_OVERLAY ["data/*"; "agents/*"] ["*/secret/*"]
    (Some "out") ["out/"] ["gpt"; "gpt-mini"] (Some (f_round 10)) (Some 30) None
    [mkSource "demo" WriteSource] None 0 2 2000 1000 "n0".

Definition charts_body : WorkspaceGrantDelegateIn :=
  mkDelegateIn "charts" ["data/*.csv"; "agents/demo/*"] ["*.tmp"] "read_write_overlay" (Some "out/charts")
    [] [[("agent", JStr "demo"); ("scope", JStr "read")]] ["gpt-mini"] (Some (f_round 2)) (Some 10) None 900.

Definition charts_grant : Grant :=
  mkGrant "g1" "meta" "charts" "user-7-files" READ_WRITE_OVERLAY ["data/*.csv"; "agents/demo/*"]
    ["*/secret/*"; "*.tmp"] (Some "out/charts") ["out/charts/"] ["gpt-mini"] (Some (f_round 2)) (Some 10) None
    [mkSource "demo" ReadSource] (Some "g0") 1 2 2001 1201 "n1".

Definition signed_token (g : Grant) : string :=
  token_of (wire_payload g) (toy_sign "k" (wire_payload g)).

Definition toy_header (now : Z) (g : Grant) : res jobject :=
  _grant_from_header (verify_grant_token Ok Ok id toy_verify "k" "" now) (Some (signed_token g)).

Definition first_calls {A} (m : prog A) : list label :=
  match m with Do c _ => [existT _ c] | _ => [] end.

Lemma runs_first {A} (m : prog A) : runs m (first_calls m).
Proof. destruct m; [apply runs_stop..|apply runs_unanswered]. Qed.

Lemma genuine_own {private public} (priv : string → res private) (pub : string → res public) pk verify se ve
    signed g : g ∈ signed → genuine priv pub pk verify se ve signed (signed_token g).
Proof.
  intros Hg payload s k Hp _ _. unfold signed_token in Hp. rewrite token_parts_of in Hp.
  injection Hp as <- _. by exists g.
Qed.

Example delegated_once : delegate_grant (λ k, Ok k) toy_sign "k" toy_source 1200 1201 "g1" "n1" root_grant
    (ask_of root_grant READ_WRITE_OVERLAY charts_body) = Ok (charts_grant, signed_token charts_grant).
Proof. vm_compute. reflexivity. Qed.

Definition write_chart : request := WriteFile "/out/charts/q1.txt" "data" None.

Lemma service_refines_root_witness :
  spec root_grant [existT jobject (upload_file "user-7-files" "out/charts/q1.txt" "data" None)]
  ∧ simulates root_grant [charts_grant; root_grant].
Proof.
  destruct (service_refines_root (λ k, Ok k) (λ k, Ok k) id toy_sign toy_verify "k" "" toy_source toy_validate
    root_grant (([] ++ []) ++ first_calls (handle (verify_grant_token (λ k, Ok k) (λ k, Ok k) id toy_verify "k" "" 1500)
      "gitea" 1500 write_chart (signed_token charts_grant))) [charts_grant; root_grant]) as [H1 H2].
  - exact toy_validate_dump.
  - vm_compute. reflexivity.
  - vm_compute. reflexivity.
  - eapply ssteps_step; [eapply ssteps_step; [apply ssteps_refl|]|].
    + eapply (delegates _ _ _ _ _ _ _ _ _ _ (signed_token root_grant) 1200 1201 "g1" "n1" charts_body
        (payload_of root_grant) root_grant READ_WRITE_OVERLAY charts_grant).
      * apply genuine_own. by left.
      * vm_compute. reflexivity.
      * vm_compute. reflexivity.
      * reflexivity.
      * apply delegated_once.
      * vm_compute. reflexivity.
    + eapply serves; [|apply runs_first]. apply genuine_own. by left.
  - split; [|exact H2]. revert H1. vm_compute. exact id.
Defined.

(** The chain of the witness: the root grant and one delegation. *)
Lemma delegation_chain_bounded_witness :
  delegation_depth charts_grant = 1 ∧ 0 < expires_at charts_grant ≤ 2001.
Proof.
  destruct (delegation_chain_bounded (λ k, Ok k) toy_sign "k" toy_source root_grant (0 + 1) (0 + (1201 - 1200))
    charts_grant) as (_ & Hd & _ & _ & He).
  - reflexivity.
  - eapply descends_next; [apply descends_root|lia|apply delegated_once].
  - split; [exact Hd|]. exact (He ltac:(discriminate)).
Defined.

Lemma signed_grant_verifies_witness :
  verify_grant (λ k, Ok k) (λ k, Ok k) id toy_verify " k " "" toy_validate 1500 (signed_token root_grant)
  = Ok root_grant.
Proof.
  destruct (signed_grant_verifies (λ k, Ok k) (λ k, Ok k) id toy_sign toy_verify " k " "" toy_validate
    root_grant "k" "k" (signed_token root_grant) 1500) as [H _].
  - exact toy_validate_dump.
  - reflexivity.
  - reflexivity.
  - intros m. apply String.eqb_refl.
  - reflexivity.
  - vm_compute. reflexivity.
  - right. cbn. lia.
  - reflexivity.
  - exact H.
Defined.

(** * Where delegation is not bounded by the parent

The hypotheses of the refinement are needed: each run below succeeds, and the
child may do what its parent may not. *)

Definition widened (parent : Grant) (a : Ask) (may : Grant → bool) : bool :=
  match delegate_grant (λ k, Ok k) toy_sign "k" toy_source 1200 1200 "g1" "n1" parent a with
  | Ok (child, _) => may child && negb (may parent)
  | Raise _ => false
  end.

Definition plain_ask (m : WorkspaceMode) (allow : list string) (outputs : option string) : Ask :=
  mkAsk "meta" "child" None m allow [] outputs [] [] None None None [] 300.

(** A child that names no write prefix is bound by none, though its parent is. *)
Lemma unnamed_prefixes_escalate :
  widened root_grant (plain_ask READ_WRITE_OVERLAY ["data/*"] None) (λ g, writes g "data/ledger.db") = true.
Proof. vm_compute. reflexivity. Qed.

Definition reader_of (patterns : list string) (m : WorkspaceMode) : Grant :=
  mkGrant "g0" "user" "meta" "user-7-files" m patterns [] None [] [] None None None [] None 0 2 2000 1000 "n0".

(** A star is one character, and so covered by a question mark or a class. *)
Lemma star_under_question_mark_escalates :
  widened (reader_of ["docs/?"] READ_ONLY) (plain_ask READ_ONLY ["docs/*"] None)
    (λ g, reads g "docs/.private/key") = true
  ∧ widened (reader_of ["[!.]*"] READ_ONLY) (plain_ask READ_ONLY ["*"] None)
    (λ g, reads g ".private/key") = true.
Proof. vm_compute. done. Qed.

(** The probe file stands for all the files below a prefix. *)
Lemma probe_escalates :
  widened (reader_of ["*/__*__"] READ_WRITE_OVERLAY) (plain_ask READ_WRITE_OVERLAY ["a/__init__"] (Some "a"))
    (λ g, writes g "a/settings") = true.
Proof. vm_compute. reflexivity. Qed.

(** A second that passes between the two clock readings is added to the child. *)
Lemma child_outlives_parent : expires_at root_grant < expires_at charts_grant.
Proof. reflexivity. Qed.
