(* ===== verification/Dag.v ===== *)
(** Planning and running skill DAGs (a2a_pack/dag.py of the SDK).

    [parse_dag] starts from the value [json.loads] returned for the text.  The
    executor calls the nodes of a round concurrently; all of them see the
    results of the earlier rounds only, so the round is modelled as one step.
    The adapters given by the caller are parameters: the call of a node (with
    its exceptions as text), the JSON decoder, the clock.  The events emitted
    on the way are not modelled: the order of those of one round is the
    scheduler's. *)
From Stdlib Require Import Ascii.
From S2P Require Import Prelude PyStr PyDict PyFloat PyJson.
Open Scope Z_scope.

Definition MAX_DAG_NODES : nat := 8.
Definition MAX_PARALLEL_NODES : nat := 3.

Record DagNode : Type := mkNode {
  node_id : string;
  agent : string;
  skill : string;
  args : jobject;
  deps : list string;
  expected_outputs : list string;
}.

Definition value_error {A} (msg : string) : res A := Raise (ValueError msg).

(** * Parsing *)

(** [str(x or y or "").strip()]. *)
Definition stripped (x : json) : string := strip (py_str (py_or x (JStr ""))).

(** [tuple(str(item).strip() for item in l if str(item).strip())]. *)
Definition stripped_items (l : list json) : list string :=
  base.filter (λ s, s ≠ "") (map (λ j, strip (py_str j)) l).

Definition parse_node (i : nat) (seen : gset string) (raw_node : json) : res DagNode :=
  match raw_node with
  | JObj d =>
      let nid := stripped (jget d "id") in
      let agt := stripped (py_or (jget d "agent") (jget d "name")) in
      let skl := stripped (jget d "skill") in
      if nid =s? "" then value_error ("node " +:+ dec (Z.of_nat i) +:+ " missing id")
      else if bool_decide (nid ∈ seen) then value_error ("duplicate node id: " +:+ nid)
      else if (agt =s? "") || (skl =s? "") then
        value_error ("node " +:+ nid +:+ " must include agent and skill")
      else match py_or (jget d "args") (JObj []) with
      | JObj a =>
          match py_or (py_or (jget d "deps") (jget d "depends_on")) (JList []) with
          | JList deps_raw =>
              Ok {| node_id := nid; agent := agt; skill := skl; args := a;
                    deps := stripped_items deps_raw;
                    expected_outputs :=
                      match py_or (jget d "expected_outputs") (JList []) with
                      | JList l => stripped_items l
                      | _ => []
                      end |}
          | _ => value_error ("node " +:+ nid +:+ " deps must be an array")
          end
      | _ => value_error ("node " +:+ nid +:+ " args must be an object")
      end
  | _ => value_error ("node " +:+ dec (Z.of_nat i) +:+ " must be an object")
  end.

Fixpoint parse_nodes (i : nat) (seen : gset string) (raws : list json) : res (list DagNode) :=
  match raws with
  | [] => Ok []
  | raw :: rest =>
      node ← parse_node i seen raw;
      nodes ← parse_nodes (S i) ({[ node_id node ]} ∪ seen) rest;
      Ok (node :: nodes)
  end.

(** * Rounds *)

Definition nodes_by_id (nodes : list DagNode) : dict DagNode :=
  foldl (λ d n, <[node_id n := n]> d) [] nodes.

Definition node_le (n m : DagNode) : Prop := str_le (node_id n) (node_id m).
#[export] Instance node_le_dec n m : Decision (node_le n m).
Proof. unfold node_le. apply _. Defined.

(** The nodes left whose dependencies are done, sorted by id. *)
Definition ready_nodes (by_id : dict DagNode) (remaining done : gset string) : list DagNode :=
  merge_sort node_le
    (values (base.filter (λ p, p.1 ∈ remaining ∧ list_to_set (deps p.2) ⊆ done) by_id)).

Definition ids_of (nodes : list DagNode) : gset string := list_to_set (map node_id nodes).

(** The loop of [topological_rounds]; one turn empties at least one id, so the
number of nodes is fuel enough. *)
Fixpoint rounds_loop (fuel : nat) (by_id : dict DagNode) (remaining done : gset string) :
    res (list (list DagNode)) :=
  if bool_decide (remaining = ∅) then Ok []
  else match fuel with
  | O => Ok []
  | S fuel =>
      match ready_nodes by_id remaining done with
      | [] =>
          value_error ("DAG has a dependency cycle involving: "
                       +:+ String.concat ", " (sorted_set remaining))
      | ready =>
          rest ← rounds_loop fuel by_id (remaining ∖ ids_of ready) (done ∪ ids_of ready);
          Ok (ready :: rest)
      end
  end.

Definition topological_rounds (nodes : list DagNode) : res (list (list DagNode)) :=
  let by_id := nodes_by_id nodes in
  rounds_loop (length by_id) by_id (list_to_set (keys by_id)) ∅.

(** The first node whose id was seen before. *)
Fixpoint duplicate_id (seen : gset string) (nodes : list DagNode) : option string :=
  match nodes with
  | [] => None
  | n :: rest =>
      if bool_decide (node_id n ∈ seen) then Some (node_id n)
      else duplicate_id ({[ node_id n ]} ∪ seen) rest
  end.

Definition missing_deps (ids : gset string) (n : DagNode) : list string :=
  base.filter (λ d, d ∉ ids) (deps n).

Fixpoint check_deps (ids : gset string) (nodes : list DagNode) : res unit :=
  match nodes with
  | [] => Ok ()
  | n :: rest =>
      match missing_deps ids n with
      | [] => check_deps ids rest
      | missing =>
          value_error ("node " +:+ node_id n +:+ " depends on unknown node(s): "
                       +:+ py_repr (jstrs missing))
      end
  end.

Definition too_large (max_nodes : nat) : string :=
  "DAG is too large: max " +:+ dec (Z.of_nat max_nodes) +:+ " nodes".

Definition validate_dag_nodes (nodes : list DagNode) (max_nodes : nat) : res unit :=
  match nodes with
  | [] => value_error "DAG nodes must be non-empty"
  | _ =>
      if (max_nodes <? length nodes)%nat then value_error (too_large max_nodes)
      else match duplicate_id ∅ nodes with
      | Some i => value_error ("duplicate node id: " +:+ i)
      | None =>
          _ ← check_deps (ids_of nodes) nodes;
          _ ← topological_rounds nodes;
          Ok ()
      end
  end.

(** [parse_dag], from the decoded value on. *)
Definition parse_dag (raw : json) (max_nodes : nat) : res (string * list DagNode) :=
  gn ← (match raw with
        | JList _ => Ok ("", raw)
        | JObj d => Ok (py_str (py_or (jget d "goal") (JStr "")), jget d "nodes")
        | _ => value_error "dag_json must be an object with nodes[] or a nodes array"
        end : res (string * json));
  match gn.2 with
  | JList (x :: l) =>
      if (max_nodes <? length (x :: l))%nat then value_error (too_large max_nodes)
      else
        nodes ← parse_nodes 0 ∅ (x :: l);
        _ ← validate_dag_nodes nodes max_nodes;
        Ok (gn.1, nodes)
  | _ => value_error "dag_json.nodes must be a non-empty array"
  end.

Definition node_wire (n : DagNode) : jobject := [
  ("id", JStr (node_id n)); ("agent", JStr (agent n)); ("skill", JStr (skill n));
  ("deps", jstrs (deps n)); ("args", JObj (args n)); ("expected_outputs", jstrs (expected_outputs n))
].

(** [plan_dag], from the decoded value on. *)
Definition plan_dag (goal : string) (raw : json) (max_nodes max_parallel : nat) : jobject :=
  let planned := (gn ← parse_dag raw max_nodes; rounds ← topological_rounds gn.2; Ok (gn, rounds)) in
  match planned with
  | Ok ((parsed_goal, nodes), rounds) => [
      ("ok", JBool true); ("goal", JStr (if goal =s? "" then parsed_goal else goal));
      ("max_nodes", JInt (Z.of_nat max_nodes)); ("max_parallel", JInt (Z.of_nat max_parallel));
      ("rounds", JList (map (λ r, jstrs (map node_id r)) rounds));
      ("nodes", JList (map (λ n, JObj (node_wire n)) nodes))]
  | Raise e =>
      [("ok", JBool false); ("error", JStr (match e with ValueError m => m | _ => "" end))]
  end.

(** * Paths and templates *)

Definition is_word (c : ascii) : bool :=
  let n := code c in
  ((48 <=? n) && (n <=? 57) || (65 <=? n) && (n <=? 90) || (97 <=? n) && (n <=? 122)
   || (n =? 95) || (n =? 45))%N.

(** The longest prefix of characters that satisfy [p], and the rest. *)
Fixpoint span_while (p : ascii → bool) (l : list ascii) : list ascii * list ascii :=
  match l with
  | [] => ([], [])
  | c :: l' => if p c then let '(a, b) := span_while p l' in (c :: a, b) else ([], l)
  end.

(** [re.fullmatch(r"([A-Za-z0-9_-]+)\[(\d+)\]", part)] with the index as a number;
an index of more than 4300 digits, which [int] refuses, is not modelled. *)
Definition indexed_part (part : string) : option (string * nat) :=
  match span_while is_word (chars part) with
  | ((_ :: _) as name, "["%char :: rest) =>
      match span_while is_digit rest with
      | ((_ :: _) as ds, ["]"%char]) => Some (of_chars name, Z.to_nat (digits_value ds))
      | _ => None
      end
  | _ => None
  end.

(** The steps of [resolve_path]; [None] and [null] are the same value. *)
Fixpoint resolve_parts (cur : json) (parts : list string) : json :=
  match parts with
  | [] => cur
  | part :: rest =>
      if part =s? "" then resolve_parts cur rest
      else match indexed_part part with
      | Some (key, i) =>
          match (match cur with JObj d => jget d key | _ => JNull end) with
          | JList l => resolve_parts (default JNull (l !! i)) rest
          | _ => JNull
          end
      | None =>
          match cur with JObj d => resolve_parts (jget d part) rest | _ => JNull end
      end
  end.

Definition resolve_path (data : jobject) (path : string) : json :=
  resolve_parts (JObj data) (split "."%char path).

Definition is_path_char (c : ascii) : bool :=
  is_word c || Ascii.eqb c "."%char || Ascii.eqb c "["%char || Ascii.eqb c "]"%char.

(** [_TEMPLATE_RE] at the front of the text: the two groups and what follows. *)
Definition match_template (l : list ascii) : option (string * string * list ascii) :=
  match l with
  | "{"%char :: "{"%char :: l1 =>
      match (span_while is_space l1).2 with
      | "n"%char :: "o"%char :: "d"%char :: "e"%char :: "s"%char :: "."%char :: l2 =>
          match span_while is_word l2 with
          | ((_ :: _) as nid, "."%char :: l3) =>
              match span_while is_path_char l3 with
              | ((_ :: _) as path, l4) =>
                  match (span_while is_space l4).2 with
                  | "}"%char :: "}"%char :: l5 => Some (of_chars nid, of_chars path, l5)
                  | _ => None
                  end
              | _ => None
              end
          | _ => None
          end
      | _ => None
      end
  | _ => None
  end.

(** [json.dumps(value)] with the default separators. *)
Fixpoint json_dumps (j : json) : string :=
  match j with
  | JNull => "null"
  | JBool b => if b then "true" else "false"
  | JInt n => dec n
  | JFloat x => dump_float x
  | JStr s => dump_str s
  | JList l => "[" +:+ String.concat ", " (map json_dumps l) +:+ "]"
  | JObj d => "{" +:+ String.concat ", " (map (λ p, dump_str p.1 +:+ ": " +:+ json_dumps p.2) d) +:+ "}"
  end.

Definition resolve_template (completed : dict jobject) (nid path : string) : json :=
  match completed !! nid with Some node => resolve_path node path | None => JNull end.

Definition template_text (completed : dict jobject) (nid path : string) : string :=
  match resolve_template completed nid path with
  | JNull => ""
  | JStr s => s
  | j => json_dumps j
  end.

(** [_TEMPLATE_RE.sub(repl, value)]; every turn consumes a character. *)
Fixpoint sub_templates (fuel : nat) (completed : dict jobject) (l : list ascii) : string :=
  match fuel with
  | O => ""
  | S fuel =>
      match match_template l with
      | Some (nid, path, rest) => template_text completed nid path +:+ sub_templates fuel completed rest
      | None =>
          match l with [] => "" | c :: l' => String c (sub_templates fuel completed l') end
      end
  end.

Definition render_text (completed : dict jobject) (s : string) : json :=
  match match_template (chars s) with
  | Some (nid, path, []) =>
      match resolve_template completed nid path with JNull => JStr "" | j => j end
  | _ => JStr (sub_templates (S (String.length s)) completed (chars s))
  end.

Fixpoint render_args (completed : dict jobject) (value : json) : json :=
  match value with
  | JStr s => render_text completed s
  | JList l => JList (map (render_args completed) l)
  | JObj d => JObj (map (λ p, (p.1, render_args completed p.2)) d)
  | _ => value
  end.

(** * Running *)

Definition summary_keys : list string :=
  ["summary"; "message"; "chart_path"; "output_path"; "path"; "url"].

Fixpoint first_summary (result : jobject) (ks : list string) : string :=
  match ks with
  | [] => "ok"
  | k :: rest =>
      match jget result k with
      | JStr s => if s =s? "" then first_summary result rest else k +:+ "=" +:+ str_take 160 s
      | _ => first_summary result rest
      end
  end.

Definition summarize_result (result : json) : string :=
  match result with
  | JObj d =>
      match d !! "error" with
      | Some e => "error: " +:+ str_take 140 (py_str e)
      | None => first_summary d summary_keys
      end
  | JNull => "ok"
  | j => str_take 160 (py_str j)
  end.

Section run.
(** The decoder, and the call of a node: a value, or the text of an exception. *)
Context (json_loads : string → json + string).
Context (call_node : DagNode → jobject → json + string).
Context (elapsed_ms : DagNode → Z).

Definition _normalize_call_result (raw : json) : jobject + string :=
  match (match raw with JStr s => json_loads s | _ => inl raw end) with
  | inl (JObj d) => inl d
  | inl j => inl [("result", j)]
  | inr e => inr e
  end.

Definition rendered (completed : dict jobject) (n : DagNode) : jobject :=
  match render_args completed (JObj (args n)) with JObj d => d | _ => [] end.

(** What [run_node] makes of the call: [ok], the error text, the grant and the result. *)
Definition call_outcome (n : DagNode) (rendered_args : jobject) : bool * string * json * json :=
  match match call_node n rendered_args with
        | inl raw => _normalize_call_result raw
        | inr e => inr e
        end with
  | inr e => (false, e, JNull, JNull)
  | inl parsed =>
      let error := match jget parsed "error" with JStr e => e | _ => "" end in
      (truthy (jget parsed "ok") && (error =s? ""), error,
       match jget parsed "grant_id" with JStr g => JStr g | _ => JNull end, jget parsed "result")
  end.

Definition run_node (completed : dict jobject) (n : DagNode) : jobject :=
  let '(ok, error, grant_id, result) := call_outcome n (rendered completed n) in
  [("node_id", JStr (node_id n)); ("agent", JStr (agent n)); ("skill", JStr (skill n));
   ("ok", JBool ok); ("grant_id", grant_id);
   ("summary", JStr (if error =s? "" then summarize_result result else error));
   ("result", match result with JObj _ => result | _ => JObj [("value", result)] end);
   ("elapsed_ms", JInt (elapsed_ms n)); ("file_ops", JList [])].

Definition row_ok (row : jobject) : bool := truthy (jget row "ok").

(** The nodes of one round, all against the results of the earlier rounds. *)
Definition run_round (completed : dict jobject) (round : list DagNode) : dict jobject :=
  foldl (λ d n, <[node_id n := run_node completed n]> d) completed round.

Fixpoint run_rounds (completed : dict jobject) (rounds : list (list DagNode)) : dict jobject * bool :=
  match rounds with
  | [] => (completed, false)
  | round :: rest =>
      let completed' := run_round completed round in
      if forallb (λ n, row_ok (run_node completed n)) round then run_rounds completed' rest
      else (completed', true)
  end.

Definition skipped_row (n : DagNode) : jobject :=
  [("node_id", JStr (node_id n)); ("agent", JStr (agent n)); ("skill", JStr (skill n));
   ("ok", JBool false); ("grant_id", JNull); ("summary", JStr "skipped due to failed dependency");
   ("result", JObj [("skipped", JBool true)]); ("elapsed_ms", JInt 0); ("file_ops", JList [])].

Definition skipped_rows (completed : dict jobject) (nodes : list DagNode) : dict jobject :=
  foldl (λ d n, if has_key (node_id n) completed then d else <[node_id n := skipped_row n]> d) [] nodes.

Definition execute_dag_nodes (nodes : list DagNode) (max_nodes : nat) (run_id : string) : jobject :=
  match (_ ← validate_dag_nodes nodes max_nodes; topological_rounds nodes) with
  | Raise e => [("ok", JBool false); ("error", JStr (match e with ValueError m => m | _ => "" end))]
  | Ok rounds =>
      let '(completed, failed) := run_rounds [] rounds in
      let skipped := if failed then skipped_rows completed nodes else [] in
      let ok := negb failed && (length completed =? length nodes)%nat in
      let count := dec (Z.of_nat (length completed)) +:+ "/" +:+ dec (Z.of_nat (length nodes)) +:+ " nodes" in
      [("ok", JBool ok); ("dag_run_id", JStr run_id);
       ("summary", JStr ((if ok then "completed " else "failed after ") +:+ count));
       ("nodes", JList (map JObj (values completed ++ values skipped)))]
  end.
End run.
