(* ===== verification/DagFacts.v ===== *)
(** Properties of DAG planning and execution, and what an execution of a
    validated DAG records. *)
From stdpp Require Import fin_sets.
From S2P Require Import Prelude PyStr PyDict PyJson Dag.
Open Scope Z_scope.

(** * Rounds *)

(** Every dependency of a round is done before it. *)
Fixpoint ordered (done : gset string) (rounds : list (list DagNode)) : Prop :=
  match rounds with
  | [] => True
  | r :: rest =>
      (∀ n, n ∈ r → list_to_set (deps n) ⊆ done) ∧ r ≠ [] ∧ ordered (done ∪ ids_of r) rest
  end.

(** A set of ids none of which can come first: each depends on another of the set. *)
Definition stuck (nodes : list DagNode) (free : gset string) (S : gset string) : Prop :=
  S ≠ ∅ ∧ ∀ n, n ∈ nodes → node_id n ∈ S → ∃ d, d ∈ deps n ∧ d ∉ free.

Lemma filter_none {A} (P : A → Prop) `{HP : ∀ x, Decision (P x)} (l : list A) :
  (∀ x, x ∈ l → ¬ P x) → base.filter P l = [].
Proof.
  induction l as [|x l IH]; intros H; [done|]. rewrite filter_cons.
  rewrite decide_False by (apply H; set_solver). apply IH. set_solver.
Qed.

Lemma filter_all_elem {A} (P : A → Prop) `{HP : ∀ x, Decision (P x)} (l : list A) :
  (∀ x, x ∈ l → P x) → base.filter P l = l.
Proof.
  induction l as [|x l IH]; intros H; [done|]. rewrite filter_cons.
  rewrite decide_True by (apply H; set_solver). f_equal. apply IH. set_solver.
Qed.

Lemma elem_of_ids_of i ns : i ∈ ids_of ns ↔ ∃ n, n ∈ ns ∧ node_id n = i.
Proof. unfold ids_of. rewrite elem_of_list_to_set, list_elem_of_fmap. naive_solver. Qed.

Lemma nodes_by_id_app nodes acc :
  NoDup (keys acc ++ map node_id nodes) →
  foldl (λ d n, <[node_id n := n]> d) acc nodes = acc ++ map (λ n, (node_id n, n)) nodes.
Proof. apply (dict_build node_id id). Qed.

Lemma nodes_by_id_distinct nodes :
  NoDup (map node_id nodes) → nodes_by_id nodes = map (λ n, (node_id n, n)) nodes.
Proof. intros H. apply (nodes_by_id_app nodes []). exact H. Qed.

Section rounds.
Context (nodes : list DagNode) (Hids : NoDup (map node_id nodes)).
Let by_id := map (λ n, (node_id n, n)) nodes.

Definition is_ready (remaining done : gset string) (n : DagNode) : Prop :=
  node_id n ∈ remaining ∧ list_to_set (deps n) ⊆ done.

Lemma values_ready remaining done ns :
  values (base.filter (A := string * DagNode) (B := list (string * DagNode))
            (λ p, p.1 ∈ remaining ∧ list_to_set (deps p.2) ⊆ done) (map (λ n, (node_id n, n)) ns))
  = base.filter (is_ready remaining done) ns.
Proof.
  induction ns as [|n ns IH]; [done|]. cbn [map]. rewrite !filter_cons.
  destruct (decide (is_ready remaining done n)) as [H|H].
  - rewrite decide_True by exact H. cbn [values map snd]. f_equal. exact IH.
  - rewrite decide_False by exact H. exact IH.
Qed.

Lemma ready_nodes_filter remaining done :
  ready_nodes by_id remaining done ≡ₚ base.filter (is_ready remaining done) nodes.
Proof.
  unfold ready_nodes, by_id. rewrite merge_sort_Permutation. apply Permutation_refl', values_ready.
Qed.

Lemma ids_distinct n m : n ∈ nodes → m ∈ nodes → node_id n = node_id m → n = m.
Proof.
  clear by_id. induction nodes as [|k ns IH]; [set_solver|]. cbn in Hids.
  apply NoDup_cons in Hids as [Hk Hns].
  assert (∀ x, x ∈ ns → node_id x ≠ node_id k) as Hne.
  { intros x Hx Heq. apply Hk. rewrite <-Heq. by apply list_elem_of_fmap_2. }
  intros [->|Hn]%elem_of_cons [->|Hm]%elem_of_cons He; [done| | |by apply IH].
  - by destruct (Hne m Hm).
  - by destruct (Hne n Hn).
Qed.

Lemma rounds_loop_outcome fuel remaining done :
  (size remaining ≤ fuel)%nat → remaining ⊆ ids_of nodes →
  match rounds_loop fuel by_id remaining done with
  | Ok rounds =>
      concat rounds ≡ₚ base.filter (λ n, node_id n ∈ remaining) nodes ∧ ordered done rounds
  | Raise (ValueError _) => ∃ S, S ⊆ remaining ∧ stuck nodes (done ∪ (remaining ∖ S)) S
  | Raise _ => False
  end.
Proof.
  revert remaining done. induction fuel as [|fuel IH]; intros remaining done Hsize Hsub; cbn [rounds_loop].
  - assert (remaining = ∅) as -> by (apply leibniz_equiv, size_empty_iff; lia).
    rewrite bool_decide_eq_true_2 by done. split; [|done]. cbn.
    rewrite filter_none; [done|]. set_solver.
  - case_bool_decide as He.
    { subst. split; [|done]. cbn. rewrite filter_none; [done|]. set_solver. }
    pose proof (ready_nodes_filter remaining done) as Hr.
    destruct (ready_nodes by_id remaining done) as [|r0 rs] eqn:Er.
    { exists remaining. split; [done|]. split; [done|]. intros n Hn Hi.
      assert (¬ is_ready remaining done n) as Hnr.
      { intros H. assert (n ∈ base.filter (is_ready remaining done) nodes) as Hin
          by (by apply list_elem_of_filter). by rewrite <-Hr in Hin; apply not_elem_of_nil in Hin. }
      destruct (decide (Forall (λ d, d ∈ done) (deps n))) as [Hf|Hf].
      - destruct Hnr. split; [done|]. intros d Hd. rewrite elem_of_list_to_set in Hd.
        by apply (proj1 (Forall_forall _ _) Hf).
      - apply not_Forall_Exists in Hf; [|apply _]. apply Exists_exists in Hf as (d & Hd & Hnd).
        exists d. split; [done|]. set_solver. }
    set (ready := r0 :: rs) in *.
    assert (∀ n, n ∈ ready ↔ is_ready remaining done n ∧ n ∈ nodes) as Hready.
    { intros n. rewrite Hr, list_elem_of_filter. done. }
    assert (ids_of ready ⊆ remaining) as Hrem.
    { intros i. rewrite elem_of_ids_of. intros (n & Hn & <-). apply Hready in Hn as [[H _] _]. exact H. }
    assert (size (remaining ∖ ids_of ready) < size remaining)%nat as Hlt.
    { apply subset_size. assert (node_id r0 ∈ ids_of ready) by (apply elem_of_ids_of; exists r0; set_solver).
      set_solver. }
    specialize (IH (remaining ∖ ids_of ready) (done ∪ ids_of ready) ltac:(lia) ltac:(set_solver)).
    destruct (rounds_loop fuel by_id _ _) as [rest|[]]; cbn [mbind res_bind]; try done.
    + destruct IH as [Hp Ho]. split.
      * cbn [concat]. rewrite Hp, Hr.
        rewrite <-(filter_app_complement (is_ready remaining done)
          (base.filter (λ n, node_id n ∈ remaining) nodes)).
        rewrite !list_filter_filter. apply Permutation_app; apply Permutation_refl'.
        -- apply filter_ext_elem. intros n _. unfold is_ready. naive_solver.
        -- apply filter_ext_elem. intros n Hn. split.
           ++ intros Hi. split; [|set_solver]. intros Hx.
              assert (node_id n ∈ ids_of ready) by (apply elem_of_ids_of; exists n; by rewrite Hready).
              set_solver.
           ++ intros [Hx Hi]. apply elem_of_difference. split; [done|].
              rewrite elem_of_ids_of. intros (m & Hm & Heq). apply Hready in Hm as [Hmr Hmn].
              rewrite (ids_distinct m n Hmn Hn Heq) in Hmr. done.
      * cbn [ordered]. split_and!; [|done|exact Ho]. intros n Hn. by apply Hready in Hn as [[_ H] _].
    + destruct IH as (S & HS & Hne & Hst). exists S. split; [set_solver|]. split; [done|].
      intros n Hn Hi. destruct (Hst n Hn Hi) as (d & Hd & Hnd). exists d. split; [done|]. clear -Hnd.
      destruct (decide (d ∈ ids_of ready)); set_solver.
Qed.
End rounds.

(** * Validation *)

(** A set of ids each of which depends on one of the set: a dependency cycle runs inside it. *)
Definition cyclic (nodes : list DagNode) (S : gset string) : Prop :=
  S ≠ ∅ ∧ S ⊆ ids_of nodes ∧
  ∀ n, n ∈ nodes → node_id n ∈ S → ∃ d, d ∈ deps n ∧ d ∈ S.

Definition deps_known (nodes : list DagNode) : Prop :=
  ∀ n d, n ∈ nodes → d ∈ deps n → d ∈ ids_of nodes.

Lemma duplicate_id_none seen nodes :
  duplicate_id seen nodes = None ↔ NoDup (map node_id nodes) ∧ ∀ n, n ∈ nodes → node_id n ∉ seen.
Proof.
  revert seen. induction nodes as [|n nodes IH]; intros seen; cbn.
  - split; [|done]. intros _. split; [constructor|]. intros n Hn. by apply not_elem_of_nil in Hn.
  - rewrite NoDup_cons. case_bool_decide as Hs.
    + split; [done|]. intros [_ H]. destruct (H n); [apply elem_of_cons; by left|done].
    + rewrite IH. split.
      * intros [Hnd H]. split_and!; [|done|].
        -- intros (m & Heq & Hm)%list_elem_of_fmap. specialize (H m Hm). set_solver.
        -- intros m [->|Hm]%elem_of_cons; [done|]. specialize (H m Hm). set_solver.
      * intros [[Hn Hnd] H]. split; [done|]. intros m Hm [Heq%elem_of_singleton|Hi]%elem_of_union.
        -- apply Hn. rewrite <-Heq. by apply list_elem_of_fmap_2.
        -- apply (H m); [apply elem_of_cons; by right|done].
Qed.

Lemma missing_deps_nil ids n : missing_deps ids n = [] ↔ ∀ d, d ∈ deps n → d ∈ ids.
Proof.
  unfold missing_deps. split.
  - intros H d Hd. destruct (decide (d ∈ ids)) as [|Hi]; [done|].
    assert (d ∈ base.filter (λ d, d ∉ ids) (deps n)) as Hf by (by apply list_elem_of_filter).
    rewrite H in Hf. by apply not_elem_of_nil in Hf.
  - intros H. apply filter_none. intros d Hd Hn. by apply Hn, H.
Qed.

Lemma check_deps_ok ids nodes :
  check_deps ids nodes = Ok () ↔ ∀ n d, n ∈ nodes → d ∈ deps n → d ∈ ids.
Proof.
  induction nodes as [|n nodes IH]; cbn.
  - split; [|done]. intros _ n d Hn. by apply not_elem_of_nil in Hn.
  - destruct (missing_deps ids n) as [|d ds] eqn:E.
    + rewrite missing_deps_nil in E. rewrite IH. split.
      * intros H m d [->|Hm]%elem_of_cons; [apply E|by apply H].
      * intros H m d Hm. apply H. apply elem_of_cons. by right.
    + split; [done|]. intros H. exfalso. assert (missing_deps ids n = []) as Hn; [|congruence].
      apply missing_deps_nil. intros e. apply H, elem_of_cons. by left.
Qed.

(** The first round that meets a cyclic set would need its dependencies before it. *)
Lemma ordered_acyclic rounds (nodes : list DagNode) (done S : gset string) :
  ordered done rounds → (∀ n, n ∈ concat rounds → n ∈ nodes) → done ## S →
  (∀ n, n ∈ nodes → node_id n ∈ S → ∃ d, d ∈ deps n ∧ d ∈ S) →
  ∀ n, n ∈ concat rounds → node_id n ∉ S.
Proof.
  intros Ho Hsub Hd HS. revert done Ho Hsub Hd.
  induction rounds as [|r rounds IH]; intros done; cbn; [intros _ _ _ n Hn; by apply not_elem_of_nil in Hn|].
  intros (Hr & _ & Ho) Hsub Hdis. assert (∀ n, n ∈ r → node_id n ∉ S) as Hrs.
  { intros n Hn Hi. destruct (HS n) as (d & Hd & Hds); [apply Hsub, elem_of_app; by left|done|].
    apply (Hdis d); [|done]. apply (Hr n Hn). by apply elem_of_list_to_set. }
  intros n [Hn|Hn]%elem_of_app; [by apply Hrs|]. revert n Hn. apply (IH (done ∪ ids_of r)); [done| |].
  - intros n Hn. apply Hsub, elem_of_app. by right.
  - intros i [Hi|Hi]%elem_of_union Hs; [by apply (Hdis i)|].
    apply elem_of_ids_of in Hi as (n & Hn & <-). by apply (Hrs n).
Qed.

Lemma keys_by_id (nodes : list DagNode) : keys (map (λ n, (node_id n, n)) nodes) = map node_id nodes.
Proof. unfold keys. rewrite map_map. done. Qed.

Lemma topological_rounds_outcome nodes :
  NoDup (map node_id nodes) → deps_known nodes →
  match topological_rounds nodes with
  | Ok rounds => concat rounds ≡ₚ nodes ∧ ordered ∅ rounds
  | Raise (ValueError _) => ∃ S, cyclic nodes S
  | Raise _ => False
  end.
Proof.
  intros Hnd Hk. unfold topological_rounds. rewrite nodes_by_id_distinct, keys_by_id, length_map by done.
  pose proof (rounds_loop_outcome nodes Hnd (length nodes) (ids_of nodes) ∅) as H.
  unfold ids_of in H at 1. rewrite size_list_to_set, length_map in H by done.
  specialize (H ltac:(lia) ltac:(done)). change (list_to_set (map node_id nodes)) with (ids_of nodes).
  destruct (rounds_loop _ _ _ _) as [rounds|[]]; try done.
  - destruct H as [Hp Ho]. split; [|done]. rewrite Hp. apply Permutation_refl'.
    apply filter_all_elem. intros n Hn. apply elem_of_ids_of. by exists n.
  - destruct H as (S & HS & Hne & Hst). exists S. split_and!; [done|done|]. intros n Hn Hi.
    destruct (Hst n Hn Hi) as (d & Hd & Hdn). exists d. split; [done|].
    destruct (decide (d ∈ S)) as [|Hds]; [done|]. specialize (Hk n d Hn Hd). set_solver.
Qed.

(** * Executions *)

Lemma validate_ok nodes mx :
  validate_dag_nodes nodes mx = Ok () →
  NoDup (map node_id nodes) ∧ deps_known nodes ∧ nodes ≠ [] ∧ (length nodes ≤ mx)%nat ∧
  ∃ rounds, topological_rounds nodes = Ok rounds ∧ concat rounds ≡ₚ nodes ∧ ordered ∅ rounds.
Proof.
  destruct nodes as [|n nodes]; [done|]. unfold validate_dag_nodes.
  destruct (Nat.ltb_spec mx (length (n :: nodes))) as [|Hl]; [done|].
  destruct (duplicate_id ∅ (n :: nodes)) eqn:Hd; [done|]. apply duplicate_id_none in Hd as [Hd _].
  destruct (check_deps _ _) as [[]|] eqn:Hc; [|done]. cbn [mbind res_bind]. pose proof (proj1 (check_deps_ok _ _) Hc) as Hk.
  pose proof (topological_rounds_outcome (n :: nodes) Hd Hk) as Ht.
  destruct (topological_rounds _) as [rounds|[]]; try done. intros _.
  refine (conj Hd (conj Hk (conj _ (conj Hl _)))); [done|]. by exists rounds.
Qed.

Lemma dict_lookup_app {V} k (d e : dict V) :
  (d ++ e : dict V) !! k = match d !! k with Some v => Some v | None => e !! k end.
Proof. dict_ops. induction d as [|[j v] d IH]; cbn; [done|]. destruct (k =s? j); [done|exact IH]. Qed.

(** [row k] of an earlier state is still there in a later one. *)
Definition kept (c d : dict jobject) : Prop := ∀ k r, c !! k = Some r → d !! k = Some r.

Lemma kept_trans c d e : kept c d → kept d e → kept c e.
Proof. unfold kept. auto. Qed.

Lemma kept_app c d : kept c (c ++ d).
Proof. intros k r H. rewrite dict_lookup_app. by rewrite H. Qed.

Section runs.
Context (json_loads : string → json + string).
Context (call_node : DagNode → jobject → json + string).
Context (elapsed_ms : DagNode → Z).

Let run := run_node json_loads call_node elapsed_ms.
Let round_of := run_round json_loads call_node elapsed_ms.
Let rounds_of := run_rounds json_loads call_node elapsed_ms.

(** [n] ran with the results [seen], which had a good row for each dependency. *)
Definition ran_after_deps (completed : dict jobject) (n : DagNode) : Prop :=
  ∃ seen, completed !! node_id n = Some (run seen n) ∧ kept seen completed ∧
          ∀ d, d ∈ deps n → ∃ r, seen !! d = Some r ∧ row_ok r = true.

Lemma ran_kept c d n : kept c d → ran_after_deps c n → ran_after_deps d n.
Proof. intros Hk (seen & Hr & Hs & Hd). exists seen. eauto using kept_trans. Qed.

Lemma fold_rows (row : DagNode → jobject) acc ns :
  NoDup (keys acc ++ map node_id ns) →
  foldl (λ d n, <[node_id n := row n]> d) acc ns = acc ++ map (λ n, (node_id n, row n)) ns.
Proof. apply (dict_build node_id row). Qed.

Lemma run_round_app c round :
  NoDup (keys c ++ map node_id round) →
  round_of c round = c ++ map (λ n, (node_id n, run c n)) round.
Proof. apply fold_rows. Qed.

Lemma round_row_lookup (row : DagNode → jobject) ns n :
  NoDup (map node_id ns) → n ∈ ns →
  (map (λ n, (node_id n, row n)) ns : dict jobject) !! node_id n = Some (row n).
Proof.
  intros Hnd Hn. apply dict_elem_lookup.
  - unfold dict_wf, keys. by rewrite map_map.
  - by apply (list_elem_of_fmap_2 (λ n, (node_id n, row n))).
Qed.

(** What the rounds add to the rows [c]: a prefix of the rounds ran, all of it
with good rows unless the run failed. *)
Definition progress (c : dict jobject) (rounds : list (list DagNode)) (d : dict jobject) (failed : bool) : Prop :=
  ∃ ran rest, rounds = ran ++ rest ∧ keys d = keys c ++ map node_id (concat ran) ∧ kept c d ∧
    (∀ n, n ∈ concat ran → ran_after_deps d n) ∧
    (failed = false → rest = [] ∧ ∀ k r, d !! k = Some r → row_ok r = true) ∧
    (failed = true → ∃ k r, d !! k = Some r ∧ row_ok r = false).

Lemma run_rounds_progress c rounds :
  NoDup (keys c ++ map node_id (concat rounds)) → ordered (list_to_set (keys c)) rounds →
  (∀ k r, c !! k = Some r → row_ok r = true) →
  let '(d, failed) := rounds_of c rounds in progress c rounds d failed.
Proof.
  revert c. induction rounds as [|round rounds IH]; intros c Hnd Ho Hok.
  { exists [], []. cbn. rewrite app_nil_r. split_and!; try done.
    - by intros k r.
    - intros n Hn. by apply not_elem_of_nil in Hn. }
  destruct Ho as (Hdeps & _ & Ho). cbn [concat] in Hnd. rewrite map_app, app_assoc in Hnd.
  assert (NoDup (keys c ++ map node_id round)) as Hnd1 by (by apply NoDup_app in Hnd as [? _]).
  assert (NoDup (map node_id round)) as Hndr by (by apply NoDup_app in Hnd1 as (_ & _ & ?)).
  cbn [rounds_of run_rounds]. unfold rounds_of. cbn [run_rounds].
  change (run_round json_loads call_node elapsed_ms) with round_of.
  rewrite run_round_app by done. set (new := map _ round).
  assert (keys (c ++ new) = keys c ++ map node_id round) as Hkeys.
  { unfold keys, new. rewrite map_app, map_map. done. }
  assert (∀ n, n ∈ round → (c ++ new : dict jobject) !! node_id n = Some (run c n)) as Hrow.
  { intros n Hn. rewrite dict_lookup_app. rewrite dict_lookup_none.
    - by apply round_row_lookup.
    - apply NoDup_app in Hnd1 as (_ & H & _). intros Hk. apply (H _ Hk). by apply list_elem_of_fmap_2. }
  assert (∀ n, n ∈ round → ran_after_deps (c ++ new) n) as Hran.
  { intros n Hn. exists c. split_and!; [by apply Hrow|apply kept_app|]. intros d Hd.
    assert (d ∈ keys c) as [r Hr]%dict_lookup_keys.
    { apply (elem_of_list_to_set (C := gset string)). apply (Hdeps n Hn). by apply elem_of_list_to_set. }
    exists r. eauto. }
  destruct (forallb _ round) eqn:Hf.
  - assert (∀ k r, (c ++ new : dict jobject) !! k = Some r → row_ok r = true) as Hok'.
    { intros k r. rewrite dict_lookup_app. destruct (c !! k) as [r'|] eqn:Hc; [intros [= <-]; eauto|].
      intros (n & [= -> ->] & Hn)%dict_lookup_elem%list_elem_of_fmap.
      rewrite forallb_forall in Hf. apply Hf. by apply list_elem_of_In. }
    specialize (IH (c ++ new)). rewrite Hkeys in IH. specialize (IH Hnd).
    assert (list_to_set (keys c ++ map node_id round) = list_to_set (keys c) ∪ ids_of round) as Hset.
    { apply leibniz_equiv. by rewrite list_to_set_app. }
    rewrite Hset in IH. specialize (IH Ho Hok'). unfold rounds_of in IH.
    destruct (run_rounds json_loads call_node elapsed_ms (c ++ new) rounds) as [d failed].
    destruct IH as (ran & rest & -> & Hk & Hkept & Hall & Hgood & Hbad).
    exists (round :: ran), rest. split_and!; try done.
    + rewrite Hk, Hkeys. cbn [concat]. by rewrite map_app, app_assoc.
    + eapply kept_trans; [apply kept_app|done].
    + intros n [Hn|Hn]%elem_of_app; [|by apply Hall]. eapply ran_kept; [done|by apply Hran].
  - exists [round], rounds. cbn [concat]. rewrite app_nil_r. split_and!; try done.
    + apply kept_app.
    + intros _. apply not_true_iff_false in Hf. destruct (decide (Exists (λ n, row_ok (run c n) = false) round)) as [He|He].
      * apply Exists_exists in He as (n & Hn & Hb). eauto.
      * destruct Hf. apply forallb_forall. intros n Hn%list_elem_of_In. destruct (row_ok _) eqn:E; [done|].
        destruct He. apply Exists_exists. eauto.
Qed.
End runs.

(** * The report *)

Lemma skipped_rows_eq completed nodes :
  NoDup (map node_id nodes) →
  skipped_rows completed nodes
  = map (λ n, (node_id n, skipped_row n)) (base.filter (λ n, has_key (node_id n) completed = false) nodes).
Proof.
  intros Hnd. unfold skipped_rows. rewrite <-(app_nil_l (map _ _)).
  assert (NoDup (keys ([] : dict jobject) ++ map node_id nodes)) as Hnd' by exact Hnd. clear Hnd.
  revert Hnd'. generalize ([] : dict jobject) as acc. induction nodes as [|n ns IH]; intros acc; cbn [map foldl].
  { intros _. cbn. by rewrite app_nil_r. }
  intros Hnd. cbv beta. rewrite filter_cons. destruct (has_key (node_id n) completed) eqn:Hk.
  - rewrite decide_False by done. apply IH. eapply sublist_NoDup; [exact Hnd|].
    apply sublist_app; [done|]. cbn. by apply sublist_cons.
  - rewrite decide_True by done. cbn [map]. rewrite cons_middle, app_assoc.
    assert (acc !! node_id n = None) as Hn.
    { apply dict_lookup_none. apply NoDup_app in Hnd as (_ & H & _). intros Hi.
      apply (H _ Hi), elem_of_cons. by left. }
    pose proof (dict_set_absent _ (skipped_row n) _ Hn) as Hi. change (dict (dict json)) with (list (string * dict json)) in Hi.
    rewrite Hi. apply IH. unfold keys. rewrite map_app, <-app_assoc. exact Hnd.
Qed.

Lemma NoDup_ids_filter (P : DagNode → Prop) `{HP : ∀ n, Decision (P n)} nodes :
  NoDup (map node_id nodes) → NoDup (map node_id (base.filter P nodes)).
Proof.
  induction nodes as [|n ns IH]; [done|]. cbn [map]. rewrite NoDup_cons. intros [Hn Hnd].
  rewrite filter_cons. destruct (decide (P n)); [|by apply IH]. cbn [map]. apply NoDup_cons.
  split; [|by apply IH]. intros (m & Heq & [_ Hm]%list_elem_of_filter)%list_elem_of_fmap.
  apply Hn. rewrite Heq. by apply list_elem_of_fmap_2.
Qed.

Lemma keys_rest (ks : list string) (nodes : list DagNode) :
  NoDup ks → NoDup (map node_id nodes) → (∀ k, k ∈ ks → k ∈ map node_id nodes) →
  ks ++ map node_id (base.filter (λ n, node_id n ∉ ks) nodes) ≡ₚ map node_id nodes.
Proof.
  intros Hks Hnd Hsub. apply NoDup_Permutation.
  - apply NoDup_app. split_and!; [done| |].
    + intros k Hk (n & -> & [Hn _]%list_elem_of_filter)%list_elem_of_fmap. done.
    + by apply NoDup_ids_filter.
  - done.
  - intros k. rewrite elem_of_app. split.
    + intros [Hk|(n & -> & [_ Hn]%list_elem_of_filter)%list_elem_of_fmap]; [by apply Hsub|].
      by apply list_elem_of_fmap_2.
    + intros (n & -> & Hn)%list_elem_of_fmap. destruct (decide (node_id n ∈ ks)) as [|Hk]; [by left|right].
      apply list_elem_of_fmap_2. by apply list_elem_of_filter.
Qed.

(** The rows of a dict whose rows carry their key as [node_id]. *)
Lemma row_ids (d : dict jobject) :
  (∀ k r, (k, r) ∈ d → jget r "node_id" = JStr k) →
  map (λ r, jget r "node_id") (values d) = map JStr (keys d).
Proof.
  unfold values, keys. rewrite !map_map. induction d as [|[k r] d IH]; intros H; cbn; [done|].
  rewrite (H k r) by (apply elem_of_cons; by left). f_equal. apply IH. intros j q Hj.
  apply H, elem_of_cons. by right.
Qed.
