(* ===== verification/DagProperties.v ===== *)
(** What planning and running a skill DAG guarantee. *)
From S2P Require Import Prelude PyStr PyDict PyJson Dag DagFacts.
Open Scope Z_scope.

Lemma validate_checks nodes mx :
  nodes ≠ [] → (length nodes ≤ mx)%nat → NoDup (map node_id nodes) → deps_known nodes →
  validate_dag_nodes nodes mx = (topological_rounds nodes ≫= λ _, Ok ()).
Proof.
  intros Hne Hl Hnd Hk. destruct nodes as [|n nodes]; [done|]. unfold validate_dag_nodes.
  destruct (Nat.ltb_spec mx (length (n :: nodes))) as [Hlt|_]; [lia|].
  rewrite (proj2 (duplicate_id_none ∅ (n :: nodes))) by (split; [done|set_solver]).
  by rewrite (proj2 (check_deps_ok (ids_of (n :: nodes)) (n :: nodes)) Hk).
Qed.

Lemma schedule_acyclic rounds nodes S :
  concat rounds ≡ₚ nodes → ordered ∅ rounds → ¬ cyclic nodes S.
Proof.
  intros Hp Ho (Hne & Hsub & Hc). apply set_choose_L in Hne as [i Hi].
  assert (i ∈ ids_of nodes) as (n & Hn & <-)%elem_of_ids_of by (by apply Hsub).
  assert (n ∈ concat rounds) as Hr by (by rewrite Hp). revert Hi.
  eapply (ordered_acyclic rounds nodes ∅ S); [done| |set_solver|done|done]. intros m Hm. by rewrite <-Hp.
Qed.

Lemma parse_dag_valid raw mx g nodes :
  parse_dag raw mx = Ok (g, nodes) → validate_dag_nodes nodes mx = Ok ().
Proof.
  unfold parse_dag. destruct (match raw with JList _ => _ | _ => _ end) as [[g' j]|]; [|done].
  cbn [mbind res_bind fst snd]. destruct j as [| | | | |[|x l]|]; try done. destruct (_ <? _)%nat; [done|].
  destruct (parse_nodes _ _ _) as [ns|]; [|done]. cbn [mbind res_bind].
  destruct (validate_dag_nodes ns mx) as [[]|] eqn:Hv; [|done]. cbn. by intros [= _ ->].
Qed.

(** C10: a list of nodes is accepted exactly when it is not empty, has at most
[max_nodes] nodes, all with different ids, depends on known nodes only, and no
set of its nodes has every member depend on a member: no dependency cycle. *)
Theorem validate_accepts_iff (nodes : list DagNode) (max_nodes : nat) :
  validate_dag_nodes nodes max_nodes = Ok () ↔
  nodes ≠ [] ∧ (length nodes ≤ max_nodes)%nat ∧ NoDup (map node_id nodes) ∧ deps_known nodes ∧
  ¬ ∃ S, cyclic nodes S.
Proof.
  split.
  - intros (Hnd & Hk & Hne & Hl & rounds & _ & Hp & Ho)%validate_ok. split_and!; try done.
    intros [S HS]. by apply (schedule_acyclic rounds nodes S).
  - intros (Hne & Hl & Hnd & Hk & Hc). rewrite validate_checks by done.
    pose proof (topological_rounds_outcome nodes Hnd Hk) as Ht.
    by destruct (topological_rounds nodes) as [rounds|[]].
Qed.

(** The plan of a parsed DAG lists its nodes round by round: every node is
in one round, no round is empty, and the dependencies of a round are in the
rounds before it. *)
Theorem plan_is_schedule goal raw max_nodes max_parallel g nodes
    (Hparse : parse_dag raw max_nodes = Ok (g, nodes)) :
  ∃ rounds,
    jget (plan_dag goal raw max_nodes max_parallel) "ok" = JBool true ∧
    jget (plan_dag goal raw max_nodes max_parallel) "rounds" = JList (map (λ r, jstrs (map node_id r)) rounds) ∧
    concat rounds ≡ₚ nodes ∧ ordered ∅ rounds.
Proof.
  apply parse_dag_valid in Hparse as Hv. apply validate_ok in Hv as (_ & _ & _ & _ & rounds & Hr & Hp & Ho).
  exists rounds. unfold plan_dag. rewrite Hparse. cbn [mbind res_bind snd]. rewrite Hr. done.
Qed.

Definition node_a : DagNode := mkNode "a" "fetch" "get" [] [] [].
Definition node_b : DagNode := mkNode "b" "sum" "add" [("x", JStr "{{ nodes.a.result.n }}")] ["a"] [].

Definition two_nodes : json := JList [
  JObj [("id", JStr "b"); ("agent", JStr "sum"); ("skill", JStr "add");
        ("args", JObj [("x", JStr "{{ nodes.a.result.n }}")]); ("deps", JList [JStr "a"])];
  JObj [("id", JStr "a"); ("agent", JStr "fetch"); ("skill", JStr "get")]].

Lemma plan_is_schedule_witness :
  ∃ rounds, jget (plan_dag "" two_nodes 8 3) "ok" = JBool true ∧
    jget (plan_dag "" two_nodes 8 3) "rounds" = JList (map (λ r, jstrs (map node_id r)) rounds) ∧
    concat rounds ≡ₚ [node_b; node_a] ∧ ordered ∅ rounds.
Proof. apply (plan_is_schedule "" two_nodes 8 3 "" [node_b; node_a]). vm_compute. reflexivity. Defined.

Section run_claims.
Context (json_loads : string → json + string).
Context (call_node : DagNode → jobject → json + string).
Context (elapsed_ms : DagNode → Z).

Lemma run_validated nodes mx :
  validate_dag_nodes nodes mx = Ok () →
  ∃ rounds, topological_rounds nodes = Ok rounds ∧ concat rounds ≡ₚ nodes ∧ NoDup (map node_id nodes) ∧
    let '(d, failed) := run_rounds json_loads call_node elapsed_ms [] rounds in
    progress json_loads call_node elapsed_ms [] rounds d failed.
Proof.
  intros (Hnd & _ & _ & _ & rounds & Hr & Hp & Ho)%validate_ok. exists rounds. split_and!; try done.
  apply run_rounds_progress; [|done|done]. cbn. by rewrite (Permutation_map node_id Hp).
Qed.

Lemma completed_row_ids d ns :
  keys d = map node_id ns → NoDup (map node_id ns) →
  (∀ n, n ∈ ns → ran_after_deps json_loads call_node elapsed_ms d n) →
  map (λ r, jget r "node_id") (values d) = map JStr (keys d).
Proof.
  intros Hk Hnd Hran. apply row_ids. intros k r Hkr.
  assert (d !! k = Some r) as Hl by (apply dict_elem_lookup; [unfold dict_wf; by rewrite Hk|done]).
  assert (k ∈ keys d) as Hi by (apply dict_lookup_keys; eauto).
  rewrite Hk in Hi. apply list_elem_of_fmap in Hi as (n & -> & Hn).
  destruct (Hran n Hn) as (seen & Hrow & _). rewrite Hl in Hrow. injection Hrow as ->.
  unfold run_node. by destruct (call_outcome _ _ _ _) as [[[? ?] ?] ?].
Qed.

(** C27: a node is called only after its dependencies: the row recorded for it
is the outcome of its call against earlier rows, among which each dependency
has one that is ok. *)
Theorem node_runs_after_dependencies nodes max_nodes n rounds completed failed row
    (Hvalid : validate_dag_nodes nodes max_nodes = Ok ())
    (Hrounds : topological_rounds nodes = Ok rounds)
    (Hrun : run_rounds json_loads call_node elapsed_ms [] rounds = (completed, failed))
    (Hn : n ∈ nodes) (Hrow : completed !! node_id n = Some row) :
  ∃ seen, row = run_node json_loads call_node elapsed_ms seen n ∧ kept seen completed ∧
          ∀ d, d ∈ deps n → ∃ r, seen !! d = Some r ∧ row_ok r = true.
Proof.
  destruct (run_validated nodes max_nodes Hvalid) as (rounds' & Hr & Hp & Hnd & Hprog).
  rewrite Hrounds in Hr. injection Hr as <-. rewrite Hrun in Hprog.
  destruct Hprog as (ran & rest & -> & Hk & _ & Hran & _).
  assert (node_id n ∈ keys completed) as Hi by (apply dict_lookup_keys; eauto).
  rewrite Hk in Hi. apply list_elem_of_fmap in Hi as (m & Heq & Hm).
  assert (m ∈ nodes) as Hmn by (rewrite <-Hp, concat_app, elem_of_app; by left).
  rewrite (ids_distinct nodes Hnd n m Hn Hmn Heq) in *.
  destruct (Hran m Hm) as (seen & Hs & Hks & Hd). exists seen. rewrite Hrow in Hs. by injection Hs.
Qed.

Lemma progress_ids nodes rounds d failed :
  concat rounds ≡ₚ nodes → NoDup (map node_id nodes) →
  progress json_loads call_node elapsed_ms [] rounds d failed →
  map (λ r, jget r "node_id") (values d) = map JStr (keys d) ∧ NoDup (keys d) ∧
  (∀ k, k ∈ keys d → k ∈ map node_id nodes) ∧ (failed = false → keys d ≡ₚ map node_id nodes).
Proof.
  intros Hp Hnd (ran & rest & -> & Hk & _ & Hran & Hgood & _). cbn [keys map app] in Hk.
  rewrite concat_app in Hp. rewrite <-(Permutation_map node_id Hp), map_app in Hnd.
  apply NoDup_app in Hnd as (Hndr & _ & _). split_and!.
  - by apply (completed_row_ids d (concat ran)).
  - by rewrite Hk.
  - intros k. rewrite Hk, <-(Permutation_map node_id Hp), map_app, elem_of_app. by left.
  - intros Hf. destruct (Hgood Hf) as [-> _]. cbn in Hp. rewrite app_nil_r in Hp.
    by rewrite Hk, (Permutation_map node_id Hp).
Qed.

Lemma skipped_ids completed nodes :
  NoDup (map node_id nodes) → NoDup (keys completed) → (∀ k, k ∈ keys completed → k ∈ map node_id nodes) →
  map JStr (keys completed) ++ map (λ r, jget r "node_id") (values (skipped_rows completed nodes))
  ≡ₚ map (λ n, JStr (node_id n)) nodes.
Proof.
  intros Hnd Hndk Hsub. rewrite skipped_rows_eq by done. unfold values. rewrite !map_map.
  change (map (λ n, jget (node_id n, skipped_row n).2 "node_id") ?l) with (map (λ n, JStr (node_id n)) l).
  rewrite <-(map_map node_id JStr), <-(map_map node_id JStr nodes), <-map_app. apply Permutation_map.
  rewrite <-(keys_rest (keys completed) nodes) by done. apply Permutation_app_head, Permutation_refl', f_equal.
  apply filter_ext_elem. intros n _. rewrite <-dict_lookup_keys, <-has_key_true.
  by destruct (has_key _ _).
Qed.

(** The report of a run has exactly one row for each node, the skipped
ones included, and says ok exactly when every row is ok. *)
Theorem report_covers_nodes nodes max_nodes run_id
    (Hvalid : validate_dag_nodes nodes max_nodes = Ok ()) :
  ∃ rows, jget (execute_dag_nodes json_loads call_node elapsed_ms nodes max_nodes run_id) "nodes"
          = JList (map JObj rows) ∧
    map (λ r, jget r "node_id") rows ≡ₚ map (λ n, JStr (node_id n)) nodes ∧
    (jget (execute_dag_nodes json_loads call_node elapsed_ms nodes max_nodes run_id) "ok" = JBool true ↔
     ∀ r, r ∈ rows → row_ok r = true).
Proof.
  destruct (run_validated nodes max_nodes Hvalid) as (rounds & Hr & Hp & Hnd & Hprog).
  unfold execute_dag_nodes. rewrite Hvalid. cbn [mbind res_bind]. rewrite Hr.
  destruct (run_rounds _ _ _ [] rounds) as [completed failed].
  destruct (progress_ids nodes rounds completed failed Hp Hnd Hprog) as (Hids & Hkeys & Hsub & Hall).
  destruct Hprog as (ran & rest & _ & _ & _ & _ & Hgood & Hbad).
  eexists. split; [reflexivity|]. rewrite map_app, Hids. destruct failed; cbn [negb andb].
  - split; [by apply skipped_ids|]. split; [done|]. intros H. destruct (Hbad eq_refl) as (k & r & Hr' & Hf).
    rewrite H in Hf; [done|]. apply elem_of_app. left. by apply elem_of_values with k.
  - destruct (Hgood eq_refl) as [_ Hok]. specialize (Hall eq_refl). split.
    + cbn. rewrite app_nil_r, <-(map_map node_id JStr). by apply Permutation_map.
    + split; [|intros _; cbn; f_equal; apply Nat.eqb_eq].
      * intros _ r. cbn. rewrite app_nil_r. intros (k & Hl)%(values_lookup _ _ Hkeys). by apply (Hok k).
      * apply Permutation_length in Hall. unfold keys in Hall. by rewrite !length_map in Hall.
Qed.
End run_claims.

(** A decoder that takes every text as a JSON string, and a clock that stands still. *)
Definition inl_decoder (s : string) : json + string := inl (JStr s).
Definition no_time (n : DagNode) : Z := 0.

Definition fetch_call (n : DagNode) (a : jobject) : json + string :=
  if node_id n =s? "a" then inl (JObj [("ok", JBool true); ("result", JObj [("n", JInt 7)])])
  else inr "ValueError: no such tool".

Lemma node_runs_after_dependencies_witness :
  ∃ seen, run_node inl_decoder fetch_call no_time [("a", run_node inl_decoder fetch_call no_time [] node_a)] node_b
          = run_node inl_decoder fetch_call no_time seen node_b ∧
          kept seen (run_rounds inl_decoder fetch_call no_time [] [[node_a]; [node_b]]).1 ∧
          ∀ d, d ∈ deps node_b → ∃ r, seen !! d = Some r ∧ row_ok r = true.
Proof.
  apply (node_runs_after_dependencies inl_decoder fetch_call no_time [node_b; node_a] 8 node_b
           [[node_a]; [node_b]] _ true).
  - vm_compute. reflexivity.
  - vm_compute. reflexivity.
  - vm_compute. reflexivity.
  - apply elem_of_cons. by left.
  - vm_compute. reflexivity.
Defined.

Lemma report_covers_nodes_witness :
  ∃ rows, jget (execute_dag_nodes inl_decoder fetch_call no_time [node_b; node_a] 8 "dag-1") "nodes"
          = JList (map JObj rows) ∧
    map (λ r, jget r "node_id") rows ≡ₚ map (λ n, JStr (node_id n)) [node_b; node_a] ∧
    (jget (execute_dag_nodes inl_decoder fetch_call no_time [node_b; node_a] 8 "dag-1") "ok" = JBool true ↔
     ∀ r, r ∈ rows → row_ok r = true).
Proof. apply report_covers_nodes. vm_compute. reflexivity. Defined.
